(* ===== verification/_CoqProject ===== *)
-Q . S2P
Prelude.v
Hoare.v
Threads.v
StdMap.v
CString.v
Double.v
Json.v
JsonTotal.v
JsonRoundtrip.v
Base64.v
Types.v
Logger.v
Backend.v
FakeBackend.v
Core.v
CoreProps.v
Live.v
CoreMethods.v
ServerState.v
ServerStateProps.v
Server.v
ServerProps.v
ServerGates.v
ServerPins.v
Framing.v
Crypto.v
Tcp.v
TcpProps.v
Update.v
ViewModel.v
GuiServer.v
Main.v
Daemon.v
DaemonProps.v
DaemonLogic.v
DaemonSafe.v
DaemonInv.v
DaemonRuns.v
Cli.v
CliProps.v
CliServer.v
Win32Api.v
Win32.v
Win32Sample.v
Win32Live.v
Win32Safe.v
Win32Props.v
Win32Codecs.v
Win32Effects.v
Win32Types.v
Extension.v
ExtensionProps.v
GuiWindow.v
GuiWindowProps.v
GuiDaemon.v
Tray.v
TrayProps.v
Survey.v
SurveyProps.v
CliLocal.v
Sending.v
CryptoHandles.v
