(* ===== verification/Prelude.v ===== *)
(** * WinInspect

    WinInspect lets clients look at and act on the windows of a Windows desktop
    (or of Wine).  A daemon, [wininspectd], answers JSON requests over a named
    pipe and over TCP; clients are a command line and a GUI; two tools look at
    the UI Automation of Wine.  This library
    models the C++ code that decides what the daemon does, and proves the
    properties that make it correct, or that show where it is not.

    ** The program's parts and the files that model them

    A request is a text.  A transport ([pipe_win32.cpp], [tcp_server.cpp]) reads
    it; a server ([server.cpp], [tcp_server.cpp]) checks who sends it, finds the
    snapshot and the session it names in the shared [ServerState], and passes it
    to the engine ([core.cpp]), which calls a backend ([IBackend]:
    [Win32Backend] or [FakeBackend]) and logs ([logger.cpp]); the answer goes
    back as text ([tinyjson.hpp]).

    - [Prelude]: results of C++ code (a value, an exception, undefined
      behaviour, missing fuel), the state monad [M] in which effects made before
      an exception stay, this header.  [Hoare]: triples for [M], partial and
      total ([lives]).
    - [StdMap]: [std::map] as a list with strictly increasing keys.  [CString]:
      characters and the string functions that the code uses ([find], [getline],
      [stoi], [to_string], hexadecimal input).  [Double]: [double] as IEEE
      binary64 with the conversions to and from integers; one that does not fit
      is undefined behaviour.
    - [Json] ([tinyjson.hpp]): values, parser, serializer; [JsonTotal]: the
      parser is total; [JsonRoundtrip]: parsing inverts serializing, and
      serializing does not depend on the order of assignments.
    - [Base64] ([base64.hpp]), [Types] ([types.hpp]), [Logger] ([logger.hpp],
      [logger.cpp]).
    - [Backend] ([backend.hpp]): [IBackend] as a class, with the laws that clients
      rely on as classes ([InspectionLaws], [DesiredStateLaws]; [LiveBackend] in
      [Live]; [SnapshotLaws] in [GuiServer]), and the world of a request: the
      backend, the logger, and the clock, whose readings are inputs.
      [FakeBackend] ([fake_backend.cpp]) implements the interface and the laws.
    - [Core] ([core.cpp]): requests and responses, the 51 handlers of the dispatch
      table, [handle].  [CoreProps], [Live], [CoreMethods]: what [handle] answers,
      that it always does, and properties of single methods.
    - [ServerState] ([server_state.hpp]): snapshots with their
      least-recently-used order and pins, persistent sessions, and each change
      that the servers make under the lock; [ServerStateProps]: its invariant,
      eviction, ids, expiry.
    - [Server] ([handle_client] of [server.cpp]): a named-pipe connection, as
      phases of a request; [ServerProps]: connections are served to the end and
      keep the store consistent; [ServerGates]: authentication, read-only mode,
      unknown snapshots; [ServerPins]: pins taken and given back.
    - [Framing] ([pipe_win32.cpp], the socket helpers): length-prefixed messages
      over a stream cut at any place.  [Crypto] ([crypto.cpp]): the code around
      Windows CNG, whose primitives are a parameter ([BCrypt]) with the law that
      GCM decrypts what it encrypts ([GcmLaws]).  [Tcp] ([tcp_server.cpp]):
      handshake, requests and transport of a TCP connection; [TcpProps].
    - [Update] ([update.cpp]): versions and the answer of the release server.
    - [ViewModel] ([viewmodel.cpp]): the GUI's view model over a transport, and
      what it needs of the other end ([WindowService]); [GuiServer]: the
      named-pipe server provides it.
    - [Main] ([main] and the discovery responder of [server.cpp]): command line,
      configuration, key file.
    - [Cli] ([cli.cpp]): the command-line client: options, commands, the
      conversation over the pipe and over TCP; [CliProps]: what it sends and
      prints; [CliServer]: the client against the daemon.
    - [Threads]: programs of atomic steps.  [Daemon] ([server.cpp], [main],
      [run_server], the discovery and cleanup threads; [tcp_server.cpp],
      [TcpServer::start]): the connections as threads over one server state, the
      loops that accept them, the start, and the steps of the whole daemon;
      [DaemonProps]: a thread alone is the sequential connection;
      [DaemonLogic], [DaemonSafe]: a logic for threads that own a part of the
      invariant, and the connections in it; [DaemonInv], [DaemonRuns]: all
      reachable daemons, and how their runs end.
    - [Win32Api]: the Windows API as the type [Call] of calls with their results,
      the operating system as a parameter (class [Windows]: any answer, any
      effect), the members of [Win32Backend] with the resources it holds open,
      and the owners of handles ([util_win32.hpp]).  [Win32]
      ([win32_backend.cpp], the WinHTTP part of [update.cpp]): every method of
      the backend, and the instance of [IBackend].  [Win32Sample]: a small system
      for examples.
    - [Win32Live]: rules and lemmas: each operation gives back what it opened,
      and ends on a system whose loops do ([LiveWindows]).  [Win32Safe]: all
      operations together ([Operation]), the instance of [LiveBackend], the
      server over the Win32 backend.  [Win32Types]: what operations may return.
      [Win32Props]: events, styles, clicks, pixels.  [Win32Codecs]: registry
      values, environment, bitmaps.  [Win32Effects]: desired-state actions
      (the instance of [DesiredStateLaws]), services, downloads.

    The programs around the daemon's core call the operating system directly.
    Each has its own type of calls, and the system is again a parameter (class
    [System] below: any answer, any effect), with laws only where a theorem
    needs them.

    - [GuiWindow] ([gui_main.cpp]): the pipe transport, the window with its
      controls and handlers, the delivery of messages, [WinMain];
      [GuiWindowProps]: the tree and the selection; [GuiDaemon]: a desktop on
      whose pipe the modelled daemon answers.
    - [Tray] ([tray.cpp], [TcpServer::stop], the end of [main]): the icon, its
      menu, and how the process ends; [TrayProps].
    - [Survey] ([survey_uia.cpp]): the survey of the UI Automation interfaces and
      its report; [SurveyProps].  [Extension] ([wine-uia-extension]): a COM
      server: reference counts, class factory, registration; [ExtensionProps].
    - [CliLocal] ([cli.cpp]): what the command-line client does without a server
      (discovery, usage, key path, closing).  [Sending] ([pipe_win32.cpp], the
      socket helpers): writes that may be short or fail.  [CryptoHandles]
      ([crypto.cpp]): the CNG handles of a session.

    Definitions keep the names of the source.  A method of a C++ class is a
    function on the record of its fields; [try]/[catch] is [try_catch]; a
    [goto] to the end of a block is the end of a branch; a loop is a function
    with fuel or a recursion on the data.

    ** What the theorems show

    - Texts: the parser is total and defined on every text, and texts are read
      back as they were written (JSON, requests, Base64, frames, encrypted
      messages, version tags).
    - The engine always answers: no exception leaves it, nothing in it runs on,
      and the only escape is an undefined conversion of an out-of-range number.
      Inspection leaves the backend alone, desired-state methods are idempotent,
      [env.get] does not depend on secrets.
    - Connections, pipe and TCP, are served to their end whatever the client
      sends, on every backend whose operations return or throw, and keep the
      invariant of the store: the order lists exactly the stored snapshots, ids
      are fresh, pins are balanced.
    - The same holds of the whole daemon, however its threads interleave: the
      store is consistent at every moment, no thread is stuck or left by an
      exception, and under every scheduler all connections end, with none counted
      and nothing pinned.  The limit on connections is not enforced, and without
      a bound on the connections at work a capture can hang.
    - Eviction removes exactly the oldest unpinned snapshots when it ends, and it
      never ends when more snapshots are pinned than may be kept.
    - Gates: who is let in over TCP and over the pipe, when a connection is
      encrypted, what read-only mode refuses and what it does not, what an
      unreadable key file does.
    - The GUI's view model and the server together show exactly the backend's
      windows.  A command of the command-line client reaches the daemon as the
      request it stands for and its answer is printed; over TCP it never gets
      that far.
    - The Win32 backend closes what it opens, whatever the system answers and
      also when it throws; its loops end on a system whose windows, redirects and
      clock allow it, and with them every connection of the server; what it
      returns is well-formed.  Its events are exactly the difference of
      snapshots, its pixel search finds the first match, its captures are bitmap
      files, registry values and the environment are read as they are stored,
      desired-state actions settle.
    - The GUI's window with the daemon behind the pipe shows the daemon's windows
      and, for the selected one, its properties; without a daemon it does not
      start.  The tray holds nothing of the system when [main] goes on; its Exit
      ends the daemon, and leaves the icon behind.  The survey prints a JSON
      document that says what it found, and releases what it acquired.  The
      extension's counts are exactly the references that clients hold, and
      unregistering undoes registering.
    - A message is written whole or the writer reports a failure; discovery finds
      the daemon that answers; a session closes the CNG handles it opened, on
      every path.

    ** Bounds and fuel

    The parser gets one unit of fuel per character and one more; [JsonTotal]
    shows that this is enough.  [evict] gets one unit per stored snapshot:
    either it ends within that ([evict_lru]) or it never does
    ([evict_livelock]).  Reading gets one unit per byte asked for, since each
    turn takes one at least; the TCP loop one per byte of the stream and one
    more; the tree of the fake backend one more than it has windows; the command
    line one per argument; the environment block one per character; the wait
    for a service two turns per second of the timeout, while a sleep lasts as
    long as it says.  What bounds a tree of windows and the redirects of a
    download is up to the system: the fuel is a parameter ([Fuel]) and
    [LiveWindows] states what it must exceed.  Integers have the width of the source and wrap
    around where the source's unsigned types do (snapshot counter, nonce
    counter, lengths, Base64 accumulators); the counts of pins and connections,
    [int]s that count things in progress, are unbounded.

    ** What is not modelled

    The probe [check_uia.cpp], the stubs for builds without Windows, the tests,
    the portable client in Go and the scripts.  Of the Win32 backend,
    reference counts of COM objects and the lifetime of their strings are left
    out, and the loops of the code over an index or a cursor of the system
    (process entries, registry keys and values, pieces of a response) are one
    call that returns the list.  Of the windows, the messages that the system
    sends during creation are those that the code handles, and the modal loop
    of the popup menu is one call, whose choice arrives as a message.  The threads of the
    daemon take turns at the granularity of the lock, of a call of the backend
    and of a method of the engine: the calls that one method makes are not
    interleaved with those of another.  Whether the watchdog
    fires is an input ([Watchdog]); in the servers' connections writing to a
    peer succeeds ([Sending] has what happens when it does not); running out of
    memory or stack is not modelled.

    ** Plan

    Methods of the engine in steps of single backend calls; the inspection laws
    for the Win32 backend on a system whose queries change nothing; the
    references that the Win32 backend holds to COM objects; connections whose
    writes fail. *)

From stdpp Require Export base list strings gmap sorting numbers fin_maps.
From Stdlib Require Ascii.
From Stdlib Require Export ZArith Lia.
Export (notations) Ascii.
Delimit Scope char_scope with char.
String Notation Ascii.ascii Ascii.ascii_of_byte Ascii.byte_of_ascii : char_scope.

Abbreviation ascii := Ascii.ascii.
Bind Scope char_scope with Ascii.ascii.


(** * Results of C++ code *)

(** What running a piece of C++ produces: a value, a [std::exception] with its
    [what()] text, undefined behaviour (an out-of-range floating to integer
    conversion), or, for a definition with a fuel argument, not enough fuel. *)
Inductive result (A : Type) : Type :=
| Ok (a : A)
| Throw (what : string)
| Undef
| OutOfFuel.
Arguments Ok {A} a.
Arguments Throw {A} what.
Arguments Undef {A}.
Arguments OutOfFuel {A}.

#[export] Instance result_ret : MRet result := λ A a, Ok a.
#[export] Instance result_bind : MBind result := λ A B f m,
  match m with
  | Ok a => f a
  | Throw w => Throw w
  | Undef => Undef
  | OutOfFuel => OutOfFuel
  end.
#[export] Instance result_fmap : FMap result := λ A B f m,
  match m with
  | Ok a => Ok (f a)
  | Throw w => Throw w
  | Undef => Undef
  | OutOfFuel => OutOfFuel
  end.

Definition is_Ok {A} (r : result A) : bool :=
  match r with Ok _ => true | _ => false end.

(** A [Throw] where an optional is empty. *)
Definition or_throw {A} (what : string) (o : option A) : result A :=
  match o with Some a => Ok a | None => Throw what end.

(** * State-passing computations that can fail

    [M S A]: a computation on a state [S].  Effects made before an exception
    stay, as in C++. *)
Definition M (S A : Type) : Type := S → result A * S.

#[export] Instance M_ret {S} : MRet (M S) := λ A a s, (Ok a, s).
#[export] Instance M_bind {S} : MBind (M S) := λ A B f m s,
  match m s with
  | (Ok a, s') => f a s'
  | (Throw w, s') => (Throw w, s')
  | (Undef, s') => (Undef, s')
  | (OutOfFuel, s') => (OutOfFuel, s')
  end.

Section M_ops.
Context {S : Type}.

Definition throw {A} (what : string) : M S A := λ s, (Throw what, s).
Definition get_st : M S S := λ s, (Ok s, s).
Definition gets {A} (f : S → A) : M S A := λ s, (Ok (f s), s).
Definition put_st (s : S) : M S () := λ _, (Ok (), s).
Definition modify (f : S → S) : M S () := λ s, (Ok (), f s).
Definition lift_result {A} (r : result A) : M S A := λ s, (r, s).

(** [try { m } catch (const std::exception &e) { h(e.what()) }]. *)
Definition try_catch {A} (m : M S A) (h : string → M S A) : M S A := λ s,
  match m s with
  | (Throw w, s') => h w s'
  | r => r
  end.

(** A computation on a part of the state. *)
Definition zoom {T A} (get : S → T) (set : T → S → S) (m : M T A) : M S A := λ s,
  let '(r, t) := m (get s) in (r, set t s).
End M_ops.

Arguments throw {S A} what /.
Arguments gets {S A} f /.
Arguments modify {S} f /.
Arguments lift_result {S A} r /.

(** The operating system, or another program that is called, as the type [C] of
    calls with their results: an answer may depend on everything that happened
    before, and every call may change everything. *)
Class System (C : Type → Type) (OS : Type) := { answer {A} : C A → OS → A * OS }.

(** * Lists *)

(** Induction for functions that look at the next two elements and take one or
    both. *)
Lemma list_pair_ind {A} (P : list A → Prop) :
  P [] → (∀ a, P [a]) → (∀ a b l, P l → P (b :: l) → P (a :: b :: l)) → ∀ l, P l.
Proof.
  intros H0 H1 H2 l. enough (P l ∧ ∀ a, P (a :: l)) by tauto.
  induction l as [|b l [IH1 IH2]]; split; auto.
Qed.

(** How often a list has [x], and the list without its first [x]. *)
Section Copies.
Context {A : Type} `{EqDecision A}.
Implicit Types (x y : A) (l : list A).
Local Open Scope Z_scope.

Definition copies x l : Z := Z.of_nat (length (List.filter (λ y, bool_decide (y = x)) l)).

Fixpoint remove_one x l : list A :=
  match l with
  | [] => []
  | y :: l => if bool_decide (y = x) then l else y :: remove_one x l
  end.

Lemma copies_cons x y l : copies x (y :: l) = (if bool_decide (y = x) then 1 else 0) + copies x l.
Proof. unfold copies. cbn. case_bool_decide; cbn; lia. Qed.

Lemma copies_nonneg x l : 0 ≤ copies x l.
Proof. unfold copies. lia. Qed.

Lemma copies_absent x l : x ∉ l → copies x l = 0.
Proof.
  induction l as [|y l IH]; [done|]. intros [Hne Hni]%not_elem_of_cons.
  rewrite copies_cons, bool_decide_eq_false_2, IH by congruence. lia.
Qed.

Lemma copies_elem x l : x ∈ l ↔ 0 < copies x l.
Proof.
  induction l as [|y l IH]; [rewrite elem_of_nil; unfold copies; cbn; split; done || lia|].
  rewrite elem_of_cons, copies_cons, IH. pose proof (copies_nonneg x l). case_bool_decide; naive_solver lia.
Qed.

Lemma copies_length x l : copies x l ≤ Z.of_nat (length l).
Proof. induction l as [|y l IH]; [done|]. rewrite copies_cons. cbn [length]. case_bool_decide; lia. Qed.

#[export] Instance copies_proper x : Proper ((≡ₚ) ==> (=)) (copies x).
Proof. intros l l' Hl. induction Hl; rewrite ?copies_cons in *; lia. Qed.

Lemma remove_one_perm x l : x ∈ l → l ≡ₚ x :: remove_one x l.
Proof.
  induction l as [|y l IH]; [by intros ?%elem_of_nil|]. cbn. case_bool_decide as E; [by rewrite E|].
  intros [?|Hx]%elem_of_cons; [congruence|]. rewrite (IH Hx) at 1. apply Permutation_swap.
Qed.
End Copies.
