(* ===== verification/Hoare.v ===== *)
(** Pre- and postconditions for computations that may throw. *)

From S2P Require Import Prelude.

(** From a state with [P], a return has [Q] of the value and the new state, and
    an exception leaves a state with [E]; [U] and [F] are what follows from
    undefined behaviour and from missing fuel, that is, code that does not
    end. *)
Definition triple (U F : Prop) {S A} (P : S → Prop) (m : M S A) (Q : A → S → Prop) (E : S → Prop) : Prop :=
  ∀ s, P s → match m s with
             | (Ok a, s') => Q a s'
             | (Throw _, s') => E s'
             | (Undef, _) => U
             | (OutOfFuel, _) => F
             end.

(** Partial correctness. *)
Abbreviation hoare := (triple True True).

(** [m] ends and keeps [P]; it has undefined behaviour only if [U]. *)
Definition lives (U : Prop) {S A} (P : S → Prop) (m : M S A) : Prop := triple U False P m (λ _, P) P.

Section hoare.
Context {U F : Prop} {S : Type}.
Implicit Types (P E : S → Prop).
#[local] Abbreviation hoare := (triple U F).

Lemma hoare_ret {A} (a : A) P (Q : A → S → Prop) E : (∀ s, P s → Q a s) → hoare P (mret a) Q E.
Proof. intros HQ s Hs. by apply HQ. Qed.

Lemma hoare_bind {A C} (R : A → S → Prop) (m : M S A) (f : A → M S C) P Q E :
  hoare P m R E → (∀ a, hoare (R a) (f a) Q E) → hoare P (m ≫= f) Q E.
Proof.
  intros Hm Hf s Hs. specialize (Hm s Hs). unfold mbind, M_bind.
  destruct (m s) as [[a| | |] s']; try done. by apply Hf.
Qed.

Lemma hoare_weaken {A} (P P' : S → Prop) (m : M S A) (Q Q' : A → S → Prop) E E' :
  hoare P' m Q' E' → (∀ s, P s → P' s) → (∀ a s, Q' a s → Q a s) → (∀ s, E' s → E s) → hoare P m Q E.
Proof.
  intros Hm HP HQ HE s Hs. specialize (Hm s (HP s Hs)). destruct (m s) as [[a| | |] s']; auto.
Qed.

Lemma hoare_modify f P Q E : (∀ s, P s → Q () (f s)) → hoare P (modify f) Q E.
Proof. intros HQ s Hs. by apply HQ. Qed.

Lemma hoare_gets {A} (f : S → A) P Q E : (∀ s, P s → Q (f s) s) → hoare P (gets f) Q E.
Proof. intros HQ s Hs. by apply HQ. Qed.

Lemma hoare_get_st P Q E : (∀ s, P s → Q s s) → hoare P get_st Q E.
Proof. intros HQ s Hs. by apply HQ. Qed.

Lemma hoare_put_st s' P Q E : (∀ s, P s → Q () s') → hoare P (put_st s') Q E.
Proof. intros HQ s Hs. by eapply HQ. Qed.

Lemma hoare_lift {A} (r : result A) P Q E :
  (∀ s, P s → match r with Ok a => Q a s | Throw _ => E s | Undef => U | OutOfFuel => F end) →
  hoare P (lift_result r) Q E.
Proof. intros HQ s Hs. specialize (HQ s Hs). by destruct r. Qed.

Lemma hoare_throw {A} w P (Q : A → S → Prop) E : (∀ s, P s → E s) → hoare P (throw w) Q E.
Proof. intros HE s Hs. by apply HE. Qed.

Lemma hoare_if {A} (b : bool) (m1 m2 : M S A) P Q E :
  (b = true → hoare P m1 Q E) → (b = false → hoare P m2 Q E) → hoare P (if b then m1 else m2) Q E.
Proof. destruct b; auto. Qed.

Lemma hoare_try {A} (m : M S A) h P Q E E' :
  hoare P m Q E → (∀ w, hoare E (h w) Q E') → hoare P (try_catch m h) Q E'.
Proof.
  intros Hm Hh s Hs. specialize (Hm s Hs). unfold try_catch.
  destruct (m s) as [[a|w| |] s']; try done. by apply Hh.
Qed.

(** A part of the state that [P] does not look at. *)
Lemma hoare_zoom {T A} (get : S → T) (set : T → S → S) (m : M T A) P :
  (∀ t, match (m t).1 with Undef => U | OutOfFuel => F | _ => True end) → (∀ t s, P s → P (set t s)) → hoare P (zoom get set m) (λ _, P) P.
Proof.
  intros HF HP s Hs. unfold zoom. specialize (HF (get s)).
  destruct (m (get s)) as [[a| | |] t]; auto.
Qed.

(** A part of the state that has its own invariant. *)
Lemma hoare_zoom_inv {T A} (get : S → T) (set : T → S → S) (m : M T A) P (I : T → Prop) :
  hoare I m (λ _, I) I → (∀ s, P s → I (get s)) → (∀ t s, P s → I t → P (set t s)) →
  hoare P (zoom get set m) (λ _, P) P.
Proof.
  intros Hm HI HP s Hs. unfold zoom. specialize (Hm (get s) (HI s Hs)).
  destruct (m (get s)) as [[a| | |] t]; auto.
Qed.
End hoare.

(** The rules for invariants. *)
Section lives.
Context {U : Prop} {S : Type} (P : S → Prop).

Lemma lives_ret {A} (a : A) : lives U P (mret a).
Proof. by apply hoare_ret. Qed.
Lemma lives_bind {A C} (m : M S A) (f : A → M S C) :
  lives U P m → (∀ a, lives U P (f a)) → lives U P (m ≫= f).
Proof. intros. by eapply hoare_bind. Qed.
Lemma lives_throw {A} w : lives U P (throw (A := A) w).
Proof. by apply hoare_throw. Qed.
Lemma lives_gets {A} (f : S → A) : lives U P (gets f).
Proof. by apply hoare_gets. Qed.
Lemma lives_lift {A} (r : result A) :
  match r with Undef => U | OutOfFuel => False | _ => True end → lives U P (lift_result r).
Proof. intros Hr. apply hoare_lift. intros s Hs. by destruct r. Qed.
Lemma lives_modify f : (∀ s, P s → P (f s)) → lives U P (modify f).
Proof. intros Hf. by apply hoare_modify. Qed.
Lemma lives_if {A} (b : bool) (m1 m2 : M S A) :
  (b = true → lives U P m1) → (b = false → lives U P m2) → lives U P (if b then m1 else m2).
Proof. intros. by apply hoare_if. Qed.
Lemma lives_try {A} (m : M S A) h : lives U P m → (∀ w, lives U P (h w)) → lives U P (try_catch m h).
Proof. intros. by eapply hoare_try. Qed.

Lemma lives_weaken {A} (U' : Prop) (m : M S A) : (U → U') → lives U P m → lives U' P m.
Proof. intros HU Hm s Hs. specialize (Hm s Hs). destruct (m s) as [[a| | |] s']; auto. Qed.
End lives.
