(* ===== verification/Threads.v ===== *)
(** Threads whose steps interleave.  A program is a tree of atomic actions on
    the state that the thread sees, each followed by what the thread does with
    its value or its exception; between two of them other threads may run. *)

From S2P Require Import Prelude Hoare.

(** [Fin]: the thread has returned, or an exception has left it. *)
Inductive Prog (S A : Type) : Type :=
  | Fin (r : A + string)
  | Atom (X : Type) (m : M S X) (k : X + string → Prog S A).
Arguments Fin {S A} r.
Arguments Atom {S A X} m k.

Section Prog.
Context {S : Type}.

Definition atom {X} (m : M S X) : Prog S X := Atom m Fin.

Fixpoint pbind {A C} (f : A → Prog S C) (p : Prog S A) : Prog S C :=
  match p with
  | Fin (inl a) => f a
  | Fin (inr what) => Fin (inr what)
  | Atom m k => Atom m (λ r, pbind f (k r))
  end.

(** [try { p } catch (e) { h(e) }]. *)
Fixpoint ptry {A} (p : Prog S A) (h : string → Prog S A) : Prog S A :=
  match p with
  | Fin (inl a) => Fin (inl a)
  | Fin (inr what) => h what
  | Atom m k => Atom m (λ r, ptry (k r) h)
  end.

(** The thread runs to its end without being interrupted. *)
Fixpoint prun {A} (p : Prog S A) : M S A :=
  match p with
  | Fin (inl a) => mret a
  | Fin (inr what) => throw what
  | Atom m k => λ s,
      match m s with
      | (Ok x, s) => prun (k (inl x)) s
      | (Throw what, s) => prun (k (inr what)) s
      | (Undef, s) => (Undef, s)
      | (OutOfFuel, s) => (OutOfFuel, s)
      end
  end.
End Prog.

#[export] Instance Prog_ret {S} : MRet (Prog S) := λ A a, Fin (inl a).
#[export] Instance Prog_bind {S} : MBind (Prog S) := λ A C f p, pbind f p.

(** * Running alone *)

(** Undisturbed, the program [p] is the computation [m]. *)
Definition runs {S A} (p : Prog S A) (m : M S A) : Prop := ∀ s, prun p s = m s.

Create HintDb runs discriminated.

Section Runs.
Context {S : Type}.

Lemma runs_atom {A} (m : M S A) : runs (atom m) m.
Proof. intros s. cbn. by destruct (m s) as [[]]. Qed.

Lemma runs_ret {A} (a : A) : runs (S := S) (mret a) (mret a).
Proof. done. Qed.

Lemma prun_bind {A C} (f : A → Prog S C) p s : prun (p ≫= f) s = (prun p ≫= λ a, prun (f a)) s.
Proof.
  revert s. induction p as [[a|what]|X m k IH]; intros s; [done..|]. cbn. unfold mbind, M_bind.
  destruct (m s) as [[x|what| |] s']; [|..|done|done]; apply IH.
Qed.

Lemma runs_bind {A C} (f : A → Prog S C) (g : A → M S C) p m :
  runs p m → (∀ a, runs (f a) (g a)) → runs (p ≫= f) (m ≫= g).
Proof.
  intros Hp Hf s. rewrite prun_bind. unfold mbind, M_bind. rewrite Hp.
  destruct (m s) as [[a| | |] s']; [apply Hf|done..].
Qed.

Lemma runs_try {A} (p : Prog S A) h m g :
  runs p m → (∀ what, runs (h what) (g what)) → runs (ptry p h) (try_catch m g).
Proof.
  intros Hp Hh s. unfold try_catch. rewrite <-Hp. clear Hp. revert s.
  induction p as [[a|what]|X a k IH]; intros s; [done|apply Hh|]. cbn.
  destruct (a s) as [[x|what| |] s']; [|..|done|done]; apply IH.
Qed.

Lemma runs_if {A} (b : bool) (p1 p2 : Prog S A) m1 m2 :
  runs p1 m1 → runs p2 m2 → runs (if b then p1 else p2) (if b then m1 else m2).
Proof. by destruct b. Qed.
End Runs.

#[export] Hint Resolve runs_atom runs_ret runs_if : runs.
#[export] Hint Extern 2 (runs (_ ≫= _) _) => apply runs_bind; [|intros ?] : runs.
#[export] Hint Extern 2 (runs (ptry _ _) _) => apply runs_try; [|intros ?] : runs.
