(* ===== verification/StdMap.v ===== *)
(** Ordered maps: [std::map] as an association list with strictly increasing
    keys, so that the iteration order of the C++ container is the order of the
    list. *)

From S2P Require Import Prelude.

(** A key type with the strict weak order [std::less] induces. *)
Class KeyOrder (K : Type) := {
  key_cmp : K → K → comparison;
  key_cmp_eq a b : key_cmp a b = Eq ↔ a = b;
  key_cmp_antisym a b : key_cmp b a = CompOpp (key_cmp a b);
  key_cmp_lt_trans a b c : key_cmp a b = Lt → key_cmp b c = Lt → key_cmp a c = Lt;
}.

#[export] Program Instance Z_KeyOrder : KeyOrder Z := {| key_cmp := Z.compare |}.
Next Obligation. intros a b. apply Z.compare_eq_iff. Qed.
Next Obligation. intros a b. apply Z.compare_antisym. Qed.
Next Obligation. intros a b c. rewrite !Z.compare_lt_iff. lia. Qed.

Lemma ascii_compare_antisym a b : Ascii.compare b a = CompOpp (Ascii.compare a b).
Proof. unfold Ascii.compare. apply N.compare_antisym. Qed.

Lemma string_compare_refl s : String.compare s s = Eq.
Proof. induction s as [|a s IH]; simpl; [done|]. unfold Ascii.compare. by rewrite N.compare_refl. Qed.

Lemma string_compare_antisym s t : String.compare t s = CompOpp (String.compare s t).
Proof.
  revert t. induction s as [|a s IH]; intros [|b t]; simpl; try done.
  rewrite (ascii_compare_antisym a b).
  destruct (Ascii.compare a b); simpl; auto.
Qed.

Lemma string_compare_lt_trans a b c :
  String.compare a b = Lt → String.compare b c = Lt → String.compare a c = Lt.
Proof.
  revert b c. induction a as [|x a IH]; intros [|y b] [|z c]; simpl; try done.
  destruct (Ascii.compare x y) eqn:Exy; try done;
    destruct (Ascii.compare y z) eqn:Eyz; try done; intros H1 H2.
  - apply Ascii.compare_eq_iff in Exy, Eyz. subst.
    unfold Ascii.compare. rewrite N.compare_refl. eauto.
  - apply Ascii.compare_eq_iff in Exy. subst. by rewrite Eyz.
  - apply Ascii.compare_eq_iff in Eyz. subst. by rewrite Exy.
  - assert (Ascii.compare x z = Lt) as ->; [|done].
    unfold Ascii.compare in *. rewrite N.compare_lt_iff in *. lia.
Qed.

#[export] Program Instance string_KeyOrder : KeyOrder string := {| key_cmp := String.compare |}.
Next Obligation.
  intros a b. split; [apply String.compare_eq_iff|]. intros ->. apply string_compare_refl.
Qed.
Next Obligation. intros a b. apply string_compare_antisym. Qed.
Next Obligation. intros a b c. apply string_compare_lt_trans. Qed.

Section StdMap.
Context {K V : Type} `{KeyOrder K}.
Implicit Types (k : K) (v : V) (m : list (K * V)).

(** [m.find(k)] (and [m.count(k)], [m.at(k)]). *)
Fixpoint map_find k m : option V :=
  match m with
  | [] => None
  | (k', v) :: m' => match key_cmp k k' with Eq => Some v | _ => map_find k m' end
  end.

(** [m[k] = v]: insert at the key's position or overwrite. *)
Fixpoint map_set k v m : list (K * V) :=
  match m with
  | [] => [(k, v)]
  | (k', v') :: m' =>
      match key_cmp k k' with
      | Lt => (k, v) :: (k', v') :: m'
      | Eq => (k', v) :: m'
      | Gt => (k', v') :: map_set k v m'
      end
  end.

(** [m.emplace(k, v)]: keeps the value that is there. *)
Definition map_emplace k v m : list (K * V) :=
  match map_find k m with Some _ => m | None => map_set k v m end.

(** A map built by successive [m[k] = v] from an empty one. *)
Definition map_of (l : list (K * V)) : list (K * V) :=
  foldl (λ m kv, map_set kv.1 kv.2 m) [] l.

Definition key_lt (k1 k2 : K) : Prop := key_cmp k1 k2 = Lt.
Definition map_ok m : Prop := StronglySorted key_lt (m.*1).

#[export] Instance key_lt_trans : Transitive key_lt.
Proof. intros a b c. apply key_cmp_lt_trans. Qed.

Lemma key_cmp_refl k : key_cmp k k = Eq.
Proof. by apply key_cmp_eq. Qed.

Lemma key_lt_irrefl k : ¬ key_lt k k.
Proof. unfold key_lt. rewrite key_cmp_refl. done. Qed.

Lemma key_cmp_gt k1 k2 : key_cmp k1 k2 = Gt ↔ key_lt k2 k1.
Proof. unfold key_lt. rewrite (key_cmp_antisym k1 k2). by destruct (key_cmp k1 k2). Qed.

Lemma map_find_set_eq k v m : map_find k (map_set k v m) = Some v.
Proof.
  induction m as [|[k' v'] m IH]; simpl; [by rewrite key_cmp_refl|].
  destruct (key_cmp k k') eqn:E; simpl; rewrite ?key_cmp_refl, ?E; done.
Qed.

Lemma map_find_set_ne k k' v m : k ≠ k' → map_find k (map_set k' v m) = map_find k m.
Proof.
  intros Hne.
  assert (∀ A (a b : A), match key_cmp k k' with Eq => a | _ => b end = b) as Hc.
  { intros A a b. destruct (key_cmp k k') eqn:E; try done.
    by apply key_cmp_eq in E. }
  induction m as [|[k'' v'] m IH]; simpl; [by rewrite Hc|].
  destruct (key_cmp k' k'') eqn:E; simpl.
  - apply key_cmp_eq in E as ->. by rewrite !Hc.
  - by rewrite Hc.
  - by rewrite IH.
Qed.

Lemma map_set_keys k k' v m :
  k' ∈ (map_set k v m).*1 ↔ k' = k ∨ k' ∈ m.*1.
Proof.
  induction m as [|[k'' v'] m IH]; simpl; [by rewrite elem_of_cons|].
  destruct (key_cmp k k'') eqn:E; simpl; rewrite ?elem_of_cons, ?IH; try tauto.
  apply key_cmp_eq in E as ->. tauto.
Qed.

Lemma map_set_ok k v m : map_ok m → map_ok (map_set k v m).
Proof.
  unfold map_ok. induction m as [|[k' v'] m IH]; simpl; intros Hs.
  - repeat constructor.
  - inversion Hs as [|? ? Hs' Hall]; subst.
    destruct (key_cmp k k') eqn:E; simpl.
    + by apply key_cmp_eq in E as <-; constructor.
    + constructor; [done|]. constructor; [done|].
      eapply Forall_impl; [exact Hall|]. intros x Hx. by trans k'.
    + constructor; [by apply IH|]. apply Forall_forall. intros x.
      rewrite map_set_keys. intros [->|Hx]; [by apply key_cmp_gt|].
      by eapply Forall_forall in Hall.
Qed.

Lemma map_emplace_ok k v m : map_ok m → map_ok (map_emplace k v m).
Proof. unfold map_emplace. destruct (map_find k m); auto using map_set_ok. Qed.

Lemma map_of_ok l : map_ok (map_of l).
Proof.
  unfold map_of. assert (map_ok []) as Hn by constructor. revert Hn.
  generalize (@nil (K * V)). induction l as [|kv l IH]; simpl; intros m Hm; auto.
  apply IH. by apply map_set_ok.
Qed.

Lemma map_find_elem_of k v m : map_find k m = Some v → (k, v) ∈ m.
Proof.
  induction m as [|[k' v'] m IH]; simpl; [done|].
  destruct (key_cmp k k') eqn:E; rewrite elem_of_cons; auto.
  intros [= <-]. apply key_cmp_eq in E as ->. auto.
Qed.

Lemma map_find_None k m : map_find k m = None ↔ k ∉ m.*1.
Proof.
  induction m as [|[k' v'] m IH]; simpl; [set_solver|].
  rewrite not_elem_of_cons, <-IH.
  destruct (key_cmp k k') eqn:E.
  - apply key_cmp_eq in E as ->. by split; [|intros []].
  - split; [|by intros []]. intros; split; [|done]. intros ->.
    by rewrite key_cmp_refl in E.
  - split; [|by intros []]. intros; split; [|done]. intros ->.
    by rewrite key_cmp_refl in E.
Qed.

Lemma map_ok_find k v m : map_ok m → (k, v) ∈ m → map_find k m = Some v.
Proof.
  unfold map_ok. induction m as [|[k' v'] m IH]; simpl; intros Hs; [set_solver|].
  inversion Hs as [|? ? Hs' Hall]; subst. rewrite elem_of_cons. intros [[= <- <-]|Hin].
  - by rewrite key_cmp_refl.
  - assert (k ∈ m.*1) as Hk by (apply list_elem_of_fmap; by exists (k, v)).
    rewrite list.Forall_forall in Hall. specialize (Hall k Hk).
    apply key_cmp_gt in Hall. rewrite Hall. auto.
Qed.

(** Appending a key larger than all others, the case of a parser that meets
    the keys in order. *)
Lemma map_set_snoc k v m : Forall (λ k', key_lt k' k) (m.*1) → map_set k v m = m ++ [(k, v)].
Proof.
  induction m as [|[k' v'] m IH]; simpl; intros Hall; [done|].
  inversion Hall as [|? ? Hk Hall']; subst.
  apply key_cmp_gt in Hk. rewrite Hk. by rewrite IH.
Qed.

Lemma map_emplace_snoc k v m :
  Forall (λ k', key_lt k' k) (m.*1) → map_emplace k v m = m ++ [(k, v)].
Proof.
  intros Hall. unfold map_emplace.
  assert (map_find k m = None) as ->; [|by apply map_set_snoc].
  apply map_find_None. intros Hin. rewrite list.Forall_forall in Hall.
  by apply (key_lt_irrefl k), Hall.
Qed.

Lemma map_emplace_app k v m m' :
  map_ok (m ++ (k, v) :: m') → map_emplace k v m = m ++ [(k, v)].
Proof.
  unfold map_ok. rewrite fmap_app. intros Hs. apply map_emplace_snoc, Forall_forall.
  intros k' Hk'. apply StronglySorted_app in Hs as (Hlt & _ & _).
  apply Hlt; [done|]. left.
Qed.

(** Two maps with the same lookups are the same map. *)
Lemma map_ok_ext m1 m2 :
  map_ok m1 → map_ok m2 → (∀ k, map_find k m1 = map_find k m2) → m1 = m2.
Proof.
  unfold map_ok. revert m2.
  induction m1 as [|[k1 v1] m1 IH]; intros [|[k2 v2] m2] Hs1 Hs2 Hf; try done.
  - specialize (Hf k2). simpl in Hf. by rewrite key_cmp_refl in Hf.
  - specialize (Hf k1). simpl in Hf. by rewrite key_cmp_refl in Hf.
  - inversion Hs1 as [|? ? Hs1' Ha1]; inversion Hs2 as [|? ? Hs2' Ha2]; subst.
    rewrite list.Forall_forall in Ha1, Ha2.
    assert (k1 = k2) as <-.
    { pose proof (Hf k1) as H1. pose proof (Hf k2) as H2. simpl in H1, H2.
      rewrite key_cmp_refl in H1, H2.
      destruct (key_cmp k1 k2) eqn:E; [by apply key_cmp_eq| |].
      - symmetry in H1. apply map_find_elem_of in H1.
        assert (key_lt k2 k1) as Hlt by (apply Ha2, list_elem_of_fmap; by exists (k1, v1)).
        apply key_cmp_gt in Hlt. congruence.
      - assert (key_lt k2 k1) as Hlt by by apply key_cmp_gt.
        rewrite Hlt in H2. apply map_find_elem_of in H2.
        assert (key_lt k1 k2) as Hlt' by (apply Ha1, list_elem_of_fmap; by exists (k2, v2)).
        unfold key_lt in Hlt'. congruence. }
    pose proof (Hf k1) as H1. simpl in H1. rewrite key_cmp_refl in H1.
    injection H1 as <-. f_equal. apply IH; [done..|]. intros k.
    specialize (Hf k). simpl in Hf. destruct (key_cmp k k1) eqn:E; try done.
    apply key_cmp_eq in E as ->.
    transitivity (@None V); [|symmetry]; apply map_find_None; intros Hin;
      [specialize (Ha1 k1 Hin)|specialize (Ha2 k1 Hin)]; by apply (key_lt_irrefl k1).
Qed.

(** Assignments to different keys commute: the order of insertion does not
    show. *)
Lemma map_set_comm k1 k2 v1 v2 m :
  map_ok m → k1 ≠ k2 → map_set k1 v1 (map_set k2 v2 m) = map_set k2 v2 (map_set k1 v1 m).
Proof.
  intros Hm Hne. apply map_ok_ext; auto using map_set_ok. intros k.
  destruct (decide (key_cmp k k1 = Eq)) as [E|E].
  - apply key_cmp_eq in E as ->. by rewrite map_find_set_eq, map_find_set_ne, map_find_set_eq.
  - assert (k ≠ k1) by (intros ->; by rewrite key_cmp_refl in E).
    rewrite map_find_set_ne by done.
    destruct (decide (key_cmp k k2 = Eq)) as [E'|E'].
    + apply key_cmp_eq in E' as ->. by rewrite !map_find_set_eq.
    + assert (k ≠ k2) by (intros ->; by rewrite key_cmp_refl in E').
      by rewrite !map_find_set_ne by done.
Qed.
Lemma map_set_set k v1 v2 m : map_set k v1 (map_set k v2 m) = map_set k v1 m.
Proof.
  induction m as [|[k' v'] m IH]; simpl; [by rewrite key_cmp_refl|].
  destruct (key_cmp k k') eqn:E; simpl; rewrite ?key_cmp_refl, ?E, ?IH; done.
Qed.

Lemma map_of_snoc l k v : map_of (l ++ [(k, v)]) = map_set k v (map_of l).
Proof. unfold map_of. by rewrite foldl_app. Qed.

Lemma map_find_of k v l : NoDup l.*1 → map_find k (map_of l) = Some v ↔ (k, v) ∈ l.
Proof.
  induction l as [|[k' v'] l IH] using rev_ind; intros Hnd.
  { split; [done|]. by intros ?%elem_of_nil. }
  rewrite map_of_snoc, elem_of_app, list_elem_of_singleton.
  rewrite fmap_app in Hnd. apply NoDup_app in Hnd as (Hnd & Hdisj & _).
  assert (∀ v, (k', v) ∉ l) as Hni.
  { intros v0 Hin. apply (Hdisj k'); [|left]. apply list_elem_of_fmap. by exists (k', v0). }
  destruct (decide (key_cmp k k' = Eq)) as [E|E].
  - apply key_cmp_eq in E as ->. rewrite map_find_set_eq. split.
    + intros [= ->]. by right.
    + intros [Hin|[= ->]]; [|done]. by apply Hni in Hin.
  - assert (k ≠ k') by (intros ->; by rewrite key_cmp_refl in E).
    rewrite map_find_set_ne, IH by done. split; [by left|]. by intros [|[= -> ->]].
Qed.

(** The order in which distinct keys are assigned does not show. *)
Lemma map_of_Permutation l1 l2 : NoDup l1.*1 → l1 ≡ₚ l2 → map_of l1 = map_of l2.
Proof.
  intros Hnd Hp. apply map_ok_ext; try apply map_of_ok. intros k.
  assert (NoDup l2.*1) as Hnd2 by by rewrite <-Hp.
  apply option_eq. intros v. rewrite !map_find_of by done. by rewrite Hp.
Qed.
End StdMap.

Create HintDb stdmap.
#[export] Hint Resolve map_set_ok map_emplace_ok map_of_ok : stdmap.
Create Rewrite HintDb stdmap_rw.
#[export] Hint Rewrite @map_find_set_eq : stdmap_rw.
