(* ===== verification/CString.v ===== *)
(** [std::string] and the text conversions of the C++ standard library that
    the sources use: character classes, searching, numbers in a base, stream
    extraction, [std::stoi], [std::getline].  A [std::string] is a [string] of
    8-bit characters. *)

From S2P Require Import Prelude.

Local Open Scope Z_scope.

(** * Characters *)

Definition code (c : ascii) : Z := Z.of_N (Ascii.N_of_ascii c).
Definition chr (z : Z) : ascii := Ascii.ascii_of_N (Z.to_N (z mod 256)).

Lemma code_bounds c : 0 ≤ code c < 256.
Proof. unfold code. pose proof (Ascii.N_ascii_bounded c). lia. Qed.

Lemma chr_code c : chr (code c) = c.
Proof.
  unfold chr. rewrite Z.mod_small by apply code_bounds.
  unfold code. rewrite N2Z.id. apply Ascii.ascii_N_embedding.
Qed.

Lemma code_chr z : 0 ≤ z < 256 → code (chr z) = z.
Proof.
  intros Hz. unfold chr, code. rewrite Z.mod_small by done.
  rewrite Ascii.N_ascii_embedding by lia. lia.
Qed.

Lemma code_inj c d : code c = code d → c = d.
Proof. intros E. by rewrite <-(chr_code c), <-(chr_code d), E. Qed.

Definition ascii_eqb (a b : ascii) : bool := bool_decide (a = b).

(** [std::isspace] and [std::isdigit] in the "C" locale. *)
Definition isspace (c : ascii) : bool :=
  (code c =? 32) || ((9 <=? code c) && (code c <=? 13)).
Definition isdigit (c : ascii) : bool := (48 <=? code c) && (code c <=? 57).
(** [toupper] in the "C" locale. *)
Definition toupper (c : ascii) : ascii :=
  if (97 <=? code c) && (code c <=? 122) then chr (code c - 32) else c.

Fixpoint str_map (f : ascii → ascii) (s : string) : string :=
  match s with
  | EmptyString => EmptyString
  | String c s' => String (f c) (str_map f s')
  end.

(** * Searching and slicing *)

Definition is_empty (s : string) : bool :=
  match s with EmptyString => true | _ => false end.

Fixpoint skip_while (p : ascii → bool) (s : string) : string :=
  match s with
  | String c s' => if p c then skip_while p s' else s
  | EmptyString => EmptyString
  end.

Fixpoint take_while (p : ascii → bool) (s : string) : string :=
  match s with
  | String c s' => if p c then String c (take_while p s') else EmptyString
  | EmptyString => EmptyString
  end.

Fixpoint str_drop (n : nat) (s : string) : string :=
  match n, s with
  | S n', String _ s' => str_drop n' s'
  | _, _ => s
  end.

Fixpoint str_take (n : nat) (s : string) : string :=
  match n, s with
  | S n', String c s' => String c (str_take n' s')
  | _, _ => EmptyString
  end.

(** [s.rfind(p, 0) == 0]: [s] starts with [p]. *)
Fixpoint starts_with (p s : string) : bool :=
  match p, s with
  | EmptyString, _ => true
  | String a p', String b s' => ascii_eqb a b && starts_with p' s'
  | _, _ => false
  end.

(** [s.find(p)]: the position of the first occurrence. *)
Fixpoint str_find (p s : string) : option nat :=
  if starts_with p s then Some 0%nat
  else match s with
       | EmptyString => None
       | String _ s' => S <$> str_find p s'
       end.

(** [s.find(p) != std::string::npos]. *)
Definition contains (p s : string) : bool :=
  match str_find p s with Some _ => true | None => false end.

Fixpoint split_on (d : ascii) (s : string) : list string :=
  match s with
  | EmptyString => [EmptyString]
  | String c s' =>
      if ascii_eqb c d then EmptyString :: split_on d s'
      else match split_on d s' with
           | seg :: rest => String c seg :: rest
           | [] => [String c EmptyString]
           end
  end.

(** Segments read by repeated [std::getline(stream, segment, d)]: a delimiter
    at the end of the text starts no further segment. *)
Definition getlines (d : ascii) (s : string) : list string :=
  let segs := split_on d s in
  match last segs with
  | Some EmptyString => take (length segs - 1)%nat segs
  | _ => segs
  end.

(** One [stream >> word]: the word and what is left. *)
Definition read_word (s : string) : string * string :=
  let s1 := skip_while isspace s in
  let w := take_while (λ c, negb (isspace c)) s1 in
  (w, str_drop (String.length w) s1).

(** * Numbers in a base *)

Definition digit_char (d : Z) : ascii := if d <? 10 then chr (48 + d) else chr (55 + d).

Definition dec_digit (c : ascii) : option Z :=
  if isdigit c then Some (code c - 48) else None.

Definition hex_digit (c : ascii) : option Z :=
  if isdigit c then Some (code c - 48)
  else if (97 <=? code c) && (code c <=? 102) then Some (10 + (code c - 97))
  else if (65 <=? code c) && (code c <=? 70) then Some (10 + (code c - 65))
  else None.

Fixpoint print_base_go (fuel : nat) (b n : Z) (acc : string) : string :=
  match fuel with
  | O => acc
  | S f =>
      let acc' := String (digit_char (n mod b)) acc in
      if n <? b then acc' else print_base_go f b (n / b) acc'
  end.

(** The digits of a natural number, upper case as with [std::uppercase]. *)
Definition print_base (b n : Z) : string :=
  print_base_go (S (Z.to_nat (Z.log2 n))) b n EmptyString.

(** [std::to_string] of an integer type. *)
Definition Z_to_string (n : Z) : string :=
  if n <? 0 then String "-"%char (print_base 10 (- n)) else print_base 10 n.

(** Reads digits while there are any. *)
Fixpoint read_digits (dig : ascii → option Z) (b acc : Z) (s : string) : Z * string :=
  match s with
  | String c s' =>
      match dig c with
      | Some d => read_digits dig b (acc * b + d) s'
      | None => (acc, s)
      end
  | EmptyString => (acc, s)
  end.

Definition head_is (p : ascii → bool) (s : string) : bool :=
  match s with String c _ => p c | EmptyString => false end.

(** An optional sign. *)
Definition read_sign (s : string) : bool * string :=
  match s with
  | String c s' =>
      if ascii_eqb c "-"%char then (true, s')
      else if ascii_eqb c "+"%char then (false, s') else (false, s)
  | EmptyString => (false, s)
  end.

(** [stream >> std::hex >> v] into a [std::uint64_t]: white space is skipped, a
    sign and a [0x] prefix are accepted, at least one digit is needed, a value
    over 64 bits fails, and a negative number wraps around. *)
Definition stream_hex_u64 (s : string) : option Z :=
  let '(neg, s2) := read_sign (skip_while isspace s) in
  let s3 :=
    match s2 with
    | String z (String x r) =>
        if ascii_eqb z "0"%char && (ascii_eqb x "x"%char || ascii_eqb x "X"%char)
        then r else s2
    | _ => s2
    end in
  if head_is (λ c, bool_decide (is_Some (hex_digit c))) s3 then
    let v := (read_digits hex_digit 16 0 s3).1 in
    if v <? 2 ^ 64 then Some ((if neg then - v else v) mod 2 ^ 64) else None
  else None.

(** [std::stoi]: base 10, leading white space and a sign accepted, anything
    after the digits ignored. *)
Definition stoi (s : string) : result Z :=
  let '(neg, s2) := read_sign (skip_while isspace s) in
  if head_is isdigit s2 then
    let v := (read_digits dec_digit 10 0 s2).1 in
    let v' := if neg then - v else v in
    if (- 2 ^ 31 <=? v') && (v' <? 2 ^ 31) then Ok v'
    else Throw "stoi argument out of range"
  else Throw "invalid stoi argument".

(** * Lemmas *)

(** Case analysis on a small range of integers, then evaluation. *)
Ltac enum_lt n d :=
  match n with
  | 0 => exfalso; lia
  | _ => let m := eval compute in (n - 1) in
         destruct (Z.eq_dec d m) as [->|]; [|enum_lt m d]
  end.

Lemma hex_digit_char d : 0 ≤ d < 16 → hex_digit (digit_char d) = Some d.
Proof. intros Hd. enum_lt 16 d; reflexivity. Qed.

Lemma dec_digit_char d : 0 ≤ d < 10 → dec_digit (digit_char d) = Some d.
Proof. intros Hd. enum_lt 10 d; reflexivity. Qed.

Lemma isdigit_dec_digit c : isdigit c = true ↔ is_Some (dec_digit c).
Proof. unfold dec_digit. destruct (isdigit c); split; [eauto|done|done|by intros []]. Qed.

Lemma dec_digit_bounds c d : dec_digit c = Some d → 0 ≤ d < 10.
Proof.
  unfold dec_digit, isdigit. destruct (_ && _) eqn:E; [|done].
  apply andb_prop in E as [E1 E2]. intros [= <-].
  apply Z.leb_le in E1, E2. lia.
Qed.

(** Digits that are printed are read back, with whatever follows. *)
Lemma read_print_base_go dig b fuel n acc :
  (∀ d, 0 ≤ d < b → dig (digit_char d) = Some d) →
  1 < b → 0 ≤ n < b ^ Z.of_nat fuel → (0 < fuel)%nat →
  ∃ k, 1 ≤ k ∧ ∀ a, read_digits dig b a (print_base_go fuel b n acc)
               = read_digits dig b (a * b ^ k + n) acc.
Proof.
  intros Hdig Hb. revert n acc. induction fuel as [|f IH]; intros n acc Hn Hf; [lia|].
  assert (dig (digit_char (n mod b)) = Some (n mod b)) as Hd.
  { apply Hdig, Z.mod_pos_bound. lia. }
  cbn [print_base_go]. destruct (Z.ltb_spec n b) as [Hlt|Hge].
  - exists 1. split; [lia|]. intros a. cbn [read_digits]. rewrite Hd.
    rewrite Z.mod_small by lia. by rewrite Z.pow_1_r.
  - destruct f as [|f']; [rewrite Z.pow_1_r in Hn; lia|].
    assert (0 ≤ n / b < b ^ Z.of_nat (S f')) as Hn'.
    { split; [apply Z.div_pos; lia|]. apply Z.div_lt_upper_bound; [lia|].
      rewrite <-Z.pow_succ_r by lia. rewrite <-Nat2Z.inj_succ. lia. }
    destruct (IH (n / b) (String (digit_char (n mod b)) acc) Hn' ltac:(lia)) as (k & Hk & IH').
    exists (k + 1). split; [lia|]. intros a. rewrite IH'. cbn [read_digits]. rewrite Hd.
    f_equal. rewrite Z.pow_add_r, Z.pow_1_r by lia.
    pose proof (Z.div_mod n b). nia.
Qed.

Lemma log2_fuel b n : 1 < b → 0 ≤ n → n < b ^ Z.of_nat (S (Z.to_nat (Z.log2 n))).
Proof.
  intros Hb Hn. rewrite Nat2Z.inj_succ, Z2Nat.id by apply Z.log2_nonneg.
  destruct (Z.eq_dec n 0) as [->|Hn0]; [apply Z.pow_pos_nonneg; simpl; lia|].
  apply Z.lt_le_trans with (2 ^ Z.succ (Z.log2 n)).
  - apply Z.log2_spec. lia.
  - apply Z.pow_le_mono_l. lia.
Qed.

Lemma read_print_base_go_app fuel b n acc rest :
  print_base_go fuel b n acc +:+ rest = print_base_go fuel b n (acc +:+ rest).
Proof.
  revert n acc. induction fuel as [|f IH]; intros n acc; [done|].
  cbn [print_base_go]. destruct (n <? b); [done|]. by rewrite IH.
Qed.

Lemma read_print_base dig b n rest :
  (∀ d, 0 ≤ d < b → dig (digit_char d) = Some d) → 1 < b → 0 ≤ n →
  head_is (λ c, bool_decide (is_Some (dig c))) rest = false →
  read_digits dig b 0 (print_base b n +:+ rest) = (n, rest).
Proof.
  intros Hdig Hb Hn Hrest. unfold print_base. rewrite read_print_base_go_app.
  destruct (read_print_base_go dig b (S (Z.to_nat (Z.log2 n))) n (EmptyString +:+ rest))
    as (k & _ & ->); [done|done| |lia|].
  - split; [done|]. by apply log2_fuel.
  - replace (0 * b ^ k + n) with n by lia. change (EmptyString +:+ rest) with rest.
    destruct rest as [|c rest]; [done|]. simpl in *.
    destruct (dig c) eqn:E; [|done].
    by rewrite bool_decide_eq_true_2 in Hrest by eauto.
Qed.

Lemma print_base_go_head fuel b n acc :
  1 < b → 0 ≤ n → (0 < fuel)%nat →
  ∃ d rest, 0 ≤ d < b ∧ print_base_go fuel b n acc = String (digit_char d) rest.
Proof.
  intros Hb. revert n acc. induction fuel as [|f IH]; intros n acc Hn Hf; [lia|].
  pose proof (Z.mod_pos_bound n b ltac:(lia)).
  cbn [print_base_go]. destruct (Z.ltb_spec n b); [by exists (n mod b), acc|].
  destruct f as [|f']; [by exists (n mod b), acc|].
  apply IH; [|lia]. apply Z.div_pos; lia.
Qed.

Lemma print_base_head b n :
  1 < b → 0 ≤ n → ∃ d rest, 0 ≤ d < b ∧ print_base b n = String (digit_char d) rest.
Proof. intros. apply print_base_go_head; [done|done|lia]. Qed.

Lemma digit_char_plain d :
  0 ≤ d < 16 → isspace (digit_char d) = false ∧ digit_char d ≠ "-"%char
               ∧ digit_char d ≠ "+"%char ∧ digit_char d ≠ "x"%char ∧ digit_char d ≠ "X"%char.
Proof. intros Hd. enum_lt 16 d; done. Qed.

Lemma ascii_eqb_ne a b : a ≠ b → ascii_eqb a b = false.
Proof. intros. by apply bool_decide_eq_false_2. Qed.
Lemma ascii_eqb_eq a b : ascii_eqb a b = true ↔ a = b.
Proof. apply bool_decide_eq_true. Qed.

Lemma str_app_cons c (s t : string) : String c s +:+ t = String c (s +:+ t).
Proof. done. Qed.

Lemma str_app_nil_l (s : string) : EmptyString +:+ s = s.
Proof. done. Qed.

Lemma str_app_nil_r (s : string) : s +:+ EmptyString = s.
Proof. induction s as [|c s IH]; [done|]. by rewrite str_app_cons, IH. Qed.

Lemma str_app_assoc (s t u : string) : (s +:+ t) +:+ u = s +:+ (t +:+ u).
Proof. induction s as [|c s IH]; [done|]. by rewrite !str_app_cons, IH. Qed.

Lemma str_length_app (s t : string) :
  String.length (s +:+ t) = (String.length s + String.length t)%nat.
Proof. induction s as [|c s IH]; [done|]. rewrite str_app_cons. simpl. by rewrite IH. Qed.

Create Rewrite HintDb str.
#[export] Hint Rewrite str_app_cons str_app_nil_l str_app_nil_r str_app_assoc str_length_app : str.
