(* ===== verification/Double.v ===== *)
(** The C++ type [double]: IEEE binary64 as Rocq's [spec_float] with 53 bits of
    precision, its conversions to and from integers and to and from decimal
    text as the sources use them: [(double)n], [(int)d], [std::stod] and
    [std::to_string]. *)

From Stdlib Require Export SpecFloat.
From S2P Require Import Prelude CString.

Local Open Scope Z_scope.

Abbreviation double := spec_float.
Abbreviation prec64 := 53.
Abbreviation emax64 := 1024.

(** * Integers *)

(** [(double)n], rounding to nearest, ties to even. *)
Definition double_of_Z (n : Z) : double := binary_normalize prec64 emax64 n 0 false.

(** The value of a finite double with its fraction cut off. *)
Definition Ztrunc_pos (m : positive) (e : Z) : Z :=
  if 0 <=? e then Zpos m * 2 ^ e else Zpos m / 2 ^ (- e).

(** [(T)d] for an integer type [T] with values in [lo, hi): the fraction is
    cut off; a value that does not fit is undefined behaviour. *)
Definition cast_range (lo hi : Z) (d : double) : result Z :=
  match d with
  | S754_zero _ => Ok 0
  | S754_finite s m e =>
      let z := (if s then -1 else 1) * Ztrunc_pos m e in
      if (lo <=? z) && (z <? hi) then Ok z else Undef
  | _ => Undef
  end.

Definition cast_int : double → result Z := cast_range (- 2 ^ 31) (2 ^ 31).
(** [long] has 32 bits on Windows. *)
Definition cast_long : double → result Z := cast_range (- 2 ^ 31) (2 ^ 31).
Definition cast_longlong : double → result Z := cast_range (- 2 ^ 63) (2 ^ 63).
Definition cast_u8 : double → result Z := cast_range 0 (2 ^ 8).
Definition cast_u32 : double → result Z := cast_range 0 (2 ^ 32).
Definition cast_u64 : double → result Z := cast_range 0 (2 ^ 64).

(** [d == 0]. *)
Definition is_zero (d : double) : bool := SFeqb d (S754_zero false).

(** * Decimal text to double *)

(** The double nearest to [m * 10 ^ e10]. *)
Definition decimal_to_double (neg : bool) (m e10 : Z) : double :=
  match m with
  | Zpos p =>
      if 0 <=? e10 then
        match m * 10 ^ e10 with
        | Zpos q => binary_round prec64 emax64 neg q 0
        | _ => S754_zero neg
        end
      else
        let '(q, e, l) := SFdiv_core_binary prec64 emax64 m 0 (10 ^ (- e10)) 0 in
        binary_round_aux prec64 emax64 neg q e l
  | _ => S754_zero neg
  end.

(** The exponent part: nothing is consumed unless a digit follows. *)
Definition read_exponent (s : string) : Z :=
  match s with
  | String c s' =>
      if ascii_eqb c "e"%char || ascii_eqb c "E"%char then
        let '(neg, s2) := read_sign s' in
        if head_is isdigit s2 then
          let v := (read_digits dec_digit 10 0 s2).1 in if neg then - v else v
        else 0
      else 0
  | EmptyString => 0
  end.

(** [std::stod] on decimal text.  Overflow, and underflow to zero of a number
    that is not zero, set [ERANGE], which [std::stod] throws on. *)
Definition stod (s : string) : result double :=
  let '(neg, s1) := read_sign (skip_while isspace s) in
  let '(m1, s2) := read_digits dec_digit 10 0 s1 in
  let frac := match s2 with
              | String c s' => if ascii_eqb c "."%char then s' else EmptyString
              | EmptyString => EmptyString
              end in
  let '(m2, s3) := read_digits dec_digit 10 m1 frac in
  let k := Z.of_nat (String.length frac - String.length s3)%nat in
  if head_is isdigit s1 || head_is isdigit frac then
    let rest := match s2 with
                | String c _ => if ascii_eqb c "."%char then s3 else s2
                | EmptyString => EmptyString
                end in
    match decimal_to_double neg m2 (read_exponent rest - k) with
    | S754_infinity _ => Throw "stod argument out of range"
    | S754_zero s => if m2 =? 0 then Ok (S754_zero s) else Throw "stod argument out of range"
    | d => Ok d
    end
  else Throw "invalid stod argument".

(** * Double to decimal text *)

(** [n / d] to the nearest integer, ties to even. *)
Definition div_nearest_even (n d : Z) : Z :=
  let q := n / d in
  match 2 * (n mod d) ?= d with
  | Lt => q
  | Gt => q + 1
  | Eq => if Z.even q then q else q + 1
  end.

(** A finite magnitude in millionths, rounded as [printf("%f")] rounds. *)
Definition millionths (m : positive) (e : Z) : Z :=
  if 0 <=? e then Zpos m * 2 ^ e * 10 ^ 6
  else div_nearest_even (Zpos m * 10 ^ 6) (2 ^ (- e)).

Fixpoint pad_digits (k : nat) (n : Z) (acc : string) : string :=
  match k with
  | O => acc
  | S k' => pad_digits k' (n / 10) (String (digit_char (n mod 10)) acc)
  end.

Definition sign_text (s : bool) : string := if s then "-" else "".

(** [std::to_string(double)], which is [printf("%f")]. *)
Definition double_to_string (d : double) : string :=
  match d with
  | S754_zero s => sign_text s +:+ "0.000000"
  | S754_infinity s => sign_text s +:+ "inf"
  | S754_nan => "nan"
  | S754_finite s m e =>
      let n := millionths m e in
      sign_text s +:+ print_base 10 (n / 10 ^ 6) +:+ "." +:+ pad_digits 6 (n mod 10 ^ 6) ""
  end.

(** * Small integers are exact *)

Lemma digits2_pos_bounds p :
  2 ^ (Zpos (digits2_pos p) - 1) ≤ Zpos p < 2 ^ Zpos (digits2_pos p).
Proof.
  induction p as [p IH|p IH|]; cbn [digits2_pos]; [| |simpl; lia];
    rewrite Pos2Z.inj_succ;
    replace (Z.succ (Zpos (digits2_pos p)) - 1) with (Z.succ (Zpos (digits2_pos p) - 1)) by lia;
    rewrite !Z.pow_succ_r by lia; lia.
Qed.

Lemma digits2_pos_le p n : 0 ≤ n → Zpos p < 2 ^ n → Zpos (digits2_pos p) ≤ n.
Proof.
  intros Hn Hp. pose proof (digits2_pos_bounds p) as [Hlo _].
  apply Z.lt_succ_r. assert (Zpos (digits2_pos p) - 1 < n); [|lia].
  apply (Z.pow_lt_mono_r_iff 2); lia.
Qed.

Lemma digits2_pos_iter p k :
  Zpos (digits2_pos (Pos.iter xO p k)) = Zpos (digits2_pos p) + Zpos k.
Proof.
  induction k as [|k IH] using Pos.peano_ind; simpl; [lia|].
  rewrite Pos.iter_succ. simpl. lia.
Qed.

Lemma iter_xO_value p k : Zpos (Pos.iter xO p k) = Zpos p * 2 ^ Zpos k.
Proof.
  induction k as [|k IH] using Pos.peano_ind; [simpl; lia|].
  rewrite Pos.iter_succ, Pos2Z.inj_succ, Z.pow_succ_r by lia. lia.
Qed.

(** A mantissa of exactly 53 bits is not rounded. *)
Lemma binary_round_aux_53 s m e :
  Zpos (digits2_pos m) = 53 → -1074 ≤ e ≤ 971 →
  binary_round_aux prec64 emax64 s (Zpos m) e loc_Exact = S754_finite s m e.
Proof.
  intros Hd He. unfold binary_round_aux, shr_fexp. cbn [Zdigits2]. rewrite Hd.
  assert (fexp prec64 emax64 (53 + e) - e = 0) as -> by (unfold fexp, emin; lia).
  cbn [shr shr_record_of_loc loc_of_shr_record shr_m round_nearest_even Zdigits2].
  rewrite Hd. assert (fexp prec64 emax64 (53 + e) - e = 0) as -> by (unfold fexp, emin; lia).
  cbn [shr shr_record_of_loc shr_m].
  destruct (Z.leb_spec e (emax64 - prec64)); [done|lia].
Qed.

Lemma binary_round_small s p :
  Zpos p < 2 ^ 53 →
  ∃ m e, binary_round prec64 emax64 s p 0 = S754_finite s m e
         ∧ -52 ≤ e ≤ 0 ∧ Zpos m = Zpos p * 2 ^ (- e).
Proof.
  intros Hp. pose proof (digits2_pos_le p 53 ltac:(lia) Hp) as Hd.
  unfold binary_round. rewrite Z.add_0_r.
  assert (fexp prec64 emax64 (Zpos (digits2_pos p)) = Zpos (digits2_pos p) - 53) as ->
    by (unfold fexp, emin; lia).
  unfold shl_align. rewrite Z.sub_0_r.
  destruct (Zpos (digits2_pos p) - 53) as [|k|k] eqn:E; [|lia|].
  - exists p, 0. rewrite binary_round_aux_53 by lia. simpl. split; [done|lia].
  - exists (Pos.iter xO p k), (Zneg k). rewrite binary_round_aux_53.
    + split; [done|]. split; [lia|]. apply iter_xO_value.
    + rewrite digits2_pos_iter. lia.
    + lia.
Qed.

Lemma Ztrunc_pos_exact m e n :
  e ≤ 0 → Zpos m = n * 2 ^ (- e) → Ztrunc_pos m e = n.
Proof.
  intros He Hm. unfold Ztrunc_pos. destruct (Z.leb_spec 0 e).
  - replace e with 0 in * by lia. simpl in *. lia.
  - rewrite Hm. apply Z.div_mul, Z.pow_nonzero; lia.
Qed.

Lemma millionths_exact m e n :
  e ≤ 0 → Zpos m = n * 2 ^ (- e) → millionths m e = n * 10 ^ 6.
Proof.
  intros He Hm. unfold millionths. destruct (Z.leb_spec 0 e).
  - replace e with 0 in * by lia. simpl in *. lia.
  - rewrite Hm. unfold div_nearest_even.
    replace (n * 2 ^ (- e) * 10 ^ 6) with (n * 10 ^ 6 * 2 ^ (- e)) by lia.
    assert (0 < 2 ^ (- e)) by (apply Z.pow_pos_nonneg; lia).
    rewrite Z.div_mul by lia. rewrite Z.mod_mul by lia.
    destruct (Z.compare_spec (2 * 0) (2 ^ (- e))); lia.
Qed.

Lemma double_of_Z_small z :
  Z.abs z < 2 ^ 53 →
  z = 0 ∧ double_of_Z z = S754_zero false ∨
  ∃ m e, double_of_Z z = S754_finite (z <? 0) m e
         ∧ -52 ≤ e ≤ 0 ∧ Zpos m = Z.abs z * 2 ^ (- e).
Proof.
  intros Hz. destruct z as [|p|p]; [by left|right..];
    destruct (binary_round_small false p) as (m & e & H1 & H2); try lia;
    destruct (binary_round_small true p) as (m' & e' & H1' & H2'); try lia.
  - by exists m, e.
  - by exists m', e'.
Qed.

(** Integers below [2 ^ 53] survive the conversion to [double] and back when
    they fit. *)
Lemma cast_range_of_Z lo hi z :
  Z.abs z < 2 ^ 53 → lo ≤ 0 < hi →
  cast_range lo hi (double_of_Z z) = if (lo <=? z) && (z <? hi) then Ok z else Undef.
Proof.
  intros Hz Hr. destruct (double_of_Z_small z Hz) as [[-> ->]|(m & e & -> & He & Hm)].
  - cbn [cast_range]. destruct (Z.leb_spec lo 0), (Z.ltb_spec 0 hi); done || lia.
  - unfold cast_range. rewrite (Ztrunc_pos_exact m e (Z.abs z)) by (done || lia).
    assert ((if z <? 0 then -1 else 1) * Z.abs z = z) as -> by (destruct (Z.ltb_spec z 0); lia).
    done.
Qed.

