(* ===== verification/Json.v ===== *)
(** [core/include/wininspect/tinyjson.hpp]: JSON values, the recursive-descent
    parser and the key-sorted serializer. *)

From S2P Require Import Prelude StdMap CString Double.

Local Open Scope Z_scope.

(** * Values *)

(** [json::Value], a variant of [Null], [bool], [double], [std::string],
    [Array] and [Object]; an object is a [std::map<std::string, Value>]. *)
#[local] Unset Elimination Schemes.
Inductive Value : Type :=
| JNull
| JBool (b : bool)
| JNum (d : double)
| JStr (s : string)
| JArr (l : list Value)
| JObj (o : list (string * Value)).
#[local] Set Elimination Schemes.

Abbreviation Object := (list (string * Value)).

Section Value_ind.
Variable P : Value → Prop.
Hypothesis HNull : P JNull.
Hypothesis HBool : ∀ b, P (JBool b).
Hypothesis HNum : ∀ d, P (JNum d).
Hypothesis HStr : ∀ s, P (JStr s).
Hypothesis HArr : ∀ l, Forall P l → P (JArr l).
Hypothesis HObj : ∀ o, Forall (λ kv, P kv.2) o → P (JObj o).

Fixpoint Value_ind' (v : Value) : P v :=
  match v with
  | JNull => HNull
  | JBool b => HBool b
  | JNum d => HNum d
  | JStr s => HStr s
  | JArr l => HArr l
      ((fix go (l : list Value) : Forall P l :=
          match l with [] => Forall_nil_2 P | v :: l' => Forall_cons_2 P v l' (Value_ind' v) (go l') end) l)
  | JObj o => HObj o
      ((fix go (o : Object) : Forall (λ kv, P kv.2) o :=
          match o with
          | [] => Forall_nil_2 _
          | kv :: o' => Forall_cons_2 _ kv o' (Value_ind' kv.2) (go o')
          end) o)
  end.
End Value_ind.

Definition is_str (v : Value) : bool := match v with JStr _ => true | _ => false end.
Definition is_obj (v : Value) : bool := match v with JObj _ => true | _ => false end.
Definition is_arr (v : Value) : bool := match v with JArr _ => true | _ => false end.
Definition is_bool (v : Value) : bool := match v with JBool _ => true | _ => false end.
Definition is_num (v : Value) : bool := match v with JNum _ => true | _ => false end.

(** The accessors are [std::get], which throws on another alternative. *)
Definition bad_variant_access {A} : result A := Throw "bad variant access".
Definition as_obj (v : Value) : result Object :=
  match v with JObj o => Ok o | _ => bad_variant_access end.
Definition as_arr (v : Value) : result (list Value) :=
  match v with JArr l => Ok l | _ => bad_variant_access end.
Definition as_str (v : Value) : result string :=
  match v with JStr s => Ok s | _ => bad_variant_access end.
Definition as_num (v : Value) : result double :=
  match v with JNum d => Ok d | _ => bad_variant_access end.
Definition as_bool (v : Value) : result bool :=
  match v with JBool b => Ok b | _ => bad_variant_access end.

(** [o.at(k)]. *)
Definition obj_at (k : string) (o : Object) : result Value :=
  or_throw "invalid map<K, T> key" (map_find k o).

(** Every object of the value has strictly increasing keys, the invariant that
    [std::map] maintains. *)
Fixpoint value_ok (v : Value) : Prop :=
  match v with
  | JArr l => (fix go (l : list Value) := match l with [] => True | v :: l' => value_ok v ∧ go l' end) l
  | JObj o =>
      map_ok o ∧
      (fix go (o : Object) := match o with [] => True | kv :: o' => value_ok kv.2 ∧ go o' end) o
  | _ => True
  end.

(** * Parser *)

(** The parser's state is the text from [i_] on. *)
Abbreviation Parser := (M string).

Definition dquote : ascii := Ascii.Ascii false true false false false true false false.
(** Text of the source that has quotation marks, written with apostrophes. *)
Definition quoted (s : string) : string := str_map (λ c, if ascii_eqb c "'" then dquote else c) s.
Definition backslash : ascii := "\"%char.
Definition nul : ascii := Ascii.zero.

Definition skip_ws : Parser () := modify (skip_while isspace).

Definition peek : Parser ascii :=
  gets (λ s, match s with String c _ => c | EmptyString => nul end).

Definition get : Parser ascii := λ s,
  match s with
  | String c s' => (Ok c, s')
  | EmptyString => (Throw "unexpected end", EmptyString)
  end.

Definition hexval (c : ascii) : Z :=
  if (code "0" <=? code c) && (code c <=? code "9") then code c - code "0"
  else if (code "a" <=? code c) && (code c <=? code "f") then 10 + (code c - code "a")
  else if (code "A" <=? code c) && (code c <=? code "F") then 10 + (code c - code "A")
  else -1.

Definition push_back (out : string) (c : ascii) : string := out +:+ String c EmptyString.

(** UTF-8 of a 16-bit code, as the escape decoder writes it. *)
Definition utf8_bmp (cp : Z) : string :=
  if cp <? 0x80 then String (chr cp) EmptyString
  else if cp <? 0x800 then
    String (chr (Z.lor 0xC0 (Z.shiftr cp 6)))
      (String (chr (Z.lor 0x80 (Z.land cp 0x3F))) EmptyString)
  else
    String (chr (Z.lor 0xE0 (Z.shiftr cp 12)))
      (String (chr (Z.lor 0x80 (Z.land (Z.shiftr cp 6) 0x3F)))
         (String (chr (Z.lor 0x80 (Z.land cp 0x3F))) EmptyString)).

(** The characters an escape adds, after the backslash. *)
Definition parse_escape : Parser string :=
  e ← get;
  if ascii_eqb e dquote then mret (String dquote EmptyString)
  else if ascii_eqb e backslash then mret (String backslash EmptyString)
  else if ascii_eqb e "/" then mret "/"
  else if ascii_eqb e "b" then mret (String (chr 8) EmptyString)
  else if ascii_eqb e "f" then mret (String (chr 12) EmptyString)
  else if ascii_eqb e "n" then mret (String (chr 10) EmptyString)
  else if ascii_eqb e "r" then mret (String (chr 13) EmptyString)
  else if ascii_eqb e "t" then mret (String (chr 9) EmptyString)
  else if ascii_eqb e "u" then
    c1 ← get; c2 ← get; c3 ← get; c4 ← get;
    let h1 := hexval c1 in let h2 := hexval c2 in
    let h3 := hexval c3 in let h4 := hexval c4 in
    if (h1 <? 0) || (h2 <? 0) || (h3 <? 0) || (h4 <? 0)
    then throw "bad unicode escape"
    else mret (utf8_bmp (Z.lor (Z.lor (Z.lor (Z.shiftl h1 12) (Z.shiftl h2 8)) (Z.shiftl h3 4)) h4))
  else throw "bad escape".

Fixpoint string_loop (fuel : nat) (out : string) : Parser string :=
  match fuel with
  | O => lift_result OutOfFuel
  | S fuel =>
      c ← get;
      if ascii_eqb c dquote then mret out
      else if ascii_eqb c backslash then
        e ← parse_escape; string_loop fuel (out +:+ e)
      else string_loop fuel (push_back out c)
  end.

Definition parse_string (fuel : nat) : Parser string :=
  c ← get;
  if ascii_eqb c dquote then string_loop fuel EmptyString
  else throw ("expected '" +:+ String dquote "'").

(** [parse_true], [parse_false], [parse_null]: the next characters are the
    word. *)
Definition parse_word (w what : string) (v : Value) : Parser Value :=
  s ← get_st;
  if bool_decide (str_take (String.length w) s = w)
  then _ ← modify (str_drop (String.length w)); mret v
  else throw what.

Definition parse_true : Parser Value := parse_word "true" "expected true" (JBool true).
Definition parse_false : Parser Value := parse_word "false" "expected false" (JBool false).
Definition parse_null : Parser Value := parse_word "null" "expected null" JNull.

(** [if (!isdigit(peek())) throw; while (isdigit(peek())) get();] *)
Definition digits1 : Parser () :=
  c ← peek;
  if isdigit c then modify (skip_while isdigit) else throw "bad number".

Definition get_if (p : ascii → bool) : Parser bool :=
  c ← peek;
  if p c then _ ← get; mret true else mret false.

(** The three parts of a number: a zero or digits, a fraction, an exponent. *)
Definition int_part : Parser () :=
  zero ← get_if (λ c, ascii_eqb c "0");
  if zero : bool then mret () else digits1.

Definition frac_part : Parser () :=
  dot ← get_if (λ c, ascii_eqb c ".");
  if dot : bool then digits1 else mret ().

Definition exp_part : Parser () :=
  e ← get_if (λ c, ascii_eqb c "e" || ascii_eqb c "E");
  if e : bool then _ ← get_if (λ c, ascii_eqb c "+" || ascii_eqb c "-"); digits1
  else mret ().

Definition parse_number : Parser Value :=
  start ← get_st;
  _ ← get_if (λ c, ascii_eqb c "-");
  _ ← int_part;
  _ ← frac_part;
  _ ← exp_part;
  stop ← get_st;
  d ← lift_result (stod (str_take (String.length start - String.length stop) start));
  mret (JNum d).

(** The loops of [parse_object] and [parse_array], over the parser for the
    nested values. *)
Section Loops.
Variable parse_value : Parser Value.
Variable sfuel : nat.

Fixpoint object_loop (fuel : nat) (obj : Object) : Parser Value :=
  match fuel with
  | O => lift_result OutOfFuel
  | S fuel =>
      _ ← skip_ws;
      c ← peek;
      if negb (ascii_eqb c dquote) then throw "expected string key" else
      key ← parse_string sfuel;
      _ ← skip_ws;
      c ← get;
      if negb (ascii_eqb c ":") then throw "expected ':'" else
      _ ← skip_ws;
      v ← parse_value;
      let obj := map_emplace key v obj in
      _ ← skip_ws;
      c ← get;
      if ascii_eqb c "}" then mret (JObj obj)
      else if negb (ascii_eqb c ",") then throw "expected ',' or '}'"
      else _ ← skip_ws; object_loop fuel obj
  end.

Definition parse_object (fuel : nat) : Parser Value :=
  _ ← get;
  _ ← skip_ws;
  c ← peek;
  if ascii_eqb c "}" then _ ← get; mret (JObj []) else object_loop fuel [].

Fixpoint array_loop (fuel : nat) (arr : list Value) : Parser Value :=
  match fuel with
  | O => lift_result OutOfFuel
  | S fuel =>
      _ ← skip_ws;
      v ← parse_value;
      let arr := arr ++ [v] in
      _ ← skip_ws;
      c ← get;
      if ascii_eqb c "]" then mret (JArr arr)
      else if negb (ascii_eqb c ",") then throw "expected ',' or ']'"
      else _ ← skip_ws; array_loop fuel arr
  end.

Definition parse_array (fuel : nat) : Parser Value :=
  _ ← get;
  _ ← skip_ws;
  c ← peek;
  if ascii_eqb c "]" then _ ← get; mret (JArr []) else array_loop fuel [].
End Loops.

Fixpoint parse_value (fuel : nat) : Parser Value :=
  match fuel with
  | O => lift_result OutOfFuel
  | S fuel =>
      c ← peek;
      if ascii_eqb c "{" then parse_object (parse_value fuel) fuel fuel
      else if ascii_eqb c "[" then parse_array (parse_value fuel) fuel
      else if ascii_eqb c dquote then s ← parse_string fuel; mret (JStr s)
      else if ascii_eqb c "t" then parse_true
      else if ascii_eqb c "f" then parse_false
      else if ascii_eqb c "n" then parse_null
      else if ascii_eqb c "-" || isdigit c then parse_number
      else throw "invalid value"
  end.

(** [Parser(s).parse()]; one unit of fuel per character and one more is always
    enough ([json_parse_fuel]). *)
Definition parse_all (fuel : nat) : Parser Value :=
  _ ← skip_ws;
  v ← parse_value fuel;
  _ ← skip_ws;
  s ← get_st;
  if is_empty s then mret v else throw "trailing characters".

Definition json_parse (s : string) : result Value :=
  (parse_all (S (String.length s)) s).1.

(** * Serializer *)

Definition lower_hex (d : Z) : ascii := if d <? 10 then chr (48 + d) else chr (87 + d).

Definition dump_char (c : ascii) : string :=
  if ascii_eqb c dquote then String backslash (String dquote EmptyString)
  else if ascii_eqb c backslash then String backslash (String backslash EmptyString)
  else if code c =? 8 then "\b"
  else if code c =? 12 then "\f"
  else if code c =? 10 then "\n"
  else if code c =? 13 then "\r"
  else if code c =? 9 then "\t"
  else if code c <? 0x20 then
    "\u00" +:+ String (lower_hex (code c / 16)) (String (lower_hex (code c mod 16)) EmptyString)
  else String c EmptyString.

Fixpoint dump_chars (s : string) : string :=
  match s with
  | EmptyString => EmptyString
  | String c s' => dump_char c +:+ dump_chars s'
  end.

Definition dump_string (s : string) : string :=
  String dquote (dump_chars s +:+ String dquote EmptyString).

Fixpoint str_back (s : string) : option ascii :=
  match s with
  | EmptyString => None
  | String c EmptyString => Some c
  | String _ s' => str_back s'
  end.

Fixpoint pop_back (s : string) : string :=
  match s with
  | EmptyString => EmptyString
  | String _ EmptyString => EmptyString
  | String c s' => String c (pop_back s')
  end.

Definition back_is (c : ascii) (s : string) : bool :=
  match str_back s with Some c' => ascii_eqb c c' | None => false end.

(** [while (s.size() > 1 && s.find('.') != npos && s.back() == '0') s.pop_back();] *)
Fixpoint trim_zeros (fuel : nat) (s : string) : string :=
  match fuel with
  | O => s
  | S fuel =>
      if (1 <? String.length s)%nat && contains "." s && back_is "0" s
      then trim_zeros fuel (pop_back s) else s
  end.

Definition dump_number (d : double) : string :=
  let s := double_to_string d in
  let s := trim_zeros (String.length s) s in
  if negb (is_empty s) && back_is "." s then pop_back s else s.

Section Dump.
Variable dump : Value → string.

Fixpoint dump_obj_go (first : bool) (o : Object) : string :=
  match o with
  | [] => "}"
  | (k, v) :: o' =>
      (if first then EmptyString else ",") +:+ dump_string k +:+ ":" +:+ dump v +:+ dump_obj_go false o'
  end.
Definition dump_obj (o : Object) : string := String "{" (dump_obj_go true o).

Fixpoint dump_arr_go (first : bool) (a : list Value) : string :=
  match a with
  | [] => "]"
  | v :: a' => (if first then EmptyString else ",") +:+ dump v +:+ dump_arr_go false a'
  end.
Definition dump_arr (a : list Value) : string := String "[" (dump_arr_go true a).
End Dump.

(** The text that [dump(out, v)] appends to [out]. *)
Fixpoint dump (v : Value) : string :=
  match v with
  | JNull => "null"
  | JBool b => if b then "true" else "false"
  | JNum d => dump_number d
  | JStr s => dump_string s
  | JArr a => dump_arr dump a
  | JObj o => dump_obj dump o
  end.

Definition dumps (v : Value) : string := dump v.
