(* ===== verification/JsonTotal.v ===== *)
(** The JSON parser is total and returns well-formed values: the fuel
    [json_parse] gives is enough on every text, and every object it builds has
    strictly increasing keys. *)

From S2P Require Import Prelude StdMap CString Double Json.

Local Open Scope nat_scope.

Abbreviation len := String.length.

(** [consumes n d Q m]: on texts of at most [n] characters, [m] either throws
    or returns a value in [Q] after consuming at least [d] characters. *)
Definition consumes {A} (n d : nat) (Q : A → Prop) (m : Parser A) : Prop :=
  ∀ s, len s ≤ n →
  match m s with
  | (Ok a, s') => len s' + d ≤ len s ∧ Q a
  | (Throw _, _) => True
  | _ => False
  end.

Lemma consumes_weaken {A} n d Q n' d' (Q' : A → Prop) m :
  consumes n d Q m → n' ≤ n → d' ≤ d → (∀ a, Q a → Q' a) → consumes n' d' Q' m.
Proof.
  intros Hm Hn Hd HQ s Hs. specialize (Hm s ltac:(lia)).
  destruct (m s) as [[] ?]; try done. destruct Hm. split; [lia|auto].
Qed.

Lemma consumes_bind {A B} n d1 d2 (Q1 : A → Prop) (Q2 : B → Prop) m k :
  consumes n d1 Q1 m →
  (∀ a, Q1 a → consumes (n - d1) d2 Q2 (k a)) →
  consumes n (d1 + d2) Q2 (m ≫= k).
Proof.
  intros Hm Hk s Hs. specialize (Hm s Hs). unfold mbind, M_bind.
  destruct (m s) as [[a| | |] s']; try done. destruct Hm as [Hl HQ].
  specialize (Hk a HQ s' ltac:(lia)). destruct (k a s') as [[] ?]; try done.
  destruct Hk. split; [lia|done].
Qed.

Lemma consumes_ret {A} n (Q : A → Prop) a : Q a → consumes n 0 Q (mret a).
Proof. intros ? s ?. split; [lia|done]. Qed.

Lemma consumes_throw {A} n d (Q : A → Prop) w : consumes n d Q (throw w).
Proof. by intros s ?. Qed.

Lemma consumes_if {A} n d (Q : A → Prop) (b : bool) m1 m2 :
  consumes n d Q m1 → consumes n d Q m2 → consumes n d Q (if b then m1 else m2).
Proof. by destruct b. Qed.

Lemma skip_while_length p s : len (skip_while p s) ≤ len s.
Proof. induction s as [|c s IH]; simpl; [lia|]. destruct (p c); simpl; lia. Qed.

Lemma consumes_modify n f : (∀ s, len (f s) ≤ len s) → consumes n 0 (λ _, True) (modify f).
Proof. intros Hf s ?. specialize (Hf s). split; [lia|done]. Qed.

Lemma consumes_skip_ws n : consumes n 0 (λ _, True) skip_ws.
Proof. apply consumes_modify, skip_while_length. Qed.

Lemma consumes_peek n : consumes n 0 (λ _, True) peek.
Proof. intros s ?. split; [lia|done]. Qed.

Lemma consumes_get_st n : consumes n 0 (λ _, True) get_st.
Proof. intros s ?. split; [lia|done]. Qed.

Lemma consumes_get n : consumes n 1 (λ _, True) get.
Proof. intros [|c s] ?; [done|]. simpl. split; [lia|done]. Qed.

Lemma consumes_get_if n p : consumes n 0 (λ _, True) (get_if p).
Proof.
  intros [|c s] ?; unfold get_if, peek, gets, mbind, M_bind; simpl.
  - by destruct (p nul); simpl; [|split; [lia|]].
  - destruct (p c); simpl; (split; [lia|done]).
Qed.

Lemma consumes_digits1 n : consumes n 1 (λ _, True) digits1.
Proof.
  intros [|c s] ?; unfold digits1, peek, gets, mbind, M_bind; simpl; [done|].
  destruct (isdigit c) eqn:E; simpl; [|done]. rewrite E.
  pose proof (skip_while_length isdigit s). split; [lia|done].
Qed.

Create HintDb parser.
#[export] Hint Resolve consumes_throw consumes_get_if consumes_digits1 consumes_get
  consumes_peek consumes_skip_ws consumes_get_st : parser.

Lemma consumes_bind_le {A B} n d d1 d2 (Q1 : A → Prop) (Q2 : B → Prop) m k :
  consumes n d1 Q1 m → d ≤ d1 + d2 →
  (∀ a, Q1 a → consumes (n - d1) d2 Q2 (k a)) →
  consumes n d Q2 (m ≫= k).
Proof.
  intros Hm Hd Hk. eapply consumes_weaken; [by eapply consumes_bind|lia|done|done].
Qed.

(** [pbind lem d2]: the first computation obeys [lem], the rest consumes [d2]. *)
Tactic Notation "pbind" uconstr(lem) constr(d2) :=
  eapply (consumes_bind_le _ _ _ d2); [eapply lem|lia|intros ? ?].

Lemma consumes_escape n : consumes n 1 (λ _, True) parse_escape.
Proof.
  unfold parse_escape. pbind consumes_get 0.
  repeat (apply consumes_if; [by apply consumes_ret|]).
  apply consumes_if; [|apply consumes_throw].
  do 4 (pbind consumes_get 0).
  apply consumes_if; [apply consumes_throw|by apply consumes_ret].
Qed.

Lemma consumes_string_loop fuel out n :
  n < fuel → consumes n 1 (λ _, True) (string_loop fuel out).
Proof.
  revert out n. induction fuel as [|f IH]; intros out n Hn; [lia|]. cbn [string_loop].
  destruct n as [|n]; [intros [|]; done || (simpl; lia)|].
  pbind consumes_get 0. apply consumes_if; [by apply consumes_ret|].
  apply consumes_if.
  - pbind consumes_escape 0. eapply consumes_weaken; [apply (IH _ (S n - 1 - 1))|..]; lia || done.
  - eapply consumes_weaken; [apply (IH _ (S n - 1))|..]; lia || done.
Qed.

Lemma consumes_parse_string fuel n :
  n ≤ fuel → consumes n 1 (λ _, True) (parse_string fuel).
Proof.
  intros Hn. destruct n as [|n]; [intros [|]; done || (simpl; lia)|].
  unfold parse_string. pbind consumes_get 0.
  apply consumes_if; [|apply consumes_throw].
  eapply consumes_weaken; [apply (consumes_string_loop _ _ (S n - 1))|..]; lia || done.
Qed.

Lemma str_take_drop_length k s : len (str_take k s) + len (str_drop k s) = len s.
Proof. revert s. induction k as [|k IH]; intros [|c s]; simpl; auto. Qed.

Lemma consumes_parse_word n w what v :
  value_ok v → consumes n (len w) value_ok (parse_word w what v).
Proof.
  intros Hv s Hs. unfold parse_word, get_st, mbind, M_bind.
  case_bool_decide as E; [|done]. simpl. split; [|done].
  pose proof (str_take_drop_length (len w) s) as Hl. rewrite E in Hl. lia.
Qed.

Lemma stod_total s : match stod s with Ok _ | Throw _ => True | _ => False end.
Proof.
  unfold stod. destruct (read_sign _) as [neg s1]. destruct (read_digits _ _ _ s1) as [m1 s2].
  destruct (read_digits _ _ m1 _) as [m2 s3].
  destruct (_ || _); [|done]. destruct (decimal_to_double _ _ _); try done.
  by destruct (m2 =? 0)%Z.
Qed.

Lemma consumes_int_part n : consumes n 1 (λ _, True) int_part.
Proof.
  intros [|c t] Ht; unfold int_part, get_if, peek, gets, mbind, M_bind; simpl; [done|].
  destruct (ascii_eqb c "0"); simpl; [split; [lia|done]|].
  apply (consumes_digits1 (S (len t)) (String c t)). simpl. lia.
Qed.

Lemma consumes_frac_part n : consumes n 0 (λ _, True) frac_part.
Proof.
  unfold frac_part. pbind consumes_get_if 0.
  apply consumes_if; [|by apply consumes_ret].
  eapply consumes_weaken; [apply consumes_digits1|..]; lia || done.
Qed.

Lemma consumes_exp_part n : consumes n 0 (λ _, True) exp_part.
Proof.
  unfold exp_part. pbind consumes_get_if 0.
  apply consumes_if; [|by apply consumes_ret]. pbind consumes_get_if 0.
  eapply consumes_weaken; [apply consumes_digits1|..]; lia || done.
Qed.

Lemma consumes_stod n t : consumes n 0 (λ _, True) (lift_result (stod t)).
Proof.
  intros s ?. unfold lift_result. pose proof (stod_total t).
  destruct (stod t); try done. split; [lia|done].
Qed.

Lemma consumes_parse_number n : consumes n 1 value_ok parse_number.
Proof.
  unfold parse_number. pbind consumes_get_st 1. pbind consumes_get_if 1.
  pbind consumes_int_part 0. pbind consumes_frac_part 0. pbind consumes_exp_part 0.
  pbind consumes_get_st 0. pbind consumes_stod 0. by apply consumes_ret.
Qed.

(** Well-formedness of arrays and objects from that of their parts. *)
Lemma value_ok_arr l : value_ok (JArr l) ↔ Forall value_ok l.
Proof.
  simpl. induction l as [|v l IH]; [by split|]. rewrite Forall_cons, <-IH. done.
Qed.

Lemma value_ok_obj o : value_ok (JObj o) ↔ map_ok o ∧ Forall (λ kv, value_ok kv.2) o.
Proof.
  simpl. apply and_iff_compat_l.
  induction o as [|v o IH]; [by split|]. rewrite Forall_cons, <-IH. done.
Qed.

Lemma value_ok_set k v o : value_ok (JObj o) → value_ok v → value_ok (JObj (map_set k v o)).
Proof.
  rewrite !value_ok_obj. intros [Hm Ho] Hv. split; [by apply map_set_ok|]. clear Hm.
  induction Ho as [|[k' v'] o Hv' Ho IH]; simpl.
  - by constructor.
  - destruct (String.compare k k'); auto using Forall_cons_2.
Qed.

Lemma value_ok_emplace k v o :
  value_ok (JObj o) → value_ok v → value_ok (JObj (map_emplace k v o)).
Proof. unfold map_emplace. destruct (map_find k o); auto using value_ok_set. Qed.

Section Loops.
Context (pv : Parser Value) (n : nat).
Context (Hpv : consumes n 1 value_ok pv).

Lemma consumes_pv m : m ≤ n → consumes m 1 value_ok pv.
Proof. intros. eapply consumes_weaken; [apply Hpv|..]; lia || done. Qed.

Lemma consumes_array_loop fuel arr m :
  m < fuel → m ≤ n → value_ok (JArr arr) → consumes m 1 value_ok (array_loop pv fuel arr).
Proof.
  revert arr m. induction fuel as [|f IH]; intros arr m Hf Hn Harr; [lia|]. cbn [array_loop].
  destruct m as [|m].
  { intros [|c s] Hs; [|simpl in Hs; lia].
    specialize (Hpv EmptyString ltac:(simpl; lia)). unfold mbind, M_bind, skip_ws, modify.
    cbn [skip_while]. destruct (pv EmptyString) as [[v| | |] s']; try done.
    simpl in Hpv. lia. }
  pbind consumes_skip_ws 1. pbind (consumes_pv (S m - 0)) 0; [lia|].
  pbind consumes_skip_ws 0. pbind consumes_get 0.
  assert (value_ok (JArr (arr ++ [a0]))).
  { apply value_ok_arr. apply Forall_app. split; [by apply value_ok_arr|by constructor]. }
  apply consumes_if; [by apply consumes_ret|]. apply consumes_if; [apply consumes_throw|].
  pbind consumes_skip_ws 0.
  eapply consumes_weaken; [apply (IH _ (m - 1))|..]; lia || done.
Qed.

Lemma consumes_object_loop sfuel fuel obj m :
  m < fuel → m ≤ sfuel → m ≤ n → value_ok (JObj obj) →
  consumes m 1 value_ok (object_loop pv sfuel fuel obj).
Proof.
  revert obj m. induction fuel as [|f IH]; intros obj m Hf Hsf Hn Hobj; [lia|].
  assert (m = 0 ∨ 0 < m) as [->|Hpos] by lia.
  { intros [|c s] Hs; [done|simpl in Hs; lia]. }
  cbn [object_loop]. pbind consumes_skip_ws 1. pbind consumes_peek 1.
  apply consumes_if; [apply consumes_throw|].
  pbind consumes_parse_string 0; [lia|]. pbind consumes_skip_ws 0. pbind consumes_get 0.
  apply consumes_if; [apply consumes_throw|]. pbind consumes_skip_ws 0.
  pbind consumes_pv 0; [lia|]. pbind consumes_skip_ws 0. pbind consumes_get 0.
  apply consumes_if; [by apply consumes_ret, value_ok_emplace|].
  apply consumes_if; [apply consumes_throw|]. pbind consumes_skip_ws 0.
  eapply consumes_weaken; [apply (IH _ (m - 4))|..]; try (lia || done).
  by apply value_ok_emplace.
Qed.
End Loops.

Lemma consumes_parse_value fuel n : n < fuel → consumes n 1 value_ok (parse_value fuel).
Proof.
  revert n. induction fuel as [|f IH]; intros n Hn; [lia|]. cbn [parse_value].
  assert (n = 0 ∨ 0 < n) as [->|Hpos] by lia.
  { intros [|c s] Hs; [|simpl in Hs; lia]. done. }
  pbind consumes_peek 1. apply consumes_if.
  { unfold parse_object. pbind consumes_get 0. pbind consumes_skip_ws 0. pbind consumes_peek 0.
    apply consumes_if.
    - pbind consumes_get 0. apply consumes_ret. repeat constructor.
    - eapply consumes_weaken;
        [apply (consumes_object_loop _ (n - 1)) with (m := n - 1)|..]; try lia; try done.
      { apply IH. lia. } repeat constructor. }
  apply consumes_if.
  { unfold parse_array. pbind consumes_get 0. pbind consumes_skip_ws 0. pbind consumes_peek 0.
    apply consumes_if.
    - pbind consumes_get 0. apply consumes_ret. repeat constructor.
    - eapply consumes_weaken;
        [apply (consumes_array_loop _ (n - 1)) with (m := n - 1)|..]; try lia; try done.
      apply IH. lia. }
  apply consumes_if. { pbind consumes_parse_string 0; [lia|]. by apply consumes_ret. }
  apply consumes_if. { eapply consumes_weaken; [by apply consumes_parse_word|..]; simpl; lia || done. }
  apply consumes_if. { eapply consumes_weaken; [by apply consumes_parse_word|..]; simpl; lia || done. }
  apply consumes_if. { eapply consumes_weaken; [by apply consumes_parse_word|..]; simpl; lia || done. }
  apply consumes_if; [|apply consumes_throw].
  eapply consumes_weaken; [apply consumes_parse_number|..]; lia || done.
Qed.

Lemma json_parse_consumes s :
  match json_parse s with Ok v => value_ok v | Throw _ => True | _ => False end.
Proof.
  assert (consumes (len s) 1 value_ok (parse_all (S (len s)))) as Hc.
  { unfold parse_all. pbind consumes_skip_ws 1.
    pbind consumes_parse_value 0; [lia|]. pbind consumes_skip_ws 0. pbind consumes_get_st 0.
    apply consumes_if; [by apply consumes_ret|apply consumes_throw]. }
  specialize (Hc s ltac:(lia)). unfold json_parse.
  destruct (parse_all (S (len s)) s) as [[] ?]; simpl in *; tauto.
Qed.

(** C1: [json::parse] is total on every text: it either returns a value all of
    whose objects have strictly increasing keys (the [std::map] invariant), or
    throws; the fuel the model gives the loops and the recursion (one unit per
    character) is never exhausted and no conversion is undefined. *)
Theorem json_parse_total s :
  (∃ v, json_parse s = Ok v ∧ value_ok v) ∨ (∃ what, json_parse s = Throw what).
Proof. pose proof (json_parse_consumes s). destruct (json_parse s); naive_solver. Qed.
