(* ===== verification/JsonRoundtrip.v ===== *)
(** Parsing what the serializer wrote gives the value back. *)

From S2P Require Import Prelude StdMap CString Double Json JsonTotal.

Local Open Scope Z_scope.

(** * Strings *)

Lemma string_loop_char f out c t :
  string_loop (S f) out (dump_char c +:+ t) = string_loop f (push_back out c) t.
Proof. destruct c as [[] [] [] [] [] [] [] []]; reflexivity. Qed.

Lemma push_back_app out c s : push_back out c +:+ s = out +:+ String c s.
Proof. unfold push_back. by rewrite str_app_assoc. Qed.

Lemma string_loop_dump s f out rest :
  (len s < f)%nat →
  string_loop f out (dump_chars s +:+ String dquote rest) = (Ok (out +:+ s), rest).
Proof.
  revert f out. induction s as [|c s IH]; intros f out Hf; (destruct f as [|f]; [simpl in *; lia|]).
  - cbn. by rewrite str_app_nil_r.
  - cbn [dump_chars]. rewrite str_app_assoc, string_loop_char, IH by (simpl in *; lia).
    by rewrite push_back_app.
Qed.

Lemma dump_char_nonempty c : (1 ≤ len (dump_char c))%nat.
Proof. destruct c as [[] [] [] [] [] [] [] []]; vm_compute; lia. Qed.

Lemma dump_chars_length s : (len s ≤ len (dump_chars s))%nat.
Proof.
  induction s as [|c s IH]; simpl; [lia|]. rewrite str_length_app.
  pose proof (dump_char_nonempty c). lia.
Qed.

Lemma dump_string_app s rest :
  dump_string s +:+ rest = String dquote (dump_chars s +:+ String dquote rest).
Proof. unfold dump_string. by rewrite str_app_cons, str_app_assoc. Qed.

Lemma dump_string_length s : (len s + 2 ≤ len (dump_string s))%nat.
Proof.
  unfold dump_string. simpl. rewrite str_length_app. simpl.
  pose proof (dump_chars_length s). lia.
Qed.

Lemma parse_string_dump s f rest :
  (len (dump_string s) ≤ S f)%nat →
  parse_string f (dump_string s +:+ rest) = (Ok s, rest).
Proof.
  intros Hf. pose proof (dump_string_length s). rewrite dump_string_app.
  unfold parse_string, mbind, M_bind. cbn [get].
  change (ascii_eqb dquote dquote) with true. cbv beta iota.
  by rewrite string_loop_dump by lia.
Qed.

(** * Numbers *)

Lemma str_back_snoc s c : str_back (s +:+ String c EmptyString) = Some c.
Proof. induction s as [|a [|b s] IH]; done. Qed.

Lemma pop_back_snoc s c : pop_back (s +:+ String c EmptyString) = s.
Proof.
  assert (∀ a t, t ≠ EmptyString → pop_back (String a t) = String a (pop_back t)) as Hp
    by by intros a [].
  induction s as [|a s IH]; [done|]. rewrite str_app_cons, Hp, IH; [done|].
  by destruct s.
Qed.

Lemma starts_with_app p t : starts_with p (p +:+ t) = true.
Proof.
  induction p as [|c p IH]; [done|]. rewrite str_app_cons. cbn [starts_with].
  rewrite IH. by rewrite (proj2 (ascii_eqb_eq c c) eq_refl).
Qed.

Lemma contains_app s p t : contains p (s +:+ (p +:+ t)) = true.
Proof.
  unfold contains. induction s as [|c s IH].
  - rewrite str_app_nil_l. destruct (p +:+ t) eqn:E; simpl; rewrite <-E, starts_with_app; done.
  - rewrite str_app_cons. cbn [str_find]. destruct (starts_with _ _); [done|].
    by destruct (str_find p (s +:+ (p +:+ t))).
Qed.

Fixpoint zeros (k : nat) : string :=
  match k with O => EmptyString | S k' => String "0" (zeros k') end.

Lemma zeros_snoc k : zeros (S k) = zeros k +:+ "0".
Proof. induction k as [|k IH]; [done|]. simpl in *. by rewrite IH at 1. Qed.

Lemma zeros_length k : len (zeros k) = k.
Proof. induction k as [|k IH]; simpl; lia. Qed.

Lemma trim_zeros_frac k f s :
  (k ≤ f)%nat → s ≠ EmptyString → trim_zeros f (s +:+ ("." +:+ zeros k)) = s +:+ ".".
Proof.
  intros Hf Hs. revert f Hf. induction k as [|k IH]; intros f Hf.
  - change ("." +:+ zeros 0) with ("."). destruct f as [|f]; [done|]. cbn [trim_zeros].
    unfold back_is. rewrite str_back_snoc. by rewrite andb_false_r.
  - destruct f as [|f]; [lia|]. cbn [trim_zeros]. rewrite contains_app.
    rewrite zeros_snoc, <-!str_app_assoc. unfold back_is. rewrite str_back_snoc, pop_back_snoc.
    replace (_ <? _)%nat with true; [|symmetry; apply Nat.ltb_lt; rewrite !str_length_app;
      destruct s; simpl; done || lia].
    cbn. rewrite str_app_assoc. apply IH. lia.
Qed.

Lemma dump_number_of_text d s k :
  s ≠ EmptyString → double_to_string d = s +:+ ("." +:+ zeros k) → dump_number d = s.
Proof.
  intros Hs Hd. unfold dump_number. rewrite Hd.
  pose proof (zeros_length k).
  rewrite trim_zeros_frac by (done || (rewrite !str_length_app; simpl; lia)).
  unfold back_is. rewrite str_back_snoc, pop_back_snoc.
  by destruct s.
Qed.

Lemma Z_to_string_abs z :
  Z_to_string z = sign_text (z <? 0) +:+ print_base 10 (Z.abs z).
Proof. unfold Z_to_string. destruct (Z.ltb_spec z 0); simpl; rewrite ?Z.abs_neq, ?Z.abs_eq by lia; done. Qed.

Lemma print_base_nonempty n : 0 ≤ n → print_base 10 n ≠ EmptyString.
Proof. intros Hn. destruct (print_base_head 10 n) as (d & r & _ & ->); done || lia. Qed.

Lemma Z_to_string_nonempty z : Z_to_string z ≠ EmptyString.
Proof.
  rewrite Z_to_string_abs. pose proof (print_base_nonempty (Z.abs z) ltac:(lia)).
  by destruct (z <? 0), (print_base 10 (Z.abs z)).
Qed.

(** An integer below [2 ^ 53] is written as its decimal digits. *)
Lemma dump_number_Z z : Z.abs z < 2 ^ 53 → dump_number (double_of_Z z) = Z_to_string z.
Proof.
  intros Hz. destruct (double_of_Z_small z Hz) as [[-> ->]|(m & e & E & He & Hm)]; [done|].
  apply (dump_number_of_text _ _ 6); [apply Z_to_string_nonempty|].
  rewrite E. cbn [double_to_string]. rewrite (millionths_exact m e (Z.abs z)) by (done || lia).
  rewrite Z.div_mul, Z.mod_mul by done. rewrite Z_to_string_abs, str_app_assoc. done.
Qed.

Lemma read_digits_rest b acc s : (read_digits dec_digit b acc s).2 = skip_while isdigit s.
Proof.
  revert acc. induction s as [|c s IH]; intros acc; [done|]. cbn [read_digits skip_while].
  unfold dec_digit at 1. destruct (isdigit c); [apply IH|done].
Qed.

Lemma head_dec_digit s :
  head_is (λ c, bool_decide (is_Some (dec_digit c))) s = head_is isdigit s.
Proof.
  destruct s as [|c s]; [done|]. simpl. destruct (isdigit c) eqn:E.
  - apply bool_decide_eq_true_2. by apply isdigit_dec_digit.
  - apply bool_decide_eq_false_2. rewrite <-isdigit_dec_digit. congruence.
Qed.

Lemma read_print_dec n rest :
  0 ≤ n → head_is isdigit rest = false →
  read_digits dec_digit 10 0 (print_base 10 n +:+ rest) = (n, rest).
Proof.
  intros Hn Hr. apply read_print_base; [apply dec_digit_char|lia|lia|]. by rewrite head_dec_digit.
Qed.

Lemma skip_digits_print n rest :
  0 ≤ n → head_is isdigit rest = false →
  skip_while isdigit (print_base 10 n +:+ rest) = rest.
Proof.
  intros Hn Hr. rewrite <-(read_digits_rest 10 0). by rewrite read_print_dec.
Qed.

Lemma print_base_go_lead fuel b n acc :
  1 < b → 0 < n < b ^ Z.of_nat fuel →
  ∃ d rest, 1 ≤ d < b ∧ print_base_go fuel b n acc = String (digit_char d) rest.
Proof.
  intros Hb. revert n acc. induction fuel as [|f IH]; intros n acc Hn; [simpl in Hn; lia|].
  cbn [print_base_go]. destruct (Z.ltb_spec n b).
  - exists n, acc. rewrite Z.mod_small by lia. split; [lia|done].
  - apply IH. split; [apply Z.div_str_pos; lia|]. apply Z.div_lt_upper_bound; [lia|].
    rewrite <-Z.pow_succ_r by lia. rewrite <-Nat2Z.inj_succ. lia.
Qed.

(** The first digit of a positive number is not zero, so the parser does not
    take it for a lone [0]. *)
Lemma print_dec_lead n :
  0 < n → ∃ d rest, 1 ≤ d < 10 ∧ print_base 10 n = String (digit_char d) rest.
Proof.
  intros Hn. apply print_base_go_lead; [lia|]. split; [done|]. by apply log2_fuel; lia.
Qed.

(** The text after a number: not something a number could continue with. *)
Definition number_end (rest : string) : bool :=
  negb (head_is isdigit rest) &&
  negb (head_is (λ c, ascii_eqb c "." || (ascii_eqb c "e" || ascii_eqb c "E")) rest).

Lemma number_end_inv rest :
  number_end rest = true →
  head_is isdigit rest = false ∧ frac_part rest = (Ok (), rest) ∧ exp_part rest = (Ok (), rest).
Proof.
  unfold number_end. rewrite andb_true_iff, !negb_true_iff. intros [Hd Hh]. split; [done|].
  destruct rest as [|c rest]; [done|]. simpl in *.
  apply orb_false_iff in Hh as [Hdot He]. unfold frac_part, exp_part, get_if, mbind, M_bind. simpl.
  by rewrite Hdot, He.
Qed.

Lemma get_if_no p s :
  head_is p s = false → p nul = false → get_if p s = (Ok false, s).
Proof. destruct s as [|c s]; unfold get_if, mbind, M_bind; simpl; by intros -> || intros _ ->. Qed.

Lemma int_part_print n rest :
  0 ≤ n → head_is isdigit rest = false → int_part (print_base 10 n +:+ rest) = (Ok (), rest).
Proof.
  intros Hn Hr. assert (n = 0 ∨ 0 < n) as [->|Hpos] by lia; [done|].
  destruct (print_dec_lead n Hpos) as (d & r & Hd & E).
  pose proof (skip_digits_print n rest Hn Hr) as Hskip. rewrite E in Hskip |- *.
  rewrite str_app_cons in *. unfold int_part.
  assert (get_if (λ c, ascii_eqb c "0") (String (digit_char d) (r +:+ rest))
          = (Ok false, String (digit_char d) (r +:+ rest))) as Hg.
  { apply get_if_no; [|done]. simpl. clear -Hd. enum_lt 10 d; done || lia. }
  unfold mbind at 1, M_bind at 1. rewrite Hg.
  unfold digits1, peek, gets, modify, mbind, M_bind.
  assert (isdigit (digit_char d) = true) as ->.
  { apply isdigit_dec_digit. rewrite dec_digit_char by lia. eauto. }
  by rewrite Hskip.
Qed.

Lemma skip_while_none p s : head_is p s = false → skip_while p s = s.
Proof. destruct s as [|c s]; [done|]. simpl. by intros ->. Qed.

Lemma read_sign_print n rest :
  0 ≤ n → read_sign (skip_while isspace (print_base 10 n +:+ rest)) = (false, print_base 10 n +:+ rest).
Proof.
  intros Hn. destruct (print_base_head 10 n) as (d & r & Hd & ->); [lia..|].
  destruct (digit_char_plain d) as (Hs & Hm & Hp & _); [lia|].
  rewrite str_app_cons, skip_while_none by done. simpl.
  by rewrite !ascii_eqb_ne.
Qed.

Lemma read_sign_Z z :
  read_sign (skip_while isspace (Z_to_string z)) = (z <? 0, print_base 10 (Z.abs z)).
Proof.
  rewrite Z_to_string_abs. pose proof (read_sign_print (Z.abs z) "" ltac:(lia)) as H.
  rewrite str_app_nil_r in H. by destruct (z <? 0).
Qed.

(** [std::stod] of the decimal digits is the exact conversion. *)
Lemma stod_Z z : z ≠ 0 → Z.abs z < 2 ^ 53 → stod (Z_to_string z) = Ok (double_of_Z z).
Proof.
  intros Hz0 Hz. unfold stod. rewrite read_sign_Z.
  pose proof (read_print_dec (Z.abs z) "" ltac:(lia) eq_refl) as Hr.
  rewrite str_app_nil_r in Hr. rewrite Hr. cbn [read_digits].
  assert (head_is isdigit (print_base 10 (Z.abs z)) = true) as ->.
  { destruct (print_base_head 10 (Z.abs z)) as (d & r & Hd & ->); [lia..|].
    apply isdigit_dec_digit. rewrite dec_digit_char by lia. eauto. }
  cbn [orb read_exponent]. replace (0 - Z.of_nat (len "" - len "")) with 0 by done.
  destruct (double_of_Z_small z Hz) as [[? _]|(m & e & E & _)]; [done|].
  assert (decimal_to_double (z <? 0) (Z.abs z) 0 = double_of_Z z) as ->; [|by rewrite E].
  destruct z as [|p|p]; [done|..]; unfold decimal_to_double, double_of_Z; cbn [Z.abs];
    change (10 ^ 0) with 1; by rewrite Z.mul_1_r.
Qed.

Lemma str_take_app s t : str_take (len (s +:+ t) - len t) (s +:+ t) = s.
Proof.
  rewrite str_length_app. replace (len s + len t - len t)%nat with (len s) by lia.
  induction s as [|c s IH]; [by destruct t|]. rewrite str_app_cons. simpl. by rewrite IH.
Qed.

Lemma parse_number_Z z rest :
  Z.abs z < 2 ^ 53 → number_end rest = true →
  parse_number (Z_to_string z +:+ rest) = (Ok (JNum (double_of_Z z)), rest).
Proof.
  intros Hz Hend. destruct (number_end_inv rest Hend) as (Hd & Hfrac & Hexp).
  assert (∃ b, get_if (λ c, ascii_eqb c "-") (Z_to_string z +:+ rest)
             = (Ok b, print_base 10 (Z.abs z) +:+ rest)) as [b Hneg].
  { rewrite Z_to_string_abs. destruct (z <? 0); [by exists true|]. exists false.
    rewrite str_app_nil_l. apply get_if_no; [|done].
    destruct (print_base_head 10 (Z.abs z)) as (d & r & Hdr & ->); [lia..|].
    destruct (digit_char_plain d) as (_ & Hm & _); [lia|]. simpl. by rewrite ascii_eqb_ne. }
  unfold parse_number, mbind, M_bind, get_st, lift_result.
  rewrite Hneg, int_part_print, Hfrac, Hexp by (done || lia). rewrite str_take_app.
  destruct (Z.eq_dec z 0) as [->|Hz0]; [done|]. by rewrite stod_Z.
Qed.

Lemma parse_value_Z z f rest :
  Z.abs z < 2 ^ 53 → number_end rest = true →
  parse_value (S f) (Z_to_string z +:+ rest) = (Ok (JNum (double_of_Z z)), rest).
Proof.
  intros Hz Hend. rewrite <-parse_number_Z by done. cbn [parse_value].
  assert (∃ c s, Z_to_string z +:+ rest = String c s ∧ (c = "-"%char ∨ ∃ d, 0 ≤ d < 10 ∧ c = digit_char d))
    as (c & s & -> & Hc).
  { rewrite Z_to_string_abs. destruct (z <? 0); [by do 2 eexists; split; [|left]|].
    destruct (print_base_head 10 (Z.abs z)) as (d & r & Hdr & ->); [lia..|].
    rewrite str_app_nil_l, str_app_cons. do 2 eexists. split; [done|]. eauto. }
  unfold mbind, M_bind, peek, gets.
  destruct Hc as [->|(d & Hd & ->)]; [done|]. clear -Hd. enum_lt 10 d; done.
Qed.

(** * Values *)

(** All numbers of the value are integers below [2 ^ 53]. *)
Definition exact_num (d : double) : Prop := ∃ z, Z.abs z < 2 ^ 53 ∧ d = double_of_Z z.

Fixpoint nums_exact (v : Value) : Prop :=
  match v with
  | JNum d => exact_num d
  | JArr l => (fix go (l : list Value) := match l with [] => True | v :: l' => nums_exact v ∧ go l' end) l
  | JObj o => (fix go (o : Object) := match o with [] => True | kv :: o' => nums_exact kv.2 ∧ go o' end) o
  | _ => True
  end.

Lemma nums_exact_arr l : nums_exact (JArr l) ↔ Forall nums_exact l.
Proof. simpl. induction l as [|v l IH]; [by split|]. rewrite Forall_cons, <-IH. done. Qed.

Lemma nums_exact_obj o : nums_exact (JObj o) ↔ Forall (λ kv, nums_exact kv.2) o.
Proof. simpl. induction o as [|v o IH]; [by split|]. rewrite Forall_cons, <-IH. done. Qed.

(** The first character of a dumped value. *)
Definition value_start (c : ascii) : bool :=
  negb (isspace c) && negb (ascii_eqb c "]") && negb (ascii_eqb c "}").

Lemma dump_start v : nums_exact v → ∃ c s, dump v = String c s ∧ value_start c = true.
Proof.
  destruct v as [|[]| | | |]; intros Hv; try (by do 2 eexists; split).
  destruct Hv as (z & Hz & ->). cbn [dump]. rewrite dump_number_Z by done.
  rewrite Z_to_string_abs. destruct (z <? 0); [by do 2 eexists; split|].
  destruct (print_base_head 10 (Z.abs z)) as (d & r & Hd & ->); [lia..|].
  do 2 eexists. split; [done|]. clear -Hd. enum_lt 10 d; done.
Qed.

Lemma skip_ws_start c s : value_start c = true → skip_ws (String c s) = (Ok (), String c s).
Proof.
  unfold value_start. rewrite !andb_true_iff, !negb_true_iff. intros [[Hs _] _].
  unfold skip_ws, modify. by rewrite skip_while_none.
Qed.

(** [pv] reads back [v] in front of anything a number cannot continue with. *)
Definition reads (pv : Parser Value) (v : Value) : Prop :=
  nums_exact v ∧ ∀ rest, number_end rest = true → pv (dump v +:+ rest) = (Ok v, rest).

Lemma skip_ws_dump v t : nums_exact v → skip_ws (dump v +:+ t) = (Ok (), dump v +:+ t).
Proof.
  intros Hv. destruct (dump_start v Hv) as (c & s & -> & Hc). rewrite str_app_cons.
  by apply skip_ws_start.
Qed.

Lemma array_loop_dump pv n v a arr rest :
  (length a < n)%nat → Forall (reads pv) (v :: a) →
  array_loop pv n arr (dump v +:+ (dump_arr_go dump false a +:+ rest))
  = (Ok (JArr (arr ++ v :: a)), rest).
Proof.
  revert v arr n. induction a as [|v' a IH]; intros v arr n Hn Hall;
    (destruct n as [|n]; [simpl in Hn; lia|]);
    inversion_clear Hall as [|? ? [Hex Hpv] Hall']; cbn [array_loop];
    unfold mbind, M_bind; rewrite skip_ws_dump by done.
  - rewrite Hpv by done. done.
  - cbn [dump_arr_go]. rewrite !str_app_assoc. rewrite Hpv by done.
    change ("," +:+ ?t) with (String "," t).
    change (skip_ws (String "," ?t)) with (@Ok () tt, String "," t). cbn [get].
    change (ascii_eqb "," "]") with false. change (negb (ascii_eqb "," ",")) with false. cbv beta iota.
    rewrite skip_ws_dump by apply (Forall_inv Hall').
    rewrite IH by (done || (simpl in Hn; lia)). by rewrite <-app_assoc.
Qed.

Lemma object_loop_dump pv sf n k v o obj rest :
  (length o < n)%nat → map_ok (obj ++ (k, v) :: o) →
  Forall (λ kv, reads pv kv.2 ∧ (len (dump_string kv.1) ≤ S sf)%nat) ((k, v) :: o) →
  object_loop pv sf n obj
    (dump_string k +:+ (":" +:+ (dump v +:+ (dump_obj_go dump false o +:+ rest))))
  = (Ok (JObj (obj ++ (k, v) :: o)), rest).
Proof.
  revert k v obj n. induction o as [|[k' v'] o IH]; intros k v obj n Hn Hok Hall;
    (destruct n as [|n]; [simpl in Hn; lia|]);
    inversion_clear Hall as [|? ? [[Hex Hpv] Hlen] Hall']; simpl in Hex, Hpv, Hlen;
    cbn [object_loop]; unfold mbind, M_bind.
  all: pose proof (map_emplace_app k v obj _ Hok) as Hem.
  all: assert (∀ t, skip_ws (dump_string k +:+ t) = (Ok (), dump_string k +:+ t)
                    ∧ peek (dump_string k +:+ t) = (Ok dquote, dump_string k +:+ t)) as Hks by
    (intros t; rewrite dump_string_app; by split).
  all: rewrite (proj1 (Hks _)), (proj2 (Hks _)).
  all: change (negb (ascii_eqb dquote dquote)) with false; cbv beta iota.
  all: rewrite parse_string_dump by done; rewrite str_app_cons, str_app_nil_l.
  all: change (skip_ws (String ":" ?t)) with (@Ok () tt, String ":" t); cbn [get].
  all: change (negb (ascii_eqb ":" ":")) with false; cbv beta iota.
  all: rewrite skip_ws_dump by done.
  - rewrite Hpv by done. rewrite Hem. done.
  - cbn [dump_obj_go]. rewrite !str_app_assoc. rewrite Hpv by done.
    rewrite Hem. change ("," +:+ ?t) with (String "," t).
    change (skip_ws (String "," ?t)) with (@Ok () tt, String "," t). cbn [get].
    change (ascii_eqb "," "}") with false. change (negb (ascii_eqb "," ",")) with false. cbv beta iota.
    assert (∀ t, skip_ws (dump_string k' +:+ t) = (Ok (), dump_string k' +:+ t)) as ->
      by (intros t; by rewrite dump_string_app).
    rewrite IH by (rewrite <-?app_assoc; done || (simpl in Hn; lia)). by rewrite <-app_assoc.
Qed.

Lemma dump_arr_go_length b a v : v ∈ a → (len (dump v) ≤ len (dump_arr_go dump b a))%nat.
Proof.
  revert b. induction a as [|v' a IH]; intros b Hin; [by apply elem_of_nil in Hin|].
  cbn [dump_arr_go]. rewrite !str_length_app.
  apply elem_of_cons in Hin as [->|Hin]; [lia|]. specialize (IH false Hin). lia.
Qed.

Lemma dump_arr_go_count b a :
  Forall nums_exact a → (length a < len (dump_arr_go dump b a))%nat.
Proof.
  revert b. induction a as [|v a IH]; intros b Hall; simpl; [lia|].
  inversion_clear Hall as [|? ? Hv Ha]. rewrite !str_length_app. specialize (IH false Ha).
  destruct (dump_start v Hv) as (c & s & -> & _). simpl. lia.
Qed.

Lemma dump_obj_go_length b o k v :
  (k, v) ∈ o → (len (dump v) + len (dump_string k) ≤ len (dump_obj_go dump b o))%nat.
Proof.
  revert b. induction o as [|[k' v'] o IH]; intros b Hin; [by apply elem_of_nil in Hin|].
  cbn [dump_obj_go]. rewrite !str_length_app.
  apply elem_of_cons in Hin as [[= -> ->]|Hin]; [lia|]. specialize (IH false Hin). lia.
Qed.

Lemma dump_obj_go_count b o : (length o < len (dump_obj_go dump b o))%nat.
Proof.
  revert b. induction o as [|[k v] o IH]; intros b; simpl; [lia|].
  rewrite !str_length_app. specialize (IH false). simpl. lia.
Qed.

(** An array and an object whose parts are read back. *)
Lemma parse_array_dump f a rest :
  Forall (reads (parse_value f)) a → (length a ≤ f)%nat →
  parse_array (parse_value f) f (String "[" (dump_arr_go dump true a +:+ rest)) = (Ok (JArr a), rest).
Proof.
  intros Hall Hf. unfold parse_array, mbind at 1, M_bind at 1. cbn [get].
  destruct a as [|v a]; [done|]. cbn [dump_arr_go]. rewrite str_app_nil_l, str_app_assoc.
  pose proof (Forall_inv Hall) as [Hexv _]. unfold mbind, M_bind. rewrite skip_ws_dump by done.
  destruct (dump_start v Hexv) as (c & s & E & Hc').
  assert (peek (dump v +:+ (dump_arr_go dump false a +:+ rest))
          = (Ok c, dump v +:+ (dump_arr_go dump false a +:+ rest))) as -> by by rewrite E.
  assert (ascii_eqb c "]" = false) as ->.
  { unfold value_start in Hc'. rewrite !andb_true_iff, !negb_true_iff in Hc'. tauto. }
  apply (array_loop_dump _ _ _ _ []); [simpl in *; lia|done].
Qed.

Lemma parse_object_dump f o rest :
  Forall (λ kv, reads (parse_value f) kv.2 ∧ (len (dump_string kv.1) ≤ S f)%nat) o → map_ok o → (length o ≤ f)%nat →
  parse_object (parse_value f) f f (String "{" (dump_obj_go dump true o +:+ rest)) = (Ok (JObj o), rest).
Proof.
  intros Hall Hm Hf. unfold parse_object, mbind at 1, M_bind at 1. cbn [get].
  destruct o as [|[k v] o]; [done|]. cbn [dump_obj_go].
  rewrite str_app_nil_l, !str_app_assoc. unfold mbind, M_bind.
  assert (∀ t, skip_ws (dump_string k +:+ t) = (Ok (), dump_string k +:+ t)
               ∧ peek (dump_string k +:+ t) = (Ok dquote, dump_string k +:+ t)) as Hks
    by (intros t; rewrite dump_string_app; by split).
  rewrite (proj1 (Hks _)), (proj2 (Hks _)). change (ascii_eqb dquote "}") with false. cbv beta iota.
  apply (object_loop_dump _ _ _ _ _ _ []); [simpl in *; lia|done|done].
Qed.

Lemma parse_value_dump v :
  value_ok v → nums_exact v → ∀ fuel, (len (dump v) < fuel)%nat → reads (parse_value fuel) v.
Proof.
  induction v as [|b|d|s|a IH|o IH] using Value_ind'; intros Hok Hex fuel Hf;
    (destruct fuel as [|f]; [lia|]); split; try done; intros rest Hrest.
  - by destruct b.
  - destruct Hex as (z & Hz & ->). cbn [dump]. rewrite dump_number_Z by done.
    by apply parse_value_Z.
  - cbn [dump parse_value]. rewrite dump_string_app. unfold mbind, M_bind, peek, gets.
    change (ascii_eqb dquote "{") with false. change (ascii_eqb dquote "[") with false.
    change (ascii_eqb dquote dquote) with true. cbv beta iota. rewrite <-dump_string_app.
    rewrite parse_string_dump by (cbn [dump] in Hf; lia). done.
  - cbn [dump dump_arr] in Hf. simpl in Hf. apply value_ok_arr in Hok. apply nums_exact_arr in Hex.
    pose proof (dump_arr_go_count true a Hex) as Hc. apply parse_array_dump; [|lia].
    apply Forall_forall. intros v' Hin. rewrite list.Forall_forall in IH, Hok, Hex.
    pose proof (dump_arr_go_length true _ _ Hin). apply IH; auto. lia.
  - cbn [dump dump_obj] in Hf. simpl in Hf. apply value_ok_obj in Hok as [Hm Hok]. apply nums_exact_obj in Hex.
    pose proof (dump_obj_go_count true o) as Hc. apply parse_object_dump; [|done|lia].
    apply Forall_forall. intros [k' v'] Hin. rewrite list.Forall_forall in IH, Hok, Hex.
    pose proof (dump_obj_go_length true _ _ _ Hin) as Hlen. split; [|cbn [fst]; lia].
    apply (IH _ Hin); [by apply (Hok _ Hin)|by apply (Hex _ Hin)|cbn [snd]; lia].
Qed.

Lemma json_parse_dumps v : value_ok v → nums_exact v → json_parse (dumps v) = Ok v.
Proof.
  intros Hok Hex. unfold json_parse, parse_all, dumps, mbind, M_bind.
  assert (skip_ws (dump v) = (Ok (), dump v)) as ->.
  { pose proof (skip_ws_dump v EmptyString Hex) as H. by rewrite str_app_nil_r in H. }
  destruct (parse_value_dump v Hok Hex (S (len (dump v)))) as [_ Hr]; [lia|].
  specialize (Hr EmptyString eq_refl). rewrite str_app_nil_r in Hr. by rewrite Hr.
Qed.

(** C12: Parsing what [json::dumps] wrote gives the value back, for every value
    that holds the [std::map] invariant and whose numbers are integers a
    [double] represents exactly, whatever characters its strings and keys
    have. *)
Theorem json_roundtrip v : value_ok v → nums_exact v → json_parse (dumps v) = Ok v.
Proof. apply json_parse_dumps. Qed.

Definition roundtrip_sample : Value :=
  JObj [("a", JArr [JNum (double_of_Z (-42)); JNull]); ("b", JStr (String dquote "x\"))].

Lemma json_roundtrip_witness :
  value_ok roundtrip_sample ∧ nums_exact roundtrip_sample
  ∧ json_parse (dumps roundtrip_sample) = Ok roundtrip_sample.
Proof.
  assert (value_ok roundtrip_sample) as Hok by (repeat constructor).
  assert (nums_exact roundtrip_sample) as Hex.
  { repeat split. by exists (-42). }
  split; [done|split; [done|]]. apply json_roundtrip; done.
Defined.

(** The serializer is canonical: two objects built by assigning the same
    distinct keys in different orders have the same text, the determinism that
    the protocol promises for responses. *)
Theorem dumps_insertion_order (l1 l2 : Object) :
  NoDup l1.*1 → l1 ≡ₚ l2 → dumps (JObj (map_of l1)) = dumps (JObj (map_of l2)).
Proof. intros Hnd Hp. by rewrite (map_of_Permutation l1 l2). Qed.

Lemma dumps_insertion_order_witness :
  dumps (JObj (map_of [("b", JNull); ("a", JBool true)]))
  = dumps (JObj (map_of [("a", JBool true); ("b", JNull)])).
Proof.
  apply dumps_insertion_order.
  - apply (bool_decide_unpack _). by vm_compute.
  - apply Permutation_swap.
Defined.
