(* ===== verification/Base64.v ===== *)
(** [core/include/wininspect/base64.hpp]: the base64 codec, on 32-bit [int]
    accumulators. *)

From S2P Require Import Prelude CString.

Local Open Scope Z_scope.

(** * Model *)

(** A value of type [int] (32 bits, two's complement). *)
Definition int32 (z : Z) : Z := (z + 2 ^ 31) mod 2 ^ 32 - 2 ^ 31.

Definition alphabet : string :=
  "ABCDEFGHIJKLMNOPQRSTUVWXYZabcdefghijklmnopqrstuvwxyz0123456789+/".

Definition nth_char (s : string) (i : Z) : ascii :=
  match String.get (Z.to_nat i) s with Some c => c | None => Ascii.zero end.

(** [std::vector<int> T(256, -1)], then [T[alphabet[i]] = i] for 64 values. *)
Definition decode_table : list Z :=
  foldl (λ T i, <[Z.to_nat (code (nth_char alphabet (Z.of_nat i))) := Z.of_nat i]> T)
    (replicate 256 (-1)) (seq 0 64).

Definition decode_index (T : list Z) (c : ascii) : Z := T !!! Z.to_nat (code c).

Fixpoint decode_loop (T : list Z) (val valb : Z) (out : list Z) (s : string) : list Z :=
  match s with
  | EmptyString => out
  | String c s' =>
      if decode_index T c =? -1 then out
      else
        let val := int32 (int32 (Z.shiftl val 6) + decode_index T c) in
        let valb := valb + 6 in
        if 0 <=? valb
        then decode_loop T val (valb - 8) (out ++ [Z.land (Z.shiftr val valb) 0xFF]) s'
        else decode_loop T val valb out s'
  end.

Definition decode (s : string) : list Z := decode_loop decode_table 0 (-8) [] s.

(** [while (valb >= 0) { out.push_back(...); valb -= 6; }]: the fuel is the
    number of iterations. *)
Fixpoint encode_emit (fuel : nat) (val valb : Z) (out : string) : Z * string :=
  match fuel with
  | O => (valb, out)
  | S fuel =>
      if 0 <=? valb
      then encode_emit fuel val (valb - 6)
             (out +:+ String (nth_char alphabet (Z.land (Z.shiftr val valb) 0x3F)) EmptyString)
      else (valb, out)
  end.

Fixpoint encode_loop (val valb : Z) (out : string) (l : list Z) : Z * Z * string :=
  match l with
  | [] => (val, valb, out)
  | c :: l' =>
      let val := int32 (int32 (Z.shiftl val 8) + c) in
      let valb := valb + 8 in
      let '(valb, out) := encode_emit (Z.to_nat (valb / 6 + 1)) val valb out in
      encode_loop val valb out l'
  end.

(** [while (out.size() % 4) out.push_back('=')]: at most three times. *)
Fixpoint encode_pad (fuel : nat) (out : string) : string :=
  match fuel with
  | O => out
  | S fuel =>
      if (String.length out mod 4 =? 0)%nat then out
      else encode_pad fuel (out +:+ String "="%char EmptyString)
  end.

Definition encode (l : list Z) : string :=
  let '(val, valb, out) := encode_loop 0 (-6) EmptyString l in
  let out :=
    if -6 <? valb
    then out +:+ String (nth_char alphabet
           (Z.land (Z.shiftr (int32 (Z.shiftl val 8)) (valb + 8)) 0x3F)) EmptyString
    else out in
  encode_pad 3 out.

(** * Proofs *)

Lemma int32_mod x n : 0 ≤ n ≤ 32 → int32 x mod 2 ^ n = x mod 2 ^ n.
Proof.
  intros Hn. unfold int32.
  assert (2 ^ 32 = 2 ^ (32 - n) * 2 ^ n) as E by (rewrite <-Z.pow_add_r by lia; f_equal; lia).
  assert (0 < 2 ^ n) by (apply Z.pow_pos_nonneg; lia).
  assert (∃ q, (x + 2 ^ 31) mod 2 ^ 32 - 2 ^ 31 = x + q * 2 ^ n) as [q ->].
  { exists (- ((x + 2 ^ 31) / 2 ^ 32) * 2 ^ (32 - n)).
    rewrite Z.mod_eq by lia. rewrite E at 1. lia. }
  apply Z.mod_add. lia.
Qed.

(** [k] bits of a number from bit [i] on. *)
Definition field (x i k : Z) : Z := (x / 2 ^ i) mod 2 ^ k.

Lemma field_mod x i k : 0 ≤ i → 0 ≤ k → field x i k = (x mod 2 ^ (i + k)) / 2 ^ i.
Proof.
  intros Hi Hk. unfold field. rewrite Z.pow_add_r by lia.
  assert (0 < 2 ^ i) by (apply Z.pow_pos_nonneg; lia).
  assert (0 < 2 ^ k) by (apply Z.pow_pos_nonneg; lia).
  rewrite Z.rem_mul_r by lia.
  rewrite (Z.mul_comm (2 ^ i)), Z.div_add by lia.
  rewrite (Z.div_small (x mod 2 ^ i)) by (apply Z.mod_pos_bound; lia). lia.
Qed.

Lemma field_int32 x i k : 0 ≤ i → 0 ≤ k → i + k ≤ 32 → field (int32 x) i k = field x i k.
Proof. intros. rewrite !field_mod by lia. by rewrite int32_mod by lia. Qed.

Lemma land_shiftr x i k :
  0 ≤ i → 0 ≤ k → Z.land (Z.shiftr x i) (Z.ones k) = field x i k.
Proof. intros. by rewrite Z.land_ones, Z.shiftr_div_pow2. Qed.

(** The accumulator holds [r] in its low [p] bits; [k] more bits come in. *)
Lemma int32_push v p r k c :
  0 ≤ p → 0 ≤ k → p + k ≤ 32 → v mod 2 ^ p = r → 0 ≤ c < 2 ^ k →
  int32 (int32 (Z.shiftl v k) + c) mod 2 ^ (p + k) = r * 2 ^ k + c.
Proof.
  intros Hp Hk Hpk <- Hc.
  assert (0 < 2 ^ p) by (apply Z.pow_pos_nonneg; lia).
  assert (0 < 2 ^ (p + k)) by (apply Z.pow_pos_nonneg; lia).
  rewrite int32_mod by lia. rewrite <-Z.add_mod_idemp_l by lia.
  rewrite int32_mod by lia. rewrite Z.add_mod_idemp_l by lia. rewrite Z.shiftl_mul_pow2 by lia.
  rewrite (Z.div_mod v (2 ^ p)) at 1 by lia.
  pose proof (Z.mod_pos_bound v (2 ^ p) ltac:(lia)).
  replace ((2 ^ p * (v / 2 ^ p) + v mod 2 ^ p) * 2 ^ k + c)
    with (v mod 2 ^ p * 2 ^ k + c + (v / 2 ^ p) * 2 ^ (p + k))
    by (rewrite Z.pow_add_r by lia; ring).
  rewrite Z.mod_add by lia. apply Z.mod_small. rewrite Z.pow_add_r by lia. nia.
Qed.

(** Reading [w] bits above the lowest [i], and what stays below. *)
Lemma low_field v i w r :
  0 ≤ i → 0 ≤ w → v mod 2 ^ (i + w) = r → Z.land (Z.shiftr v i) (Z.ones w) = r / 2 ^ i.
Proof. intros ?? <-. by rewrite land_shiftr, field_mod by lia. Qed.

Lemma low_rest v i w r : 0 ≤ i → 0 ≤ w → v mod 2 ^ (i + w) = r → v mod 2 ^ i = r mod 2 ^ i.
Proof.
  intros ?? <-. rewrite Z.pow_add_r by lia.
  assert (0 < 2 ^ i) by (apply Z.pow_pos_nonneg; lia).
  assert (0 < 2 ^ w) by (apply Z.pow_pos_nonneg; lia).
  rewrite Z.rem_mul_r by lia. rewrite Z.mul_comm, Z.mod_add by lia. symmetry. by apply Z.mod_mod; lia.
Qed.

Definition byte_ok (b : Z) : Prop := 0 ≤ b < 256.

Lemma decode_alphabet i :
  0 ≤ i < 64 → decode_index decode_table (nth_char alphabet i) = i.
Proof.
  intros Hi.
  assert (Forall (λ n, decode_index decode_table (nth_char alphabet (Z.of_nat n)) = Z.of_nat n)
            (seq 0 64)) as H by (apply (bool_decide_unpack _); by vm_compute).
  rewrite list.Forall_forall in H. specialize (H (Z.to_nat i)).
  rewrite Z2Nat.id in H by lia. apply H. apply elem_of_seq. lia.
Qed.

Lemma decode_pad_char : decode_index decode_table "="%char = -1.
Proof. by vm_compute. Qed.

(** One character of the alphabet, when the accumulator holds [r] in its
    [valb + 8] pending bits. *)
Lemma decode_more val valb out i s r :
  -8 ≤ valb < -6 → 0 ≤ i < 64 → val mod 2 ^ (valb + 8) = r →
  ∃ val', val' mod 2 ^ (valb + 6 + 8) = r * 64 + i ∧
    decode_loop decode_table val valb out (String (nth_char alphabet i) s)
    = decode_loop decode_table val' (valb + 6) out s.
Proof.
  intros Hv Hi Hr. eexists. split; cycle 1.
  - cbn [decode_loop]. rewrite decode_alphabet by done.
    rewrite (proj2 (Z.eqb_neq i (-1))) by lia.
    rewrite (proj2 (Z.leb_gt 0 (valb + 6))) by lia. done.
  - replace (valb + 6 + 8) with (valb + 8 + 6) by lia. apply (int32_push _ _ _ 6); lia || done.
Qed.

Lemma decode_emit val valb out i s r :
  -6 ≤ valb < 0 → 0 ≤ i < 64 → val mod 2 ^ (valb + 8) = r →
  ∃ val', val' mod 2 ^ (valb + 6) = (r * 64 + i) mod 2 ^ (valb + 6) ∧
    decode_loop decode_table val valb out (String (nth_char alphabet i) s)
    = decode_loop decode_table val' (valb - 2) (out ++ [(r * 64 + i) / 2 ^ (valb + 6)]) s.
Proof.
  intros Hv Hi Hr.
  assert (int32 (int32 (Z.shiftl val 6) + i) mod 2 ^ (valb + 6 + 8) = r * 64 + i) as H.
  { replace (valb + 6 + 8) with (valb + 8 + 6) by lia. apply (int32_push _ _ _ 6); lia || done. }
  exists (int32 (int32 (Z.shiftl val 6) + i)). split.
  - by apply (low_rest _ _ 8); lia.
  - cbn [decode_loop]. rewrite decode_alphabet by done.
    rewrite (proj2 (Z.eqb_neq i (-1))) by lia.
    rewrite (proj2 (Z.leb_le 0 (valb + 6))) by lia.
    change 0xFF with (Z.ones 8). rewrite (low_field _ (valb + 6) 8 _ ltac:(lia) ltac:(lia) H).
    by replace (valb + 6 - 8) with (valb - 2) by lia.
Qed.

(** One byte into the encoder: one character, or two when six bits were
    waiting. *)
Lemma encode_one val valb out c l r :
  -6 ≤ valb < -2 → byte_ok c → val mod 2 ^ (valb + 6) = r →
  ∃ val', val' mod 2 ^ (valb + 8) = (r * 256 + c) mod 2 ^ (valb + 8) ∧
    encode_loop val valb out (c :: l)
    = encode_loop val' (valb + 2)
        (out +:+ String (nth_char alphabet ((r * 256 + c) / 2 ^ (valb + 8))) EmptyString) l.
Proof.
  intros Hv Hc Hr.
  assert (int32 (int32 (Z.shiftl val 8) + c) mod 2 ^ (valb + 8 + 6) = r * 256 + c) as H.
  { replace (valb + 8 + 6) with (valb + 6 + 8) by lia. apply (int32_push _ _ _ 8); lia || done. }
  exists (int32 (int32 (Z.shiftl val 8) + c)). split; [by apply (low_rest _ _ 6); lia|].
  cbn [encode_loop]. replace ((valb + 8) / 6 + 1) with 1 by (symmetry; rewrite Z.div_small; lia).
  change (Z.to_nat 1) with 1%nat. cbn [encode_emit].
  rewrite (proj2 (Z.leb_le 0 (valb + 8))) by lia. change 0x3F with (Z.ones 6).
  rewrite (low_field _ (valb + 8) 6 _ ltac:(lia) ltac:(lia) H).
  by replace (valb + 8 - 6) with (valb + 2) by lia.
Qed.

Lemma encode_two val out c l r :
  byte_ok c → val mod 2 ^ 4 = r →
  ∃ val',
    encode_loop val (-2) out (c :: l)
    = encode_loop val' (-6)
        (out +:+ String (nth_char alphabet ((r * 256 + c) / 64)) EmptyString
             +:+ String (nth_char alphabet (c mod 64)) EmptyString) l.
Proof.
  intros Hc Hr.
  pose proof (int32_push val 4 r 8 c ltac:(lia) ltac:(lia) ltac:(lia) Hr Hc) as H.
  exists (int32 (int32 (Z.shiftl val 8) + c)). cbn [encode_loop].
  change (Z.to_nat ((-2 + 8) / 6 + 1)) with 2%nat. cbn [encode_emit].
  change (0 <=? -2 + 8) with true. change (0 <=? -2 + 8 - 6) with true. cbv iota beta.
  change (-2 + 8 - 6) with 0. change (-2 + 8) with 6. change (0 - 6) with (-6).
  change 0x3F with (Z.ones 6).
  rewrite (low_field _ 6 6 _ ltac:(lia) ltac:(lia) H).
  pose proof (low_rest _ 6 6 _ ltac:(lia) ltac:(lia) H) as H0.
  rewrite (low_field _ 0 6 _ ltac:(lia) ltac:(lia) H0). rewrite Z.div_1_r.
  rewrite str_app_assoc.
  replace ((r * 2 ^ 8 + c) mod 2 ^ 6) with (c mod 64); [done|].
  change (2 ^ 8) with (4 * 64). change (2 ^ 6) with 64.
  rewrite Z.mul_assoc, Z.add_comm, Z.mod_add by lia. done.
Qed.

Lemma decode_stop val valb out s :
  decode_loop decode_table val valb out (String "="%char s) = out.
Proof. cbn [decode_loop]. by rewrite decode_pad_char. Qed.

(** What the encoder writes for a group of three bytes, and for the last one
    or two. *)
Definition quad (a b c : Z) : list Z :=
  [a / 4; (a mod 4 * 256 + b) / 16; (b mod 16 * 256 + c) / 64; c mod 64].

Fixpoint chars (l : list Z) (rest : string) : string :=
  match l with [] => rest | i :: l' => String (nth_char alphabet i) (chars l' rest) end.

Lemma chars_app l s t : chars l s +:+ t = chars l (s +:+ t).
Proof. induction l as [|i l IH]; [done|]. cbn [chars]. by rewrite str_app_cons, IH. Qed.

Lemma encode_three val out a b c l :
  byte_ok a → byte_ok b → byte_ok c →
  ∃ val', encode_loop val (-6) out (a :: b :: c :: l)
          = encode_loop val' (-6) (out +:+ chars (quad a b c) EmptyString) l.
Proof.
  intros Ha Hb Hc.
  destruct (encode_one val (-6) out a (b :: c :: l) 0) as (v1 & H1 & ->);
    [lia|done|by rewrite Z.mod_1_r|].
  destruct (encode_one v1 (-4) (out +:+ String (nth_char alphabet (a / 4)) EmptyString)
              b (c :: l) (a mod 4)) as (v2 & H2 & E2); [lia|done|exact H1|].
  change (-6 + 2) with (-4). change ((0 * 256 + a) / 2 ^ (-6 + 8)) with (a / 4). rewrite E2. clear E2.
  change (-4 + 2) with (-2). change (2 ^ (-4 + 8)) with 16 in *.
  assert (v2 mod 2 ^ 4 = b mod 16) as H2'.
  { change (2 ^ 4) with 16. rewrite H2. replace (a mod 4 * 256 + b) with (b + a mod 4 * 16 * 16) by lia.
    apply Z.mod_add. lia. }
  match goal with |- context [encode_loop v2 (-2) ?o (c :: l)] =>
    destruct (encode_two v2 o c l (b mod 16) Hc H2') as (v3 & ->) end.
  exists v3. f_equal. unfold quad. cbn [chars]. autorewrite with str. done.
Qed.

Lemma decode_three val out a b c s :
  byte_ok a → byte_ok b → byte_ok c →
  ∃ val', decode_loop decode_table val (-8) out (chars (quad a b c) s)
          = decode_loop decode_table val' (-8) (out ++ [a; b; c]) s.
Proof.
  unfold byte_ok, quad. intros Ha Hb Hc. cbn [chars].
  edestruct (decode_more val (-8) out (a / 4)) as (v1 & H1 & ->);
    [lia|Z.to_euclidean_division_equations; lia|by rewrite Z.mod_1_r|].
  edestruct (decode_emit v1 (-2) out ((a mod 4 * 256 + b) / 16)) as (v2 & H2 & E2);
    [lia|Z.to_euclidean_division_equations; lia|exact H1|].
  change (-8 + 6) with (-2). rewrite E2. clear E2.
  edestruct (decode_emit v2 (-4)) as (v3 & H3 & E3); [lia| |exact H2|].
  2: { change (-2 - 2) with (-4). rewrite E3. clear E3.
    edestruct (decode_emit v3 (-6)) as (v4 & H4 & E4); [lia| |exact H3|].
    2: { change (-4 - 2) with (-6). rewrite E4. clear E4. exists v4.
      change (-6 - 2) with (-8). f_equal. rewrite <-!app_assoc. f_equal. cbn [app].
      change (2 ^ (-2 + 6)) with 16. change (2 ^ (-4 + 6)) with 4. change (2 ^ (-6 + 6)) with 1.
      repeat f_equal; Z.to_euclidean_division_equations; lia. }
    Z.to_euclidean_division_equations; lia. }
  Z.to_euclidean_division_equations; lia.
Qed.

Definition finish (st : Z * Z * string) : string :=
  let '(val, valb, out) := st in
  encode_pad 3
    (if -6 <? valb
     then out +:+ String (nth_char alphabet
            (Z.land (Z.shiftr (int32 (Z.shiftl val 8)) (valb + 8)) 0x3F)) EmptyString
     else out).

Lemma encode_finish l : encode l = finish (encode_loop 0 (-6) EmptyString l).
Proof. unfold encode, finish. by destruct (encode_loop _ _ _ _) as [[??]?]. Qed.

(** The last character, from the bits that are left. *)
Lemma last_field val valb r :
  -6 < valb < 0 → val mod 2 ^ (valb + 6) = r →
  Z.land (Z.shiftr (int32 (Z.shiftl val 8)) (valb + 8)) 0x3F = r * 256 / 2 ^ (valb + 8).
Proof.
  intros Hv Hr. change 0x3F with (Z.ones 6). apply low_field; [lia..|].
  replace (valb + 8 + 6) with (valb + 6 + 8) by lia.
  rewrite int32_mod, Z.shiftl_mul_pow2, (Z.pow_add_r 2 (valb + 6)) by lia.
  assert (0 < 2 ^ (valb + 6)) by (apply Z.pow_pos_nonneg; lia).
  rewrite Z.mul_mod_distr_r by lia. by rewrite Hr.
Qed.

Lemma pad_length out n r :
  (String.length out = 4 * n + r)%nat → (r < 4)%nat →
  encode_pad 3 out = out +:+
    match r with 0%nat => EmptyString | 1%nat => "===" | 2%nat => "==" | _ => "=" end.
Proof.
  intros Hl Hr.
  assert (∀ k s, (String.length s = 4 * n + k)%nat →
    (String.length s mod 4 =? 0)%nat = (k mod 4 =? 0)%nat) as Hm.
  { intros k s ->. f_equal. rewrite Nat.mul_comm, Nat.add_comm. apply Nat.Div0.mod_add. }
  assert (∀ k s, (String.length s = 4 * n + k)%nat →
    (String.length (s +:+ String "="%char EmptyString) = 4 * n + S k)%nat) as Hs.
  { intros k s E. rewrite str_length_app. simpl. lia. }
  destruct r as [|[|[|[|]]]]; [| | | |lia]; cbn [encode_pad].
  - rewrite (Hm 0%nat) by lia. cbn. by rewrite str_app_nil_r.
  - rewrite (Hm 1%nat), (Hm 2%nat), (Hm 3%nat) by auto. by rewrite !str_app_assoc.
  - rewrite (Hm 2%nat), (Hm 3%nat), (Hm 4%nat) by auto. by rewrite !str_app_assoc.
  - rewrite (Hm 3%nat), (Hm 4%nat) by auto. done.
Qed.

(** The text of a list of bytes, read from any accumulator, adds the bytes. *)
Definition decodes (s : string) (l : list Z) : Prop :=
  ∀ val out, decode_loop decode_table val (-8) out s = out ++ l.

Lemma decodes_nil : decodes EmptyString [].
Proof. intros val out. cbn. by rewrite app_nil_r. Qed.

Lemma decodes_one a :
  byte_ok a → decodes (chars [a / 4; a mod 4 * 256 / 16] "==") [a].
Proof.
  unfold byte_ok. intros Ha val out. cbn [chars].
  edestruct (decode_more val (-8) out (a / 4)) as (v1 & H1 & ->);
    [lia|Z.to_euclidean_division_equations; lia|by rewrite Z.mod_1_r|].
  edestruct (decode_emit v1 (-2) out (a mod 4 * 256 / 16)) as (v2 & H2 & E2);
    [lia|Z.to_euclidean_division_equations; lia|exact H1|].
  change (-8 + 6) with (-2). rewrite E2, decode_stop. do 2 f_equal.
  change (2 ^ (-2 + 6)) with 16. Z.to_euclidean_division_equations; lia.
Qed.

Lemma decodes_two a b :
  byte_ok a → byte_ok b →
  decodes (chars [a / 4; (a mod 4 * 256 + b) / 16; b mod 16 * 256 / 64] "=") [a; b].
Proof.
  unfold byte_ok. intros Ha Hb val out. cbn [chars].
  edestruct (decode_more val (-8) out (a / 4)) as (v1 & H1 & ->);
    [lia|Z.to_euclidean_division_equations; lia|by rewrite Z.mod_1_r|].
  edestruct (decode_emit v1 (-2) out ((a mod 4 * 256 + b) / 16)) as (v2 & H2 & E2);
    [lia|Z.to_euclidean_division_equations; lia|exact H1|].
  change (-8 + 6) with (-2). rewrite E2. clear E2.
  edestruct (decode_emit v2 (-4)) as (v3 & H3 & E3); [lia| |exact H2|].
  - shelve.
  - change (-2 - 2) with (-4). rewrite E3, decode_stop. rewrite <-app_assoc. f_equal. cbn [app].
    change (2 ^ (-2 + 6)) with 16. change (2 ^ (-4 + 6)) with 4.
    repeat f_equal; Z.to_euclidean_division_equations; lia.
  Unshelve. Z.to_euclidean_division_equations; lia.
Qed.

Lemma encode_tail val out l n :
  (length l < 3)%nat → Forall byte_ok l → (String.length out = 4 * n)%nat →
  ∃ E, finish (encode_loop val (-6) out l) = out +:+ E ∧ decodes E l
       ∧ (String.length E = 4 * ((length l + 2) / 3))%nat.
Proof.
  intros Hl Hb Hout. destruct l as [|a [|b [|]]]; [| | |simpl in Hl; lia].
  - exists EmptyString. cbn [encode_loop finish]. change (-6 <? -6) with false. cbv iota.
    rewrite (pad_length out n 0) by lia. split_and!; [done|apply decodes_nil|done].
  - inversion_clear Hb as [|? ? Ha _]. eexists. split_and!; [|by apply decodes_one|done].
    destruct (encode_one val (-6) out a [] 0) as (v1 & H1 & ->);
      [lia|done|by rewrite Z.mod_1_r|].
    change (-6 + 2) with (-4). cbn [encode_loop finish]. change (-6 <? -4) with true. cbv iota.
    rewrite (last_field v1 (-4) (a mod 4)) by (lia || done).
    rewrite (pad_length _ n 2) by (rewrite ?str_length_app; simpl; lia).
    autorewrite with str. done.
  - inversion_clear Hb as [|? ? Ha Hb']. inversion_clear Hb' as [|? ? Hb _].
    eexists. split_and!; [|by apply decodes_two|done].
    destruct (encode_one val (-6) out a [b] 0) as (v1 & H1 & ->);
      [lia|done|by rewrite Z.mod_1_r|].
    change (-6 + 2) with (-4).
    match goal with |- context [encode_loop v1 (-4) ?o [b]] =>
      destruct (encode_one v1 (-4) o b [] (a mod 4)) as (v2 & H2 & ->); [lia|done|exact H1|] end.
    change (-4 + 2) with (-2). cbn [encode_loop finish]. change (-6 <? -2) with true. cbv iota.
    rewrite (last_field v2 (-2) (b mod 16)); [|lia|].
    + rewrite (pad_length _ n 3) by (rewrite ?str_length_app; simpl; lia).
      autorewrite with str. done.
    + change (2 ^ (-2 + 6)) with 16. change (2 ^ (-4 + 8)) with 16 in H2. rewrite H2.
      replace (a mod 4 * 256 + b) with (b + a mod 4 * 16 * 16) by lia. apply Z.mod_add. lia.
Qed.

Lemma encode_groups k val out l n :
  (length l < 3 * S k)%nat → Forall byte_ok l → (String.length out = 4 * n)%nat →
  ∃ E, finish (encode_loop val (-6) out l) = out +:+ E ∧ decodes E l
       ∧ (String.length E = 4 * ((length l + 2) / 3))%nat.
Proof.
  revert val out l n. induction k as [|k IH]; intros val out l n Hl Hb Hout;
    [by eapply encode_tail; [lia|..]|].
  destruct l as [|a [|b [|c l]]]; try (eapply encode_tail; [simpl; lia|done..]).
  inversion_clear Hb as [|? ? Ha Hb']. inversion_clear Hb' as [|? ? Hb Hc'].
  inversion_clear Hc' as [|? ? Hc Hl'].
  destruct (encode_three val out a b c l Ha Hb Hc) as (v' & ->).
  edestruct (IH v' (out +:+ chars (quad a b c) EmptyString) l (S n)) as (E & HE & Hd & Hlen);
    [simpl in Hl; lia|done|rewrite str_length_app; simpl; lia|].
  exists (chars (quad a b c) E). split_and!.
  - rewrite HE, str_app_assoc, chars_app. done.
  - intros v o. destruct (decode_three v o a b c E Ha Hb Hc) as (v'' & ->).
    rewrite Hd. by rewrite <-app_assoc.
  - change (length (a :: b :: c :: l) + 2)%nat with (3 + (length l + 2))%nat.
    change (String.length (chars (quad a b c) E)) with (4 + String.length E)%nat. rewrite Hlen.
    replace (3 + (length l + 2))%nat with (length l + 2 + 1 * 3)%nat by lia.
    rewrite Nat.div_add by lia. lia.
Qed.

Lemma encode_decodes l :
  Forall byte_ok l →
  decodes (encode l) l ∧ (String.length (encode l) = 4 * ((length l + 2) / 3))%nat.
Proof.
  intros Hl. rewrite encode_finish.
  destruct (encode_groups (length l) 0 EmptyString l 0) as (E & -> & Hd & Hlen);
    [lia|done|done|]. done.
Qed.

(** [base64::decode] inverts [base64::encode] on every list of bytes, with
    the 32-bit accumulators that wrap around on long inputs, and the text has
    four characters for each three bytes begun. *)
Theorem base64_roundtrip l :
  Forall byte_ok l →
  decode (encode l) = l ∧ (String.length (encode l) = 4 * ((length l + 2) / 3))%nat.
Proof. intros Hl. destruct (encode_decodes l Hl) as [Hd Hlen]. split; [apply Hd|done]. Qed.

Lemma base64_roundtrip_witness :
  decode (encode [77; 97; 110; 255; 0]) = [77; 97; 110; 255; 0].
Proof.
  apply base64_roundtrip. repeat constructor; unfold byte_ok; lia.
Defined.

Example encode_text : encode [77; 97; 110; 255] = "TWFu/w==".
Proof. by vm_compute. Qed.
