(* ===== verification/Types.v ===== *)
(** [core/include/wininspect/types.hpp], [update.hpp] and the result types of
    [backend.hpp]: the data that the engine and a backend exchange.  Integers of
    every width are [Z]; [u32] and [u64] say which values a field can hold. *)

From S2P Require Import Prelude CString Double.

Local Open Scope Z_scope.

Definition u8 (z : Z) : Prop := 0 ≤ z < 2 ^ 8.
Definition u32 (z : Z) : Prop := 0 ≤ z < 2 ^ 32.
Definition u64 (z : Z) : Prop := 0 ≤ z < 2 ^ 64.

(** [hwnd_u64], and the [Hwnd] wrapper around it. *)
Definition hwnd_u64 : Type := Z.

Record Hwnd := mkHwnd { hwnd_val : hwnd_u64 }.
Definition Hwnd_is_valid (h : Hwnd) : bool := negb (hwnd_val h =? 0).

(** [oss << "0x" << std::hex << std::uppercase << val]. *)
Definition Hwnd_to_string (h : Hwnd) : string := "0x" +:+ print_base 16 (hwnd_val h).

Record SessionID := mkSessionID { sid_val : string }.
Definition SessionID_empty (s : SessionID) : bool := is_empty (sid_val s).

Definition PROTOCOL_VERSION : string := "0.1.1".
Definition WININSPECT_VERSION : string := "v0.1.1".

Record Rect := mkRect { left : Z; top : Z; right : Z; bottom : Z }.
Definition Rect_zero : Rect := mkRect 0 0 0 0.

Record Color := mkColor { c_r : Z; c_g : Z; c_b : Z }.

(** [snprintf(buf, 8, "#%02X%02X%02X", r, g, b)] (in [win32_backend.cpp]). *)
Definition hex2 (b : Z) : string :=
  String (digit_char (b / 16)) (String (digit_char (b mod 16)) EmptyString).
Definition Color_to_hex (c : Color) : string :=
  String "#"%char (hex2 (c_r c) +:+ hex2 (c_g c) +:+ hex2 (c_b c)).

Record ScreenCapture := mkScreenCapture { sc_width : Z; sc_height : Z; sc_data_b64 : string }.

Record ProcessInfo := mkProcessInfo { p_pid : Z; p_name : string; p_path : string }.

Record FileInfo := mkFileInfo {
  fi_path : string; fi_size : Z; fi_is_directory : bool; fi_last_modified : string }.

Record RegistryValue := mkRegistryValue { rv_name : string; rv_type : string; rv_data : string }.

Record RegistryKeyInfo := mkRegistryKeyInfo {
  rk_path : string; rk_subkeys : list string; rk_values : list RegistryValue }.

Record ServiceInfo := mkServiceInfo { sv_name : string; sv_display_name : string; sv_state : string }.

Record DriveInfo := mkDriveInfo { dr_letter : string; dr_mapping : string; dr_type : string }.

Record EnvVar := mkEnvVar { ev_name : string; ev_value : string }.

Record MemoryRegion := mkMemoryRegion { mr_address : Z; mr_data_b64 : string }.

Record ImageMatchResult := mkImageMatchResult { im_x : Z; im_y : Z; im_confidence : double }.

Record WindowInfo := mkWindowInfo {
  wi_hwnd : hwnd_u64; wi_parent : hwnd_u64; wi_owner : hwnd_u64;
  wi_class_name : string; wi_title : string;
  wi_window_rect : Rect; wi_client_rect : Rect; wi_screen_rect : Rect;
  wi_pid : Z; wi_tid : Z; wi_style : Z; wi_exstyle : Z;
  wi_style_flags : list string; wi_ex_style_flags : list string;
  wi_visible : bool; wi_enabled : bool; wi_iconic : bool; wi_zoomed : bool;
  wi_process_image : string }.

#[local] Unset Elimination Schemes.
Inductive WindowNode := mkWindowNode {
  wn_hwnd : hwnd_u64; wn_title : string; wn_class_name : string; wn_children : list WindowNode }.
#[local] Set Elimination Schemes.

Record PickFlags := mkPickFlags { prefer_child : bool; ignore_transparent : bool }.
Definition PickFlags_default : PickFlags := mkPickFlags true true.

Record Snapshot := mkSnapshot { snap_top : list hwnd_u64 }.
Definition Snapshot_empty : Snapshot := mkSnapshot [].

Record Event := mkEvent {
  e_seq : Z; e_type : string; e_hwnd : hwnd_u64; e_property : string }.
Definition Event_set_seq (seq : Z) (e : Event) : Event :=
  mkEvent seq (e_type e) (e_hwnd e) (e_property e).

#[local] Unset Elimination Schemes.
Inductive UIElementInfo := mkUIElementInfo {
  ui_automation_id : string; ui_name : string; ui_class_name : string; ui_control_type : string;
  ui_bounding_rect : Rect; ui_enabled : bool; ui_visible : bool;
  ui_children : list UIElementInfo }.
#[local] Set Elimination Schemes.

Record Capabilities := mkCapabilities {
  caps_os : string; caps_is_wine : bool; caps_arch : string;
  caps_win_major : Z; caps_win_minor : Z; caps_win_build : Z;
  caps_uia_available : bool; caps_clipboard_available : bool; caps_registry_writable : bool;
  caps_service_manager : bool; caps_process_memory : bool; caps_input_injection : bool;
  caps_window_highlight : bool;
  caps_wine_version : string }.

(** [update::UpdateInfo]. *)
Record UpdateInfo := mkUpdateInfo {
  up_update_available : bool; up_current_version : string; up_latest_version : string;
  up_release_notes : string; up_error : string;
  up_installer_url : string; up_portable_zip_url : string }.

(** [EnsureResult]. *)
Record EnsureResult := mkEnsureResult { changed : bool }.

#[export] Instance Snapshot_eq_dec : EqDecision Snapshot.
Proof. solve_decision. Defined.
#[export] Instance Event_eq_dec : EqDecision Event.
Proof. solve_decision. Defined.

(** Induction on a forest of elements. *)
Section UIElement_ind.
Variable P : UIElementInfo → Prop.
Hypothesis Hnode : ∀ el, Forall P (ui_children el) → P el.

Fixpoint UIElementInfo_nested_ind (el : UIElementInfo) : P el :=
  match el with
  | mkUIElementInfo i n c t r e v ch =>
      Hnode (mkUIElementInfo i n c t r e v ch)
        ((fix go (l : list UIElementInfo) : Forall P l :=
            match l with
            | [] => Forall_nil_2 P
            | x :: l' => Forall_cons_2 P x l' (UIElementInfo_nested_ind x) (go l')
            end) ch)
  end.
End UIElement_ind.

Section WindowNode_ind.
Variable P : WindowNode → Prop.
Hypothesis Hnode : ∀ n, Forall P (wn_children n) → P n.

Fixpoint WindowNode_nested_ind (n : WindowNode) : P n :=
  match n with
  | mkWindowNode h t c ch =>
      Hnode (mkWindowNode h t c ch)
        ((fix go (l : list WindowNode) : Forall P l :=
            match l with
            | [] => Forall_nil_2 P
            | x :: l' => Forall_cons_2 P x l' (WindowNode_nested_ind x) (go l')
            end) ch)
  end.
End WindowNode_ind.
