(* ===== verification/Logger.v ===== *)
(** [core/src/logger.cpp] and [logger.hpp]: the process-wide log with its
    bounded buffer. *)

From S2P Require Import Prelude CString.

Local Open Scope Z_scope.

(** * Model *)

Inductive LogLevel := TRACE | DEBUG | INFO | WARN | ERR.

(** [static_cast<int>(level)]; the order of the levels. *)
Definition LogLevel_to_Z (l : LogLevel) : Z :=
  match l with TRACE => 0 | DEBUG => 1 | INFO => 2 | WARN => 3 | ERR => 4 end.
Definition level_ge (a b : LogLevel) : bool := LogLevel_to_Z b <=? LogLevel_to_Z a.

Definition level_to_str (l : LogLevel) : string :=
  match l with
  | TRACE => "TRACE" | DEBUG => "DEBUG" | INFO => "INFO" | WARN => "WARN" | ERR => "ERROR"
  end.

Record LogMessage := mkLogMessage { lm_level : LogLevel; lm_timestamp : string; lm_message : string }.

Definition MAX_LOGS : nat := 100.

(** The members of [Logger], and the lines written to [std::cerr]. *)
Record Logger := mkLogger {
  min_level_ : LogLevel;
  buffer_ : list LogMessage;
  cerr : list string }.

Definition Logger_init : Logger := mkLogger INFO [] [].

Definition should_log (lg : Logger) (level : LogLevel) : bool := level_ge level (min_level_ lg).

(** [ts] is the local time as [put_time] prints it. *)
Definition log (level : LogLevel) (ts msg : string) (lg : Logger) : Logger :=
  let out :=
    if level_ge level (min_level_ lg)
    then cerr lg ++ ["[" +:+ ts +:+ "] [" +:+ level_to_str level +:+ "] " +:+ msg]
    else cerr lg in
  let buf := buffer_ lg ++ [mkLogMessage level ts msg] in
  mkLogger (min_level_ lg)
    (if (MAX_LOGS <? length buf)%nat then tail buf else buf)
    out.

Definition get_recent_logs (count : nat) (lg : Logger) : list LogMessage :=
  if (length (buffer_ lg) <=? count)%nat then buffer_ lg
  else drop (length (buffer_ lg) - count) (buffer_ lg).

Definition set_level (level : LogLevel) (lg : Logger) : Logger :=
  mkLogger level (buffer_ lg) (cerr lg).

(** The [LOG_...] macros. *)
Definition LOG_AT_LEVEL (level : LogLevel) (ts msg : string) (lg : Logger) : Logger :=
  if should_log lg level then log level ts msg lg else lg.

(** * Proofs *)

Definition logger_ok (lg : Logger) : Prop := (length (buffer_ lg) ≤ MAX_LOGS)%nat.

(** The last [n] elements of a list. *)
Definition lastn {A} (n : nat) (l : list A) : list A := drop (length l - n) l.

Lemma lastn_all {A} n (l : list A) : (length l ≤ n)%nat → lastn n l = l.
Proof. intros. unfold lastn. by replace (length l - n)%nat with 0%nat by lia. Qed.

Lemma get_recent_lastn n lg : get_recent_logs n lg = lastn n (buffer_ lg).
Proof.
  unfold get_recent_logs. destruct (Nat.leb_spec (length (buffer_ lg)) n); [|done].
  by rewrite lastn_all.
Qed.

(** Keeping the last [n] of a list as it grows is keeping the last [n]. *)
Lemma lastn_snoc {A} n (l : list A) x : (0 < n)%nat → lastn n (lastn n l ++ [x]) = lastn n (l ++ [x]).
Proof.
  intros Hn. unfold lastn. rewrite !length_app, length_drop. simpl.
  destruct (Nat.le_gt_cases (length l) n) as [Hle|Hgt].
  - replace (length l - n)%nat with 0%nat by lia. rewrite drop_0, Nat.sub_0_r. done.
  - rewrite !drop_app_le by (rewrite ?length_drop; lia). rewrite drop_drop. f_equal. f_equal. lia.
Qed.

Lemma log_buffer level ts msg lg :
  logger_ok lg → buffer_ (log level ts msg lg) = lastn MAX_LOGS (buffer_ lg ++ [mkLogMessage level ts msg]).
Proof.
  unfold logger_ok. intros Hok. cbn [log buffer_]. destruct (Nat.ltb_spec MAX_LOGS (length (buffer_ lg ++ [mkLogMessage level ts msg]))) as [Hlt|Hge].
  - unfold lastn. rewrite length_app in *. simpl in *.
    replace (length (buffer_ lg) + 1 - MAX_LOGS)%nat with 1%nat by lia.
    by destruct (buffer_ lg).
  - by rewrite lastn_all.
Qed.

Lemma log_ok level ts msg lg : logger_ok lg → logger_ok (log level ts msg lg).
Proof.
  intros Hok. unfold logger_ok. rewrite log_buffer by done. unfold lastn. rewrite length_drop. lia.
Qed.

Lemma LOG_AT_LEVEL_ok level ts msg lg : logger_ok lg → logger_ok (LOG_AT_LEVEL level ts msg lg).
Proof. unfold LOG_AT_LEVEL. destruct (should_log lg level); auto using log_ok. Qed.

Lemma log_level level ts msg lg : min_level_ (log level ts msg lg) = min_level_ lg.
Proof. done. Qed.

(** A sequence of [LOG_...] calls. *)
Definition log_all (ms : list LogMessage) (lg : Logger) : Logger :=
  foldl (λ lg m, LOG_AT_LEVEL (lm_level m) (lm_timestamp m) (lm_message m) lg) lg ms.

(** After any sequence of log calls the buffer holds exactly the last 100 of
    the messages at or above the minimum level, oldest first, so
    [get_recent_logs(n)] is the last [n] of them for every [n] up to 100. *)
Theorem recent_logs_spec ms lvl n :
  (n ≤ MAX_LOGS)%nat →
  get_recent_logs n (log_all ms (set_level lvl Logger_init))
  = lastn n (List.filter (λ m, level_ge (lm_level m) lvl) ms).
Proof.
  intros Hn. rewrite get_recent_lastn.
  assert (buffer_ (log_all ms (set_level lvl Logger_init))
          = lastn MAX_LOGS (List.filter (λ m, level_ge (lm_level m) lvl) ms)
          ∧ min_level_ (log_all ms (set_level lvl Logger_init)) = lvl) as [-> _].
  { induction ms as [|m ms [IHb IHl]] using rev_ind; [done|].
    unfold log_all in *. rewrite foldl_app, List.filter_app. cbn [foldl List.filter].
    set (lg := foldl _ _ ms) in *. unfold LOG_AT_LEVEL, should_log. rewrite IHl.
    destruct (level_ge (lm_level m) lvl); [|by rewrite app_nil_r].
    rewrite log_level. split; [|done]. rewrite log_buffer.
    - rewrite IHb. destruct m. apply lastn_snoc. unfold MAX_LOGS. lia.
    - unfold logger_ok. rewrite IHb. unfold lastn. rewrite length_drop. lia. }
  unfold lastn. rewrite drop_drop, length_drop. f_equal. lia.
Qed.

Lemma recent_logs_spec_witness :
  get_recent_logs 1 (log_all [mkLogMessage INFO "t" "a"; mkLogMessage DEBUG "t" "b"] Logger_init)
  = [mkLogMessage INFO "t" "a"].
Proof.
  change Logger_init with (set_level INFO Logger_init).
  rewrite recent_logs_spec by (unfold MAX_LOGS; lia). reflexivity.
Defined.
