(* ===== verification/Backend.v ===== *)
(** [core/include/wininspect/backend.hpp]: the interface between the engine and
    an operating system, with the laws clients rely on, and the world that a
    request runs in. *)

From S2P Require Import Prelude CString Double Json Types Logger.

Local Open Scope Z_scope.

(** * The interface *)

(** [IBackend]: every operation may change the backend's state and may throw. *)
Class IBackend (B : Type) := {
  set_config : Object → M B ();
  capture_snapshot : M B Snapshot;
  list_top : Snapshot → M B (list hwnd_u64);
  list_children : Snapshot → hwnd_u64 → M B (list hwnd_u64);
  get_info : Snapshot → hwnd_u64 → M B (option WindowInfo);
  pick_at_point : Snapshot → Z → Z → PickFlags → M B (option hwnd_u64);
  get_window_tree : Snapshot → hwnd_u64 → M B (list WindowNode);
  ensure_visible : hwnd_u64 → bool → M B EnsureResult;
  ensure_foreground : hwnd_u64 → M B EnsureResult;
  highlight_window : hwnd_u64 → M B bool;
  set_property : hwnd_u64 → string → string → M B bool;
  post_message : hwnd_u64 → Z → Z → Z → M B bool;
  send_input : list Z → M B bool;
  send_mouse_click : Z → Z → Z → M B bool;
  send_key_press : Z → M B bool;
  send_text : string → M B bool;
  control_click : hwnd_u64 → Z → Z → Z → M B bool;
  control_send : hwnd_u64 → string → M B bool;
  get_pixel : Z → Z → M B (option Color);
  capture_screen : Rect → M B (option ScreenCapture);
  pixel_search : Rect → Color → Z → M B (option (Z * Z));
  list_processes : M B (list ProcessInfo);
  kill_process : Z → M B bool;
  get_file_info : string → M B (option FileInfo);
  read_file_content : string → M B (option string);
  find_windows_regex : string → string → M B (list hwnd_u64);
  reg_read : string → M B (option RegistryKeyInfo);
  reg_write : string → RegistryValue → M B bool;
  reg_delete : string → string → M B bool;
  reg_subscribe : string → M B bool;
  clipboard_read : M B (option string);
  clipboard_write : string → M B bool;
  service_list : M B (list ServiceInfo);
  service_status : string → M B string;
  service_control : string → string → M B bool;
  env_get_all : M B (list EnvVar);
  env_set : string → string → M B bool;
  wine_get_drives : M B (list DriveInfo);
  wine_get_overrides : M B (list string);
  sync_check_mutex : string → M B bool;
  sync_create_mutex : string → bool → M B bool;
  mem_read : Z → Z → Z → M B (option MemoryRegion);
  mem_write : Z → Z → list Z → M B bool;
  image_match : Rect → list Z → M B (option ImageMatchResult);
  input_hook_enable : bool → M B bool;
  inspect_ui_elements : hwnd_u64 → M B (list UIElementInfo);
  invoke_ui_element : hwnd_u64 → string → M B bool;
  get_capabilities : M B Capabilities;
  get_env_metadata : M B Object;
  check_for_update : M B UpdateInfo;
  download_update : string → string → M B string;
  poll_events : Snapshot → Snapshot → M B (list Event);
}.

(** * Laws *)

(** An operation that leaves the state as it was, whether it returns or
    throws. *)
Definition unchanging {S A} (m : M S A) : Prop := ∀ s, (m s).2 = s.

(** The inspection half of the interface does not change the backend. *)
Class InspectionLaws (B : Type) `{IBackend B} := {
  capture_snapshot_pure : unchanging capture_snapshot;
  list_top_pure s : unchanging (list_top s);
  list_children_pure s p : unchanging (list_children s p);
  get_info_pure s h : unchanging (get_info s h);
  pick_at_point_pure s x y f : unchanging (pick_at_point s x y f);
  get_window_tree_pure s r : unchanging (get_window_tree s r);
  get_pixel_pure x y : unchanging (get_pixel x y);
  capture_screen_pure r : unchanging (capture_screen r);
  pixel_search_pure r c v : unchanging (pixel_search r c v);
  list_processes_pure : unchanging list_processes;
  get_file_info_pure p : unchanging (get_file_info p);
  read_file_content_pure p : unchanging (read_file_content p);
  find_windows_regex_pure t c : unchanging (find_windows_regex t c);
  reg_read_pure p : unchanging (reg_read p);
  clipboard_read_pure : unchanging clipboard_read;
  service_list_pure : unchanging service_list;
  service_status_pure n : unchanging (service_status n);
  env_get_all_pure : unchanging env_get_all;
  wine_get_drives_pure : unchanging wine_get_drives;
  wine_get_overrides_pure : unchanging wine_get_overrides;
  sync_check_mutex_pure n : unchanging (sync_check_mutex n);
  mem_read_pure p a n : unchanging (mem_read p a n);
  image_match_pure r d : unchanging (image_match r d);
  inspect_ui_elements_pure h : unchanging (inspect_ui_elements h);
  get_capabilities_pure : unchanging get_capabilities;
  get_env_metadata_pure : unchanging get_env_metadata;
  check_for_update_pure : unchanging check_for_update;
  poll_events_pure o n : unchanging (poll_events o n);
}.

(** A desired-state action that has been made is not made again: the second
    call changes nothing and says so. *)
Definition settles {S} (m : M S EnsureResult) : Prop :=
  ∀ s r s', m s = (Ok r, s') → m s' = (Ok (mkEnsureResult false), s').

Class DesiredStateLaws (B : Type) `{IBackend B} := {
  ensure_visible_settles h v : settles (ensure_visible h v);
  ensure_foreground_settles h : settles (ensure_foreground h);
}.

(** * The world of a request *)

(** What the process reads from outside a backend: the steady clock in
    nanoseconds and the local time as the logger prints it, at each reading. *)
Class Clock := {
  steady_now : nat → Z;
  local_time : nat → string;
}.

(** The backend, the process-wide logger and the number of clock readings made
    so far. *)
Record World (B : Type) := mkWorld {
  w_backend : B;
  w_logger : Logger;
  w_ticks : nat }.
Arguments mkWorld {B} _ _ _.
Arguments w_backend {B} _.
Arguments w_logger {B} _.
Arguments w_ticks {B} _.

Section World.
Context {B : Type} `{Clock}.

Definition set_backend (b : B) (w : World B) : World B := mkWorld b (w_logger w) (w_ticks w).

(** A call through [backend_]. *)
Definition backend {A} (m : M B A) : M (World B) A := zoom w_backend set_backend m.

(** [std::chrono::steady_clock::now()]. *)
Definition now : M (World B) Z := λ w,
  (Ok (steady_now (w_ticks w)), mkWorld (w_backend w) (w_logger w) (S (w_ticks w))).

(** [LOG_DEBUG(msg)] and the others; the time is read when the message is
    logged. *)
Definition LOG (level : LogLevel) (msg : string) : M (World B) () := λ w,
  if should_log (w_logger w) level then
    (Ok (), mkWorld (w_backend w) (log level (local_time (w_ticks w)) msg (w_logger w))
              (S (w_ticks w)))
  else (Ok (), w).

(** [duration_cast<milliseconds>(t1 - t0).count()], which cuts off. *)
Definition duration_ms (t0 t1 : Z) : Z := Z.quot (t1 - t0) 1000000.
Definition duration_s (t0 t1 : Z) : Z := Z.quot (t1 - t0) 1000000000.
End World.

(** * Reasoning about computations *)

(** [keeps R m]: running [m] relates the states before and after by [R]. *)
Definition keeps {S A} (R : S → S → Prop) (m : M S A) : Prop := ∀ s, R s (m s).2.

Create HintDb keeps.

Section keeps.
Context {S : Type} (R : S → S → Prop) `{!PreOrder R}.

Lemma keeps_ret {A} (a : A) : keeps R (mret a).
Proof. intros s. simpl. reflexivity. Qed.

Lemma keeps_bind {A C} (m : M S A) (f : A → M S C) :
  keeps R m → (∀ a, keeps R (f a)) → keeps R (m ≫= f).
Proof.
  intros Hm Hf s. specialize (Hm s). unfold mbind, M_bind.
  destruct (m s) as [[a| | |] s']; simpl in *; try done. etrans; [exact Hm|apply Hf].
Qed.

Lemma keeps_throw {A} w : keeps R (throw (A := A) w).
Proof. intros s. simpl. reflexivity. Qed.

Lemma keeps_lift {A} (r : result A) : keeps R (lift_result r).
Proof. intros s. simpl. reflexivity. Qed.

Lemma keeps_gets {A} (f : S → A) : keeps R (gets f).
Proof. intros s. simpl. reflexivity. Qed.

Lemma keeps_try {A} (m : M S A) h : keeps R m → (∀ w, keeps R (h w)) → keeps R (try_catch m h).
Proof.
  intros Hm Hh s. specialize (Hm s). unfold try_catch.
  destruct (m s) as [[a|w| |] s']; simpl in *; try done. etrans; [exact Hm|apply Hh].
Qed.

Lemma keeps_if {A} (b : bool) (m1 m2 : M S A) :
  keeps R m1 → keeps R m2 → keeps R (if b then m1 else m2).
Proof. by destruct b. Qed.

Lemma keeps_option {A C} (o : option A) (f : A → M S C) m :
  (∀ a, keeps R (f a)) → keeps R m → keeps R (match o with Some a => f a | None => m end).
Proof. by destruct o. Qed.
End keeps.

#[export] Hint Resolve keeps_ret keeps_throw keeps_lift keeps_gets : keeps.

Lemma unchanging_keeps {S A} (m : M S A) : unchanging m ↔ keeps eq m.
Proof. unfold unchanging, keeps. naive_solver. Qed.

(** [yields P m]: a value that [m] returns satisfies [P]. *)
Definition yields {S A} (P : A → Prop) (m : M S A) : Prop :=
  ∀ s, match (m s).1 with Ok a => P a | _ => True end.

Section yields.
Context {S : Type}.

Lemma yields_ret {A} (P : A → Prop) (a : A) : P a → yields P (mret a : M S A).
Proof. by intros ? s. Qed.

Lemma yields_bind {A C} (P : C → Prop) (m : M S A) (f : A → M S C) :
  (∀ a, yields P (f a)) → yields P (m ≫= f).
Proof.
  intros Hf s. unfold mbind, M_bind. destruct (m s) as [[a| | |] s']; simpl; try done. apply Hf.
Qed.

Lemma yields_throw {A} (P : A → Prop) w : yields P (throw w : M S A).
Proof. by intros s. Qed.

Lemma yields_lift {A} (P : A → Prop) r :
  match r with Ok a => P a | _ => True end → yields P (lift_result r : M S A).
Proof. by intros ? s. Qed.

Lemma yields_if {A} (P : A → Prop) (b : bool) (m1 m2 : M S A) :
  yields P m1 → yields P m2 → yields P (if b then m1 else m2).
Proof. by destruct b. Qed.

Lemma yields_option {A C} (P : C → Prop) (o : option A) (f : A → M S C) m :
  (∀ a, yields P (f a)) → yields P m → yields P (match o with Some a => f a | None => m end).
Proof. by destruct o. Qed.
End yields.
