(* ===== verification/FakeBackend.v ===== *)
(** [core/src/fake_backend.cpp] and [fake_backend.hpp]: the in-memory backend,
    one definition per method, and the laws of the interface for it. *)

From S2P Require Import Prelude StdMap CString Double Json Types Logger Backend.

Local Open Scope Z_scope.

(** * State *)

Record FakeWindow := mkFakeWindow {
  fw_hwnd : hwnd_u64; fw_parent : hwnd_u64; fw_owner : hwnd_u64;
  fw_title : string; fw_cls : string; fw_visible : bool }.

Record FakeBackend := mkFakeBackend {
  w_ : list (hwnd_u64 * FakeWindow);
  foreground_ : hwnd_u64;
  ui_elements_ : list (hwnd_u64 * list UIElementInfo);
  injected_events_ : list string }.

Abbreviation Fake := (M FakeBackend).

Module Fake.

(** The constructor: [w_.emplace(w.hwnd, w)] for each window. *)
Definition FakeBackend_new (windows : list FakeWindow) : FakeBackend :=
  mkFakeBackend (foldl (λ m w, map_emplace (fw_hwnd w) w m) [] windows) 0 [] [].

(** [injected_events_.push_back(e)]. *)
Definition inject (e : string) : Fake () :=
  modify (λ b, mkFakeBackend (w_ b) (foreground_ b) (ui_elements_ b) (injected_events_ b ++ [e])).

(** The windows whose parent is [p], in the order of the map. *)
Definition with_parent (p : hwnd_u64) (b : FakeBackend) : list hwnd_u64 :=
  (List.filter (λ hw, fw_parent hw.2 =? p) (w_ b)).*1.

(** * Operations *)

Definition set_config (_ : Object) : Fake () := mret ().

Definition capture_snapshot : Fake Snapshot :=
  gets (λ b, mkSnapshot (merge_sort Z.le (with_parent 0 b))).

Definition list_top (s : Snapshot) : Fake (list hwnd_u64) := mret (snap_top s).

Definition list_children (_ : Snapshot) (parent : hwnd_u64) : Fake (list hwnd_u64) :=
  gets (λ b, merge_sort Z.le (with_parent parent b)).

Definition get_info (_ : Snapshot) (hwnd : hwnd_u64) : Fake (option WindowInfo) :=
  gets (λ b,
    match map_find hwnd (w_ b) with
    | None => None
    | Some fw =>
        Some {| wi_hwnd := fw_hwnd fw; wi_parent := fw_parent fw; wi_owner := fw_owner fw;
                wi_class_name := fw_cls fw; wi_title := fw_title fw;
                wi_window_rect := mkRect 0 0 100 100; wi_client_rect := mkRect 0 0 100 100;
                wi_screen_rect := Rect_zero;
                wi_pid := 1234; wi_tid := 5678; wi_style := 0; wi_exstyle := 0;
                wi_style_flags := []; wi_ex_style_flags := [];
                wi_visible := fw_visible fw; wi_enabled := true; wi_iconic := false;
                wi_zoomed := false; wi_process_image := "fake.exe" |}
    end).

Definition pick_at_point (_ : Snapshot) (_ _ : Z) (_ : PickFlags) : Fake (option hwnd_u64) :=
  s ← capture_snapshot;
  mret (match snap_top s with [] => None | h :: _ => Some h end).

(** The recursive lambda [build_node]: a node, then its children in the order
    of the map.  [fuel] bounds the depth. *)
Fixpoint build_node (fuel : nat) (b : FakeBackend) (h : hwnd_u64) : result WindowNode :=
  match fuel with
  | O => OutOfFuel
  | S fuel =>
      let '(title, cls) :=
        match map_find h (w_ b) with
        | Some w => (fw_title w, fw_cls w)
        | None => (EmptyString, EmptyString)
        end in
      children ← (fix go (l : list hwnd_u64) : result (list WindowNode) :=
                    match l with
                    | [] => Ok []
                    | c :: l' => n ← build_node fuel b c; ns ← go l'; Ok (n :: ns)
                    end) (with_parent h b);
      Ok (mkWindowNode h title cls children)
  end.

Fixpoint build_nodes (fuel : nat) (b : FakeBackend) (l : list hwnd_u64) : result (list WindowNode) :=
  match l with
  | [] => Ok []
  | c :: l' => n ← build_node fuel b c; ns ← build_nodes fuel b l'; Ok (n :: ns)
  end.

(** One unit of fuel per window and one more is enough when no window is its
    own ancestor ([get_window_tree_total]). *)
Definition get_window_tree (_ : Snapshot) (root : hwnd_u64) : Fake (list WindowNode) := λ b,
  (build_nodes (S (length (w_ b))) b (if root =? 0 then with_parent 0 b else [root]), b).

Definition highlight_window (hwnd : hwnd_u64) : Fake bool :=
  _ ← inject ("highlight_window:" +:+ Z_to_string hwnd); mret true.

Definition set_property (_ : hwnd_u64) (name value : string) : Fake bool :=
  _ ← inject ("set_property:" +:+ name +:+ "=" +:+ value); mret true.

Definition control_click (hwnd : hwnd_u64) (x y _ : Z) : Fake bool :=
  _ ← inject ("control_click:" +:+ Z_to_string hwnd +:+ " at " +:+ Z_to_string x +:+ ","
              +:+ Z_to_string y); mret true.

Definition control_send (hwnd : hwnd_u64) (text : string) : Fake bool :=
  _ ← inject ("control_send:" +:+ Z_to_string hwnd +:+ " text:" +:+ text); mret true.

Definition get_pixel (_ _ : Z) : Fake (option Color) := mret (Some (mkColor 255 0 0)).

Definition capture_screen (_ : Rect) : Fake (option ScreenCapture) :=
  mret (Some (mkScreenCapture 100 100 "fake_b64")).

Definition pixel_search (_ : Rect) (_ : Color) (_ : Z) : Fake (option (Z * Z)) := mret (Some (50, 50)).

Definition list_processes : Fake (list ProcessInfo) :=
  mret [mkProcessInfo 1234 "fake.exe" "C:\fake.exe"].

Definition kill_process (pid : Z) : Fake bool :=
  _ ← inject ("kill_process:" +:+ Z_to_string pid); mret true.

Definition get_file_info (path : string) : Fake (option FileInfo) :=
  mret (Some (mkFileInfo path 1024 false "2026-02-19")).

Definition read_file_content (_ : string) : Fake (option string) := mret (Some "fake content").

Definition find_windows_regex (_ _ : string) : Fake (list hwnd_u64) := mret [0x1234].

Definition reg_read (path : string) : Fake (option RegistryKeyInfo) :=
  mret (Some (mkRegistryKeyInfo path ["SubKey1"] [mkRegistryValue "TestValue" "SZ" "TestData"])).

Definition reg_write (path : string) (val : RegistryValue) : Fake bool :=
  _ ← inject ("reg_write:" +:+ path +:+ "\" +:+ rv_name val +:+ "=" +:+ rv_data val); mret true.

Definition reg_delete (path value_name : string) : Fake bool :=
  _ ← inject ("reg_delete:" +:+ path +:+ " val:" +:+ value_name); mret true.

Definition reg_subscribe (path : string) : Fake bool :=
  _ ← inject ("reg_subscribe:" +:+ path); mret true.

Definition clipboard_read : Fake (option string) := mret (Some "fake clipboard").
Definition clipboard_write (text : string) : Fake bool :=
  _ ← inject ("clipboard_write:" +:+ text); mret true.

Definition service_list : Fake (list ServiceInfo) :=
  mret [mkServiceInfo "FakeSvc" "Fake Service" "RUNNING"].
Definition service_status (_ : string) : Fake string := mret "RUNNING".
Definition service_control (name action : string) : Fake bool :=
  _ ← inject ("service_control:" +:+ name +:+ " " +:+ action); mret true.

Definition env_get_all : Fake (list EnvVar) := mret [mkEnvVar "PATH" "C:\fake"].
Definition env_set (name value : string) : Fake bool :=
  _ ← inject ("env_set:" +:+ name +:+ "=" +:+ value); mret true.

Definition wine_get_drives : Fake (list DriveInfo) := mret [mkDriveInfo "C" "C:\" "Fixed"].
Definition wine_get_overrides : Fake (list string) := mret ["d3d11=native"].

Definition sync_check_mutex (_ : string) : Fake bool := mret true.
Definition sync_create_mutex (name : string) (_ : bool) : Fake bool :=
  _ ← inject ("create_mutex:" +:+ name); mret true.

Definition mem_read (_ addr _ : Z) : Fake (option MemoryRegion) :=
  mret (Some (mkMemoryRegion addr "ZmFrZSBtZW1vcnk=")).
Definition mem_write (pid addr : Z) (_ : list Z) : Fake bool :=
  _ ← inject ("mem_write:" +:+ Z_to_string pid +:+ "@" +:+ Z_to_string addr); mret true.

Definition image_match (_ : Rect) (_ : list Z) : Fake (option ImageMatchResult) :=
  mret (Some (mkImageMatchResult 10 10 (double_of_Z 1))).

Definition input_hook_enable (enabled : bool) : Fake bool :=
  _ ← inject ("input_hook:" +:+ (if enabled then "on" else "off")); mret true.

Definition ensure_visible (hwnd : hwnd_u64) (visible : bool) : Fake EnsureResult := λ b,
  match map_find hwnd (w_ b) with
  | None => (Ok (mkEnsureResult false), b)
  | Some fw =>
      let changed := negb (Bool.eqb (fw_visible fw) visible) in
      let fw' := mkFakeWindow (fw_hwnd fw) (fw_parent fw) (fw_owner fw) (fw_title fw) (fw_cls fw) visible in
      (Ok (mkEnsureResult changed),
       mkFakeBackend (map_set hwnd fw' (w_ b)) (foreground_ b) (ui_elements_ b) (injected_events_ b))
  end.

Definition ensure_foreground (hwnd : hwnd_u64) : Fake EnsureResult := λ b,
  (Ok (mkEnsureResult (negb (foreground_ b =? hwnd))),
   mkFakeBackend (w_ b) hwnd (ui_elements_ b) (injected_events_ b)).

Definition post_message (_ : hwnd_u64) (_ _ _ : Z) : Fake bool := mret true.

Definition send_input (_ : list Z) : Fake bool := _ ← inject "send_input"; mret true.

Definition send_mouse_click (x y button : Z) : Fake bool :=
  _ ← inject ("mouse_click:" +:+ Z_to_string x +:+ "," +:+ Z_to_string y +:+ ","
              +:+ Z_to_string button); mret true.

Definition send_key_press (vk : Z) : Fake bool :=
  _ ← inject ("key_press:" +:+ Z_to_string vk); mret true.

Definition send_text (text : string) : Fake bool := _ ← inject ("text:" +:+ text); mret true.

Definition inspect_ui_elements (parent : hwnd_u64) : Fake (list UIElementInfo) :=
  gets (λ b, match map_find parent (ui_elements_ b) with None => [] | Some l => l end).

(** The element itself, then its children, depth first. *)
Fixpoint element_matches (id : string) (el : UIElementInfo) : bool :=
  bool_decide (ui_automation_id el = id) ||
  (fix go (l : list UIElementInfo) : bool :=
     match l with [] => false | x :: l' => element_matches id x || go l' end) (ui_children el).

Fixpoint find_and_invoke (elements : list UIElementInfo) (id : string) : bool :=
  match elements with
  | [] => false
  | el :: elements' => element_matches id el || find_and_invoke elements' id
  end.

Definition invoke_ui_element (hwnd : hwnd_u64) (automation_id : string) : Fake bool :=
  _ ← inject ("invoke_ui_element:" +:+ automation_id);
  gets (λ b, match map_find hwnd (ui_elements_ b) with
             | None => false
             | Some l => find_and_invoke l automation_id
             end).

Definition fake_capabilities : Capabilities :=
  {| caps_os := "windows 10 (fake)"; caps_is_wine := false; caps_arch := "x64";
     caps_win_major := 10; caps_win_minor := 0; caps_win_build := 19041;
     caps_uia_available := true; caps_clipboard_available := true;
     caps_registry_writable := true; caps_service_manager := true;
     caps_process_memory := true; caps_input_injection := true;
     caps_window_highlight := true; caps_wine_version := EmptyString |}.

Definition get_capabilities : Fake Capabilities := mret fake_capabilities.

Definition get_env_metadata : Fake Object :=
  caps ← get_capabilities;
  let diag := map_of [("clipboard", JBool (caps_clipboard_available caps));
                      ("registry_write", JBool (caps_registry_writable caps));
                      ("uia_available", JBool (caps_uia_available caps))] in
  mret (map_of [("os", JStr (caps_os caps)); ("is_wine", JBool (caps_is_wine caps));
                ("arch", JStr (caps_arch caps)); ("diagnostics", JObj diag)]).

Definition check_for_update : Fake UpdateInfo :=
  mret {| up_update_available := false; up_current_version := WININSPECT_VERSION;
          up_latest_version := EmptyString; up_release_notes := EmptyString;
          up_error := "update check not available in fake backend";
          up_installer_url := EmptyString; up_portable_zip_url := EmptyString |}.

Definition download_update (_ _ : string) : Fake string := mret EmptyString.

Definition add_fake_ui_element (parent : hwnd_u64) (info : UIElementInfo) : Fake () :=
  modify (λ b,
    let l := match map_find parent (ui_elements_ b) with Some l => l | None => [] end in
    mkFakeBackend (w_ b) (foreground_ b) (map_set parent (l ++ [info]) (ui_elements_ b))
      (injected_events_ b)).

Definition get_injected_events : Fake (list string) := gets injected_events_.

Definition clear_injected_events : Fake () :=
  modify (λ b, mkFakeBackend (w_ b) (foreground_ b) (ui_elements_ b) []).

Definition poll_events (_ _ : Snapshot) : Fake (list Event) := mret [].

End Fake.

(** * The interface *)

#[export] Instance FakeBackend_IBackend : IBackend FakeBackend := {|
  set_config := Fake.set_config;
  capture_snapshot := Fake.capture_snapshot;
  list_top := Fake.list_top;
  list_children := Fake.list_children;
  get_info := Fake.get_info;
  pick_at_point := Fake.pick_at_point;
  get_window_tree := Fake.get_window_tree;
  ensure_visible := Fake.ensure_visible;
  ensure_foreground := Fake.ensure_foreground;
  highlight_window := Fake.highlight_window;
  set_property := Fake.set_property;
  post_message := Fake.post_message;
  send_input := Fake.send_input;
  send_mouse_click := Fake.send_mouse_click;
  send_key_press := Fake.send_key_press;
  send_text := Fake.send_text;
  control_click := Fake.control_click;
  control_send := Fake.control_send;
  get_pixel := Fake.get_pixel;
  capture_screen := Fake.capture_screen;
  pixel_search := Fake.pixel_search;
  list_processes := Fake.list_processes;
  kill_process := Fake.kill_process;
  get_file_info := Fake.get_file_info;
  read_file_content := Fake.read_file_content;
  find_windows_regex := Fake.find_windows_regex;
  reg_read := Fake.reg_read;
  reg_write := Fake.reg_write;
  reg_delete := Fake.reg_delete;
  reg_subscribe := Fake.reg_subscribe;
  clipboard_read := Fake.clipboard_read;
  clipboard_write := Fake.clipboard_write;
  service_list := Fake.service_list;
  service_status := Fake.service_status;
  service_control := Fake.service_control;
  env_get_all := Fake.env_get_all;
  env_set := Fake.env_set;
  wine_get_drives := Fake.wine_get_drives;
  wine_get_overrides := Fake.wine_get_overrides;
  sync_check_mutex := Fake.sync_check_mutex;
  sync_create_mutex := Fake.sync_create_mutex;
  mem_read := Fake.mem_read;
  mem_write := Fake.mem_write;
  image_match := Fake.image_match;
  input_hook_enable := Fake.input_hook_enable;
  inspect_ui_elements := Fake.inspect_ui_elements;
  invoke_ui_element := Fake.invoke_ui_element;
  get_capabilities := Fake.get_capabilities;
  get_env_metadata := Fake.get_env_metadata;
  check_for_update := Fake.check_for_update;
  download_update := Fake.download_update;
  poll_events := Fake.poll_events;
|}.

#[export] Instance FakeBackend_inspection : InspectionLaws FakeBackend.
Proof. split; intros; by intros b. Qed.

Lemma fake_ensure_visible_settles h v : settles (Fake.ensure_visible h v).
Proof.
  intros b r b' Hr. unfold Fake.ensure_visible in Hr.
  destruct (map_find h (w_ b)) as [fw|] eqn:E; simplify_eq/=.
  - unfold Fake.ensure_visible. cbn [w_]. rewrite map_find_set_eq. cbn [fw_visible].
    rewrite Bool.eqb_reflx. cbn [negb fw_hwnd fw_parent fw_owner fw_title fw_cls].
    by rewrite map_set_set.
  - unfold Fake.ensure_visible. by rewrite E.
Qed.

#[export] Instance FakeBackend_desired_state : DesiredStateLaws FakeBackend.
Proof.
  split; [apply fake_ensure_visible_settles|].
  intros h b r b' Hr. simpl in *. unfold Fake.ensure_foreground in *. simplify_eq/=.
  by rewrite Z.eqb_refl.
Qed.

(** * The invariant of the window map *)

(** Strictly increasing keys, each the handle of its window. *)
Definition fake_ok (b : FakeBackend) : Prop :=
  map_ok (w_ b) ∧ Forall (λ hw, fw_hwnd hw.2 = hw.1) (w_ b).

Lemma map_set_Forall {K V} `{KeyOrder K} (P : K * V → Prop) k v m :
  Forall P m → P (k, v) → Forall P (map_set k v m).
Proof.
  intros Hm Hp. induction m as [|[k' v'] m IH]; simpl; [by constructor|].
  inversion_clear Hm as [|? ? Hkv Hm']. destruct (key_cmp k k') eqn:E; repeat constructor; auto.
  by apply key_cmp_eq in E as ->.
Qed.

Lemma emplace_all_ok ws m :
  map_ok m → Forall (λ hw, fw_hwnd hw.2 = hw.1) m →
  let m' := foldl (λ m w, map_emplace (fw_hwnd w) w m) m ws in
  map_ok m' ∧ Forall (λ hw, fw_hwnd hw.2 = hw.1) m'.
Proof.
  revert m. induction ws as [|w ws IH]; intros m H1 H2; [done|]. apply IH.
  - by apply map_emplace_ok.
  - unfold map_emplace. destruct (map_find _ _); [done|]. by apply map_set_Forall.
Qed.

Lemma FakeBackend_new_ok ws : fake_ok (Fake.FakeBackend_new ws).
Proof. apply emplace_all_ok; constructor. Qed.

Lemma ensure_visible_ok h v : keeps (λ b b', fake_ok b → fake_ok b') (Fake.ensure_visible h v).
Proof.
  intros b [Hm Hw]. unfold Fake.ensure_visible. destruct (map_find h (w_ b)) as [fw|] eqn:E; [|by split].
  split; cbn; [by apply map_set_ok|]. apply map_set_Forall; [done|]. cbn.
  apply map_find_elem_of in E. rewrite list.Forall_forall in Hw. by apply Hw in E.
Qed.

(** * Snapshots and children *)

Lemma with_parent_elem p b h :
  fake_ok b → h ∈ Fake.with_parent p b ↔ ∃ w, map_find h (w_ b) = Some w ∧ fw_parent w = p.
Proof.
  intros [Hm _]. unfold Fake.with_parent. rewrite list_elem_of_fmap. split.
  - intros ([h' w] & -> & Hin). apply list_elem_of_In, List.filter_In in Hin as [Hin Hp].
    apply list_elem_of_In in Hin. exists w. split; [by apply map_ok_find|]. by apply Z.eqb_eq in Hp.
  - intros (w & Hf & Hp). exists (h, w). split; [done|]. apply list_elem_of_In, List.filter_In.
    split; [by apply list_elem_of_In, map_find_elem_of|]. by apply Z.eqb_eq.
Qed.

Lemma with_parent_sorted p b : fake_ok b → StronglySorted Z.lt (Fake.with_parent p b).
Proof.
  intros [Hm _]. unfold Fake.with_parent, map_ok in *. revert Hm.
  induction (w_ b) as [|[h w] m IH]; intros Hs; [constructor|].
  inversion_clear Hs as [|? ? Hs' Hall]. simpl. destruct (fw_parent w =? p); [|by apply IH].
  simpl. constructor; [by apply IH|]. apply Forall_forall. intros x Hx.
  apply list_elem_of_fmap in Hx as ([h' w'] & -> & Hin).
  apply list_elem_of_In, List.filter_In in Hin as [Hin _]. apply list_elem_of_In in Hin.
  rewrite list.Forall_forall in Hall. specialize (Hall h').
  assert (key_lt h h') as Hlt; [apply Hall, list_elem_of_fmap; by exists (h', w')|].
  by apply Z.compare_lt_iff in Hlt.
Qed.

(** Sorting what is sorted changes nothing. *)
Lemma merge_sort_sorted l : StronglySorted Z.lt l → merge_sort Z.le l = l.
Proof.
  intros Hs. apply (StronglySorted_unique Z.le).
  - apply StronglySorted_merge_sort; apply _.
  - induction Hs as [|x l' Hs IH Hall]; constructor; [done|].
    eapply Forall_impl; [exact Hall|]. simpl. lia.
  - apply merge_sort_Permutation.
Qed.

(** A snapshot of the fake backend lists exactly the windows without a
    parent, in strictly increasing order of their handles, and taking it does
    not change the backend. *)
Theorem fake_capture_snapshot_spec ws :
  let b := Fake.FakeBackend_new ws in
  ∃ s, Backend.capture_snapshot b = (Ok s, b)
       ∧ StronglySorted Z.lt (snap_top s)
       ∧ ∀ h, h ∈ snap_top s ↔ ∃ w, map_find h (w_ b) = Some w ∧ fw_parent w = 0.
Proof.
  intros b. pose proof (FakeBackend_new_ok ws) as Hok. fold b in Hok.
  eexists. split; [done|]. cbn [snap_top].
  rewrite merge_sort_sorted by by apply with_parent_sorted.
  split; [by apply with_parent_sorted|]. intros h. by apply with_parent_elem.
Qed.

(** * The window tree *)

Lemma build_node_S f b h :
  Fake.build_node (S f) b h =
  (children ← Fake.build_nodes f b (Fake.with_parent h b);
   let '(title, cls) :=
     match map_find h (w_ b) with
     | Some w => (fw_title w, fw_cls w)
     | None => (EmptyString, EmptyString)
     end in
   Ok (mkWindowNode h title cls children)).
Proof.
  cbn [Fake.build_node]. destruct (match map_find h (w_ b) with Some _ => _ | None => _ end) as [t c].
  f_equal. induction (Fake.with_parent h b) as [|x l IH]; [done|]. cbn [Fake.build_nodes].
  by rewrite IH.
Qed.

(** No window is its own ancestor. *)
Definition acyclic (b : FakeBackend) : Prop :=
  ∃ rank : hwnd_u64 → nat, ∀ h w, (h, w) ∈ w_ b → (rank (fw_parent w) < rank h)%nat.

#[local] Unset Elimination Schemes.
(** A node that is right: its texts are the window's and its children are the
    windows whose parent it is, each right. *)
Inductive node_correct (b : FakeBackend) : WindowNode → Prop :=
| node_correct_intro h t c ch :
    (∀ w, map_find h (w_ b) = Some w → t = fw_title w ∧ c = fw_cls w) →
    wn_hwnd <$> ch = Fake.with_parent h b →
    Forall (node_correct b) ch →
    node_correct b (mkWindowNode h t c ch).
#[local] Set Elimination Schemes.

Lemma build_nodes_correct_of f b :
  (∀ h n, Fake.build_node f b h = Ok n → wn_hwnd n = h ∧ node_correct b n) →
  ∀ l ns, Fake.build_nodes f b l = Ok ns → wn_hwnd <$> ns = l ∧ Forall (node_correct b) ns.
Proof.
  intros Hn l. induction l as [|h l IH]; intros ns Hb; simplify_eq/=; [done|].
  destruct (Fake.build_node f b h) as [n| | |] eqn:En; simplify_eq/=.
  destruct (Fake.build_nodes f b l) as [ns'| | |] eqn:El; simplify_eq/=.
  apply Hn in En as [<- Hc]. destruct (IH ns' eq_refl) as [<- Hall]. split; [done|by constructor].
Qed.

Lemma build_node_correct f b h n : Fake.build_node f b h = Ok n → wn_hwnd n = h ∧ node_correct b n.
Proof.
  revert h n. induction f as [|f IH]; intros h n Hb; [done|]. rewrite build_node_S in Hb.
  destruct (Fake.build_nodes f b (Fake.with_parent h b)) as [ch| | |] eqn:El; simplify_eq/=.
  destruct (build_nodes_correct_of f b IH _ _ El) as [Hch Hall].
  destruct (map_find h (w_ b)) as [w|] eqn:E; simplify_eq/=; split; try done;
    constructor; try done; intros ? ?; simplify_eq; done.
Qed.

Lemma build_nodes_correct f b l ns :
  Fake.build_nodes f b l = Ok ns → wn_hwnd <$> ns = l ∧ Forall (node_correct b) ns.
Proof. apply build_nodes_correct_of. intros. by apply (build_node_correct f). Qed.

(** Fuel runs out only along a chain of that many distinct windows. *)
Lemma build_nodes_stuck f b l :
  (∀ ns, Fake.build_nodes f b l ≠ Ok ns) → ∃ h, h ∈ l ∧ ∀ n, Fake.build_node f b h ≠ Ok n.
Proof.
  induction l as [|h l IH]; intros Hn; [by destruct (Hn [])|]. simpl in Hn.
  destruct (Fake.build_node f b h) as [n| | |] eqn:E;
    try (exists h; split; [left|]; intros ?; congruence).
  destruct IH as (h' & Hin & Hh'); [|by exists h'; split; [right|]].
  intros ns Hns. simpl in Hn. rewrite Hns in Hn. by eapply Hn.
Qed.

Lemma build_node_chain b rank f h :
  (∀ h w, (h, w) ∈ w_ b → (rank (fw_parent w) < rank h)%nat) →
  (∀ n, Fake.build_node f b h ≠ Ok n) →
  ∃ l, length l = f ∧ NoDup l ∧ ∀ x, x ∈ l → x ∈ (w_ b).*1 ∧ (rank h < rank x)%nat.
Proof.
  intros Hr. revert h. induction f as [|f IH]; intros h Hn.
  { exists []. split_and!; [done|constructor|]. intros x Hx. by apply elem_of_nil in Hx. }
  destruct (build_nodes_stuck f b (Fake.with_parent h b)) as (c & Hc & Hcn).
  { intros ns Hns. rewrite build_node_S, Hns in Hn. simpl in Hn.
    destruct (match map_find h (w_ b) with Some _ => _ | None => _ end). by eapply Hn. }
  destruct (IH c Hcn) as (l & Hl & Hnd & Hall).
  unfold Fake.with_parent in Hc. apply list_elem_of_fmap in Hc as ([c' w] & -> & Hin).
  apply list_elem_of_In, List.filter_In in Hin as [Hin Hp]. apply list_elem_of_In in Hin.
  apply Z.eqb_eq in Hp. simpl in Hp. pose proof (Hr c' w Hin) as Hlt. rewrite Hp in Hlt.
  exists (c' :: l). split_and!; [simpl; lia| |].
  - constructor; [|done]. intros Hin'. apply Hall in Hin' as [_ ?]. simpl in *. lia.
  - intros x [->|Hx]%elem_of_cons.
    + split; [|done]. apply list_elem_of_fmap. by exists (c', w).
    + apply Hall in Hx as [? ?]. simpl in *. split; [done|lia].
Qed.

Lemma window_tree_built b s root :
  acyclic b →
  ∃ ns, Backend.get_window_tree s root b = (Ok ns, b)
        ∧ wn_hwnd <$> ns = (if root =? 0 then Fake.with_parent 0 b else [root])
        ∧ Forall (node_correct b) ns.
Proof.
  intros [rank Hr]. simpl. unfold Fake.get_window_tree.
  set (l := if root =? 0 then _ else _).
  destruct (Fake.build_nodes (S (length (w_ b))) b l) as [ns|what| |] eqn:E;
    [destruct (build_nodes_correct _ _ _ _ E) as [Hh Hc]; exists ns; split_and!; auto; congruence|..].
  all: destruct (build_nodes_stuck (S (length (w_ b))) b l) as (h & _ & Hh);
    [intros ns; rewrite E; done|].
  all: destruct (build_node_chain b rank _ h Hr Hh) as (p & Hp & Hnd & Hall).
  all: assert (p ⊆+ (w_ b).*1) as Hsub by (apply NoDup_submseteq; [done|]; intros x Hx; by apply Hall).
  all: apply submseteq_length in Hsub; rewrite length_fmap in Hsub; lia.
Qed.

(** When no window is its own ancestor, [get_window_tree] returns: the
    roots asked for, each with the texts of its window and, recursively, with
    exactly the windows whose parent it is as children; the depth bound of the
    model is never reached. *)
Theorem get_window_tree_total b s root :
  acyclic b →
  ∃ ns, Backend.get_window_tree s root b = (Ok ns, b)
        ∧ wn_hwnd <$> ns = (if root =? 0 then Fake.with_parent 0 b else [root])
        ∧ Forall (node_correct b) ns.
Proof. apply window_tree_built. Qed.

Definition sample_windows : list FakeWindow :=
  [mkFakeWindow 1 0 0 "A" "C1" true; mkFakeWindow 2 1 0 "B" "C2" true].

Lemma get_window_tree_total_witness :
  ∃ ns, Backend.get_window_tree Snapshot_empty 0 (Fake.FakeBackend_new sample_windows)
        = (Ok ns, Fake.FakeBackend_new sample_windows) ∧ wn_hwnd <$> ns = [1].
Proof.
  destruct (get_window_tree_total (Fake.FakeBackend_new sample_windows) Snapshot_empty 0)
    as (ns & E & Hh & _).
  - exists Z.to_nat. intros h w Hin. change (w_ (Fake.FakeBackend_new sample_windows)) with
      [(1, mkFakeWindow 1 0 0 "A" "C1" true); (2, mkFakeWindow 2 1 0 "B" "C2" true)] in Hin.
    rewrite !elem_of_cons, elem_of_nil in Hin. destruct Hin as [[= -> ->]|[[= -> ->]|[]]]; simpl; lia.
  - exists ns. split; [exact E|]. rewrite Hh. by vm_compute.
Defined.
