(* ===== verification/Core.v ===== *)
(** [core/src/core.cpp] and [core.hpp]: requests and responses, the conversions
    to JSON, one handler per method of the dispatch table, and [handle]. *)

From S2P Require Import Prelude StdMap CString Double Json Base64 Types Logger Backend.

Local Open Scope Z_scope.

(** * Requests and responses *)

Record CoreRequest := mkCoreRequest {
  req_id : string; req_method : string; req_params : Object }.

Record CoreResponse := mkCoreResponse {
  resp_id : string;
  resp_ok : bool;
  resp_result : Value;
  resp_error_code : string;
  resp_error_message : string;
  resp_metrics : Object }.

(** A default [CoreResponse], as the handlers declare it. *)
Definition CoreResponse_default : CoreResponse :=
  mkCoreResponse EmptyString true JNull EmptyString EmptyString [].

Definition set_id (id : string) (r : CoreResponse) : CoreResponse :=
  mkCoreResponse id (resp_ok r) (resp_result r) (resp_error_code r) (resp_error_message r) (resp_metrics r).
(** [resp.ok = true; resp.result = v]. *)
Definition set_result (v : Value) (r : CoreResponse) : CoreResponse :=
  mkCoreResponse (resp_id r) true v (resp_error_code r) (resp_error_message r) (resp_metrics r).
(** [resp.ok = false; resp.error_code = code; resp.error_message = msg]. *)
Definition set_error (code msg : string) (r : CoreResponse) : CoreResponse :=
  mkCoreResponse (resp_id r) false (resp_result r) code msg (resp_metrics r).
Definition set_metric (k : string) (v : Value) (r : CoreResponse) : CoreResponse :=
  mkCoreResponse (resp_id r) (resp_ok r) (resp_result r) (resp_error_code r) (resp_error_message r)
    (map_set k v (resp_metrics r)).

(** An object built by assignments, and a number from an integer. *)
Definition obj (l : Object) : Value := JObj (map_of l).
Definition num (z : Z) : Value := JNum (double_of_Z z).

Definition make_error (code msg : string) : Value := obj [("code", JStr code); ("message", JStr msg)].

Definition to_json_obj (r : CoreResponse) : Object :=
  map_of ([("id", JStr (resp_id r)); ("ok", JBool (resp_ok r));
           if resp_ok r then ("result", resp_result r)
           else ("error", make_error (resp_error_code r) (resp_error_message r))]
          ++ match resp_metrics r with [] => [] | m => [("metrics", JObj m)] end).

Definition serialize_response_json (r : CoreResponse) (canonical : bool) : string :=
  dumps (JObj (to_json_obj r)).

Definition parse_request_json (json_utf8 : string) : result CoreRequest :=
  v ← json_parse json_utf8;
  if negb (is_obj v) then Throw "request must be object" else
  o ← as_obj v;
  match map_find "id" o, map_find "method" o, map_find "params" o with
  | Some id, Some m, Some p =>
      if negb (is_str id) || negb (is_str m) || negb (is_obj p) then Throw "bad field types" else
      id ← as_str id; m ← as_str m; p ← as_obj p;
      Ok (mkCoreRequest id m p)
  | _, _, _ => Throw "missing fields"
  end.

(** * Parameters *)

Definition get_str (o : Object) (k : string) : option string :=
  match map_find k o with Some (JStr s) => Some s | _ => None end.
Definition get_bool (o : Object) (k : string) : option bool :=
  match map_find k o with Some (JBool b) => Some b | _ => None end.
Definition get_num (o : Object) (k : string) : option double :=
  match map_find k o with Some (JNum d) => Some d | _ => None end.

Definition parse_hwnd (s : string) : option hwnd_u64 :=
  if negb (starts_with "0x" s) then None else stream_hex_u64 (str_drop 2 s).

Definition zero_d : double := double_of_Z 0.

(** * Conversions to JSON *)

Definition hwnd_json (h : hwnd_u64) : Value := JStr (Hwnd_to_string (mkHwnd h)).

Definition event_to_json (e : Event) : Value :=
  obj ([("seq", num (e_seq e)); ("type", JStr (e_type e)); ("hwnd", hwnd_json (e_hwnd e))]
       ++ if negb (is_empty (e_property e)) then [("property", JStr (e_property e))] else []).

Fixpoint window_node_to_json (n : WindowNode) : Value :=
  match n with
  | mkWindowNode h t c ch =>
      obj ([("hwnd", hwnd_json h); ("title", JStr t); ("class_name", JStr c)]
           ++ match ch with
              | [] => []
              | _ => [("children", JArr (List.map window_node_to_json ch))]
              end)
  end.

Definition r2j (r : Rect) : Value :=
  obj [("left", num (left r)); ("top", num (top r)); ("right", num (right r)); ("bottom", num (bottom r))].

Definition window_info_to_json (wi : WindowInfo) : Value :=
  obj [("hwnd", hwnd_json (wi_hwnd wi)); ("parent", hwnd_json (wi_parent wi));
       ("owner", hwnd_json (wi_owner wi)); ("class_name", JStr (wi_class_name wi));
       ("title", JStr (wi_title wi));
       ("window_rect", r2j (wi_window_rect wi)); ("client_rect", r2j (wi_client_rect wi));
       ("screen_rect", r2j (wi_screen_rect wi));
       ("pid", num (wi_pid wi)); ("tid", num (wi_tid wi));
       ("style", hwnd_json (wi_style wi)); ("exstyle", hwnd_json (wi_exstyle wi));
       ("style_flags", JArr (JStr <$> wi_style_flags wi));
       ("ex_style_flags", JArr (JStr <$> wi_ex_style_flags wi));
       ("visible", JBool (wi_visible wi)); ("enabled", JBool (wi_enabled wi));
       ("iconic", JBool (wi_iconic wi)); ("zoomed", JBool (wi_zoomed wi));
       ("process_image", JStr (wi_process_image wi))].

Fixpoint ui_element_to_json (el : UIElementInfo) : Value :=
  match el with
  | mkUIElementInfo aid name cls ct r en vis ch =>
      obj ([("automation_id", JStr aid); ("name", JStr name); ("class_name", JStr cls);
            ("control_type", JStr ct); ("bounding_rect", r2j r);
            ("enabled", JBool en); ("visible", JBool vis)]
           ++ match ch with
              | [] => []
              | _ => [("children", JArr (List.map ui_element_to_json ch))]
              end)
  end.

Definition ok_json (v : bool) : Value := obj [("ok", JBool v)].
Definition sent_json (v : bool) : Value := obj [("sent", JBool v)].
Definition changed_json (v : bool) : Value := obj [("changed", JBool v)].

(** The array of [{"hwnd": h}] objects of the listing methods. *)
Definition hwnd_array (l : list hwnd_u64) : Value :=
  JArr ((λ h, obj [("hwnd", hwnd_json h)]) <$> l).

(** * Handlers *)

Section Handlers.
Context {B : Type} `{IBackend B} `{Clock}.
(** The engine's [admin_logs_enabled_]. *)
Variable admin_logs_enabled_ : bool.

Abbreviation Eff := (M (World B)).
Definition Handler : Type := CoreRequest → Snapshot → option Snapshot → Eff CoreResponse.

Definition respond (v : Value) : Eff CoreResponse := mret (set_result v CoreResponse_default).
Definition refuse (code msg : string) : Eff CoreResponse :=
  mret (set_error code msg CoreResponse_default).
(** [if (!o) throw std::runtime_error(what)], and the cast of a number. *)
Definition require {A} (what : string) (o : option A) : Eff A := lift_result (or_throw what o).
Definition cast {A} (r : result A) : Eff A := lift_result r.

(** [get_str(params, "hwnd")] then [parse_hwnd], as most window methods do. *)
Definition require_hwnd (req : CoreRequest) : Eff hwnd_u64 :=
  hwnd_s ← require "missing hwnd" (get_str (req_params req) "hwnd");
  require "bad hwnd" (parse_hwnd hwnd_s).

Definition number_events (events : list Event) : list Event :=
  imap (λ i e, Event_set_seq (Z.of_nat i + 1) e) events.

Definition events_poll : Handler := λ req snap old,
  match old with
  | None => throw "events.poll requires two snapshots"
  | Some old =>
      let wait_ms := default zero_d (get_num (req_params req) "wait_ms") in
      let interval_ms := default (double_of_Z 100) (get_num (req_params req) "interval_ms") in
      start ← now;
      events ← backend (poll_events old snap);
      t ← now;
      let elapsed := duration_ms start t in
      stop ← (if negb (bool_decide (events = [])) || is_zero wait_ms then mret true
              else w ← cast (cast_longlong wait_ms); mret (w <=? elapsed));
      if stop : bool then
        mret (set_result (JArr (event_to_json <$> number_events events))
                (set_id (req_id req) CoreResponse_default))
      else
        _ ← cast (cast_int interval_ms);
        mret (set_result (JArr []) (set_id (req_id req) CoreResponse_default))
  end.

Definition session_terminate : Handler := λ _ _ _, respond (obj [("terminated", JBool true)]).

(** ** Windows *)

Definition window_listTop : Handler := λ _ snap _,
  top ← backend (list_top snap); respond (hwnd_array top).

Definition window_listChildren : Handler := λ req snap _,
  hwnd ← require_hwnd req;
  ch ← backend (list_children snap hwnd); respond (hwnd_array ch).

Definition window_getTree : Handler := λ req snap _,
  root ← match get_str (req_params req) "hwnd" with
         | Some hwnd_s => require "bad hwnd" (parse_hwnd hwnd_s)
         | None => mret 0
         end;
  nodes ← backend (get_window_tree snap root);
  respond (JArr (window_node_to_json <$> nodes)).

Definition window_highlight : Handler := λ req _ _,
  hwnd ← require_hwnd req;
  r ← backend (highlight_window hwnd); respond (obj [("highlighted", JBool r)]).

Definition window_getInfo : Handler := λ req snap _,
  hwnd ← require_hwnd req;
  info ← backend (get_info snap hwnd);
  match info with
  | None => refuse "E_BAD_HWND" "not a valid window handle"
  | Some info => respond (window_info_to_json info)
  end.

Definition window_pickAtPoint : Handler := λ req snap _,
  match get_num (req_params req) "x", get_num (req_params req) "y" with
  | Some x, Some y =>
      let flags := mkPickFlags
        (default (prefer_child PickFlags_default) (get_bool (req_params req) "prefer_child"))
        (default (ignore_transparent PickFlags_default) (get_bool (req_params req) "ignore_transparent")) in
      x ← cast (cast_int x); y ← cast (cast_int y);
      h ← backend (pick_at_point snap x y flags);
      match h with
      | None => refuse "E_NOT_FOUND" "no window at point"
      | Some h => respond (obj [("hwnd", hwnd_json h)])
      end
  | _, _ => throw "missing x/y"
  end.

Definition window_ensureVisible : Handler := λ req _ _,
  match get_str (req_params req) "hwnd", get_bool (req_params req) "visible" with
  | Some hwnd_s, Some vis =>
      hwnd ← require "bad hwnd" (parse_hwnd hwnd_s);
      r ← backend (ensure_visible hwnd vis); respond (changed_json (changed r))
  | _, _ => throw "missing hwnd/visible"
  end.

Definition window_ensureForeground : Handler := λ req _ _,
  hwnd ← require_hwnd req;
  r ← backend (ensure_foreground hwnd); respond (changed_json (changed r)).

Definition window_setProperty : Handler := λ req _ _,
  match get_str (req_params req) "hwnd", get_str (req_params req) "name",
        get_str (req_params req) "value" with
  | Some hwnd_s, Some name, Some val =>
      hwnd ← require "bad hwnd" (parse_hwnd hwnd_s);
      r ← backend (set_property hwnd name val); respond (ok_json r)
  | _, _, _ => throw "missing hwnd/name/value"
  end.

Definition window_postMessage : Handler := λ req _ _,
  match get_str (req_params req) "hwnd", get_num (req_params req) "msg" with
  | Some hwnd_s, Some msg =>
      hwnd ← require "bad hwnd" (parse_hwnd hwnd_s);
      msg ← cast (cast_u32 msg);
      wparam ← cast (cast_u64 (default zero_d (get_num (req_params req) "wparam")));
      lparam ← cast (cast_u64 (default zero_d (get_num (req_params req) "lparam")));
      r ← backend (post_message hwnd msg wparam lparam); respond (sent_json r)
  | _, _ => throw "missing hwnd/msg"
  end.

(** ** Input *)

Definition input_send : Handler := λ req _ _,
  data_b64 ← require "missing data_b64" (get_str (req_params req) "data_b64");
  r ← backend (send_input (decode data_b64)); respond (sent_json r).

Definition input_mouseClick : Handler := λ req _ _,
  match get_num (req_params req) "x", get_num (req_params req) "y" with
  | Some x, Some y =>
      btn ← cast (cast_int (default zero_d (get_num (req_params req) "button")));
      x ← cast (cast_int x); y ← cast (cast_int y);
      r ← backend (send_mouse_click x y btn); respond (sent_json r)
  | _, _ => throw "missing x/y"
  end.

Definition input_keyPress : Handler := λ req _ _,
  vk ← require "missing vk" (get_num (req_params req) "vk");
  vk ← cast (cast_int vk);
  r ← backend (send_key_press vk); respond (sent_json r).

Definition input_text : Handler := λ req _ _,
  text ← require "missing text" (get_str (req_params req) "text");
  r ← backend (send_text text); respond (sent_json r).

Definition window_controlClick : Handler := λ req _ _,
  match get_str (req_params req) "hwnd", get_num (req_params req) "x",
        get_num (req_params req) "y" with
  | Some hwnd_s, Some x, Some y =>
      hwnd ← require "bad hwnd" (parse_hwnd hwnd_s);
      btn ← cast (cast_int (default zero_d (get_num (req_params req) "button")));
      x ← cast (cast_int x); y ← cast (cast_int y);
      r ← backend (control_click hwnd x y btn); respond (sent_json r)
  | _, _, _ => throw "missing hwnd/x/y"
  end.

Definition window_controlSend : Handler := λ req _ _,
  match get_str (req_params req) "hwnd", get_str (req_params req) "text" with
  | Some hwnd_s, Some text =>
      hwnd ← require "bad hwnd" (parse_hwnd hwnd_s);
      r ← backend (control_send hwnd text); respond (sent_json r)
  | _, _ => throw "missing hwnd/text"
  end.

(** ** Screen *)

Definition screen_getPixel : Handler := λ req _ _,
  match get_num (req_params req) "x", get_num (req_params req) "y" with
  | Some x, Some y =>
      x ← cast (cast_int x); y ← cast (cast_int y);
      c ← backend (get_pixel x y);
      match c with
      | None => throw "failed to get pixel"
      | Some c => respond (obj [("hex", JStr (Color_to_hex c)); ("r", num (c_r c));
                                ("g", num (c_g c)); ("b", num (c_b c))])
      end
  | _, _ => throw "missing x/y"
  end.

(** [Rect rect{(long)*l, (long)*t, (long)*r, (long)*bm}]. *)
Definition cast_rect (l t r bm : double) : Eff Rect :=
  l ← cast (cast_long l); t ← cast (cast_long t);
  r ← cast (cast_long r); bm ← cast (cast_long bm);
  mret (mkRect l t r bm).

Definition screen_capture : Handler := λ req _ _,
  match get_num (req_params req) "left", get_num (req_params req) "top",
        get_num (req_params req) "right", get_num (req_params req) "bottom" with
  | Some l, Some t, Some r, Some bm =>
      rect ← cast_rect l t r bm;
      sc ← backend (capture_screen rect);
      match sc with
      | None => throw "capture failed"
      | Some sc => respond (obj [("width", num (sc_width sc)); ("height", num (sc_height sc));
                                 ("data_b64", JStr (sc_data_b64 sc))])
      end
  | _, _, _, _ => throw "missing region"
  end.

Definition screen_pixelSearch : Handler := λ req _ _,
  match get_num (req_params req) "left", get_num (req_params req) "top",
        get_num (req_params req) "right", get_num (req_params req) "bottom",
        get_num (req_params req) "r", get_num (req_params req) "g", get_num (req_params req) "b" with
  | Some l, Some t, Some r, Some bm, Some rv, Some gv, Some bv =>
      rect ← cast_rect l t r bm;
      rv ← cast (cast_u8 rv); gv ← cast (cast_u8 gv); bv ← cast (cast_u8 bv);
      var ← cast (cast_int (default zero_d (get_num (req_params req) "variation")));
      res ← backend (pixel_search rect (mkColor rv gv bv) var);
      match res with
      | Some (x, y) => respond (obj [("x", num x); ("y", num y)])
      | None => refuse "E_NOT_FOUND" "color not found in region"
      end
  | _, _, _, _, _, _, _ => throw "missing parameters"
  end.

(** ** Processes and files *)

Definition process_list : Handler := λ _ _ _,
  procs ← backend list_processes;
  respond (JArr ((λ p, obj [("pid", num (p_pid p)); ("name", JStr (p_name p));
                            ("path", JStr (p_path p))]) <$> procs)).

Definition process_kill : Handler := λ req _ _,
  pid ← require "missing pid" (get_num (req_params req) "pid");
  pid ← cast (cast_u32 pid);
  r ← backend (kill_process pid); respond (ok_json r).

Definition file_getInfo : Handler := λ req _ _,
  path ← require "missing path" (get_str (req_params req) "path");
  fi ← backend (get_file_info path);
  match fi with
  | None => refuse "E_NOT_FOUND" EmptyString
  | Some fi => respond (obj [("path", JStr (fi_path fi)); ("size", num (fi_size fi));
                             ("is_directory", JBool (fi_is_directory fi))])
  end.

(** [std::vector<uint8_t>(content->begin(), content->end())]. *)
Fixpoint string_bytes (s : string) : list Z :=
  match s with EmptyString => [] | String c s' => code c :: string_bytes s' end.

Definition file_read : Handler := λ req _ _,
  path ← require "missing path" (get_str (req_params req) "path");
  content ← backend (read_file_content path);
  match content with
  | None => refuse "E_READ_FAILED" EmptyString
  | Some content => respond (obj [("content_b64", JStr (encode (string_bytes content)))])
  end.

Definition clipboard_read_h : Handler := λ _ _ _,
  text ← backend clipboard_read;
  respond (obj match text with Some t => [("text", JStr t)] | None => [] end).

Definition clipboard_write_h : Handler := λ req _ _,
  text ← require "missing text" (get_str (req_params req) "text");
  r ← backend (clipboard_write text); respond (ok_json r).

(** ** Services and the environment *)

Definition service_list_h : Handler := λ _ _ _,
  svcs ← backend service_list;
  respond (JArr ((λ s, obj [("name", JStr (sv_name s)); ("display_name", JStr (sv_display_name s));
                            ("state", JStr (sv_state s))]) <$> svcs)).

Definition service_status_h : Handler := λ req _ _,
  name ← require "missing name" (get_str (req_params req) "name");
  s ← backend (service_status name); respond (obj [("status", JStr s)]).

Definition service_control_h : Handler := λ req _ _,
  match get_str (req_params req) "name", get_str (req_params req) "action" with
  | Some name, Some action =>
      r ← backend (service_control name action); respond (ok_json r)
  | _, _ => throw "missing name/action"
  end.

(** A variable whose upper-cased name contains one of these words. *)
Definition sensitive_words : list string :=
  ["SECRET"; "TOKEN"; "KEY"; "PASSWORD"; "PASSWD"; "CREDENTIAL"; "AUTH"].
Definition sensitive (name : string) : bool :=
  existsb (λ w, contains w (str_map toupper name)) sensitive_words.
Definition shown_value (v : EnvVar) : string :=
  if sensitive (ev_name v) then "<REDACTED>" else ev_value v.

Definition env_get : Handler := λ _ _ _,
  vars ← backend env_get_all;
  respond (obj ((λ v, (ev_name v, JStr (shown_value v))) <$> vars)).

Definition env_set_h : Handler := λ req _ _,
  match get_str (req_params req) "name", get_str (req_params req) "value" with
  | Some name, Some val => r ← backend (env_set name val); respond (ok_json r)
  | _, _ => throw "missing name/value"
  end.

Definition wine_drives : Handler := λ _ _ _,
  drives ← backend wine_get_drives;
  respond (JArr ((λ d, obj [("letter", JStr (dr_letter d)); ("mapping", JStr (dr_mapping d));
                            ("type", JStr (dr_type d))]) <$> drives)).

Definition wine_overrides : Handler := λ _ _ _,
  ovr ← backend wine_get_overrides; respond (JArr (JStr <$> ovr)).

Definition sync_checkMutex : Handler := λ req _ _,
  name ← require "missing name" (get_str (req_params req) "name");
  r ← backend (sync_check_mutex name); respond (obj [("exists", JBool r)]).

Definition sync_createMutex : Handler := λ req _ _,
  name ← require "missing name" (get_str (req_params req) "name");
  let own := default true (get_bool (req_params req) "own") in
  r ← backend (sync_create_mutex name own); respond (obj [("created", JBool r)]).

(** ** Memory and images *)

Definition mem_read_h : Handler := λ req _ _,
  match get_num (req_params req) "pid", get_num (req_params req) "address",
        get_num (req_params req) "size" with
  | Some pid, Some addr, Some sz =>
      pid ← cast (cast_u32 pid); addr ← cast (cast_u64 addr); sz ← cast (cast_u64 sz);
      res ← backend (mem_read pid addr sz);
      match res with
      | None => refuse EmptyString EmptyString
      | Some res => respond (obj [("address", num (mr_address res)); ("data_b64", JStr (mr_data_b64 res))])
      end
  | _, _, _ => throw "missing parameters"
  end.

Definition mem_write_h : Handler := λ req _ _,
  match get_num (req_params req) "pid", get_num (req_params req) "address",
        get_str (req_params req) "data_b64" with
  | Some pid, Some addr, Some data_b64 =>
      pid ← cast (cast_u32 pid); addr ← cast (cast_u64 addr);
      r ← backend (mem_write pid addr (decode data_b64)); respond (ok_json r)
  | _, _, _ => throw "missing parameters"
  end.

Definition image_match_h : Handler := λ req _ _,
  match get_num (req_params req) "left", get_num (req_params req) "top",
        get_num (req_params req) "right", get_num (req_params req) "bottom",
        get_str (req_params req) "sub_image_b64" with
  | Some l, Some t, Some r, Some bm, Some sub_b64 =>
      rect ← cast_rect l t r bm;
      res ← backend (image_match rect (decode sub_b64));
      match res with
      | None => refuse EmptyString EmptyString
      | Some res => respond (obj [("x", num (im_x res)); ("y", num (im_y res));
                                  ("confidence", JNum (im_confidence res))])
      end
  | _, _, _, _, _ => throw "missing parameters"
  end.

Definition input_hook : Handler := λ req _ _,
  enabled ← require "missing enabled" (get_bool (req_params req) "enabled");
  r ← backend (input_hook_enable enabled); respond (ok_json r).

Definition window_findRegex : Handler := λ req _ _,
  let t_re := default ".*" (get_str (req_params req) "title_regex") in
  let c_re := default ".*" (get_str (req_params req) "class_regex") in
  hwnds ← backend (find_windows_regex t_re c_re); respond (hwnd_array hwnds).

(** ** Registry *)

Definition reg_read_h : Handler := λ req _ _,
  path ← require "missing path" (get_str (req_params req) "path");
  res ← backend (reg_read path);
  match res with
  | None => refuse "E_NOT_FOUND" EmptyString
  | Some res =>
      respond (obj [("path", JStr (rk_path res)); ("subkeys", JArr (JStr <$> rk_subkeys res));
                    ("values", JArr ((λ v, obj [("name", JStr (rv_name v)); ("type", JStr (rv_type v));
                                                ("data", JStr (rv_data v))]) <$> rk_values res))])
  end.

Definition reg_write_h : Handler := λ req _ _,
  match get_str (req_params req) "path", get_str (req_params req) "name",
        get_str (req_params req) "type", get_str (req_params req) "data" with
  | Some path, Some name, Some type, Some data =>
      r ← backend (reg_write path (mkRegistryValue name type data)); respond (ok_json r)
  | _, _, _, _ => throw "missing parameters"
  end.

Definition reg_delete_h : Handler := λ req _ _,
  path ← require "missing path" (get_str (req_params req) "path");
  let name := default EmptyString (get_str (req_params req) "name") in
  r ← backend (reg_delete path name); respond (ok_json r).

(** ** UI automation *)

Definition ui_inspect : Handler := λ req _ _,
  hwnd ← require_hwnd req;
  elements ← backend (inspect_ui_elements hwnd);
  respond (JArr (ui_element_to_json <$> elements)).

Definition ui_invoke : Handler := λ req _ _,
  match get_str (req_params req) "hwnd", get_str (req_params req) "automation_id" with
  | Some hwnd_s, Some aid =>
      hwnd ← require "bad hwnd" (parse_hwnd hwnd_s);
      r ← backend (invoke_ui_element hwnd aid); respond (obj [("invoked", JBool r)])
  | _, _ => throw "missing hwnd/automation_id"
  end.

(** ** The daemon *)

Definition daemon_health : Handler := λ _ _ _,
  o ← backend get_env_metadata; respond (JObj o).

Definition daemon_capabilities : Handler := λ _ _ _,
  caps ← backend get_capabilities;
  let features :=
    obj [("uia", JBool (caps_uia_available caps)); ("clipboard", JBool (caps_clipboard_available caps));
         ("registry_write", JBool (caps_registry_writable caps));
         ("service_manager", JBool (caps_service_manager caps));
         ("process_memory", JBool (caps_process_memory caps));
         ("input_injection", JBool (caps_input_injection caps));
         ("window_highlight", JBool (caps_window_highlight caps))] in
  respond (obj ([("os", JStr (caps_os caps)); ("is_wine", JBool (caps_is_wine caps));
                 ("arch", JStr (caps_arch caps)); ("win_major", num (caps_win_major caps));
                 ("win_minor", num (caps_win_minor caps)); ("win_build", num (caps_win_build caps))]
                ++ (if negb (is_empty (caps_wine_version caps))
                    then [("wine_version", JStr (caps_wine_version caps))] else [])
                ++ [("features", features)])).

Definition daemon_checkUpdate : Handler := λ _ _ _,
  info ← backend check_for_update;
  respond (obj ([("update_available", JBool (up_update_available info));
                 ("current_version", JStr (up_current_version info));
                 ("latest_version", JStr (up_latest_version info));
                 ("installer_url", JStr (up_installer_url info));
                 ("portable_zip_url", JStr (up_portable_zip_url info));
                 ("release_notes", JStr (up_release_notes info))]
                ++ if negb (is_empty (up_error info)) then [("error", JStr (up_error info))] else [])).

Definition daemon_downloadUpdate : Handler := λ req _ _,
  let url := default EmptyString (get_str (req_params req) "url") in
  let type_hint := default "installer" (get_str (req_params req) "type") in
  path ← backend (download_update url type_hint);
  let resp := CoreResponse_default in
  mret (if is_empty path
        then mkCoreResponse (resp_id resp) false
               (obj [("ok", JBool false); ("error", JStr "download failed")])
               (resp_error_code resp) (resp_error_message resp) (resp_metrics resp)
        else mkCoreResponse (resp_id resp) (resp_ok resp)
               (obj [("ok", JBool true); ("path", JStr path)])
               (resp_error_code resp) (resp_error_message resp) (resp_metrics resp)).

Definition daemon_logs : Handler := λ _ _ _,
  if negb admin_logs_enabled_ then
    refuse "E_ACCESS_DENIED" "admin logs not enabled (use --admin-logs)"
  else
    logs ← gets (λ w, get_recent_logs 100 (w_logger w));
    respond (JArr ((λ l, obj [("timestamp", JStr (lm_timestamp l));
                              ("level", num (LogLevel_to_Z (lm_level l)));
                              ("message", JStr (lm_message l))]) <$> logs)).

(** * Dispatch *)

(** [build_dispatch_table]: the assignments to [dispatch_], in order. *)
Definition dispatch_entries : list (string * Handler) :=
  [("events.poll", events_poll); ("session.terminate", session_terminate);
   ("window.listTop", window_listTop); ("window.listChildren", window_listChildren);
   ("window.getTree", window_getTree); ("window.highlight", window_highlight);
   ("window.getInfo", window_getInfo); ("window.pickAtPoint", window_pickAtPoint);
   ("window.ensureVisible", window_ensureVisible);
   ("window.ensureForeground", window_ensureForeground);
   ("window.setProperty", window_setProperty); ("window.postMessage", window_postMessage);
   ("input.send", input_send); ("input.mouseClick", input_mouseClick);
   ("input.keyPress", input_keyPress); ("input.text", input_text);
   ("window.controlClick", window_controlClick); ("window.controlSend", window_controlSend);
   ("screen.getPixel", screen_getPixel); ("screen.capture", screen_capture);
   ("screen.pixelSearch", screen_pixelSearch);
   ("process.list", process_list); ("process.kill", process_kill);
   ("file.getInfo", file_getInfo); ("file.read", file_read);
   ("clipboard.read", clipboard_read_h); ("clipboard.write", clipboard_write_h);
   ("service.list", service_list_h); ("service.status", service_status_h);
   ("service.control", service_control_h);
   ("env.get", env_get); ("env.set", env_set_h);
   ("wine.drives", wine_drives); ("wine.overrides", wine_overrides);
   ("sync.checkMutex", sync_checkMutex); ("sync.createMutex", sync_createMutex);
   ("mem.read", mem_read_h); ("mem.write", mem_write_h); ("image.match", image_match_h);
   ("input.hook", input_hook); ("window.findRegex", window_findRegex);
   ("reg.read", reg_read_h); ("reg.write", reg_write_h); ("reg.delete", reg_delete_h);
   ("ui.inspect", ui_inspect); ("ui.invoke", ui_invoke);
   ("daemon.health", daemon_health); ("daemon.capabilities", daemon_capabilities);
   ("daemon.checkUpdate", daemon_checkUpdate); ("daemon.downloadUpdate", daemon_downloadUpdate);
   ("daemon.logs", daemon_logs)].

(** [dispatch_], of which only [find] is used. *)
Definition dispatch_ : list (string * Handler) := map_of dispatch_entries.

(** The body of the [try] block, with the catch of [std::exception]. *)
Definition run_method (req : CoreRequest) (snapshot : Snapshot) (old : option Snapshot) : Eff CoreResponse :=
  let resp := set_result JNull (set_id (req_id req) CoreResponse_default) in
  try_catch
    match map_find (req_method req) dispatch_ with
    | Some h => h req snapshot old
    | None =>
        _ ← LOG WARN ("Method not implemented: " +:+ req_method req);
        mret (set_error "E_BAD_METHOD" "method not implemented in core" resp)
    end
    (λ what,
       _ ← LOG ERR ("Request failed: " +:+ what);
       mret (set_error "E_BAD_REQUEST" what resp)).

Definition handle (req : CoreRequest) (snapshot : Snapshot) (old : option Snapshot) : Eff CoreResponse :=
  start_time ← now;
  _ ← LOG DEBUG ("Handling request: " +:+ req_method req +:+ " (id=" +:+ req_id req +:+ ")");
  resp ← run_method req snapshot old;
  end_time ← now;
  mret (set_metric "duration_ms" (num (duration_ms start_time end_time)) resp).

End Handlers.
