(* ===== verification/CoreProps.v ===== *)
(** Properties of the engine ([core/src/core.cpp]): what [handle] answers on
    every path, which requests leave the backend alone, idempotence of the
    desired-state actions, redaction, handles as text. *)

From S2P Require Import Prelude StdMap CString Double Json JsonRoundtrip.
From S2P Require Import Base64 Types Logger Backend FakeBackend Core.

Local Open Scope Z_scope.

(** * Walking through a handler *)

(** The constant a term applies. *)
Ltac term_head t :=
  lazymatch t with
  | ?f _ => term_head f
  | _ => t
  end.

Ltac unfold_head t := let h := term_head t in unfold h; cbv beta.

(** One step of a proof that a handler [yields] or [keeps] something: follow
    the binds, split the matches, and unfold definitions at the head. *)
Ltac walk_step :=
  lazymatch goal with
  | |- yields _ (mret _) => apply yields_ret
  | |- yields _ (mbind _ _) => apply yields_bind; intros ?
  | |- yields _ (throw _) => apply yields_throw
  | |- yields _ (lift_result _) => apply yields_lift
  | |- yields _ (match ?x with _ => _ end) => destruct x eqn:?
  | |- yields _ ?t => unfold_head t
  | |- keeps _ (mret _) => refine (keeps_ret _ _)
  | |- keeps _ (mbind _ _) => refine (keeps_bind _ _ _ _ _); [|intros ?]
  | |- keeps _ (throw _) => refine (keeps_throw _ _)
  | |- keeps _ (lift_result _) => refine (keeps_lift _ _)
  | |- keeps _ (gets _) => refine (keeps_gets _ _)
  | |- keeps _ (match ?x with _ => _ end) => destruct x eqn:?
  | |- keeps _ (backend _) => fail
  | |- keeps _ now => fail
  | |- keeps _ ?t => unfold_head t
  end.
Ltac walk := repeat walk_step.

(** A property of each entry of the dispatch table, by the same tactic. *)
Ltac each_entry tac :=
  repeat apply Forall_cons_2; try apply Forall_nil_2; intros req snap old; cbn [fst snd]; tac.

Section Props.
Context {B : Type} `{IBackend B} `{Clock}.
Implicit Types (w : World B) (req : CoreRequest).

Abbreviation entries a := (dispatch_entries (B := B) a).

Lemma dispatch_keys_NoDup a : NoDup (entries a).*1.
Proof. apply (bool_decide_unpack _). by vm_compute. Qed.

(** [dispatch_.find(m)] finds exactly the entries of the table. *)
Lemma dispatch_find a m h : map_find m (dispatch_ a) = Some h ↔ (m, h) ∈ entries a.
Proof. apply map_find_of, dispatch_keys_NoDup. Qed.

(** * What a handler answers *)

(** Handlers other than [events.poll] build their response from a default one
    and never set its id. *)
Lemma handlers_id a :
  Forall (λ mh, ∀ req s o,
            yields (λ r, resp_id r = if bool_decide (mh.1 = "events.poll") then req_id req else EmptyString)
              (mh.2 req s o)) (entries a).
Proof. unfold dispatch_entries. each_entry walk; first [reflexivity|case_match; reflexivity]. Qed.

(** The codes that a handler reports by itself; the last is that of a success
    and of the failures of [mem.read], [image.match] and
    [daemon.downloadUpdate]. *)
Definition handler_codes : list string :=
  ["E_BAD_HWND"; "E_NOT_FOUND"; "E_READ_FAILED"; "E_ACCESS_DENIED"; EmptyString].

Lemma handlers_codes a :
  Forall (λ mh, ∀ req s o, yields (λ r, resp_error_code r ∈ handler_codes) (mh.2 req s o))
    (entries a).
Proof.
  unfold dispatch_entries. each_entry walk; repeat case_match;
    apply (bool_decide_unpack _); reflexivity.
Qed.

(** * The shape of [handle] *)

Definition same_backend (w w' : World B) : Prop := w_backend w = w_backend w'.

#[export] Instance same_backend_preorder : PreOrder same_backend.
Proof. split; [done|]. unfold same_backend. intros x y z. congruence. Qed.

Lemma LOG_eq level msg w : ∃ w', LOG level msg w = (Ok (), w') ∧ same_backend w w'.
Proof. unfold LOG. destruct (should_log _ _); eexists; split; done. Qed.

(** The response that [handle] starts from. *)
Definition initial_response req : CoreResponse :=
  set_result JNull (set_id (req_id req) CoreResponse_default).

(** How [run_method] answers, by what the handler does. *)
Definition answers a req s o w (out : result CoreResponse * World B) : Prop :=
  match map_find (req_method req) (dispatch_ a) with
  | None => out.1 = Ok (set_error "E_BAD_METHOD" "method not implemented in core" (initial_response req))
            ∧ same_backend w out.2
  | Some h =>
      match h req s o w with
      | (Throw what, w1) =>
          out.1 = Ok (set_error "E_BAD_REQUEST" what (initial_response req)) ∧ same_backend w1 out.2
      | r => out = r
      end
  end.

Lemma run_method_answers a req s o w : answers a req s o w (run_method a req s o w).
Proof.
  unfold answers, run_method, try_catch.
  destruct (map_find (req_method req) (dispatch_ a)) as [h|].
  - destruct (h req s o w) as [[r|what| |] w1]; try done.
    unfold mbind, M_bind. destruct (LOG_eq ERR ("Request failed: " +:+ what) w1) as (w' & -> & Hw). done.
  - unfold mbind, M_bind.
    destruct (LOG_eq WARN ("Method not implemented: " +:+ req_method req) w) as (w' & -> & Hw). done.
Qed.

(** [handle] runs the method from a world with the same backend and only adds
    the duration to its response. *)
Lemma handle_run a req s o w :
  ∃ w0, same_backend w w0 ∧
    match run_method a req s o w0 with
    | (Ok r, w1) => ∃ d w2, same_backend w1 w2 ∧
        handle a req s o w = (Ok (set_metric "duration_ms" (num d) r), w2)
    | out => handle a req s o w = out
    end.
Proof.
  unfold handle, mbind, M_bind, now.
  destruct (LOG_eq DEBUG ("Handling request: " +:+ req_method req +:+ " (id=" +:+ req_id req +:+ ")")
              (mkWorld (w_backend w) (w_logger w) (S (w_ticks w)))) as (w0 & -> & Hw).
  exists w0. split; [done|]. destruct (run_method a req s o w0) as [[r| | |] w1]; try done.
  do 2 eexists. split; [|done]. done.
Qed.

(** The same, with what the handler did. *)
Lemma handle_answers a req s o w :
  ∃ w0, same_backend w w0 ∧
    match map_find (req_method req) (dispatch_ a) with
    | None => ∃ d w2, same_backend w w2 ∧ handle a req s o w =
        (Ok (set_metric "duration_ms" (num d)
               (set_error "E_BAD_METHOD" "method not implemented in core" (initial_response req))), w2)
    | Some h =>
        match h req s o w0 with
        | (Ok r, w1) => ∃ d w2, same_backend w1 w2 ∧
            handle a req s o w = (Ok (set_metric "duration_ms" (num d) r), w2)
        | (Throw what, w1) => ∃ d w2, same_backend w1 w2 ∧ handle a req s o w =
            (Ok (set_metric "duration_ms" (num d) (set_error "E_BAD_REQUEST" what (initial_response req))), w2)
        | (Undef, w1) => handle a req s o w = (Undef, w1)
        | (OutOfFuel, w1) => handle a req s o w = (OutOfFuel, w1)
        end
    end.
Proof.
  destruct (handle_run a req s o w) as (w0 & Hw0 & Hh). exists w0. split; [done|].
  pose proof (run_method_answers a req s o w0) as Ha. unfold answers in Ha.
  destruct (map_find (req_method req) (dispatch_ a)) as [h|].
  - destruct (h req s o w0) as [[r|what| |] w1] eqn:Er.
    + by rewrite Ha in Hh.
    + destruct Ha as [Ha1 Ha2]. destruct (run_method a req s o w0) as [r' w1']. simpl in *. subst r'.
      destruct Hh as (d & w2 & Hw2 & ->). exists d, w2. split; [by etrans|done].
    + by rewrite Ha in Hh.
    + by rewrite Ha in Hh.
  - destruct Ha as [Ha1 Ha2]. destruct (run_method a req s o w0) as [r' w1']. simpl in *. subst r'.
    destruct Hh as (d & w2 & Hw2 & ->). exists d, w2. split; [by etrans; [|etrans]|done].
Qed.

(** What is known of a response, by where it comes from. *)
Lemma handle_response a req s o w r w' :
  handle a req s o w = (Ok r, w') →
  (resp_id r = req_id req ∧ resp_ok r = false ∧ resp_error_code r ∈ ["E_BAD_METHOD"; "E_BAD_REQUEST"])
  ∨ (resp_error_code r ∈ handler_codes
     ∧ resp_id r = if bool_decide (req_method req = "events.poll") then req_id req else EmptyString).
Proof.
  intros Hr. destruct (handle_answers a req s o w) as (w0 & _ & Ha).
  destruct (map_find (req_method req) (dispatch_ a)) as [h|] eqn:Eh.
  - destruct (h req s o w0) as [[r'|what| |] w1] eqn:Er.
    + destruct Ha as (d & w2 & _ & Ha). rewrite Hr in Ha. injection Ha as -> ->. right.
      apply dispatch_find in Eh. pose proof (handlers_codes a) as Hc.
      rewrite list.Forall_forall in Hc. specialize (Hc _ Eh req s o w0). simpl in Hc.
      rewrite Er in Hc. split; [done|].
      pose proof (handlers_id a) as Hi. rewrite list.Forall_forall in Hi.
      specialize (Hi _ Eh req s o w0). simpl in Hi. by rewrite Er in Hi.
    + destruct Ha as (d & w2 & _ & Ha). rewrite Hr in Ha. injection Ha as -> ->. left.
      split_and!; [done..|]. right. left.
    + congruence.
    + congruence.
  - destruct Ha as (d & w2 & _ & Ha). rewrite Hr in Ha. injection Ha as -> ->. left.
    split_and!; [done..|]. left.
Qed.

(** No exception leaves [handle], and a failure has one of these codes. *)
Definition engine_codes : list string :=
  ["E_BAD_METHOD"; "E_BAD_REQUEST"; "E_BAD_HWND"; "E_NOT_FOUND"; "E_READ_FAILED"; "E_ACCESS_DENIED"; EmptyString].

Lemma handle_answered a req s o w :
  match (handle a req s o w).1 with
  | Ok r => resp_error_code r ∈ engine_codes
  | Throw _ => False
  | Undef | OutOfFuel => True
  end.
Proof.
  destruct (handle a req s o w) as [[r|what| |] w'] eqn:E; simpl; try done.
  - apply handle_response in E as [(_ & _ & Hc)|[Hc _]];
      unfold engine_codes;
      [|apply elem_of_cons; right; apply elem_of_cons; by right].
    rewrite !elem_of_cons in *. destruct Hc as [->|[->|Hc]]; [tauto..|]. by apply elem_of_nil in Hc.
  - destruct (handle_answers a req s o w) as (w0 & _ & Ha).
    destruct (map_find (req_method req) (dispatch_ a)) as [h|].
    + destruct (h req s o w0) as [[r'|what'| |] w1]; naive_solver congruence.
    + naive_solver congruence.
Qed.

(** The id of a response is the id of its request only when the engine
    answers [E_BAD_METHOD] or [E_BAD_REQUEST], or for [events.poll]; every other
    response that a handler builds, so every success of another method, has the
    empty id. *)
Theorem handle_response_id a req s o w r w' :
  handle a req s o w = (Ok r, w') →
  resp_id r = if bool_decide (req_method req = "events.poll")
                 || bool_decide (resp_error_code r ∈ ["E_BAD_METHOD"; "E_BAD_REQUEST"])
              then req_id req else EmptyString.
Proof.
  intros [(Hi & _ & Hc)|[Hc Hi]]%handle_response.
  - rewrite (bool_decide_eq_true_2 _ Hc), orb_true_r. done.
  - rewrite (bool_decide_eq_false_2 (resp_error_code r ∈ _)), orb_false_r; [done|].
    revert Hc. generalize (resp_error_code r). intros c Hc. unfold handler_codes in Hc.
    rewrite !elem_of_cons, elem_of_nil in *. naive_solver.
Qed.
End Props.

(** A clock for concrete runs. *)
Definition test_clock : Clock := {| steady_now := λ n, 1000000 * Z.of_nat n; local_time := λ _, "t" |}.
Definition test_world : World FakeBackend :=
  mkWorld (Fake.FakeBackend_new sample_windows) Logger_init 0.
Definition list_top_request : CoreRequest := mkCoreRequest "42" "window.listTop" [].

Lemma handle_response_id_witness :
  match handle (H0 := test_clock) false list_top_request (mkSnapshot [1]) None test_world with
  | (Ok r, _) => resp_ok r = true ∧ resp_id r = EmptyString
  | _ => False
  end.
Proof.
  destruct (handle (H0 := test_clock) false list_top_request (mkSnapshot [1]) None test_world)
    as [[r| | |] w'] eqn:E; try (vm_compute in E; discriminate E).
  pose proof (handle_response_id (H0 := test_clock) _ _ _ _ _ _ _ E) as Hi.
  vm_compute in E. injection E as <- <-. split; [done|exact Hi].
Defined.
