(* ===== verification/Live.v ===== *)
(** Backends whose operations end, and that every method of the engine ends on
    them. *)

From S2P Require Import Prelude StdMap CString Double Json Types Logger Backend FakeBackend Core.
From S2P Require Import Hoare CoreProps.

Local Open Scope Z_scope.

(** * The law *)

(** There is an invariant of the backend's state under which every operation
    returns or throws; the operations keep it.  [backend_ub] tells whether the
    backend has undefined behaviour of its own. *)
Class LiveBackend (B : Type) `{IBackend B} := {
  live : B → Prop;
  backend_ub : Prop;
  set_config_live a : lives backend_ub live (set_config a);
  capture_snapshot_live : lives backend_ub live (capture_snapshot);
  list_top_live a : lives backend_ub live (list_top a);
  list_children_live a b : lives backend_ub live (list_children a b);
  get_info_live a b : lives backend_ub live (get_info a b);
  pick_at_point_live a b c d : lives backend_ub live (pick_at_point a b c d);
  get_window_tree_live a b : lives backend_ub live (get_window_tree a b);
  ensure_visible_live a b : lives backend_ub live (ensure_visible a b);
  ensure_foreground_live a : lives backend_ub live (ensure_foreground a);
  highlight_window_live a : lives backend_ub live (highlight_window a);
  set_property_live a b c : lives backend_ub live (set_property a b c);
  post_message_live a b c d : lives backend_ub live (post_message a b c d);
  send_input_live a : lives backend_ub live (send_input a);
  send_mouse_click_live a b c : lives backend_ub live (send_mouse_click a b c);
  send_key_press_live a : lives backend_ub live (send_key_press a);
  send_text_live a : lives backend_ub live (send_text a);
  control_click_live a b c d : lives backend_ub live (control_click a b c d);
  control_send_live a b : lives backend_ub live (control_send a b);
  get_pixel_live a b : lives backend_ub live (get_pixel a b);
  capture_screen_live a : lives backend_ub live (capture_screen a);
  pixel_search_live a b c : lives backend_ub live (pixel_search a b c);
  list_processes_live : lives backend_ub live (list_processes);
  kill_process_live a : lives backend_ub live (kill_process a);
  get_file_info_live a : lives backend_ub live (get_file_info a);
  read_file_content_live a : lives backend_ub live (read_file_content a);
  find_windows_regex_live a b : lives backend_ub live (find_windows_regex a b);
  reg_read_live a : lives backend_ub live (reg_read a);
  reg_write_live a b : lives backend_ub live (reg_write a b);
  reg_delete_live a b : lives backend_ub live (reg_delete a b);
  reg_subscribe_live a : lives backend_ub live (reg_subscribe a);
  clipboard_read_live : lives backend_ub live (clipboard_read);
  clipboard_write_live a : lives backend_ub live (clipboard_write a);
  service_list_live : lives backend_ub live (service_list);
  service_status_live a : lives backend_ub live (service_status a);
  service_control_live a b : lives backend_ub live (service_control a b);
  env_get_all_live : lives backend_ub live (env_get_all);
  env_set_live a b : lives backend_ub live (env_set a b);
  wine_get_drives_live : lives backend_ub live (wine_get_drives);
  wine_get_overrides_live : lives backend_ub live (wine_get_overrides);
  sync_check_mutex_live a : lives backend_ub live (sync_check_mutex a);
  sync_create_mutex_live a b : lives backend_ub live (sync_create_mutex a b);
  mem_read_live a b c : lives backend_ub live (mem_read a b c);
  mem_write_live a b c : lives backend_ub live (mem_write a b c);
  image_match_live a b : lives backend_ub live (image_match a b);
  input_hook_enable_live a : lives backend_ub live (input_hook_enable a);
  inspect_ui_elements_live a : lives backend_ub live (inspect_ui_elements a);
  invoke_ui_element_live a b : lives backend_ub live (invoke_ui_element a b);
  get_capabilities_live : lives backend_ub live (get_capabilities);
  get_env_metadata_live : lives backend_ub live (get_env_metadata);
  check_for_update_live : lives backend_ub live (check_for_update);
  download_update_live a b : lives backend_ub live (download_update a b);
  poll_events_live a b : lives backend_ub live (poll_events a b);
}.

(** What undefined behaviour of the backend entails. *)
Class Covers {B} `{LiveBackend B} (U : Prop) := covers : backend_ub → U.

#[export] Instance covers_or {B} `{LiveBackend B} (P : Prop) : Covers (backend_ub ∨ P).
Proof. by left. Qed.
#[export] Instance covers_self {B} `{LiveBackend B} : Covers backend_ub.
Proof. by intros ?. Qed.

Create HintDb live.
#[export] Hint Resolve
  set_config_live capture_snapshot_live list_top_live list_children_live get_info_live
  pick_at_point_live get_window_tree_live ensure_visible_live ensure_foreground_live
  highlight_window_live set_property_live post_message_live send_input_live send_mouse_click_live
  send_key_press_live send_text_live control_click_live control_send_live get_pixel_live
  capture_screen_live pixel_search_live list_processes_live kill_process_live get_file_info_live
  read_file_content_live find_windows_regex_live reg_read_live reg_write_live reg_delete_live
  reg_subscribe_live clipboard_read_live clipboard_write_live service_list_live service_status_live
  service_control_live env_get_all_live env_set_live wine_get_drives_live wine_get_overrides_live
  sync_check_mutex_live sync_create_mutex_live mem_read_live mem_write_live image_match_live
  input_hook_enable_live inspect_ui_elements_live invoke_ui_element_live get_capabilities_live
  get_env_metadata_live check_for_update_live download_update_live poll_events_live : live.

(** * The fake backend *)

Lemma elem_of_map_set {V} (k k' : Z) (v v' : V) m :
  (k', v') ∈ map_set k v m → (k', v') = (k, v) ∨ (k', v') ∈ m.
Proof.
  induction m as [|[k0 v0] m IH]; cbn [map_set].
  - intros [?|?]%elem_of_cons; auto.
  - destruct (key_cmp k k0) eqn:E; [apply key_cmp_eq in E as <-|..]; rewrite !elem_of_cons; tauto.
Qed.

Lemma ensure_visible_acyclic h v : lives False acyclic (Fake.ensure_visible h v).
Proof.
  intros b [rank Hr]. unfold Fake.ensure_visible. destruct (map_find h (w_ b)) as [fw|] eqn:E; [|by exists rank].
  exists rank. cbn. intros h' w [[= -> ->]|Hin]%elem_of_map_set; [|by apply Hr].
  cbn. apply (Hr _ _ (map_find_elem_of _ _ _ E)).
Qed.

(** The operations end while no window is its own ancestor. *)
#[export, refine] Instance FakeBackend_live : LiveBackend FakeBackend := {| live := acyclic; backend_ub := False |}.
Proof.
  all: intros; try (by intros ? ?); try apply ensure_visible_acyclic.
  intros bk Hb. destruct (window_tree_built bk a b Hb) as (ns & E & _). by rewrite E.
Defined.

(** * Numbers of a request *)

(** The values that a numeric parameter may have: a colour component is a byte,
    anything else at least fits an [int]. *)
Definition limit_of (key : string) : Z :=
  if bool_decide (key ∈ ["r"; "g"; "b"]) then 2 ^ 8 else 2 ^ 31.

Definition number_ok (kv : string * Value) : bool :=
  match kv.2 with JNum d => is_Ok (cast_range 0 (limit_of kv.1) d) | _ => true end.

Definition numbers_ok (req : CoreRequest) : bool := forallb number_ok (req_params req).

Lemma get_num_elem_of o k d : get_num o k = Some d → (k, JNum d) ∈ o.
Proof.
  unfold get_num. destruct (map_find k o) as [[]|] eqn:E; try done. intros [= ->].
  by apply map_find_elem_of.
Qed.

Lemma cast_range_le lo hi lo' hi' d :
  lo' ≤ lo → hi ≤ hi' → is_Ok (cast_range lo hi d) = true → is_Ok (cast_range lo' hi' d) = true.
Proof.
  intros Hlo Hhi. unfold cast_range. destruct d as [| | |s m e]; try done.
  set (z := _ * _). destruct (Z.leb_spec lo z), (Z.ltb_spec z hi); try done. intros _.
  destruct (Z.leb_spec lo' z), (Z.ltb_spec z hi'); done || lia.
Qed.

Section Numbers.
Context (U : Prop) (req : CoreRequest).
Hypothesis Hreq : U ∨ numbers_ok req = true.

Lemma param_fits k d lo hi :
  get_num (req_params req) k = Some d → lo ≤ 0 → limit_of k ≤ hi → U ∨ is_Ok (cast_range lo hi d) = true.
Proof.
  intros Hk Hlo Hhi. destruct Hreq as [?|Hn]; [by left|right]. unfold numbers_ok in Hn.
  rewrite List.forallb_forall in Hn. apply get_num_elem_of, list_elem_of_In, Hn in Hk.
  by apply (cast_range_le 0 (limit_of k)).
Qed.

Lemma param_default_fits k z lo hi :
  is_Ok (cast_range lo hi z) = true → lo ≤ 0 → limit_of k ≤ hi →
  U ∨ is_Ok (cast_range lo hi (default z (get_num (req_params req) k))) = true.
Proof.
  intros Hz Hlo Hhi. destruct (get_num (req_params req) k) as [d|] eqn:E; [|by right].
  by apply (param_fits k).
Qed.
End Numbers.

(** * The engine *)

Section Engine.
Context {B : Type} `{LiveBackend B} `{Clock} {U : Prop} `{!Covers U}.
Implicit Types (w : World B) (req : CoreRequest).

Definition live_world w : Prop := live (w_backend w).

Lemma backend_lives {A} (m : M B A) : lives backend_ub live m → lives U live_world (backend m).
Proof.
  intros Hm. apply (hoare_zoom_inv _ _ _ _ live); [|done|by intros b w _].
  exact (lives_weaken live U m covers Hm).
Qed.

Lemma now_lives : lives U live_world now.
Proof. by intros w Hw. Qed.

Lemma LOG_lives level msg : lives U live_world (LOG level msg).
Proof. intros w Hw. unfold LOG. by destruct (should_log _ _). Qed.

Lemma cast_lives lo hi (d : double) :
  U ∨ is_Ok (cast_range lo hi d) = true → lives U live_world (lift_result (cast_range lo hi d)).
Proof.
  intros Hd. apply lives_lift. unfold cast_range in *. repeat case_match; try done; by destruct Hd.
Qed.

(** A missing parameter is an exception. *)
Lemma require_lives {A C} what (o : option A) (f : A → M (World B) C) :
  (∀ a, o = Some a → lives U live_world (f a)) → lives U live_world (require what o ≫= f).
Proof.
  intros Hf. destruct o as [a|]; [|by intros w Hw]. intros w Hw. by apply (Hf a).
Qed.
End Engine.

Ltac in_range := first [apply param_default_fits | eapply param_fits]; eassumption || done.

(** Follow a handler to its calls of the backend and the clock. *)
Ltac live_step :=
  lazymatch goal with
  | |- lives _ _ (mret _) => apply lives_ret
  | |- lives _ _ (mbind _ (require _ _)) => apply require_lives; intros ? ?
  | |- lives _ _ (mbind _ _) => apply lives_bind; [|intros ?]
  | |- lives _ _ (throw _) => apply lives_throw
  | |- lives _ _ (backend _) => apply backend_lives; auto with live
  | |- lives _ _ (lift_result (cast_range _ _ _)) => apply cast_lives; in_range
  | |- lives _ _ (lift_result (or_throw _ ?o)) => apply lives_lift; by destruct o
  | |- lives _ _ (lift_result ?r) => unfold_head r
  | |- lives _ _ (gets _) => apply lives_gets
  | |- lives _ _ now => apply now_lives
  | |- lives _ _ (LOG _ _) => apply LOG_lives
  | |- lives _ _ (match ?x with _ => _ end) => destruct x eqn:?
  | |- lives _ _ ?t => unfold_head t
  end.
Ltac live_walk := repeat live_step.

Section Handlers.
Context {B : Type} `{LiveBackend B} `{Clock} {U : Prop} `{!Covers U}.
Implicit Types (w : World B) (req : CoreRequest).

Lemma handlers_live a :
  Forall (λ mh, ∀ req s o, U ∨ numbers_ok req = true → lives U live_world (mh.2 req s o))
    (dispatch_entries (B := B) a).
Proof. unfold dispatch_entries. each_entry ltac:(intros Hreq; live_walk). Qed.

Lemma run_method_lives a req s o :
  U ∨ numbers_ok req = true → lives U live_world (run_method (B := B) a req s o).
Proof.
  intros Hreq. unfold run_method. apply lives_try; [|intros ?; live_walk].
  destruct (map_find _ _) as [h|] eqn:E; [|live_walk].
  apply dispatch_find in E. pose proof (handlers_live a) as Hall.
  rewrite list.Forall_forall in Hall. by apply (Hall _ E).
Qed.

Lemma handle_lives a req s o :
  U ∨ numbers_ok req = true → lives U live_world (handle (B := B) a req s o).
Proof.
  intros Hreq. unfold handle. apply lives_bind; [apply now_lives|intros t0].
  apply lives_bind; [apply LOG_lives|intros ?].
  apply lives_bind; [by apply run_method_lives|intros r]. live_walk.
Qed.
End Handlers.

Section Outcomes.
Context {B : Type} `{LiveBackend B} `{Clock}.

End Outcomes.

Lemma sample_acyclic : acyclic (Fake.FakeBackend_new sample_windows).
Proof.
  exists Z.to_nat. intros h w Hin. change (w_ (Fake.FakeBackend_new sample_windows)) with
    [(1, mkFakeWindow 1 0 0 "A" "C1" true); (2, mkFakeWindow 2 1 0 "B" "C2" true)] in Hin.
  rewrite !elem_of_cons, elem_of_nil in Hin. destruct Hin as [[= -> ->]|[[= -> ->]|[]]]; simpl; lia.
Qed.

