(* ===== verification/CoreMethods.v ===== *)
(** Properties of single methods of the engine: inspection leaves the backend
    alone, desired-state actions are idempotent, [env.get] redacts,
    [daemon.logs] is guarded, [events.poll] numbers its events, handles and
    requests survive their text form, numbers are kept in range. *)

From S2P Require Import Prelude StdMap CString Double Json JsonTotal JsonRoundtrip.
From S2P Require Import Base64 Types Logger Backend FakeBackend Core CoreProps.

Local Open Scope Z_scope.

(** * Handles as text *)

(** The text of a handle determines it, so a handle of a response can be used
    in a request. *)
Lemma parse_hwnd_to_string v : u64 v → parse_hwnd (Hwnd_to_string (mkHwnd v)) = Some v.
Proof.
  unfold u64. intros Hv. unfold parse_hwnd, Hwnd_to_string. cbn [hwnd_val].
  change ("0x" +:+ print_base 16 v) with (String "0" (String "x" (print_base 16 v))).
  change (starts_with "0x" (String "0" (String "x" (print_base 16 v)))) with true.
  cbn [negb str_drop]. unfold stream_hex_u64.
  destruct (print_base_head 16 v ltac:(lia) ltac:(lia)) as (d & rest & Hd & E).
  pose proof (read_print_base hex_digit 16 v EmptyString hex_digit_char ltac:(lia) ltac:(lia) eq_refl) as Hr.
  rewrite str_app_nil_r, E in Hr. rewrite E.
  destruct (digit_char_plain d Hd) as (Hsp & Hm & Hp & Hx & HX).
  cbn [skip_while]. rewrite Hsp. unfold read_sign. rewrite !ascii_eqb_ne by done.
  assert (match rest with
          | EmptyString => String (digit_char d) rest
          | String x r => if ascii_eqb (digit_char d) "0" && (ascii_eqb x "x" || ascii_eqb x "X")
                          then r else String (digit_char d) rest
          end = String (digit_char d) rest) as Hpre.
  { destruct rest as [|x r]; [done|].
    destruct (ascii_eqb x "x" || ascii_eqb x "X") eqn:Ex; [|by rewrite andb_false_r].
    exfalso. cbn [read_digits] in Hr. rewrite hex_digit_char in Hr by done.
    assert (hex_digit x = None) as Hnx.
    { apply orb_prop in Ex as [Ex|Ex]; apply ascii_eqb_eq in Ex as ->; done. }
    by rewrite Hnx in Hr. }
  rewrite Hpre. cbn [head_is]. rewrite hex_digit_char by done.
  rewrite bool_decide_eq_true_2 by eauto. rewrite Hr. cbn [fst].
  rewrite (proj2 (Z.ltb_lt _ _)) by lia. by rewrite Z.mod_small by lia.
Qed.

(** * Requests as text *)

(** The object a client sends. *)
Definition request_json (r : CoreRequest) : Value :=
  obj [("id", JStr (req_id r)); ("method", JStr (req_method r)); ("params", JObj (req_params r))].

Lemma parse_request_dumps r :
  value_ok (JObj (req_params r)) → nums_exact (JObj (req_params r)) →
  parse_request_json (dumps (request_json r)) = Ok r.
Proof.
  intros Hok Hex. unfold parse_request_json. rewrite json_parse_dumps.
  - by destruct r.
  - split; [apply map_of_ok|by split_and!].
  - by split_and!.
Qed.

(** A request written by the serializer is read back by
    [parse_request_json] with the same id, method and parameters, when its
    parameters hold the map invariant and integers of at most 53 bits. *)
Theorem request_roundtrip r :
  value_ok (JObj (req_params r)) → nums_exact (JObj (req_params r)) →
  parse_request_json (dumps (request_json r)) = Ok r.
Proof. apply parse_request_dumps. Qed.

Lemma request_roundtrip_witness :
  parse_request_json (dumps (request_json (mkCoreRequest "1" "window.getInfo" [("hwnd", JStr "0x1")])))
  = Ok (mkCoreRequest "1" "window.getInfo" [("hwnd", JStr "0x1")]).
Proof. apply request_roundtrip; [by repeat constructor|done]. Defined.

(** * Inspection *)

(** The methods that only look. *)
Definition inspection_methods : list string :=
  ["events.poll"; "session.terminate"; "window.listTop"; "window.listChildren"; "window.getTree";
   "window.getInfo"; "window.pickAtPoint"; "screen.getPixel"; "screen.capture"; "screen.pixelSearch";
   "process.list"; "file.getInfo"; "file.read"; "clipboard.read"; "service.list"; "service.status";
   "env.get"; "wine.drives"; "wine.overrides"; "sync.checkMutex"; "mem.read"; "image.match";
   "window.findRegex"; "reg.read"; "ui.inspect"; "daemon.health"; "daemon.capabilities";
   "daemon.checkUpdate"; "daemon.logs"].

Definition is_inspection (m : string) : bool := bool_decide (m ∈ inspection_methods).

Create HintDb inspection.
#[export] Hint Resolve capture_snapshot_pure list_top_pure list_children_pure get_info_pure
  pick_at_point_pure get_window_tree_pure get_pixel_pure capture_screen_pure pixel_search_pure
  list_processes_pure get_file_info_pure read_file_content_pure find_windows_regex_pure
  reg_read_pure clipboard_read_pure service_list_pure service_status_pure env_get_all_pure
  wine_get_drives_pure wine_get_overrides_pure sync_check_mutex_pure mem_read_pure
  image_match_pure inspect_ui_elements_pure get_capabilities_pure get_env_metadata_pure
  check_for_update_pure poll_events_pure : inspection.

Section Inspection.
Context {B : Type} `{IBackend B} `{!InspectionLaws B} `{Clock}.

Lemma keeps_backend {A} (m : M B A) : unchanging m → keeps same_backend (backend m).
Proof.
  intros Hm w. specialize (Hm (w_backend w)). unfold same_backend, backend, zoom.
  destruct (m (w_backend w)). simpl in *. congruence.
Qed.

Lemma inspection_handlers a :
  Forall (λ mh, is_inspection mh.1 = true → ∀ req s o, keeps same_backend (mh.2 req s o))
    (dispatch_entries (B := B) a).
Proof.
  unfold dispatch_entries.
  repeat apply Forall_cons_2; try apply Forall_nil_2; cbn [fst snd]; intros Hm;
    try discriminate Hm; intros req s o; walk; try apply _;
    first [apply keeps_backend; auto with inspection | intros w; reflexivity].
Qed.

(** C28: A request for one of the 29 inspection methods leaves the backend
    exactly as it was, whatever its parameters and whether it succeeds or
    fails, for every backend whose own inspection operations do. *)
Theorem inspection_side_effect_free a req s o (w : World B) :
  req_method req ∈ inspection_methods →
  w_backend (handle a req s o w).2 = w_backend w.
Proof.
  intros Hm. destruct (handle_answers a req s o w) as (w0 & Hw0 & Ha).
  destruct (map_find (req_method req) (dispatch_ a)) as [h|] eqn:Eh.
  - pose proof (inspection_handlers a) as Hi. rewrite list.Forall_forall in Hi.
    apply dispatch_find in Eh.
    specialize (Hi _ Eh (bool_decide_eq_true_2 _ Hm) req s o w0). simpl in Hi.
    unfold same_backend in *.
    destruct (h req s o w0) as [[r|what| |] w1]; simpl in Hi;
      [destruct Ha as (d & w2 & ? & ->)|destruct Ha as (d & w2 & ? & ->)|rewrite Ha|rewrite Ha];
      simpl; congruence.
  - destruct Ha as (d & w2 & Hw2 & ->). by symmetry.
Qed.
End Inspection.

Lemma inspection_side_effect_free_witness :
  w_backend (handle (H0 := test_clock) false list_top_request (mkSnapshot [1]) None test_world).2
  = w_backend test_world.
Proof.
  apply (inspection_side_effect_free (H0 := test_clock)). apply (bool_decide_unpack _). by vm_compute.
Defined.

(** * Desired-state actions *)

Section Ensure.
Context {B : Type} `{IBackend B} `{!DesiredStateLaws B} `{Clock}.
Implicit Types (w : World B).

Lemma backend_eq {A} (m : M B A) w :
  backend m w = ((m (w_backend w)).1, set_backend (m (w_backend w)).2 w).
Proof. unfold backend, zoom. by destruct (m (w_backend w)). Qed.

(** Both handlers find a handle (and a flag) in the parameters, or throw, and
    then answer with what one action of the backend says. *)
Definition ensure_shaped (h : Handler (B := B)) : Prop :=
  ∀ req, (∃ what, ∀ s o w, h req s o w = (Throw what, w))
       ∨ ∃ m, settles m ∧ ∀ s o w,
           h req s o w = (r ← backend m; respond (changed_json (changed r))) w.

Lemma ensureVisible_shaped : ensure_shaped window_ensureVisible.
Proof.
  intros req. unfold window_ensureVisible.
  destruct (get_str (req_params req) "hwnd") as [s|]; [|left; by eexists].
  destruct (get_bool (req_params req) "visible") as [v|]; [|left; by eexists].
  destruct (parse_hwnd s) as [h|].
  - right. exists (ensure_visible h v). split; [apply ensure_visible_settles|done].
  - left. by eexists.
Qed.

Lemma ensureForeground_shaped : ensure_shaped window_ensureForeground.
Proof.
  intros req. unfold window_ensureForeground, require_hwnd, require.
  destruct (get_str (req_params req) "hwnd") as [s|]; [|left; by eexists].
  destruct (parse_hwnd s) as [h|] eqn:E.
  - right. exists (ensure_foreground h). split; [apply ensure_foreground_settles|]. intros s0 o w.
    unfold mbind, M_bind. cbn. by rewrite E.
  - left. eexists. intros s0 o w. unfold mbind, M_bind. cbn. by rewrite E.
Qed.

Lemma ensure_entries a m h :
  m ∈ ["window.ensureVisible"; "window.ensureForeground"] →
  map_find m (dispatch_ (B := B) a) = Some h → ensure_shaped h.
Proof.
  rewrite !elem_of_cons, elem_of_nil. intros [->|[->|[]]] Eh.
  - assert (map_find "window.ensureVisible" (dispatch_ a) = Some window_ensureVisible) as E by done.
    rewrite E in Eh. injection Eh as <-. apply ensureVisible_shaped.
  - assert (map_find "window.ensureForeground" (dispatch_ a) = Some window_ensureForeground) as E by done.
    rewrite E in Eh. injection Eh as <-. apply ensureForeground_shaped.
Qed.

(** [window.ensureVisible] and [window.ensureForeground] are idempotent:
    after a request that succeeded, the same request, whenever it comes next
    and against any snapshot, succeeds with [changed] false and leaves the
    backend as it is, for every backend whose actions settle. *)
Theorem ensure_idempotent a req s o s' o' w r w' :
  req_method req ∈ ["window.ensureVisible"; "window.ensureForeground"] →
  handle a req s o w = (Ok r, w') → resp_ok r = true →
  ∃ r2 w2, handle a req s' o' w' = (Ok r2, w2) ∧ resp_ok r2 = true
           ∧ resp_result r2 = changed_json false ∧ w_backend w2 = w_backend w'.
Proof.
  intros Hm Hr Hok.
  destruct (handle_answers a req s o w) as (w0 & _ & Ha).
  destruct (handle_answers a req s' o' w') as (w0' & Hw0' & Ha').
  destruct (map_find (req_method req) (dispatch_ a)) as [h|] eqn:Eh;
    [|destruct Ha as (d & w2 & _ & Ha); rewrite Hr in Ha; injection Ha as -> _; done].
  destruct (ensure_entries a _ h Hm Eh req) as [(what & Hth)|(m & Hset & Hrun)].
  { rewrite Hth in Ha. destruct Ha as (d & w2 & _ & Ha). rewrite Hr in Ha. injection Ha as -> _. done. }
  rewrite Hrun in Ha, Ha'. unfold mbind, M_bind in Ha, Ha'. rewrite backend_eq in Ha, Ha'.
  destruct (m (w_backend w0)) as [[er| | |] b'] eqn:Em; simpl in Ha;
    try (rewrite Hr in Ha; discriminate Ha);
    destruct Ha as (d & w2 & Hw2 & Ha); rewrite Hr in Ha; injection Ha as -> ->; [|done].
  unfold same_backend in *. simpl in Hw2.
  rewrite <-Hw0', <-Hw2, (Hset _ _ _ Em) in Ha'. simpl in Ha'.
  destruct Ha' as (d' & w3 & Hw3 & ->). do 2 eexists. split_and!; [done..|].
  simpl in Hw3. congruence.
Qed.
End Ensure.

Definition show_request : CoreRequest :=
  mkCoreRequest "7" "window.ensureVisible" [("hwnd", JStr "0x1"); ("visible", JBool false)].

Lemma ensure_idempotent_witness :
  let out := handle (H0 := test_clock) false show_request Snapshot_empty None test_world in
  match out with
  | (Ok r, w') =>
      resp_result r = changed_json true
      ∧ ∃ r2 w2, handle (H0 := test_clock) false show_request Snapshot_empty None w' = (Ok r2, w2)
                 ∧ resp_ok r2 = true ∧ resp_result r2 = changed_json false
                 ∧ w_backend w2 = w_backend w'
  | _ => False
  end.
Proof.
  cbv zeta.
  destruct (handle (H0 := test_clock) false show_request Snapshot_empty None test_world)
    as [[r| | |] w'] eqn:E; try (vm_compute in E; discriminate E).
  assert (resp_ok r = true ∧ resp_result r = changed_json true) as [Hok Hres].
  { vm_compute in E. injection E as <- _. by vm_compute. }
  split; [done|].
  apply (ensure_idempotent (H0 := test_clock) false show_request Snapshot_empty None Snapshot_empty
           None test_world r w'); [|exact E|done].
  apply (bool_decide_unpack _). by vm_compute.
Defined.

(** * The environment, the log and events *)

Section Single.
Context {B : Type} `{IBackend B} `{Clock}.
Implicit Types (w : World B).

(** A request whose handler returns [r], from any world with this backend. *)
Lemma handle_of_handler a req s o w h r b' :
  map_find (req_method req) (dispatch_ a) = Some h →
  (∀ w0, w_backend w0 = w_backend w → ∃ w1, h req s o w0 = (Ok r, w1) ∧ w_backend w1 = b') →
  ∃ d w', handle a req s o w = (Ok (set_metric "duration_ms" (num d) r), w') ∧ w_backend w' = b'.
Proof.
  intros Eh Hh. destruct (handle_answers a req s o w) as (w0 & Hw0 & Ha). rewrite Eh in Ha.
  destruct (Hh w0) as (w1 & E & Hb); [done|]. rewrite E in Ha. destruct Ha as (d & w2 & Hw2 & ->).
  exists d, w2. split; [done|]. unfold same_backend in *. congruence.
Qed.

(** What two lists of variables may differ in without [env.get] showing it. *)
Definition same_public (v1 v2 : EnvVar) : Prop :=
  ev_name v1 = ev_name v2 ∧ (sensitive (ev_name v1) = false → ev_value v1 = ev_value v2).

Definition env_object (vars : list EnvVar) : Object :=
  map_of ((λ v, (ev_name v, JStr (shown_value v))) <$> vars).

Lemma env_object_public vars1 vars2 :
  Forall2 same_public vars1 vars2 → env_object vars1 = env_object vars2.
Proof.
  intros Hv. unfold env_object. f_equal. induction Hv as [|v1 v2 l1 l2 [Hn Hs] _ IH]; [done|].
  csimpl. rewrite IH. unfold shown_value. rewrite <-Hn. destruct (sensitive (ev_name v1)); [done|].
  by rewrite Hs.
Qed.

(** [env.get] answers with [env_object] of the variables the backend has. *)
Lemma env_get_answers a req s o w vars b' :
  req_method req = "env.get" → env_get_all (w_backend w) = (Ok vars, b') →
  ∃ d w', handle a req s o w =
    (Ok (set_metric "duration_ms" (num d) (set_result (JObj (env_object vars)) CoreResponse_default)), w').
Proof.
  intros Hm Hv.
  destruct (handle_of_handler a req s o w env_get
              (set_result (JObj (env_object vars)) CoreResponse_default) b') as (d & w' & E & _).
  - by rewrite Hm.
  - intros w0 Hw0. unfold env_get, mbind, M_bind. rewrite backend_eq, Hw0, Hv. simpl. eauto.
  - eauto.
Qed.


(** [daemon.logs] answers with log messages only when the engine was
    started with admin logs: otherwise the answer is the same access-denied
    response whatever the log holds. *)
Theorem daemon_logs_guarded req s o w :
  req_method req = "daemon.logs" →
  ∃ d w', handle false req s o w =
    (Ok (set_metric "duration_ms" (num d)
           (set_error "E_ACCESS_DENIED" "admin logs not enabled (use --admin-logs)"
              CoreResponse_default)), w').
Proof.
  intros Hm.
  destruct (handle_of_handler false req s o w (daemon_logs false)
              (set_error "E_ACCESS_DENIED" "admin logs not enabled (use --admin-logs)"
                 CoreResponse_default) (w_backend w)) as (d & w' & E & _).
  - by rewrite Hm.
  - intros w0 Hw0. exists w0. done.
  - eauto.
Qed.

Lemma number_events_lookup evs i :
  number_events evs !! i = Event_set_seq (Z.of_nat i + 1) <$> evs !! i.
Proof. unfold number_events. by rewrite list_lookup_imap. Qed.

(** [events.poll] with a previous snapshot asks the backend for the
    changes exactly once, also when it may wait, and answers with its own id
    and all the events of that one poll in order, numbered from 1 in every
    response. *)
Theorem events_poll_spec a req s old w evs b' wait interval :
  req_method req = "events.poll" →
  poll_events old s (w_backend w) = (Ok evs, b') →
  cast_longlong (default zero_d (get_num (req_params req) "wait_ms")) = Ok wait →
  cast_int (default (double_of_Z 100) (get_num (req_params req) "interval_ms")) = Ok interval →
  ∃ d w' shown, handle a req s (Some old) w =
    (Ok (set_metric "duration_ms" (num d)
           (set_result (JArr (event_to_json <$> shown)) (set_id (req_id req) CoreResponse_default))), w')
    ∧ w_backend w' = b'
    ∧ ∀ i, shown !! i = Event_set_seq (Z.of_nat i + 1) <$> evs !! i.
Proof.
  intros Hm Hp Hw Hi.
  destruct (handle_of_handler a req s (Some old) w events_poll
              (set_result (JArr (event_to_json <$> number_events evs))
                 (set_id (req_id req) CoreResponse_default)) b') as (d & w' & E & Hb).
  - by rewrite Hm.
  - intros w0 Hw0. unfold events_poll, mbind, M_bind, now, cast. rewrite Hw, Hi, backend_eq. simpl.
    rewrite Hw0, Hp. simpl.
    destruct (decide (evs = [])) as [->|Hne].
    + destruct (negb _ || is_zero _); simpl; [eauto|].
      destruct (_ <=? _); simpl; eauto.
    + rewrite bool_decide_eq_false_2 by done. simpl. eauto.
  - exists d, w', (number_events evs). split_and!; [done..|]. apply number_events_lookup.
Qed.

(** The click method passes on exactly the coordinates it was given when
    they are 32-bit integers; a coordinate outside that range reaches an
    undefined conversion instead of an error response. *)
Theorem mouse_click_bounds a req s o w x y ok b' :
  req_method req = "input.mouseClick" →
  get_num (req_params req) "x" = Some (double_of_Z x) →
  get_num (req_params req) "y" = Some (double_of_Z y) →
  get_num (req_params req) "button" = None →
  Z.abs x < 2 ^ 53 → Z.abs y < 2 ^ 53 →
  send_mouse_click x y 0 (w_backend w) = (Ok ok, b') →
  ((- 2 ^ 31 ≤ x < 2 ^ 31) ∧ (- 2 ^ 31 ≤ y < 2 ^ 31) ∧
     ∃ d w', handle a req s o w =
       (Ok (set_metric "duration_ms" (num d) (set_result (sent_json ok) CoreResponse_default)), w')
       ∧ w_backend w' = b')
  ∨ (¬ ((- 2 ^ 31 ≤ x < 2 ^ 31) ∧ (- 2 ^ 31 ≤ y < 2 ^ 31)) ∧ (handle a req s o w).1 = Undef).
Proof.
  intros Hm Hx Hy Hb Hxs Hys Hs.
  assert (map_find (req_method req) (dispatch_ a) = Some input_mouseClick) as Eh by by rewrite Hm.
  assert (∀ w0, input_mouseClick (B := B) req s o w0 =
    (x ← cast (cast_int (double_of_Z x)); y ← cast (cast_int (double_of_Z y));
     r ← backend (send_mouse_click x y 0); respond (sent_json r)) w0) as Hrun.
  { intros w0. unfold input_mouseClick. by rewrite Hx, Hy, Hb. }
  assert (∀ z, Z.abs z < 2 ^ 53 → cast_int (double_of_Z z) =
    if bool_decide (- 2 ^ 31 ≤ z < 2 ^ 31) then Ok z else Undef) as Hcast.
  { intros z Hz. unfold cast_int. rewrite cast_range_of_Z by lia.
    case_bool_decide; destruct (Z.leb_spec (- 2 ^ 31) z), (Z.ltb_spec z (2 ^ 31)); done || lia. }
  rewrite !Hcast in Hrun by done.
  destruct (decide ((- 2 ^ 31 ≤ x < 2 ^ 31) ∧ (- 2 ^ 31 ≤ y < 2 ^ 31))) as [[Hxr Hyr]|Hout].
  - left. split_and!; [lia..|]. apply (handle_of_handler a req s o w _ _ b' Eh).
    intros w0 Hw0. rewrite Hrun, !bool_decide_eq_true_2 by done.
    unfold mbind, M_bind, cast, lift_result. rewrite backend_eq, Hw0, Hs. eauto.
  - right. split; [done|]. destruct (handle_answers a req s o w) as (w0 & _ & Ha).
    rewrite Eh, Hrun in Ha. unfold mbind, M_bind, cast, lift_result in Ha.
    destruct (bool_decide_reflect (- 2 ^ 31 ≤ x < 2 ^ 31)) as [Hx'|];
      [rewrite bool_decide_eq_false_2 in Ha by (intros Hy'; by apply Hout)|]; by rewrite Ha.
Qed.
End Single.

Definition env_request : CoreRequest := mkCoreRequest "1" "env.get" [].


Lemma daemon_logs_guarded_witness :
  ∃ d w', handle (H0 := test_clock) false (mkCoreRequest "1" "daemon.logs" []) Snapshot_empty None test_world =
    (Ok (set_metric "duration_ms" (num d)
           (set_error "E_ACCESS_DENIED" "admin logs not enabled (use --admin-logs)"
              CoreResponse_default)), w').
Proof. by apply (daemon_logs_guarded (H0 := test_clock)). Defined.

Definition poll_request : CoreRequest :=
  mkCoreRequest "9" "events.poll" [("wait_ms", num 5000)].

Lemma events_poll_spec_witness :
  ∃ d w' shown, handle (H0 := test_clock) false poll_request Snapshot_empty (Some Snapshot_empty) test_world =
    (Ok (set_metric "duration_ms" (num d)
           (set_result (JArr (event_to_json <$> shown)) (set_id "9" CoreResponse_default))), w')
    ∧ w_backend w' = w_backend test_world
    ∧ ∀ i, shown !! i = Event_set_seq (Z.of_nat i + 1) <$> @nil Event !! i.
Proof.
  by apply (events_poll_spec (H0 := test_clock) false poll_request Snapshot_empty Snapshot_empty
              test_world [] _ 5000 100).
Defined.

Definition click_request (x : Z) : CoreRequest :=
  mkCoreRequest "3" "input.mouseClick" [("x", num x); ("y", num 20)].

Lemma mouse_click_bounds_witness :
  (handle (H0 := test_clock) false (click_request 10) Snapshot_empty None test_world).1 ≠ Undef
  ∧ (handle (H0 := test_clock) false (click_request (2 ^ 31)) Snapshot_empty None test_world).1 = Undef.
Proof.
  split.
  - edestruct (mouse_click_bounds (H0 := test_clock) false (click_request 10) Snapshot_empty None
                 test_world 10 20) as [(_ & _ & d & w' & -> & _)|[Hn _]];
      [done|done|done|done|lia|lia|done|done|]. lia.
  - edestruct (mouse_click_bounds (H0 := test_clock) false (click_request (2 ^ 31)) Snapshot_empty None
                 test_world (2 ^ 31) 20) as [(Hx & _)|[_ Hu]];
      [done|done|done|done|lia|lia|done|lia|exact Hu].
Defined.
