(* ===== verification/ServerState.v ===== *)
(** [daemon/src/server_state.hpp] and the operations on it that the pipe and
    the TCP server make under its lock ([server.cpp], [tcp_server.cpp]):
    snapshots with their least-recently-used order and pins, and persistent
    sessions. *)

From S2P Require Import Prelude CString Types Backend.

Local Open Scope Z_scope.

(** * State *)

Record PersistentSession := mkPersistentSession {
  ps_last_snap_id : string;
  ps_subscribed : bool;
  ps_last_activity : Z }.

(** A value-initialised session, what [sessions[k]] makes when [k] is new. *)
Definition PersistentSession_default : PersistentSession := mkPersistentSession EmptyString false 0.

(** The limits, set once at start, in the order of the source. *)
Record Limits := mkLimits {
  max_event_log : Z;
  max_snapshots : Z;
  max_sessions : Z;
  max_mem_read_size : Z;
  uia_depth : Z;
  service_timeout_sec : Z;
  max_connections : Z;
  session_ttl_sec : Z;
  request_timeout_ms : Z;
  poll_interval_ms : Z;
  max_wait_ms : Z;
  discovery_port : Z }.

Definition Limits_default : Limits :=
  mkLimits 1000 1000 256 (1024 * 1024) 5 30 32 3600 5000 100 30000 1986.

(** The same with another number of snapshots. *)
Definition with_max_snapshots (n : Z) (l : Limits) : Limits :=
  mkLimits (max_event_log l) n (max_sessions l) (max_mem_read_size l) (uia_depth l) (service_timeout_sec l)
    (max_connections l) (session_ttl_sec l) (request_timeout_ms l) (poll_interval_ms l) (max_wait_ms l)
    (discovery_port l).

(** The fields but for the locks, the threads, and [event_log] and
    [event_counter], which nothing uses. *)
Record ServerState := mkServerState {
  snap_counter : Z;
  snaps : gmap string Snapshot;
  pinned_counts : gmap string Z;
  lru_order : list string;
  sessions : gmap string PersistentSession;
  active_connections : Z;
  limits : Limits }.

Definition ServerState_init (lim : Limits) : ServerState := mkServerState 1 ∅ ∅ [] ∅ 0 lim.

Record ClientSession := mkClientSession {
  cs_id : SessionID;
  cs_authenticated : bool;
  cs_last_snap_id : string;
  cs_subscribed : bool }.

Definition ClientSession_default : ClientSession :=
  mkClientSession (mkSessionID EmptyString) false EmptyString false.

Definition with_snaps (sn : gmap string Snapshot) (p : gmap string Z) (l : list string) (st : ServerState) : ServerState :=
  mkServerState (snap_counter st) sn p l (sessions st) (active_connections st) (limits st).
Definition with_pins (p : gmap string Z) (st : ServerState) : ServerState :=
  with_snaps (snaps st) p (lru_order st) st.
Definition with_sessions (s : gmap string PersistentSession) (st : ServerState) : ServerState :=
  mkServerState (snap_counter st) (snaps st) (pinned_counts st) (lru_order st) s (active_connections st) (limits st).
Definition with_connections (n : Z) (st : ServerState) : ServerState :=
  mkServerState (snap_counter st) (snaps st) (pinned_counts st) (lru_order st) (sessions st) n (limits st).

(** * Snapshots *)

Definition make_snap_id (n : Z) : string := "s-" +:+ Z_to_string n.

(** [sid = make_snap_id(st->snap_counter++); st->snaps.emplace(sid, s);
    st->lru_order.push_back(sid)]. *)
Definition store_snapshot (s : Snapshot) (st : ServerState) : string * ServerState :=
  let sid := make_snap_id (snap_counter st) in
  let sn := match snaps st !! sid with Some _ => snaps st | None => <[sid := s]> (snaps st) end in
  (sid, mkServerState ((snap_counter st + 1) mod 2 ^ 64) sn (pinned_counts st)
          (lru_order st ++ [sid]) (sessions st) (active_connections st) (limits st)).

(** [st->pinned_counts[sid]], which makes a zero entry when there is none. *)
Definition pin_count (sid : string) (st : ServerState) : Z := default 0 (pinned_counts st !! sid).

(** One turn of the eviction loop: the oldest goes to the back when it is
    pinned, and is dropped otherwise. *)
Definition evict_step (oldest : string) (rest : list string) (st : ServerState) : ServerState :=
  if 0 <? pin_count oldest st
  then with_snaps (snaps st) (<[oldest := pin_count oldest st]> (pinned_counts st)) (rest ++ [oldest]) st
  else with_snaps (delete oldest (snaps st)) (delete oldest (pinned_counts st)) rest st.

(** [while (st->lru_order.size() > st->max_snapshots) ...]. *)
Fixpoint evict_loop (fuel : nat) (st : ServerState) : result ServerState :=
  if Z.of_nat (length (lru_order st)) <=? max_snapshots (limits st) then Ok st else
  match fuel, lru_order st with
  | O, _ => OutOfFuel
  | S fuel, oldest :: rest => evict_loop fuel (evict_step oldest rest st)
  | S _, [] => Undef
  end.

(** One turn per snapshot is enough whenever the loop ends at all
    ([evict_lru], [evict_livelock]). *)
Definition evict (st : ServerState) : result ServerState := evict_loop (length (lru_order st)) st.

(** [st->pinned_counts[sid]++] and [--]. *)
Definition pin (sid : string) (st : ServerState) : ServerState :=
  with_pins (<[sid := pin_count sid st + 1]> (pinned_counts st)) st.
Definition unpin (sid : string) (st : ServerState) : ServerState :=
  with_pins (<[sid := pin_count sid st - 1]> (pinned_counts st)) st.

(** [st->lru_order.remove(sid); st->lru_order.push_back(sid)]. *)
Definition touch_lru (sid : string) (st : ServerState) : ServerState :=
  with_snaps (snaps st) (pinned_counts st)
    (List.filter (λ x, negb (bool_decide (x = sid))) (lru_order st) ++ [sid]) st.

(** * Sessions *)

(** [cleanup_sessions], at the time [now]. *)
Definition cleanup_sessions (now : Z) (st : ServerState) : ServerState :=
  with_sessions
    (filter (λ kv, duration_s (ps_last_activity kv.2) now ≤ session_ttl_sec (limits st)) (sessions st)) st.

(** The request names a session: it is recovered, or made. *)
Definition recover_session (sid : string) (now : Z) (cs : ClientSession) (st : ServerState)
    : ClientSession * ServerState :=
  match sessions st !! sid with
  | Some ps =>
      (mkClientSession (mkSessionID sid) (cs_authenticated cs) (ps_last_snap_id ps) (ps_subscribed ps),
       with_sessions (<[sid := mkPersistentSession (ps_last_snap_id ps) (ps_subscribed ps) now]>
                        (sessions st)) st)
  | None =>
      (mkClientSession (mkSessionID sid) (cs_authenticated cs) (cs_last_snap_id cs) (cs_subscribed cs),
       with_sessions (<[sid := mkPersistentSession EmptyString false now]> (sessions st)) st)
  end.

(** A change of [st->sessions[k]], made when it is not there. *)
Definition update_session (k : string) (f : PersistentSession → PersistentSession) (st : ServerState)
    : ServerState :=
  with_sessions (<[k := f (default PersistentSession_default (sessions st !! k))]> (sessions st)) st.

Definition ps_set_snap (sid : string) (ps : PersistentSession) : PersistentSession :=
  mkPersistentSession sid (ps_subscribed ps) (ps_last_activity ps).
Definition ps_set_subscribed (b : bool) (ps : PersistentSession) : PersistentSession :=
  mkPersistentSession (ps_last_snap_id ps) b (ps_last_activity ps).

(** [events.subscribe] on the state. *)
Definition subscribe_state (s : Snapshot) (cs : ClientSession) (st : ServerState)
    : string * (ClientSession * ServerState) :=
  let '(sid, st) := store_snapshot s st in
  let cs := mkClientSession (cs_id cs) (cs_authenticated cs) sid true in
  (sid, (cs, if negb (SessionID_empty (cs_id cs))
             then update_session (sid_val (cs_id cs)) (λ ps, ps_set_snap sid (ps_set_subscribed true ps)) st
             else st)).

(** [events.unsubscribe] on the state. *)
Definition unsubscribe_state (cs : ClientSession) (st : ServerState) : ClientSession * ServerState :=
  (mkClientSession (cs_id cs) (cs_authenticated cs) EmptyString false,
   if negb (SessionID_empty (cs_id cs)) then
     match sessions st !! sid_val (cs_id cs) with
     | Some _ => update_session (sid_val (cs_id cs)) (λ ps, ps_set_snap EmptyString (ps_set_subscribed false ps)) st
     | None => st
     end
   else st).

(** [session.terminate] on the state. *)
Definition terminate_state (cs : ClientSession) (st : ServerState) : ClientSession * ServerState :=
  if negb (SessionID_empty (cs_id cs)) then
    (mkClientSession (mkSessionID EmptyString) (cs_authenticated cs) (cs_last_snap_id cs) (cs_subscribed cs),
     with_sessions (delete (sid_val (cs_id cs)) (sessions st)) st)
  else (cs, st).

(** After a poll that succeeded: the fresh snapshot is the next base. *)
Definition advance_state (s : Snapshot) (cs : ClientSession) (st : ServerState) : ClientSession * ServerState :=
  let '(sid, st) := store_snapshot s st in
  (mkClientSession (cs_id cs) (cs_authenticated cs) sid (cs_subscribed cs),
   if negb (SessionID_empty (cs_id cs)) then update_session (sid_val (cs_id cs)) (ps_set_snap sid) st else st).
