(* ===== verification/ServerStateProps.v ===== *)
(** Properties of the server state: the invariant that every operation keeps,
    what the eviction loop evicts and when it does not end, pins, sessions. *)

From S2P Require Import Prelude CString Types Backend ServerState.

Local Open Scope Z_scope.

(** * Eviction *)

Definition pinnedb (st : ServerState) (sid : string) : bool := 0 <? pin_count sid st.

(** The snapshots that may go, oldest first, and how many are too many. *)
Definition evictable (st : ServerState) (l : list string) : list string :=
  List.filter (λ s, negb (pinnedb st s)) l.
Definition excess (st : ServerState) : nat :=
  Z.to_nat (Z.of_nat (length (lru_order st)) - max_snapshots (limits st)).

(** The ones that eviction takes: the oldest that are not pinned. *)
Definition victims (st : ServerState) : list string :=
  take (excess st) (evictable st (lru_order st)).

(** [st'] is [st] without the snapshots [vs]. *)
Record evicted (vs : list string) (st st' : ServerState) : Prop := {
  ev_lru : lru_order st ≡ₚ vs ++ lru_order st';
  ev_snaps : snaps st' = foldr delete (snaps st) vs;
  ev_pins : ∀ s, s ∉ vs → pin_count s st' = pin_count s st;
  ev_dom : dom (pinned_counts st') ⊆ dom (pinned_counts st) ∪ list_to_set (lru_order st);
  ev_counter : snap_counter st' = snap_counter st;
  ev_sessions : sessions st' = sessions st;
  ev_connections : active_connections st' = active_connections st;
  ev_limits : limits st' = limits st }.

Lemma pin_count_insert st s s' p l sn :
  pin_count s' (with_snaps sn (<[s := p]> (pinned_counts st)) l st)
  = if bool_decide (s' = s) then p else pin_count s' st.
Proof.
  unfold pin_count. cbn. case_bool_decide as E; [by rewrite E, lookup_insert_eq|].
  by rewrite lookup_insert_ne by congruence.
Qed.

Lemma evict_step_pins oldest rest st s :
  s ≠ oldest → pin_count s (evict_step oldest rest st) = pin_count s st.
Proof.
  intros Hne. unfold evict_step. destruct (0 <? pin_count oldest st).
  - rewrite pin_count_insert. by rewrite bool_decide_eq_false_2.
  - unfold pin_count. cbn. by rewrite lookup_delete_ne by congruence.
Qed.

Lemma evictable_step oldest rest st l :
  oldest ∉ l → evictable (evict_step oldest rest st) l = evictable st l.
Proof.
  intros Hni. unfold evictable. induction l as [|x l IH]; [done|].
  apply not_elem_of_cons in Hni as [Hne Hni]. cbn.
  assert (pinnedb (evict_step oldest rest st) x = pinnedb st x) as ->
    by (unfold pinnedb; by rewrite evict_step_pins).
  by rewrite IH.
Qed.

Lemma evict_step_limits oldest rest st : limits (evict_step oldest rest st) = limits st.
Proof. unfold evict_step. by destruct (0 <? _). Qed.

Lemma evicted_refl st : evicted [] st st.
Proof. split; try done. set_solver. Qed.

Lemma evicted_pinned oldest rest st vs st' :
  lru_order st = oldest :: rest → pinnedb st oldest = true →
  evicted vs (evict_step oldest rest st) st' → evicted vs st st'.
Proof.
  unfold pinnedb. intros Hl Hp [H1 H2 H3 H4 H5 H6 H7 H8]. unfold evict_step in *. rewrite Hp in *.
  split; try done.
  - rewrite Hl, <-H1. cbn. by rewrite Permutation_app_comm.
  - intros s Hs. rewrite H3 by done. rewrite pin_count_insert. by case_bool_decide as E; [subst|].
  - cbn in H4. rewrite Hl. rewrite H4. rewrite dom_insert. cbn.
    rewrite list_to_set_app. cbn. set_solver.
Qed.

Lemma evicted_dropped oldest rest st vs st' :
  lru_order st = oldest :: rest → pinnedb st oldest = false →
  evicted vs (evict_step oldest rest st) st' → evicted (oldest :: vs) st st'.
Proof.
  unfold pinnedb. intros Hl Hp [H1 H2 H3 H4 H5 H6 H7 H8]. unfold evict_step in *. rewrite Hp in *.
  split; try done.
  - rewrite Hl, H1. done.
  - rewrite H2. cbn. clear. induction vs as [|v vs IH]; [done|]. cbn. rewrite IH. apply delete_delete.
  - intros s [Hne Hs]%not_elem_of_cons. rewrite H3 by done. unfold pin_count. cbn.
    by rewrite lookup_delete_ne by congruence.
  - cbn in H4. rewrite H4, Hl. rewrite dom_delete. cbn. set_solver.
Qed.

(** One pass over the list: the pinned ones met go to the back. *)
Lemma evict_pass todo back st :
  lru_order st = todo ++ back → NoDup (todo ++ back) →
  match evict_loop (length todo) st with
  | Ok st' => (excess st ≤ length (evictable st todo))%nat
              ∧ evicted (take (excess st) (evictable st todo)) st st'
  | OutOfFuel => (length (evictable st todo) < excess st)%nat
  | _ => False
  end.
Proof.
  revert back st. induction todo as [|x todo IH]; intros back st Hl Hnd; unfold excess in *.
  - cbn. rewrite Hl. destruct (Z.leb_spec (Z.of_nat (length ([] ++ back))) (max_snapshots (limits st)));
      [|cbn in *; lia].
    replace (Z.to_nat (_ - _)) with 0%nat by lia. split; [lia|apply evicted_refl].
  - cbn [length evict_loop]. rewrite Hl.
    destruct (Z.leb_spec (Z.of_nat (length ((x :: todo) ++ back))) (max_snapshots (limits st))) as [Hle|Hgt].
    { replace (Z.to_nat (_ - _)) with 0%nat by lia. split; [lia|apply evicted_refl]. }
    cbn [app]. cbn [app] in Hnd. apply NoDup_cons in Hnd as [Hx Hnd].
    assert (x ∉ todo) as Hxt by (intros ?; apply Hx, elem_of_app; by left).
    pose proof (evictable_step x (todo ++ back) st todo Hxt) as Hev.
    destruct (pinnedb st x) eqn:Hp.
    + assert (lru_order (evict_step x (todo ++ back) st) = todo ++ (back ++ [x])) as Hl'.
      { unfold evict_step. unfold pinnedb in Hp. rewrite Hp. cbn. by rewrite app_assoc. }
      specialize (IH (back ++ [x]) (evict_step x (todo ++ back) st) Hl').
      rewrite evict_step_limits, Hl', Hev in IH.
      replace (length (todo ++ back ++ [x])) with (length ((x :: todo) ++ back)) in IH
        by (rewrite !length_app; simpl; lia).
      assert (evictable st (x :: todo) = evictable st todo) as -> by (cbn; by rewrite Hp).
      destruct (evict_loop (length todo) _) as [st'| | |];
        try (apply IH; rewrite app_assoc; apply NoDup_app; split_and!; [done| |apply NoDup_singleton];
             intros y Hy ->%list_elem_of_singleton; done).
      assert (NoDup (todo ++ back ++ [x])) as Hnd'.
      { rewrite app_assoc. apply NoDup_app; split_and!; [done| |apply NoDup_singleton].
        intros y Hy ->%list_elem_of_singleton; done. }
      destruct (IH Hnd') as [H1 H2]. split; [done|]. eapply evicted_pinned; [exact Hl|done|exact H2].
    + assert (lru_order (evict_step x (todo ++ back) st) = todo ++ back) as Hl'.
      { unfold evict_step. unfold pinnedb in Hp. by rewrite Hp. }
      specialize (IH back (evict_step x (todo ++ back) st) Hl' Hnd).
      rewrite evict_step_limits, Hl', Hev in IH.
      assert (evictable st (x :: todo) = x :: evictable st todo) as -> by (cbn; by rewrite Hp).
      cbn [length app] in *.
      replace (Z.to_nat (Z.of_nat (S (length (todo ++ back))) - max_snapshots (limits st)))
        with (S (Z.to_nat (Z.of_nat (length (todo ++ back)) - max_snapshots (limits st)))) by lia.
      destruct (evict_loop (length todo) _) as [st'| | |]; try done; [|cbn; lia].
      destruct IH as [H1 H2]. split; [cbn; lia|]. cbn [take].
      eapply evicted_dropped; [exact Hl|done|exact H2].
Qed.

Lemma filter_split {A} (f : A → bool) l :
  (length l = length (List.filter f l) + length (List.filter (λ x, negb (f x)) l))%nat.
Proof. induction l as [|x l IH]; [done|]. cbn. destruct (f x); cbn; lia. Qed.

(** How many snapshots are held by requests in progress. *)
Definition n_pinned (st : ServerState) : nat := length (List.filter (pinnedb st) (lru_order st)).

Lemma evict_ok st :
  NoDup (lru_order st) → Z.of_nat (n_pinned st) ≤ max_snapshots (limits st) →
  ∃ st', evict st = Ok st' ∧ evicted (victims st) st st'.
Proof.
  intros Hnd Hp. pose proof (evict_pass (lru_order st) [] st) as Hpass. rewrite app_nil_r in Hpass.
  specialize (Hpass eq_refl Hnd). unfold evict.
  pose proof (filter_split (pinnedb st) (lru_order st)) as Hsplit.
  unfold n_pinned in Hp. unfold evictable, excess in Hpass. unfold victims, evictable, excess.
  destruct (evict_loop _ st) as [st'| | |]; [|done|done|lia]. exists st'. by destruct Hpass.
Qed.

Lemma victims_length st :
  Z.of_nat (n_pinned st) ≤ max_snapshots (limits st) → length (victims st) = excess st.
Proof.
  intros Hp. unfold victims. rewrite length_take. pose proof (filter_split (pinnedb st) (lru_order st)).
  unfold n_pinned, evictable, excess in *. lia.
Qed.

Lemma victims_unpinned st s : s ∈ victims st → s ∈ lru_order st ∧ pinnedb st s = false.
Proof.
  unfold victims, evictable. intros Hs%subseteq_take. apply list_elem_of_In, List.filter_In in Hs as [Hin Hp].
  split; [by apply list_elem_of_In|]. by apply negb_true_iff.
Qed.


Lemma n_pinned_step x rest st :
  lru_order st = x :: rest → NoDup (x :: rest) → n_pinned (evict_step x rest st) = n_pinned st.
Proof.
  intros Hl [Hx Hnd]%NoDup_cons. unfold n_pinned. rewrite Hl.
  assert (∀ l, x ∉ l → List.filter (pinnedb (evict_step x rest st)) l = List.filter (pinnedb st) l) as Hf.
  { induction l as [|y l IH]; [done|]. intros [Hne Hni]%not_elem_of_cons. cbn. rewrite IH by done.
    unfold pinnedb. by rewrite evict_step_pins. }
  cbn [List.filter]. destruct (pinnedb st x) eqn:Hp.
  - assert (pinnedb (evict_step x rest st) x = true) as Hp'.
    { unfold pinnedb, evict_step in *. rewrite Hp, pin_count_insert.
      by rewrite bool_decide_eq_true_2. }
    assert (lru_order (evict_step x rest st) = rest ++ [x]) as ->.
    { unfold pinnedb, evict_step in *. by rewrite Hp. }
    rewrite List.filter_app, Hf by done. cbn. rewrite Hp', length_app. cbn. lia.
  - assert (lru_order (evict_step x rest st) = rest) as ->.
    { unfold pinnedb, evict_step in *. by rewrite Hp. }
    by rewrite Hf.
Qed.

Lemma evict_step_NoDup x rest st :
  lru_order st = x :: rest → NoDup (x :: rest) → NoDup (lru_order (evict_step x rest st)).
Proof.
  intros Hl [Hx Hnd]%NoDup_cons. unfold evict_step. destruct (0 <? _); cbn; [|done].
  apply NoDup_app. split_and!; [done| |apply NoDup_singleton].
  intros y Hy ->%list_elem_of_singleton. done.
Qed.

(** The loop only moves the pinned ones round. *)
Lemma evict_never_ends st :
  NoDup (lru_order st) → 0 ≤ max_snapshots (limits st) < Z.of_nat (n_pinned st) →
  ∀ fuel, evict_loop fuel st = OutOfFuel.
Proof.
  intros Hnd Hp fuel. revert st Hnd Hp. induction fuel as [|fuel IH]; intros st Hnd Hp;
    cbn [evict_loop].
  all: assert ((Z.of_nat (length (lru_order st)) <=? max_snapshots (limits st)) = false) as ->
    by (apply Z.leb_gt; pose proof (filter_split (pinnedb st) (lru_order st)) as Hs;
        unfold n_pinned in Hp; lia).
  - done.
  - destruct (lru_order st) as [|x rest] eqn:Hl; [unfold n_pinned in Hp; rewrite Hl in Hp; cbn in Hp; lia|].
    apply IH; [by apply evict_step_NoDup|]. by rewrite n_pinned_step, evict_step_limits.
Qed.

(** When more snapshots are pinned than [max_snapshots] allows, the
    eviction loop never ends, however long it runs: the request that captures a
    snapshot holds the server's lock forever. *)
Theorem evict_livelock st :
  NoDup (lru_order st) → 0 ≤ max_snapshots (limits st) < Z.of_nat (n_pinned st) →
  ∀ fuel, evict_loop fuel st = OutOfFuel.
Proof. apply evict_never_ends. Qed.

(** * The invariant *)

Lemma print_base_inj m n : 0 ≤ m → 0 ≤ n → print_base 10 m = print_base 10 n → m = n.
Proof.
  intros Hm Hn E.
  pose proof (read_print_base dec_digit 10 m EmptyString dec_digit_char ltac:(lia) Hm eq_refl) as H1.
  pose proof (read_print_base dec_digit 10 n EmptyString dec_digit_char ltac:(lia) Hn eq_refl) as H2.
  rewrite E, H2 in H1. by injection H1 as ->.
Qed.

Lemma make_snap_id_inj m n : 0 ≤ m → 0 ≤ n → make_snap_id m = make_snap_id n → m = n.
Proof.
  intros Hm Hn. unfold make_snap_id, Z_to_string.
  rewrite (proj2 (Z.ltb_ge m 0)), (proj2 (Z.ltb_ge n 0)) by lia.
  intros [= E]. by apply print_base_inj.
Qed.

(** A snapshot id that has been given out. *)
Definition issued (st : ServerState) (sid : string) : Prop :=
  ∃ k, 1 ≤ k < snap_counter st ∧ sid = make_snap_id k.

(** The order lists the stored snapshots, each once; ids in the maps have been
    given out. *)
Record state_ok (st : ServerState) : Prop := {
  so_nodup : NoDup (lru_order st);
  so_lru : ∀ sid, sid ∈ lru_order st ↔ is_Some (snaps st !! sid);
  so_snaps : ∀ sid, is_Some (snaps st !! sid) → issued st sid;
  so_pins : ∀ sid, is_Some (pinned_counts st !! sid) → issued st sid;
  so_counter : 1 ≤ snap_counter st < 2 ^ 64 }.

Lemma fresh_not_issued st : state_ok st → ¬ issued st (make_snap_id (snap_counter st)).
Proof.
  intros Hok (k & Hk & E). apply make_snap_id_inj in E; [|destruct Hok; lia|lia]. lia.
Qed.

Lemma init_ok lim : state_ok (ServerState_init lim).
Proof.
  split; cbn; try apply NoDup_nil_2; try (intros sid; rewrite lookup_empty; by intros []).
  - intros sid. rewrite lookup_empty, elem_of_nil. split; [done|by intros []].
  - lia.
Qed.

(** The id that [store_snapshot] gives is new, and finds the snapshot. *)
Lemma store_snapshot_spec s st :
  state_ok st → snap_counter st + 1 < 2 ^ 64 →
  let '(sid, st') := store_snapshot s st in
  snaps st !! sid = None ∧ pinned_counts st !! sid = None ∧ sid ≠ EmptyString
  ∧ snaps st' = <[sid := s]> (snaps st) ∧ state_ok st'.
Proof.
  intros Hok Hc. unfold store_snapshot. set (sid := make_snap_id (snap_counter st)).
  pose proof (fresh_not_issued st Hok) as Hf. fold sid in Hf.
  assert (snaps st !! sid = None) as Hs.
  { destruct (snaps st !! sid) eqn:E; [|done]. exfalso. apply Hf, (so_snaps st Hok). eauto. }
  assert (pinned_counts st !! sid = None) as Hp.
  { destruct (pinned_counts st !! sid) eqn:E; [|done]. exfalso. apply Hf, (so_pins st Hok). eauto. }
  rewrite Hs. split_and!; [done|done|done|done|].
  destruct Hok as [Hnd Hl Hsn Hpi Hco].
  assert (∀ x, issued st x → ∃ k, 1 ≤ k < (snap_counter st + 1) mod 2 ^ 64 ∧ x = make_snap_id k) as Hup.
  { intros x (k & Hk & ->). exists k. rewrite Z.mod_small by lia. split; [lia|done]. }
  split; cbn; unfold issued; cbn.
  - apply NoDup_app. split_and!; [done| |apply NoDup_singleton].
    intros x Hx ->%list_elem_of_singleton. apply Hl in Hx. rewrite Hs in Hx. by destruct Hx.
  - intros x. rewrite elem_of_app, Hl, list_elem_of_singleton.
    destruct (decide (x = sid)) as [->|Hne].
    + rewrite lookup_insert_eq. split; [by eauto|by right].
    + rewrite lookup_insert_ne by done. naive_solver.
  - intros x. destruct (decide (x = sid)) as [->|Hne].
    + intros _. exists (snap_counter st). rewrite Z.mod_small by lia. split; [lia|done].
    + rewrite lookup_insert_ne by done. auto.
  - auto.
  - rewrite Z.mod_small by lia. lia.
Qed.

(** The invariant says nothing of sessions and connections. *)
Lemma with_sessions_ok ss st : state_ok st → state_ok (with_sessions ss st).
Proof. by intros []. Qed.
Lemma with_connections_ok n st : state_ok st → state_ok (with_connections n st).
Proof. by intros []. Qed.
Lemma update_session_ok k f st : state_ok st → state_ok (update_session k f st).
Proof. apply with_sessions_ok. Qed.

Lemma with_pins_ok sid p st : state_ok st → issued st sid → state_ok (with_pins (<[sid := p]> (pinned_counts st)) st).
Proof.
  intros [H1 H2 H3 H4 H5] Hi. split; try done. cbn. intros x.
  destruct (decide (x = sid)) as [->|Hne]; [done|]. rewrite lookup_insert_ne by done. apply H4.
Qed.

Lemma pin_ok sid st : state_ok st → is_Some (snaps st !! sid) → state_ok (pin sid st).
Proof. intros Hok Hs. apply with_pins_ok; [done|]. by apply (so_snaps st Hok). Qed.
Lemma unpin_ok sid st : state_ok st → issued st sid → state_ok (unpin sid st).
Proof. apply with_pins_ok. Qed.

Lemma touch_lru_ok sid st : state_ok st → is_Some (snaps st !! sid) → state_ok (touch_lru sid st).
Proof.
  intros [H1 H2 H3 H4 H5] Hs. split; try done; cbn.
  - apply NoDup_app. split_and!; [|intros x Hx Hx'|apply NoDup_singleton].
    + clear -H1. induction H1 as [|x l Hx Hnd IH]; cbn; [constructor|].
      case_match; [|done]. constructor; [|done]. intros Hin. apply Hx.
      apply list_elem_of_In in Hin. apply List.filter_In in Hin as [Hin _]. by apply list_elem_of_In.
    + apply list_elem_of_singleton in Hx' as ->. apply list_elem_of_In, List.filter_In in Hx as [_ Hx].
      by rewrite bool_decide_eq_true_2 in Hx.
  - intros x. rewrite elem_of_app, list_elem_of_singleton, <-H2.
    rewrite !list_elem_of_In, List.filter_In. rewrite negb_true_iff, bool_decide_eq_false.
    destruct (decide (x = sid)) as [->|Hne]; [|tauto]. rewrite <-list_elem_of_In, H2. tauto.
Qed.

Lemma lookup_foldr_delete {A} (m : gmap string A) vs s :
  foldr delete m vs !! s = if bool_decide (s ∈ vs) then None else m !! s.
Proof.
  induction vs as [|v vs IH]; [done|]. cbn. destruct (decide (s = v)) as [->|Hne].
  - rewrite lookup_delete_eq. rewrite bool_decide_eq_true_2 by left. done.
  - rewrite lookup_delete_ne, IH by congruence.
    case_bool_decide as E1; case_bool_decide as E2; rewrite ?elem_of_cons in *; naive_solver.
Qed.

Lemma evicted_ok vs st st' : evicted vs st st' → state_ok st → state_ok st'.
Proof.
  intros [E1 E2 E3 E4 E5 E6 E7 E8] [H1 H2 H3 H4 H5].
  assert (NoDup (vs ++ lru_order st')) as Hnd by by rewrite <-E1.
  apply NoDup_app in Hnd as (_ & Hdisj & Hnd).
  assert (∀ sid, issued st sid → issued st' sid) as Hi by (unfold issued; by rewrite E5).
  assert (∀ sid, is_Some (snaps st' !! sid) → is_Some (snaps st !! sid)) as Hsub.
  { intros sid. rewrite E2, lookup_foldr_delete. case_bool_decide; [by intros []|done]. }
  split.
  - done.
  - intros sid. rewrite E2, lookup_foldr_delete. case_bool_decide as Hin.
    + split; [|by intros []]. intros Hl. by destruct (Hdisj sid).
    + rewrite <-H2, E1, elem_of_app. tauto.
  - intros sid Hs. apply Hi, H3, Hsub, Hs.
  - intros sid Hs. apply Hi. apply elem_of_dom, E4, elem_of_union in Hs as [Hs|Hs].
    + apply H4. by apply elem_of_dom.
    + apply elem_of_list_to_set, H2 in Hs. by apply H3.
  - by rewrite E5.
Qed.

Lemma evict_state_ok st st' : state_ok st → evict st = Ok st' → state_ok st'.
Proof.
  intros Hok He. unfold evict in He.
  pose proof (evict_pass (lru_order st) [] st) as Hpass. rewrite app_nil_r in Hpass.
  specialize (Hpass eq_refl (so_nodup st Hok)). rewrite He in Hpass. destruct Hpass as [_ Hev].
  by eapply evicted_ok.
Qed.

Lemma evict_counter st st' : state_ok st → evict st = Ok st' → snap_counter st' = snap_counter st.
Proof.
  intros Hok He. unfold evict in He.
  pose proof (evict_pass (lru_order st) [] st) as Hpass. rewrite app_nil_r in Hpass.
  specialize (Hpass eq_refl (so_nodup st Hok)). rewrite He in Hpass. by destruct Hpass as [_ []].
Qed.

(** Eviction raises no pin. *)
Lemma evict_loop_pins fuel st st' s :
  evict_loop fuel st = Ok st' → pin_count s st' ≤ Z.max 0 (pin_count s st).
Proof.
  revert st. induction fuel as [|fuel IH]; intros st; cbn [evict_loop]; case_match; try done; try (intros [= <-]; lia).
  destruct (lru_order st) as [|x rest]; [done|]. intros Hst'%IH. destruct (decide (s = x)) as [->|Hne].
  - unfold evict_step in Hst'. destruct (0 <? pin_count x st) eqn:Hp.
    + by rewrite pin_count_insert, bool_decide_eq_true_2 in Hst'.
    + unfold pin_count at 2 in Hst'. cbn in Hst'. rewrite lookup_delete_eq in Hst'. cbn in Hst'. lia.
  - by rewrite evict_step_pins in Hst'.
Qed.

(** Pins on snapshots of a list, and one more. *)
Lemma n_pinned_le st l p :
  state_ok st → (∀ s, s ∉ l → pinnedb st s = true → s = p) → (n_pinned st ≤ S (length l))%nat.
Proof.
  intros Hok Hl. change (S (length l)) with (length (p :: l)). unfold n_pinned.
  apply submseteq_length, NoDup_submseteq.
  - apply NoDup_ListNoDup, List.NoDup_filter, NoDup_ListNoDup, Hok.
  - intros s [_ Hs]%list_elem_of_In%List.filter_In. apply elem_of_cons.
    destruct (decide (s ∈ l)); [by right|left; auto].
Qed.

(** Eviction with distinct snapshots returns or does not end. *)
Lemma evict_cases st : state_ok st → (∃ st', evict st = Ok st' ∧ state_ok st') ∨ evict st = OutOfFuel.
Proof.
  intros Hok. pose proof (evict_pass (lru_order st) [] st) as Hpass. rewrite app_nil_r in Hpass.
  specialize (Hpass eq_refl (so_nodup st Hok)). unfold evict in *.
  destruct (evict_loop _ st) as [st'| | |] eqn:E; try done; [|by right].
  left. exists st'. split; [done|]. by eapply evict_state_ok.
Qed.

Lemma store_snapshot_ok s st :
  state_ok st → snap_counter st + 1 < 2 ^ 64 → state_ok (store_snapshot s st).2.
Proof. intros Hok Hc. pose proof (store_snapshot_spec s st Hok Hc) as H. destruct (store_snapshot s st). cbn. tauto. Qed.

(** Snapshot ids are never reused: storing a snapshot gives an id that no
    stored or pinned snapshot has, under which that snapshot is then found,
    and keeps the invariant of the store (the order lists exactly the stored
    ids, each once), as long as the 64-bit counter has not run out. *)
Theorem store_snapshot_fresh s st :
  state_ok st → snap_counter st + 1 < 2 ^ 64 →
  let '(sid, st') := store_snapshot s st in
  snaps st !! sid = None ∧ pinned_counts st !! sid = None
  ∧ snaps st' = <[sid := s]> (snaps st) ∧ state_ok st'.
Proof.
  intros Hok Hc. pose proof (store_snapshot_spec s st Hok Hc) as H.
  destruct (store_snapshot s st). tauto.
Qed.

Lemma store_snapshot_fresh_witness :
  let '(sid, st') := store_snapshot (mkSnapshot [1]) (ServerState_init Limits_default) in
  sid = "s-1" ∧ state_ok st'.
Proof.
  pose proof (store_snapshot_fresh (mkSnapshot [1]) (ServerState_init Limits_default)
                (init_ok Limits_default) ltac:(cbn; lia)) as H.
  destruct (store_snapshot _ _) as [sid st'] eqn:E. destruct H as (_ & _ & _ & H).
  split; [|exact H]. vm_compute in E. by injection E as <- _.
Defined.

Lemma pinnedb_stored s st x :
  pinnedb (store_snapshot s st).2 x = pinnedb st x.
Proof. done. Qed.

Lemma filter_pinned_stored s st l :
  List.filter (pinnedb (store_snapshot s st).2) l = List.filter (pinnedb st) l.
Proof. induction l as [|x l IH]; [done|]. cbn [List.filter]. by rewrite pinnedb_stored, IH. Qed.

Lemma evictable_stored s st l : evictable (store_snapshot s st).2 l = evictable st l.
Proof.
  unfold evictable. induction l as [|x l IH]; [done|]. cbn [List.filter]. by rewrite pinnedb_stored, IH.
Qed.

Lemma stored_survives s st :
  state_ok st → snap_counter st + 1 < 2 ^ 64 → Z.of_nat (n_pinned st) < max_snapshots (limits st) →
  let '(sid, st1) := store_snapshot s st in
  ∃ st2, evict st1 = Ok st2 ∧ snaps st2 !! sid = Some s ∧ state_ok st2
         ∧ Z.of_nat (length (lru_order st2)) ≤ max_snapshots (limits st).
Proof.
  intros Hok Hc Hp. pose proof (store_snapshot_spec s st Hok Hc) as Hspec.
  destruct (store_snapshot s st) as [sid st1] eqn:Est. destruct Hspec as (Hs & Hpi & _ & Hs1 & Hok1).
  assert (st1 = (store_snapshot s st).2) as E1 by by rewrite Est.
  assert (lru_order st1 = lru_order st ++ [sid]) as Hl.
  { unfold store_snapshot in Est. by injection Est as <- <-. }
  assert (limits st1 = limits st) as Hlim by by rewrite E1.
  assert (pinnedb st sid = false) as Hns by (unfold pinnedb, pin_count; by rewrite Hpi).
  assert (n_pinned st1 = n_pinned st) as Hn.
  { unfold n_pinned. rewrite Hl, List.filter_app, length_app. cbn. rewrite E1 at 2.
    rewrite pinnedb_stored, Hns. cbn. rewrite E1, filter_pinned_stored. lia. }
  destruct (evict_ok st1 (so_nodup _ Hok1)) as (st2 & He & Hev); [rewrite Hn, Hlim; lia|].
  exists st2. split; [done|].
  assert (sid ∉ victims st1) as Hnv.
  { unfold victims. rewrite Hl, E1, evictable_stored. unfold evictable. rewrite List.filter_app.
    rewrite take_app_le.
    - intros Hin%subseteq_take. apply list_elem_of_In, List.filter_In in Hin as [Hin _].
      apply list_elem_of_In, (so_lru _ Hok) in Hin. rewrite Hs in Hin. by destruct Hin.
    - unfold excess. rewrite <-E1, Hl, Hlim, length_app. cbn.
      pose proof (filter_split (pinnedb st) (lru_order st)). unfold n_pinned in Hp. lia. }
  split_and!.
  - rewrite (ev_snaps _ _ _ Hev), lookup_foldr_delete, bool_decide_eq_false_2 by done.
    by rewrite Hs1, lookup_insert_eq.
  - by eapply evicted_ok.
  - pose proof (Permutation_length (ev_lru _ _ _ Hev)) as Hlen. rewrite length_app in Hlen.
    rewrite (victims_length st1) in Hlen by (rewrite Hn, Hlim; lia).
    unfold excess in Hlen. rewrite Hlim in Hlen. lia.
Qed.

(** The id that [snapshot.capture] returns can be used: while fewer
    snapshots are pinned than may be kept, the new snapshot is stored under it
    when the eviction loop, which ends, is done, and at most [max_snapshots] are
    kept. *)
Theorem capture_usable s st :
  state_ok st → snap_counter st + 1 < 2 ^ 64 → Z.of_nat (n_pinned st) < max_snapshots (limits st) →
  let '(sid, st1) := store_snapshot s st in
  ∃ st2, evict st1 = Ok st2 ∧ snaps st2 !! sid = Some s ∧ state_ok st2
         ∧ Z.of_nat (length (lru_order st2)) ≤ max_snapshots (limits st).
Proof. apply stored_survives. Qed.

Lemma capture_usable_witness :
  let '(sid, st1) := store_snapshot (mkSnapshot [7]) (ServerState_init Limits_default) in
  ∃ st2, evict st1 = Ok st2 ∧ snaps st2 !! sid = Some (mkSnapshot [7]).
Proof.
  pose proof (capture_usable (mkSnapshot [7]) (ServerState_init Limits_default) (init_ok _)) as Hc.
  destruct (store_snapshot (mkSnapshot [7]) (ServerState_init Limits_default)) as [sid st1].
  destruct Hc as (st2 & He & Hs & _); [by vm_compute|cbn; lia|]. by exists st2.
Defined.

(** * Sessions *)

(** Operations that change nothing but the sessions. *)
Lemma with_sessions_id st : st = with_sessions (sessions st) st.
Proof. by destruct st. Qed.
Lemma recover_session_sessions sid t cs st :
  ∃ ss, (recover_session sid t cs st).2 = with_sessions ss st.
Proof. unfold recover_session. destruct (sessions st !! sid); by eexists. Qed.
Lemma unsubscribe_sessions cs st : ∃ ss, (unsubscribe_state cs st).2 = with_sessions ss st.
Proof.
  unfold unsubscribe_state. cbn.
  destruct (negb _); [destruct (sessions st !! _)|]; eexists; try done; apply with_sessions_id.
Qed.
Lemma terminate_sessions cs st : ∃ ss, (terminate_state cs st).2 = with_sessions ss st.
Proof. unfold terminate_state. destruct (negb _); eexists; try done; apply with_sessions_id. Qed.
#[export] Hint Resolve recover_session_sessions unsubscribe_sessions terminate_sessions : core.

(** [cleanup_sessions] removes exactly the sessions that have been idle for
    more than the time to live, counted in whole seconds, and leaves the others
    and the rest of the state alone. *)
Theorem cleanup_sessions_spec now st k ps :
  sessions (cleanup_sessions now st) !! k = Some ps ↔
  sessions st !! k = Some ps ∧ duration_s (ps_last_activity ps) now ≤ session_ttl_sec (limits st).
Proof. unfold cleanup_sessions. cbn. by rewrite map_lookup_filter_Some. Qed.

Definition two_snapshots : ServerState :=
  mkServerState 4 {["s-1" := mkSnapshot [1]; "s-2" := mkSnapshot [2]; "s-3" := mkSnapshot [3]]}
    {["s-1" := 1]} ["s-1"; "s-2"; "s-3"] ∅ 0 (with_max_snapshots 2 Limits_default).


(** Two requests hold a snapshot each, and only one may be kept. *)
Definition pinned_snapshots : ServerState :=
  mkServerState 4 {["s-1" := mkSnapshot [1]; "s-2" := mkSnapshot [2]; "s-3" := mkSnapshot [3]]}
    {["s-1" := 1; "s-2" := 1]} ["s-1"; "s-2"; "s-3"] ∅ 0 (with_max_snapshots 1 Limits_default).

Lemma evict_livelock_witness : evict_loop (Z.to_nat 1000) pinned_snapshots = OutOfFuel.
Proof. apply evict_livelock; apply (bool_decide_unpack _); by vm_compute. Defined.
