(* ===== verification/Server.v ===== *)
(** [daemon/src/server.cpp]: what a named-pipe connection does with each
    request, from the authentication gate to the answer and the pins, and a
    whole connection.  The phases that the TCP server shares are here too. *)

From S2P Require Import Prelude StdMap CString Double Json Types Logger Backend Core ServerState.

Local Open Scope Z_scope.

(** * The state of a connection *)

(** The process's world and server state, and the variables of
    [handle_client]: [session], [pinned_sid], [resp], [canonical]. *)
Record Conn (B : Type) := mkConn {
  c_world : World B;
  c_st : ServerState;
  c_session : ClientSession;
  c_pinned : string;
  c_resp : CoreResponse;
  c_canonical : bool }.
Arguments mkConn {B} _ _ _ _ _ _.
Arguments c_world {B} _.
Arguments c_st {B} _.
Arguments c_session {B} _.
Arguments c_pinned {B} _.
Arguments c_resp {B} _.
Arguments c_canonical {B} _.

(** Whether [future.wait_for] gives up at a given moment: the scheduler's
    choice. *)
Class Watchdog := { watchdog_fires : nat → bool }.

(** The command-line switches that a connection sees. *)
Record Switches := mkSwitches {
  read_only : bool; require_auth : bool; admin_logs : bool; auth_keys_data : string }.

Section Conn.
Context {B : Type} `{IBackend B} `{Clock} `{Watchdog}.

Abbreviation Act := (M (Conn B)).

Definition set_world (w : World B) (c : Conn B) : Conn B :=
  mkConn w (c_st c) (c_session c) (c_pinned c) (c_resp c) (c_canonical c).
Definition set_st (st : ServerState) (c : Conn B) : Conn B :=
  mkConn (c_world c) st (c_session c) (c_pinned c) (c_resp c) (c_canonical c).
Definition set_session (s : ClientSession) (c : Conn B) : Conn B :=
  mkConn (c_world c) (c_st c) s (c_pinned c) (c_resp c) (c_canonical c).
Definition set_pinned (p : string) (c : Conn B) : Conn B :=
  mkConn (c_world c) (c_st c) (c_session c) p (c_resp c) (c_canonical c).
Definition set_resp (r : CoreResponse) (c : Conn B) : Conn B :=
  mkConn (c_world c) (c_st c) (c_session c) (c_pinned c) r (c_canonical c).
Definition set_canonical (b : bool) (c : Conn B) : Conn B :=
  mkConn (c_world c) (c_st c) (c_session c) (c_pinned c) (c_resp c) b.

Definition in_world {A} (m : M (World B) A) : Act A := zoom c_world set_world m.
Definition on_st (f : ServerState → ServerState) : Act () := modify (λ c, set_st (f (c_st c)) c).
Definition on_resp (f : CoreResponse → CoreResponse) : Act () := modify (λ c, set_resp (f (c_resp c)) c).
(** A change of the session and the state under the lock. *)
Definition on_session (f : ClientSession → ServerState → ClientSession * ServerState) : Act () :=
  modify (λ c, let '(s, st) := f (c_session c) (c_st c) in set_session s (set_st st c)).

(** The same with a value. *)
Definition locked {A} (f : ClientSession → ServerState → A * (ClientSession * ServerState)) : Act A :=
  λ c, let '(a, (s, st)) := f (c_session c) (c_st c) in (Ok a, set_session s (set_st st c)).

(** * Phases of a request *)

(** [params["session_id"]], when it is a string. *)
Definition session_phase (req : CoreRequest) : Act () :=
  match get_str (req_params req) "session_id" with
  | Some sid =>
      known ← gets (λ c, bool_decide (is_Some (sessions (c_st c) !! sid)));
      t ← in_world now;
      _ ← on_session (recover_session sid t);
      in_world (LOG DEBUG ((if known : bool then "Recovered session: " else "Created persistent session: ") +:+ sid))
  | None => mret ()
  end.

Definition subscribe_phase : Act () :=
  s ← in_world (backend capture_snapshot);
  sid ← locked (subscribe_state s);
  on_resp (set_result (obj [("subscribed", JBool true); ("snapshot_id", JStr sid)])).

Definition unsubscribe_phase : Act () :=
  _ ← on_session unsubscribe_state;
  on_resp (set_result (obj [("unsubscribed", JBool true)])).

Definition terminate_phase : Act () :=
  cs ← gets c_session;
  if negb (SessionID_empty (cs_id cs)) then
    _ ← on_session terminate_state;
    in_world (LOG INFO ("Session terminated explicitly: " +:+ sid_val (cs_id cs)))
  else mret ().

(** The methods that [--read-only] refuses. *)
Definition read_only_blocks (method : string) : bool :=
  bool_decide (method = "window.postMessage") || bool_decide (method = "input.send")
  || contains "reg.write" method.

Definition canonical_phase (req : CoreRequest) : Act () :=
  match get_bool (req_params req) "canonical" with
  | Some b => modify (set_canonical b)
  | None => mret ()
  end.

(** The new snapshot is stored, then the store is cut down to its limit. *)
Definition store_and_evict (s : Snapshot) : Act string := λ c,
  let '(sid, st) := store_snapshot s (c_st c) in
  match evict st with
  | Ok st => (Ok sid, set_st st c)
  | Throw w => (Throw w, c)
  | Undef => (Undef, c)
  | OutOfFuel => (OutOfFuel, c)
  end.

Definition capture_phase : Act () :=
  s ← in_world (backend capture_snapshot);
  sid ← store_and_evict s;
  on_resp (set_result (obj [("snapshot_id", JStr sid)])).

(** The snapshot that the request names, pinned, or a fresh one; [None] when it
    names one that is not there.  [use] is what else the server does with a
    named snapshot. *)
Definition snapshot_phase (use : string → ServerState → ServerState) (req : CoreRequest)
    : Act (option Snapshot) :=
  match get_str (req_params req) "snapshot_id" with
  | Some sid =>
      st ← gets c_st;
      match snaps st !! sid with
      | None => mret None
      | Some snap =>
          _ ← modify (set_pinned sid);
          _ ← on_st (λ st, use sid (pin sid st));
          mret (Some snap)
      end
  | None => s ← in_world (backend capture_snapshot); mret (Some s)
  end.

(** The snapshot to compare with: named, or the session's last one for a
    poll. *)
Definition old_snapshot_phase (req : CoreRequest) : Act (option Snapshot) :=
  match get_str (req_params req) "old_snapshot_id" with
  | Some osid => gets (λ c, snaps (c_st c) !! osid)
  | None =>
      gets (λ c,
        if bool_decide (req_method req = "events.poll")
           && negb (is_empty (cs_last_snap_id (c_session c)))
        then snaps (c_st c) !! cs_last_snap_id (c_session c) else None)
  end.

(** [std::async] with [wait_for]: the method runs to its end in either case,
    since the future waits for it when it goes out of scope. *)
Definition core_phase (admin : bool) (timeout_msg : string) (req : CoreRequest)
    (snap : Snapshot) (old : option Snapshot) : Act () :=
  r ← in_world (handle admin req snap old);
  timeout ← gets (λ c, watchdog_fires (w_ticks (c_world c)));
  if timeout : bool then on_resp (set_error "E_TIMEOUT" timeout_msg)
  else on_resp (λ _, r).

(** After a poll that succeeded. *)
Definition advance_phase (req : CoreRequest) : Act () :=
  ok ← gets (λ c, resp_ok (c_resp c));
  if bool_decide (req_method req = "events.poll") && ok then
    s ← in_world (backend capture_snapshot);
    on_session (advance_state s)
  else mret ().

(** * The named-pipe server *)

Section Pipe.
Variable sw : Switches.

(** Everything from the snapshot to the answer of the engine. *)
Definition dispatch_phase (req : CoreRequest) : Act () :=
  snap ← snapshot_phase touch_lru req;
  match snap with
  | None => on_resp (set_error "E_BAD_SNAPSHOT" "unknown or evicted snapshot_id")
  | Some snap =>
      old ← old_snapshot_phase req;
      _ ← core_phase (admin_logs sw) "request timed out in core engine" req snap old;
      advance_phase req
  end.

(** What an authenticated request does. *)
Definition serve (req : CoreRequest) : Act () :=
  _ ← session_phase req;
  if bool_decide (req_method req = "events.subscribe") then subscribe_phase
  else if bool_decide (req_method req = "events.unsubscribe") then unsubscribe_phase
  else
    _ ← (if bool_decide (req_method req = "session.terminate") then terminate_phase else mret ());
    if read_only sw && read_only_blocks (req_method req)
    then on_resp (set_error "E_ACCESS_DENIED" "daemon is running in read-only mode")
    else
      _ ← canonical_phase req;
      if bool_decide (req_method req = "snapshot.capture") then capture_phase
      else dispatch_phase req.

(** The [try] block: a [goto send] is the end of a branch. *)
Definition process (json : string) : Act () :=
  req ← lift_result (parse_request_json json);
  _ ← on_resp (set_id (req_id req));
  cs ← gets c_session;
  if negb (cs_authenticated cs) && negb (bool_decide (req_method req = "hello")) then
    _ ← in_world (LOG WARN ("Unauthorized request attempted: " +:+ req_method req));
    on_resp (set_error "E_UNAUTHORIZED" "authentication required")
  else serve req.

(** The [catch] block. *)
Definition bad_request (what : string) (r : CoreResponse) : CoreResponse :=
  mkCoreResponse (resp_id r) false JNull "E_BAD_REQUEST" what (resp_metrics r).

(** [if (!pinned_sid.empty()) st->pinned_counts[pinned_sid]--]. *)
Definition unpin_phase : Act () :=
  modify (λ c, if negb (is_empty (c_pinned c)) then set_st (unpin (c_pinned c) (c_st c)) c else c).

(** One turn of the loop, for a message that was read: the text sent back. *)
Definition pipe_message (json : string) : Act string :=
  _ ← modify (λ c, set_pinned EmptyString (set_canonical false (set_resp CoreResponse_default c)));
  _ ← try_catch (process json) (λ what, on_resp (bad_request what));
  out ← gets (λ c, serialize_response_json (c_resp c) (c_canonical c));
  _ ← unpin_phase;
  mret out.

Fixpoint pipe_loop (msgs : list string) : Act (list string) :=
  match msgs with
  | [] => mret []
  | json :: msgs => out ← pipe_message json; outs ← pipe_loop msgs; mret (out :: outs)
  end.

(** The start of [handle_client]. *)
Definition pipe_connect : Act () :=
  _ ← modify (λ c, set_pinned EmptyString (set_session ClientSession_default
                     (set_st (with_connections (active_connections (c_st c) + 1) (c_st c)) c)));
  _ ← in_world (LOG INFO "New client connection established.");
  if negb (require_auth sw) && is_empty (auth_keys_data sw) then
    _ ← modify (λ c, set_session (mkClientSession (cs_id (c_session c)) true
                                    (cs_last_snap_id (c_session c)) (cs_subscribed (c_session c))) c);
    in_world (LOG DEBUG "Local auto-auth enabled (no keys, not require-auth).")
  else mret ().

(** Its end: the unpinning after the loop, then the guard's destructor. *)
Definition pipe_disconnect : Act () :=
  _ ← unpin_phase;
  _ ← on_st (λ st, with_connections (active_connections st - 1) st);
  in_world (LOG INFO "Client connection closed.").

(** [handle_client] on a pipe that delivers [msgs] and is then closed. *)
Definition handle_client (msgs : list string) : Act (list string) :=
  _ ← pipe_connect;
  outs ← pipe_loop msgs;
  _ ← pipe_disconnect;
  mret outs.

(** [run_server] takes a connection only below the limit. *)
Definition accepts (st : ServerState) : bool :=
  negb (max_connections (limits st) <=? active_connections st).
End Pipe.
End Conn.
