(* ===== verification/ServerProps.v ===== *)
(** Properties of the named-pipe server: the store's invariant through any
    connection, the authentication gate, read-only mode, pins, snapshots that
    a request names. *)

From S2P Require Import Prelude StdMap CString Double Json JsonTotal Types Logger Backend FakeBackend Core.
From S2P Require Import Hoare CoreProps Live ServerState ServerStateProps Server.

Local Open Scope Z_scope.

(** Reading a request ends and is defined. *)
Lemma parse_request_defined json :
  match parse_request_json json with Undef | OutOfFuel => False | _ => True end.
Proof.
  unfold parse_request_json. pose proof (json_parse_consumes json) as Hp.
  destruct (json_parse json) as [v| | |]; try done. cbn.
  destruct v as [| | | | |o]; cbn; try done.
  by destruct (map_find "id" o) as [[]|], (map_find "method" o) as [[]|], (map_find "params" o) as [[]|].
Qed.

Section Inv.
Context {B : Type} `{LiveBackend B} `{Clock} `{Watchdog}.
(** [floor]: a number that the counter of snapshots has passed; [others]: the
    snapshots that other connections hold; [U]: what undefined behaviour would
    mean. *)
Context (U : Prop) `{!Covers U} (floor : Z) (others : list string).
Implicit Types (c : Conn B).

(** * The invariant of the store *)

(** The most that this connection adds to the pins of [s]. *)
Definition own_pin (p s : string) : Z := if bool_decide (s = p ∧ p ≠ EmptyString) then 1 else 0.

(** The state is well formed, the snapshot that the connection has pinned was
    given out, [n] more snapshots can be numbered, the backend is sound, and
    each snapshot has no more pins than connections that hold it, and what
    the others hold leaves room for one more.  Without [h] the
    connection has pinned nothing. *)
Record conn_ok (h : bool) (n : Z) c : Prop := {
  co_state : state_ok (c_st c);
  co_held : h = false → c_pinned c = EmptyString;
  co_pinned : c_pinned c ≠ EmptyString → issued (c_st c) (c_pinned c);
  co_room : snap_counter (c_st c) + n < 2 ^ 64;
  co_floor : floor ≤ snap_counter (c_st c);
  co_live : live_world (c_world c);
  co_spare : ∀ s, pin_count s (c_st c) ≤ copies s others + own_pin (c_pinned c) s;
  co_limit : Z.of_nat (length others) < max_snapshots (limits (c_st c)) }.

Abbreviation keeps_ok h n m := (lives U (conn_ok h n) m).

Lemma conn_ok_le h n m c : n ≤ m → conn_ok h m c → conn_ok true n c.
Proof. intros Hnm []. split; try done. lia. Qed.

Lemma conn_ok_room h n m c : n ≤ m → conn_ok h m c → conn_ok h n c.
Proof. intros Hnm []. split; try done. lia. Qed.

(** Changes of the response and the session. *)
Lemma conn_ok_st h n c c' :
  c_st c' = c_st c → c_pinned c' = c_pinned c → c_world c' = c_world c → conn_ok h n c → conn_ok h n c'.
Proof. intros E1 E2 E3 []. split; rewrite ?E1, ?E2, ?E3; done. Qed.

(** A change of the state that keeps its invariant, the counter and the
    limits, and raises no pin. *)
Lemma conn_ok_set_st h n st' c :
  conn_ok h n c → state_ok st' → snap_counter st' = snap_counter (c_st c) → limits st' = limits (c_st c) →
  (∀ s, pin_count s st' ≤ copies s others + own_pin (c_pinned c) s) → conn_ok h n (set_st st' c).
Proof.
  intros [? ? Hp ? ? ? ? ?] Hst Hc Hl Hpin. split; cbn; rewrite ?Hl; try done; [|lia..]. intros Hne. specialize (Hp Hne).
  unfold issued in *. by rewrite Hc.
Qed.

Lemma in_world_ok {A} h n (m : M (World B) A) : lives U live_world m → keeps_ok h n (in_world m).
Proof.
  intros Hm. apply (hoare_zoom_inv _ _ _ _ live_world); [done|by intros c []|].
  by intros w c [] Hw.
Qed.

(** Logging never throws. *)
Lemma LOG_triple h n level msg E :
  triple U False (conn_ok h n) (in_world (LOG level msg)) (λ _, conn_ok h n) E.
Proof.
  intros c Hc. pose proof (in_world_ok h n (LOG level msg) (LOG_lives level msg) c Hc) as HL.
  unfold in_world, zoom, LOG in *. by destruct (should_log _ _).
Qed.

Lemma LOG_ok h n level msg : keeps_ok h n (in_world (LOG level msg)).
Proof. apply LOG_triple. Qed.

Lemma capture_ok h n : keeps_ok h n (in_world (backend capture_snapshot)).
Proof. apply in_world_ok, backend_lives. auto with live. Qed.

Lemma on_resp_ok h n f : keeps_ok h n (on_resp f).
Proof. apply lives_modify. intros c. by apply conn_ok_st. Qed.

Lemma gets_ok {A} h n (f : Conn B → A) : keeps_ok h n (gets f).
Proof. apply lives_gets. Qed.

(** A change of session and state that leaves the snapshots alone. *)
Lemma on_session_ok h n f :
  (∀ cs st, ∃ ss, (f cs st).2 = with_sessions ss st) → keeps_ok h n (on_session f).
Proof.
  intros Hf. apply lives_modify. intros c Hc. destruct (Hf (c_session c) (c_st c)) as [ss Hss].
  destruct (f _ _) as [cs st]. cbn in Hss. subst st.
  apply (conn_ok_st h n (set_st (with_sessions ss (c_st c)) c)); [done..|].
  apply conn_ok_set_st; [done|apply with_sessions_ok; apply Hc|done|done|apply Hc].
Qed.

Lemma session_phase_ok h n req : keeps_ok h n (session_phase req).
Proof.
  unfold session_phase. destruct (get_str _ _) as [sid|]; [|apply lives_ret].
  apply lives_bind; [apply gets_ok|]. intros known.
  apply lives_bind; [apply in_world_ok, now_lives|]. intros t.
  apply lives_bind; [|intros ?; apply LOG_ok].
  apply on_session_ok. auto.
Qed.

(** Storing one more snapshot. *)
Lemma conn_ok_store h n s c st' :
  0 ≤ n → conn_ok h (n + 1) c → state_ok st' →
  snap_counter st' = snap_counter (store_snapshot s (c_st c)).2 → limits st' = limits (c_st c) →
  (∀ s', pin_count s' st' ≤ Z.max 0 (pin_count s' (c_st c))) → conn_ok true n (set_st st' c).
Proof.
  intros Hn [Hst Hh Hp Hr ? ? Hs ?] Hst' Hc Hl Hpin. cbn in Hc. rewrite Z.mod_small in Hc by (destruct Hst; lia).
  split; cbn; rewrite ?Hl; try done; [|lia..|].
  - intros Hne. destruct (Hp Hne) as (k & Hk & E). exists k. split; [lia|done].
  - intros s'. specialize (Hpin s'). specialize (Hs s'). pose proof (copies_nonneg s' others).
    unfold own_pin in *. case_match; lia.
Qed.

Lemma stored_ok h n s c : 0 ≤ n → conn_ok h (n + 1) c → state_ok (store_snapshot s (c_st c)).2.
Proof. intros Hn [Hst _ _ Hr _ _ _ _]. apply store_snapshot_ok; [done|lia]. Qed.

Abbreviation uses_one h n m :=
  (triple U False (conn_ok h (n + 1)) m (λ _, conn_ok true n) (conn_ok true n)).

Lemma ok_uses_one {A} h n (m : M (Conn B) A) : keeps_ok h (n + 1) m → uses_one h n m.
Proof. intros Hm. eapply hoare_weaken; [exact Hm|done|..]; intros; (eapply (conn_ok_le h n (n + 1)); [lia|done]). Qed.

Lemma bind_uses_one {A C} h n (m : M (Conn B) A) (f : A → M (Conn B) C) :
  keeps_ok h (n + 1) m → (∀ a, uses_one h n (f a)) → uses_one h n (m ≫= f).
Proof.
  intros Hm Hf. eapply hoare_bind; [|exact Hf].
  eapply hoare_weaken; [exact Hm|done|done|]. intros; eapply conn_ok_le; [|done]; lia.
Qed.

Lemma uses_one_bind {A C} h n (m : M (Conn B) A) (f : A → M (Conn B) C) :
  uses_one h n m → (∀ a, keeps_ok true n (f a)) → uses_one h n (m ≫= f).
Proof. intros Hm Hf. eapply hoare_bind; [exact Hm|exact Hf]. Qed.

(** A stored snapshot with a change of the sessions. *)
Lemma conn_ok_stored h n s c ss cs :
  0 ≤ n → conn_ok h (n + 1) c →
  conn_ok true n (set_session cs (set_st (with_sessions ss (store_snapshot s (c_st c)).2) c)).
Proof.
  intros Hn Hc. eapply (conn_ok_st true n (set_st _ c)); [done..|]. apply (conn_ok_store h n s); [done..| |done|done|].
  - apply with_sessions_ok. by apply (stored_ok h n).
  - intros s'. cbn. unfold pin_count. cbn. lia.
Qed.

Lemma subscribe_state_ok h n s : 0 ≤ n → uses_one h n (locked (subscribe_state s)).
Proof.
  intros Hn c Hc. unfold locked, subscribe_state. pose proof (conn_ok_stored h n s c) as Hset.
  destruct (store_snapshot s (c_st c)) as [sid st]. cbn [snd] in Hset.
  destruct (negb _); [by apply Hset|]. rewrite (with_sessions_id st). by apply Hset.
Qed.

Lemma subscribe_phase_ok h n : 0 ≤ n → uses_one h n subscribe_phase.
Proof.
  intros Hn. unfold subscribe_phase. apply bind_uses_one; [apply capture_ok|]. intros s.
  apply uses_one_bind; [by apply subscribe_state_ok|intros ?; apply on_resp_ok].
Qed.

Lemma unsubscribe_phase_ok h n : keeps_ok h n unsubscribe_phase.
Proof.
  unfold unsubscribe_phase. apply lives_bind; [|intros ?; apply on_resp_ok].
  apply on_session_ok. auto.
Qed.

Lemma terminate_phase_ok h n : keeps_ok h n terminate_phase.
Proof.
  unfold terminate_phase. apply lives_bind; [apply gets_ok|]. intros cs.
  apply lives_if; intros _; [|apply lives_ret].
  apply lives_bind; [|intros ?; apply LOG_ok].
  apply on_session_ok. auto.
Qed.

Lemma canonical_phase_ok h n req : keeps_ok h n (canonical_phase req).
Proof.
  unfold canonical_phase. destruct (get_bool _ _) as [b|]; [|apply lives_ret].
  apply lives_modify. intros c. by apply conn_ok_st.
Qed.

(** What others hold leaves room, so eviction ends. *)
Lemma store_and_evict_ok h n s : 0 ≤ n → uses_one h n (store_and_evict s).
Proof.
  intros Hn c Hc. unfold store_and_evict. pose proof (stored_ok h n s c Hn Hc) as Hst.
  pose proof (conn_ok_store h n s c) as Hset.
  assert (∀ x, pin_count x (store_snapshot s (c_st c)).2 = pin_count x (c_st c)) as Hpin by done.
  assert (limits (store_snapshot s (c_st c)).2 = limits (c_st c)) as Hlim by done.
  destruct (store_snapshot s (c_st c)) as [sid st]. cbn [snd] in *.
  destruct (evict_ok st (so_nodup _ Hst)) as (st' & He & Hev).
  { transitivity (Z.of_nat (S (length others))); [|rewrite Hlim; pose proof (co_limit _ _ _ Hc); lia].
    apply inj_le, (n_pinned_le st others (c_pinned c)); [done|]. intros x Hx Hp.
    unfold pinnedb in Hp. rewrite Hpin in Hp. pose proof (co_spare _ _ _ Hc x) as Hs.
    rewrite copies_absent in Hs by done. unfold own_pin in Hs. case_bool_decide; [naive_solver|lia]. }
  rewrite He. apply Hset; [done|done|by eapply evicted_ok|apply Hev|by rewrite (ev_limits _ _ _ Hev)|].
  intros x. rewrite <-Hpin. by eapply evict_loop_pins.
Qed.

Lemma capture_phase_ok h n : 0 ≤ n → uses_one h n capture_phase.
Proof.
  intros Hn. unfold capture_phase. apply bind_uses_one; [apply capture_ok|]. intros s.
  apply uses_one_bind; [by apply store_and_evict_ok|intros ?; apply on_resp_ok].
Qed.

(** What a server may do with a named snapshot. *)
Record harmless (use : string → ServerState → ServerState) : Prop := {
  ha_ok sid st : state_ok st → is_Some (snaps st !! sid) → state_ok (use sid st);
  ha_counter sid st : snap_counter (use sid st) = snap_counter st;
  ha_limits sid st : limits (use sid st) = limits st;
  ha_pins sid st : pinned_counts (use sid st) = pinned_counts st }.

Lemma touch_lru_harmless : harmless touch_lru.
Proof. split; try done. apply touch_lru_ok. Qed.
Lemma nothing_harmless : harmless (λ _ st, st).
Proof. by split. Qed.

(** Taking the pin; nothing is pinned before. *)
Lemma pinned_ok n use sid c :
  harmless use → conn_ok false n c → is_Some (snaps (c_st c) !! sid) →
  conn_ok true n (set_st (use sid (pin sid (c_st c))) (set_pinned sid c)).
Proof.
  intros [Hu1 Hu2 Hu3 Hu4] [Hst Hp _ Hr ? ? Hs ?] Hsid. rewrite Hp in Hs by done.
  pose proof (so_snaps _ Hst sid Hsid) as Hi. split; cbn; rewrite ?Hu2, ?Hu3; try done.
  - apply Hu1; [by apply pin_ok|done].
  - intros _. destruct Hi as (k & Hk & E). exists k. by rewrite Hu2.
  - intros s. specialize (Hs s). unfold own_pin in *. rewrite bool_decide_eq_false_2 in Hs by naive_solver.
    unfold pin_count at 1. rewrite Hu4. change (default 0 _) with (pin_count s (pin sid (c_st c))).
    unfold pin, with_pins. rewrite pin_count_insert. destruct (decide (s = sid)) as [->|Hne].
    + rewrite bool_decide_eq_true_2 by done. rewrite bool_decide_eq_true_2; [lia|].
      split; [done|]. destruct Hi as (k & _ & ->). by unfold make_snap_id.
    + rewrite !bool_decide_eq_false_2 by naive_solver. lia.
Qed.

Lemma snapshot_phase_ok n use req :
  harmless use →
  triple U False (conn_ok false n) (snapshot_phase use req) (λ _, conn_ok true n) (conn_ok true n).
Proof.
  intros Huse. assert (∀ c, conn_ok false n c → conn_ok true n c) as Hw by (intros c; by apply conn_ok_le).
  unfold snapshot_phase. destruct (get_str _ _) as [sid|].
  - apply (hoare_bind (λ st c, st = c_st c ∧ conn_ok false n c)); [by apply hoare_gets|]. intros st.
    destruct (snaps st !! sid) as [snap|] eqn:Es; [|apply hoare_ret; intros c [_ ?]; auto].
    intros c (-> & Hc). apply (pinned_ok n use sid c); [done..|]. eauto.
  - eapply (hoare_weaken _ (conn_ok false n)); [apply lives_bind|done|auto|auto];
      [apply capture_ok|intros s; apply lives_ret].
Qed.

Lemma old_snapshot_phase_ok h n req : keeps_ok h n (old_snapshot_phase req).
Proof. unfold old_snapshot_phase. destruct (get_str _ _); apply gets_ok. Qed.

Lemma core_phase_ok h n a msg req snap old :
  U ∨ numbers_ok req = true → keeps_ok h n (core_phase a msg req snap old).
Proof.
  intros Hreq. unfold core_phase. apply lives_bind; [by apply in_world_ok, handle_lives|]. intros r.
  apply lives_bind; [apply gets_ok|]. intros t. apply lives_if; intros _; apply on_resp_ok.
Qed.

Lemma advance_state_ok h n s : 0 ≤ n → uses_one h n (on_session (advance_state s)).
Proof.
  intros Hn. apply hoare_modify. intros c Hc.
  unfold advance_state. pose proof (conn_ok_stored h n s c) as Hset.
  destruct (store_snapshot s (c_st c)) as [sid st]. cbn [snd] in Hset.
  destruct (negb _); [by apply Hset|]. rewrite (with_sessions_id st). by apply Hset.
Qed.

Lemma advance_phase_ok h n req : 0 ≤ n → uses_one h n (advance_phase req).
Proof.
  intros Hn. unfold advance_phase. apply bind_uses_one; [apply gets_ok|]. intros ok.
  apply hoare_if; intros _; [|apply ok_uses_one; apply lives_ret].
  apply bind_uses_one; [apply capture_ok|]. intros s. by apply advance_state_ok.
Qed.

(** From the named snapshot on, for either server. *)
Lemma dispatch_ok n use a msg code text req :
  0 ≤ n → harmless use → U ∨ numbers_ok req = true →
  uses_one false n
    (snap ← snapshot_phase use req;
     match snap with
     | None => on_resp (set_error code text)
     | Some snap =>
         old ← old_snapshot_phase req; _ ← core_phase a msg req snap old; advance_phase req
     end).
Proof.
  intros Hn Hu Hreq. apply (hoare_bind (λ _, conn_ok true (n + 1))).
  - eapply hoare_weaken; [by apply snapshot_phase_ok|done|done|]. intros c. apply conn_ok_le. lia.
  - intros [snap|]; [|apply ok_uses_one, on_resp_ok].
    apply bind_uses_one; [apply old_snapshot_phase_ok|]. intros old.
    apply bind_uses_one; [by apply core_phase_ok|]. intros ?. by apply advance_phase_ok.
Qed.

Lemma serve_ok n sw req : 0 ≤ n → U ∨ numbers_ok req = true → uses_one false n (serve sw req).
Proof.
  intros Hn Hreq. unfold serve. apply bind_uses_one; [apply session_phase_ok|]. intros ?.
  apply hoare_if; intros _; [by apply subscribe_phase_ok|].
  apply hoare_if; intros _; [apply ok_uses_one, unsubscribe_phase_ok|].
  apply bind_uses_one; [apply lives_if; intros _; [apply terminate_phase_ok|apply lives_ret]|]. intros ?.
  apply hoare_if; intros _; [apply ok_uses_one, on_resp_ok|].
  apply bind_uses_one; [apply canonical_phase_ok|]. intros ?.
  apply hoare_if; intros _; [by apply capture_phase_ok|].
  by apply dispatch_ok; [|apply touch_lru_harmless|].
Qed.

(** The numbers of the request in a message fit. *)
Definition message_ok (json : string) : bool :=
  match parse_request_json json with Ok req => numbers_ok req | _ => true end.

Lemma parsed_ok {A} n json (f : CoreRequest → M (Conn B) A) :
  U ∨ message_ok json = true → (∀ req, U ∨ numbers_ok req = true → uses_one false n (f req)) →
  uses_one false n (req ← lift_result (parse_request_json json); f req).
Proof.
  intros Hj Hf. unfold message_ok in Hj. pose proof (parse_request_defined json) as Hp.
  intros c Hc. unfold mbind, M_bind, lift_result.
  destruct (parse_request_json json) as [req| | |]; try done; [by apply Hf|].
  eapply conn_ok_le; [|done]. lia.
Qed.

Lemma process_ok n sw json : 0 ≤ n → U ∨ message_ok json = true → uses_one false n (process sw json).
Proof.
  intros Hn Hj. unfold process. apply parsed_ok; [done|]. intros req Hreq.
  apply bind_uses_one; [apply on_resp_ok|]. intros ?.
  apply bind_uses_one; [apply gets_ok|]. intros cs.
  apply hoare_if; intros _; [|by apply serve_ok].
  apply ok_uses_one. apply lives_bind; [apply LOG_ok|intros ?; apply on_resp_ok].
Qed.

(** Between two requests: [c_pinned] still has a value, but nothing is held. *)
Definition between n c : Prop :=
  conn_ok false n (set_pinned EmptyString c) ∧ (c_pinned c ≠ EmptyString → issued (c_st c) (c_pinned c)).

(** Giving one pin back. *)
Lemma unpin_le p s st : pin_count s (unpin p st) = pin_count s st - (if bool_decide (s = p) then 1 else 0).
Proof. unfold unpin, with_pins. rewrite pin_count_insert. case_bool_decide; subst; lia. Qed.

Lemma unpin_phase_ok n E : triple U False (conn_ok true n) unpin_phase (λ _, between n) E.
Proof.
  apply hoare_modify. intros c [Hst Hh Hp Hr Hf Hl Hs Hm]. unfold between.
  destruct (is_empty (c_pinned c)) eqn:Ee; cbn [negb].
  { assert (c_pinned c = EmptyString) as Ep by by destruct (c_pinned c). rewrite Ep in *. by split. }
  assert (c_pinned c ≠ EmptyString) as Hne by by destruct (c_pinned c).
  split; [|intros _; by apply Hp]. split; cbn; try done; [apply unpin_ok; auto|].
  intros s. specialize (Hs s). rewrite unpin_le. unfold own_pin in *.
  repeat case_bool_decide; naive_solver lia.
Qed.

Lemma pipe_message_ok n sw json E :
  0 ≤ n → U ∨ message_ok json = true → triple U False (between (n + 1)) (pipe_message sw json) (λ _, between n) E.
Proof.
  intros Hn Hj. unfold pipe_message.
  apply (hoare_bind (λ _, conn_ok false (n + 1))). { apply hoare_modify. by intros c [[] _]. } intros ?.
  apply (hoare_bind (λ _, conn_ok true n)).
  { eapply hoare_try; [by apply process_ok|]. intros w. apply hoare_modify. intros c. by apply conn_ok_st. } intros ?.
  apply (hoare_bind (λ _, conn_ok true n)); [by apply hoare_gets|]. intros out.
  eapply hoare_bind; [apply unpin_phase_ok|]. intros ?. by apply hoare_ret.
Qed.

Lemma pipe_loop_ok sw msgs E :
  U ∨ forallb message_ok msgs = true →
  triple U False (between (Z.of_nat (length msgs))) (pipe_loop sw msgs) (λ _, between 0) E.
Proof.
  induction msgs as [|json msgs IH]; intros Hm; [by apply hoare_ret|]. cbn [pipe_loop length].
  replace (Z.of_nat (S (length msgs))) with (Z.of_nat (length msgs) + 1) by lia.
  assert ((U ∨ message_ok json = true) ∧ (U ∨ forallb message_ok msgs = true)) as [Hj Hms]
    by (cbn in Hm; rewrite andb_true_iff in Hm; tauto).
  eapply (hoare_bind (λ _, between (Z.of_nat (length msgs)))); [apply pipe_message_ok; [lia|done]|].
  intros out. eapply hoare_bind; [by apply IH|]. intros outs. by apply hoare_ret.
Qed.

(** What a connection needs when it starts, and leaves when it ends. *)
Record state_between n c : Prop := {
  sb_state : state_ok (c_st c);
  sb_room : snap_counter (c_st c) + n < 2 ^ 64;
  sb_floor : floor ≤ snap_counter (c_st c);
  sb_live : live (w_backend (c_world c));
  sb_spare : ∀ s, pin_count s (c_st c) ≤ copies s others;
  sb_limit : Z.of_nat (length others) < max_snapshots (limits (c_st c)) }.

Lemma state_between_conn n c :
  state_between n c → conn_ok false n (set_pinned EmptyString c).
Proof.
  intros [? ? ? ? Hs ?]. split; cbn; try done. intros s. specialize (Hs s).
  unfold own_pin. case_match; lia.
Qed.

Lemma between_state n c : between n c → state_between n c.
Proof.
  intros [[Hst _ _ Hr Hf Hl Hs Hm] _]. split; try done. intros s. specialize (Hs s). unfold own_pin in Hs.
  rewrite bool_decide_eq_false_2 in Hs by naive_solver. cbn in Hs. lia.
Qed.

Lemma conn_between n c : conn_ok false n c → between n c.
Proof.
  intros Hc. pose proof (co_held _ _ _ Hc eq_refl) as Hp. split; [|apply Hc].
  by eapply conn_ok_st; [..|exact Hc].
Qed.

Lemma pipe_connect_ok n sw E : triple U False (state_between n) (pipe_connect sw) (λ _, between n) E.
Proof.
  pose proof (conn_between n) as Hb. unfold pipe_connect. apply (hoare_bind (λ _, conn_ok false n)).
  { apply hoare_modify. intros c Hc%state_between_conn.
    apply (conn_ok_st false n (set_st (with_connections (active_connections (c_st c) + 1) (c_st c))
                                 (set_pinned EmptyString c))); [done..|].
    apply conn_ok_set_st; [done|apply with_connections_ok, Hc|done|done|apply Hc]. }
  intros ?. eapply hoare_bind; [apply LOG_triple|].
  intros ?. apply hoare_if; intros _; [|by apply hoare_ret].
  apply (hoare_bind (λ _, conn_ok false n)). { apply hoare_modify. intros c. by apply conn_ok_st. }
  intros ?. eapply hoare_weaken; [apply LOG_triple|done|auto|exact (λ _ HE, HE)].
Qed.

(** The second unpinning only lowers a count. *)
Lemma pipe_disconnect_ok E : triple U False (between 0) pipe_disconnect (λ _, state_between 0) E.
Proof.
  intros c Hb. destruct (between_state _ _ Hb) as [Hst Hr Hf Hl Hs' Hm]. destruct Hb as [_ Hp]. unfold pipe_disconnect, unpin_phase, on_st, modify, mbind, M_bind.
  cbv beta iota. unfold in_world, zoom, LOG.
  destruct (is_empty (c_pinned c)) eqn:Ee; cbn [negb c_world set_st c_st].
  all: destruct (should_log _ _); split; cbn; try done; try (by apply with_connections_ok).
  all: try (apply with_connections_ok, unpin_ok; [done|]; apply Hp; by destruct (c_pinned c)).
  all: intros s; specialize (Hs' s); pose proof (unpin_le (c_pinned c) s (c_st c)) as Hle;
    unfold pin_count in *; cbn in *; case_match; lia.
Qed.

Lemma handle_client_ok sw msgs E :
  U ∨ forallb message_ok msgs = true →
  triple U False (state_between (Z.of_nat (length msgs))) (handle_client sw msgs) (λ _, state_between 0) E.
Proof.
  intros Hm. unfold handle_client. eapply hoare_bind; [apply pipe_connect_ok|]. intros ?.
  eapply hoare_bind; [by apply pipe_loop_ok|]. intros outs.
  eapply hoare_bind; [apply pipe_disconnect_ok|]. intros ?. by apply hoare_ret.
Qed.
End Inv.

Section Pipe.
Context {B : Type} `{LiveBackend B} `{Clock} `{Watchdog}.
Implicit Types (c : Conn B).

(** No exception leaves the loop, and each message has its answer. *)
Lemma pipe_message_contained sw json c : ∀ w c', pipe_message sw json c ≠ (Throw w, c').
Proof.
  intros w c'. unfold pipe_message, try_catch, mbind, M_bind, unpin_phase, on_resp, modify, gets. cbv beta iota.
  match goal with |- context [process sw json ?x] => by destruct (process sw json x) as [[[]| | |] c2] end.
Qed.

Lemma pipe_loop_contained sw msgs c :
  match pipe_loop sw msgs c with
  | (Ok outs, _) => length outs = length msgs
  | (Throw _, _) => False
  | _ => True
  end.
Proof.
  revert c. induction msgs as [|json msgs IH]; intros c; [done|]. cbn [pipe_loop].
  unfold mbind, M_bind. pose proof (pipe_message_contained sw json c) as Hm.
  destruct (pipe_message sw json c) as [[out|w| |] c1]; try done; [|by eapply Hm].
  specialize (IH c1). destruct (pipe_loop sw msgs c1) as [[outs| | |] c2]; try done. cbn. by rewrite IH.
Qed.

Lemma in_world_LOG level msg c : ∃ c', in_world (LOG level msg) c = (Ok (), c') ∧ c_st c' = c_st c.
Proof.
  unfold in_world, zoom. destruct (LOG_eq level msg (c_world c)) as (w' & -> & _). by eexists.
Qed.

Lemma pipe_connect_returns sw c : ∃ c', pipe_connect sw c = (Ok (), c').
Proof.
  unfold pipe_connect, mbind, M_bind. cbn.
  match goal with |- context [in_world (LOG INFO ?m) ?x] =>
    destruct (in_world_LOG INFO m x) as (c1 & -> & _) end.
  destruct (negb _ && _); [|by eexists]. cbn.
  match goal with |- context [in_world (LOG DEBUG ?m) ?x] =>
    destruct (in_world_LOG DEBUG m x) as (c2 & -> & _) end. by eexists.
Qed.

Lemma pipe_disconnect_returns c : ∃ c', pipe_disconnect c = (Ok (), c').
Proof.
  unfold pipe_disconnect, mbind, M_bind. cbn.
  match goal with |- context [in_world (LOG INFO ?m) ?x] =>
    destruct (in_world_LOG INFO m x) as (c1 & -> & _) end. by eexists.
Qed.

Lemma handle_client_contained sw msgs c :
  match handle_client sw msgs c with
  | (Ok outs, _) => length outs = length msgs
  | (Throw _, _) => False
  | _ => True
  end.
Proof.
  unfold handle_client, mbind, M_bind.
  destruct (pipe_connect_returns sw c) as (c1 & ->).
  pose proof (pipe_loop_contained sw msgs c1) as Hl.
  destruct (pipe_loop sw msgs c1) as [[outs| | |] c2]; try done.
  by destruct (pipe_disconnect_returns c2) as (c3 & ->).
Qed.

End Pipe.

Definition test_watchdog : Watchdog := {| watchdog_fires := λ _, false |}.
Definition open_switches : Switches := mkSwitches false false false EmptyString.
Definition new_conn (st : ServerState) : Conn FakeBackend :=
  mkConn test_world st ClientSession_default EmptyString CoreResponse_default false.
Definition request_text (id method : string) (params : Object) : string :=
  dumps (obj [("id", JStr id); ("method", JStr method); ("params", JObj params)]).

Lemma new_conn_ok floor st n :
  state_ok st → floor ≤ snap_counter st → snap_counter st + n < 2 ^ 64 → 0 < max_snapshots (limits st) → pinned_counts st = ∅ →
  state_between floor [] n (new_conn st).
Proof. intros ? ? ? ? E. split; try done; [apply sample_acyclic|]. intros s. cbn. unfold pin_count. by rewrite E. Qed.

