(* ===== verification/ServerGates.v ===== *)
(** What a named-pipe request can and cannot do: the authentication gate,
    read-only mode, unknown snapshots, and the pins it leaves behind. *)

From S2P Require Import Prelude StdMap CString Double Json JsonRoundtrip Types Logger Backend.
From S2P Require Import FakeBackend Core Hoare CoreProps ServerState ServerStateProps Server ServerProps.

Local Open Scope Z_scope.

(** Follow the phases of a request with a relation between states. *)
Ltac conn_step :=
  lazymatch goal with
  | |- keeps _ (try_catch _ _) => refine (keeps_try _ _ _ _ _); [|intros ?]
  | |- keeps _ (in_world _) => fail
  | |- keeps _ (locked _) => fail
  | |- keeps _ (store_and_evict _) => fail
  | |- keeps _ (on_session _) => fail
  | |- keeps _ (modify _) => fail
  | |- keeps _ (match ?x with _ => _ end) => destruct x eqn:?
  | |- keeps _ _ => walk_step
  end.
Ltac conn_walk := repeat conn_step.

Section Gates.
Context {B : Type} `{IBackend B} `{Clock} `{Watchdog}.
Implicit Types (c : Conn B) (sw : Switches).

(** * Authentication *)

Definition same_auth c c' : Prop :=
  cs_authenticated (c_session c) = cs_authenticated (c_session c').

#[local] Instance same_auth_preorder : PreOrder same_auth.
Proof. split; [done|]. unfold same_auth. intros x y z. congruence. Qed.

Lemma same_auth_world {A} (m : M (World B) A) : keeps same_auth (in_world m).
Proof. intros c. unfold in_world, zoom. by destruct (m (c_world c)). Qed.

Lemma same_auth_session f :
  (∀ cs st, cs_authenticated (f cs st).1 = cs_authenticated cs) → keeps same_auth (on_session f).
Proof.
  intros Hf c. unfold same_auth, on_session. cbn. specialize (Hf (c_session c) (c_st c)).
  by destruct (f _ _).
Qed.

Lemma same_auth_locked {A} f :
  (∀ cs st, cs_authenticated (f cs st).2.1 = cs_authenticated cs) → keeps same_auth (locked (A := A) f).
Proof.
  intros Hf c. unfold same_auth, locked. specialize (Hf (c_session c) (c_st c)).
  by destruct (f _ _) as [a [s st]].
Qed.

Lemma same_auth_store s : keeps same_auth (store_and_evict s).
Proof. intros c. unfold store_and_evict. destruct (store_snapshot _ _) as [? st]. by destruct (evict st). Qed.

Lemma pipe_message_auth sw json : keeps same_auth (pipe_message sw json).
Proof.
  conn_walk;
    first [apply same_auth_world | apply same_auth_store
          | apply same_auth_session; intros cs st | apply same_auth_locked; intros cs st
          | intros c; unfold same_auth; cbn; by repeat case_match].
  all: unfold recover_session, unsubscribe_state, terminate_state, advance_state, subscribe_state.
  all: repeat case_match; done.
Qed.

Lemma pipe_loop_auth sw msgs : keeps same_auth (pipe_loop sw msgs).
Proof.
  induction msgs as [|json msgs IH]; [refine (keeps_ret _ _)|]. cbn [pipe_loop].
  refine (keeps_bind _ _ _ _ _); [apply pipe_message_auth|]. intros out.
  refine (keeps_bind _ _ _ _ _); [exact IH|]. intros outs. refine (keeps_ret _ _).
Qed.

(** A connection is authenticated from its start or not at all. *)
Lemma pipe_connect_auth sw c c' :
  pipe_connect sw c = (Ok (), c') →
  cs_authenticated (c_session c') = negb (require_auth sw) && is_empty (auth_keys_data sw).
Proof.
  unfold pipe_connect, mbind, M_bind, modify. cbv beta iota.
  assert (∀ level msg (x : Conn B), ∃ w, in_world (LOG level msg) x = (Ok (), set_world w x)) as HL.
  { intros level msg x. unfold in_world, zoom.
    destruct (LOG_eq level msg (c_world x)) as (w & -> & _). by eexists. }
  match goal with |- context [in_world (LOG INFO ?m) ?x] => destruct (HL INFO m x) as [w1 ->] end.
  destruct (negb (require_auth sw) && is_empty (auth_keys_data sw)).
  - match goal with |- context [in_world (LOG DEBUG ?m) ?x] => destruct (HL DEBUG m x) as [w2 ->] end.
    by intros [= <-].
  - by intros [= <-].
Qed.

(** The response to an unauthenticated request. *)
Definition unauthorized (id : string) : CoreResponse :=
  set_error "E_UNAUTHORIZED" "authentication required" (set_id id CoreResponse_default).

Lemma pipe_gate sw json c req :
  parse_request_json json = Ok req → cs_authenticated (c_session c) = false →
  req_method req ≠ "hello" →
  ∃ c', pipe_message sw json c = (Ok (serialize_response_json (unauthorized (req_id req)) false), c')
        ∧ c_st c' = c_st c ∧ w_backend (c_world c') = w_backend (c_world c).
Proof.
  intros Hp Ha Hm. unfold pipe_message, process, try_catch, mbind, M_bind, modify. cbv beta iota.
  cbn [lift_result]. rewrite Hp. cbv beta iota. unfold on_resp, modify, gets. cbv beta iota.
  cbn [c_session set_resp set_pinned set_canonical]. rewrite Ha.
  rewrite (bool_decide_eq_false_2 _ Hm). cbn [negb andb].
  unfold in_world at 1, zoom. cbn [c_world set_resp set_pinned set_canonical].
  destruct (LOG_eq WARN ("Unauthorized request attempted: " +:+ req_method req) (c_world c)) as (w & -> & Hw).
  eexists. split; [done|]. split; [done|]. by symmetry.
Qed.

(** C27: With [--require-auth] or authorized keys configured, no named-pipe
    client gets past the gate, however many requests it makes: every request
    but [hello] is answered [E_UNAUTHORIZED] and changes neither the server's
    state nor the backend, and no sequence of requests authenticates the
    connection. *)
Theorem pipe_auth_gate sw msgs c u1 c1 outs c2 json req :
  require_auth sw = true ∨ auth_keys_data sw ≠ EmptyString →
  pipe_connect sw c = (Ok u1, c1) → pipe_loop sw msgs c1 = (Ok outs, c2) →
  parse_request_json json = Ok req → req_method req ≠ "hello" →
  ∃ c3, pipe_message sw json c2 = (Ok (serialize_response_json (unauthorized (req_id req)) false), c3)
        ∧ c_st c3 = c_st c2 ∧ w_backend (c_world c3) = w_backend (c_world c2).
Proof.
  intros Hsw Hc Hl Hp Hm. destruct u1. apply pipe_connect_auth in Hc.
  pose proof (pipe_loop_auth sw msgs c1) as Ha. rewrite Hl in Ha. unfold same_auth in Ha. cbn in Ha.
  apply pipe_gate; [done| |done]. rewrite <-Ha, Hc.
  destruct Hsw as [-> |Hk]; [done|]. destruct (auth_keys_data sw); [done|]. apply andb_false_r.
Qed.

(** * Read-only mode *)

Definition with_read_only (b : bool) sw : Switches :=
  mkSwitches b (require_auth sw) (admin_logs sw) (auth_keys_data sw).

(** The methods of the dispatch table that change the machine and that
    [--read-only] lets through. *)
Definition unblocked_mutators : list string :=
  ["window.highlight"; "window.ensureVisible"; "window.ensureForeground"; "window.setProperty";
   "input.mouseClick"; "input.keyPress"; "input.text"; "window.controlClick"; "window.controlSend";
   "process.kill"; "clipboard.write"; "service.control"; "env.set"; "sync.createMutex"; "mem.write";
   "input.hook"; "reg.delete"; "ui.invoke"; "daemon.downloadUpdate"].

Lemma read_only_transparent sw json c :
  (∀ req, parse_request_json json = Ok req → read_only_blocks (req_method req) = false) →
  pipe_message (with_read_only true sw) json c = pipe_message (with_read_only false sw) json c.
Proof.
  intros Hb. unfold pipe_message.
  assert (∀ x, process (with_read_only true sw) json x = process (with_read_only false sw) json x) as Hp.
  { intros x. unfold process, mbind, M_bind, lift_result.
    destruct (parse_request_json json) as [req| | |]; try done.
    unfold serve. rewrite (Hb req eq_refl), !andb_false_r. done. }
  unfold mbind, M_bind, modify, try_catch. cbv beta iota. by rewrite Hp.
Qed.

(** [--read-only] does not protect against most changes: for 19 methods
    that change the machine, killing processes and writing memory among them, a
    request is served exactly as without the switch. *)
Theorem read_only_gap sw json c req :
  parse_request_json json = Ok req → req_method req ∈ unblocked_mutators →
  pipe_message (with_read_only true sw) json c = pipe_message (with_read_only false sw) json c.
Proof.
  intros Hp Hm. apply read_only_transparent. intros req' Hp'. rewrite Hp in Hp'. injection Hp' as <-.
  assert (Forall (λ m, read_only_blocks m = false) unblocked_mutators) as Hall
    by (apply (bool_decide_unpack _); by vm_compute).
  rewrite list.Forall_forall in Hall. by apply Hall.
Qed.

(** * Refused requests *)

(** Only sessions, the log and the clock may differ. *)
Record quiet c c' : Prop := {
  q_resp : c_resp c' = c_resp c;
  q_pinned : c_pinned c' = c_pinned c;
  q_backend : w_backend (c_world c') = w_backend (c_world c);
  q_snaps : snaps (c_st c') = snaps (c_st c);
  q_pins : pinned_counts (c_st c') = pinned_counts (c_st c);
  q_lru : lru_order (c_st c') = lru_order (c_st c) }.

Lemma session_phase_quiet req c : ∃ c', session_phase req c = (Ok (), c') ∧ quiet c c'.
Proof.
  unfold session_phase. destruct (get_str _ _) as [sid|]; [|by exists c].
  unfold mbind, M_bind, gets, in_world, zoom, now, on_session, modify. cbv beta iota.
  cbn [c_session c_st set_world c_world].
  destruct (recover_session _ _ _ _) as [cs st] eqn:Er.
  match goal with |- context [LOG DEBUG ?m ?x] => destruct (LOG_eq DEBUG m x) as (w & -> & Hw) end.
  eexists. split; [done|]. unfold recover_session in Er.
  unfold same_backend in Hw. cbn in Hw.
  destruct (sessions _ !! sid); injection Er as <- <-; by split.
Qed.

Lemma quiet_trans c1 c2 c3 : quiet c1 c2 → quiet c2 c3 → quiet c1 c3.
Proof. intros [] []. split; congruence. Qed.

Lemma terminate_phase_quiet c : ∃ c', terminate_phase c = (Ok (), c') ∧ quiet c c'.
Proof.
  unfold terminate_phase, mbind, M_bind, gets, on_session, modify, in_world, zoom. cbv beta iota.
  destruct (negb (SessionID_empty (cs_id (c_session c)))) eqn:E; [|by exists c].
  unfold terminate_state. rewrite E. cbn [c_world set_session set_st].
  match goal with |- context [LOG INFO ?m ?x] => destruct (LOG_eq INFO m x) as (w & -> & Hw) end.
  eexists. split; [done|]. unfold same_backend in Hw. by split.
Qed.

(** The response of a refusal. *)
Definition refusal (code msg id : string) : CoreResponse :=
  set_error code msg (set_id id CoreResponse_default).

Definition response_text (r : CoreResponse) : string := serialize_response_json r false.

(** A request that gets past the gate and does not pin anything. *)
Lemma pipe_message_served sw json c req r :
  parse_request_json json = Ok req → cs_authenticated (c_session c) = true →
  (∀ x, c_resp x = set_id (req_id req) CoreResponse_default → c_pinned x = EmptyString →
        snaps (c_st x) = snaps (c_st c) → w_backend (c_world x) = w_backend (c_world c) →
        ∃ x', serve sw req x = (Ok (), x') ∧ c_resp x' = r ∧ c_pinned x' = EmptyString
              ∧ w_backend (c_world x') = w_backend (c_world c)) →
  ∃ c', pipe_message sw json c = (Ok (response_text r), c') ∧ w_backend (c_world c') = w_backend (c_world c).
Proof.
  intros Hp Ha Hs. unfold pipe_message, process, try_catch, mbind, M_bind, modify, lift_result.
  cbv beta iota. rewrite Hp. cbv beta iota. unfold on_resp, modify, gets. cbv beta iota.
  cbn [c_session set_resp set_pinned set_canonical]. rewrite Ha. cbn [negb andb].
  match goal with |- context [serve sw req ?x] =>
    destruct (Hs x) as (x' & -> & Hr & Hpin & Hb); [done..|] end.
  unfold unpin_phase, modify. cbv beta iota. rewrite Hpin, Hr. cbn [is_empty negb]. by exists x'.
Qed.

Lemma read_only_blocks_special m :
  read_only_blocks m = true →
  bool_decide (m = "events.subscribe") = false ∧ bool_decide (m = "events.unsubscribe") = false
  ∧ bool_decide (m = "session.terminate") = false.
Proof.
  intros Hb. split_and!; apply bool_decide_eq_false_2; intros ->; vm_compute in Hb; discriminate Hb.
Qed.


(** The methods that do not look for a snapshot. *)
Definition snapshot_free (m : string) : bool :=
  bool_decide (m ∈ ["events.subscribe"; "events.unsubscribe"; "snapshot.capture"]).

(** A request that names a snapshot the server does not have (never given
    out, or evicted) is answered [E_BAD_SNAPSHOT] without any call of the
    backend or the engine. *)
Theorem unknown_snapshot_refused sw json c req sid :
  parse_request_json json = Ok req → cs_authenticated (c_session c) = true →
  read_only sw = false → snapshot_free (req_method req) = false →
  get_str (req_params req) "snapshot_id" = Some sid → snaps (c_st c) !! sid = None →
  ∃ c', pipe_message sw json c =
          (Ok (response_text (refusal "E_BAD_SNAPSHOT" "unknown or evicted snapshot_id" (req_id req))), c')
        ∧ w_backend (c_world c') = w_backend (c_world c).
Proof.
  intros Hp Ha Hro Hf Hs Hn. apply bool_decide_eq_false in Hf. rewrite !elem_of_cons in Hf.
  apply (pipe_message_served sw json c req); [done..|]. intros x Hr Hpin Hsn Hbk.
  unfold serve, mbind, M_bind. destruct (session_phase_quiet req x) as (x1 & -> & Q1).
  rewrite (bool_decide_eq_false_2 (_ = "events.subscribe")) by tauto.
  rewrite (bool_decide_eq_false_2 (_ = "events.unsubscribe")) by tauto.
  rewrite (bool_decide_eq_false_2 (_ = "snapshot.capture")) by tauto. rewrite Hro. cbn [andb].
  assert (∃ x2, (if bool_decide (req_method req = "session.terminate") then terminate_phase else mret ()) x1
                = (Ok (), x2) ∧ quiet x1 x2) as (x2 & -> & Q2).
  { case_bool_decide; [apply terminate_phase_quiet|by exists x1]. }
  destruct (quiet_trans _ _ _ Q1 Q2) as [R1 R2 R3 R4 _ _].
  unfold canonical_phase, dispatch_phase, snapshot_phase, mbind, M_bind, gets.
  destruct (get_bool _ _); cbv beta iota; rewrite Hs; cbn; rewrite R4, Hsn, Hn; cbn;
    (eexists; split; [done|]; cbn; unfold refusal; split_and!; congruence).
Qed.
End Gates.

Lemma pipe_auth_gate_witness :
  let sw := mkSwitches false true false EmptyString in
  let json := request_text "5" "window.listTop" [] in
  ∃ c2 c3, pipe_message (H0 := test_clock) (H1 := test_watchdog) sw json c2
           = (Ok (serialize_response_json (unauthorized "5") false), c3) ∧ c_st c3 = c_st c2.
Proof.
  cbv zeta.
  destruct (pipe_connect (H0 := test_clock) (mkSwitches false true false EmptyString)
              (new_conn (ServerState_init Limits_default))) as [[[]| | |] c1] eqn:E1;
    try (vm_compute in E1; discriminate E1).
  assert (parse_request_json (request_text "5" "window.listTop" []) = Ok (mkCoreRequest "5" "window.listTop" []))
    as Hp by by vm_compute.
  destruct (pipe_auth_gate (H0 := test_clock) (H1 := test_watchdog) (mkSwitches false true false EmptyString) []
              (new_conn (ServerState_init Limits_default)) () c1 [] c1
              (request_text "5" "window.listTop" []) (mkCoreRequest "5" "window.listTop" []))
    as (c3 & E3 & Hst & _); [by left|exact E1|done|exact Hp|done|].
  exists c1, c3. split; [exact E3|exact Hst].
Defined.

Lemma read_only_gap_witness :
  let json := request_text "5" "process.kill" [("pid", num 4)] in
  let c := set_session (mkClientSession (mkSessionID EmptyString) true EmptyString false)
             (new_conn (ServerState_init Limits_default)) in
  pipe_message (H0 := test_clock) (H1 := test_watchdog) (with_read_only true open_switches) json c
  = pipe_message (H0 := test_clock) (H1 := test_watchdog) (with_read_only false open_switches) json c
  ∧ injected_events_ (w_backend (c_world
      (pipe_message (H0 := test_clock) (H1 := test_watchdog) (with_read_only true open_switches) json c).2))
    = ["kill_process:4"].
Proof.
  cbv zeta. split; [|by vm_compute].
  apply (read_only_gap (H0 := test_clock) (H1 := test_watchdog) _ _ _
           (mkCoreRequest "5" "process.kill" [("pid", num 4)])).
  - by vm_compute.
  - apply (bool_decide_unpack _). by vm_compute.
Defined.

Definition auth_conn (st : ServerState) : Conn FakeBackend :=
  set_session (mkClientSession (mkSessionID EmptyString) true EmptyString false) (new_conn st).


Lemma unknown_snapshot_refused_witness :
  let json := request_text "6" "window.listTop" [("snapshot_id", JStr "s-9")] in
  ∃ c', pipe_message (H0 := test_clock) (H1 := test_watchdog) open_switches json
          (auth_conn (ServerState_init Limits_default))
        = (Ok (response_text (refusal "E_BAD_SNAPSHOT" "unknown or evicted snapshot_id" "6")), c')
        ∧ w_backend (c_world c') = w_backend test_world.
Proof.
  apply (unknown_snapshot_refused (H0 := test_clock) (H1 := test_watchdog) open_switches _
           (auth_conn (ServerState_init Limits_default))
           (mkCoreRequest "6" "window.listTop" [("snapshot_id", JStr "s-9")]) "s-9");
    by vm_compute.
Defined.
