(* ===== verification/ServerPins.v ===== *)
(** The pins that a named-pipe request takes and gives back, and the one too
    many that a closing connection gives back. *)

From S2P Require Import Prelude StdMap CString Double Json Types Logger Backend FakeBackend Core.
From S2P Require Import Hoare CoreProps ServerState ServerStateProps Server ServerProps ServerGates.

Local Open Scope Z_scope.

Section Pins.
Context {B : Type} `{IBackend B} `{Clock} `{Watchdog}.
Implicit Types (c : Conn B) (sw : Switches) (bal : string → Z) (sn : gmap string Snapshot).

(** Before the request has pinned anything. *)
Record fresh bal sn c : Prop := {
  fr_pinned : c_pinned c = EmptyString;
  fr_snaps : snaps (c_st c) = sn;
  fr_counts : ∀ s, pin_count s (c_st c) = bal s }.

(** While the request holds [p], if that is not empty. *)
Record held bal (p : string) c : Prop := {
  he_pinned : c_pinned c = p;
  he_counts : ∀ s, pin_count s (c_st c)
                   = bal s + (if bool_decide (s = p ∧ p ≠ EmptyString) then 1 else 0) }.

Lemma fresh_held bal sn c : fresh bal sn c → held bal EmptyString c.
Proof.
  intros [H1' _ H3]. split; [done|]. intros s. rewrite H3, bool_decide_eq_false_2; [lia|naive_solver].
Qed.

(** Steps that leave the pins alone, and those that leave the snapshots alone
    too. *)
Definition same_pins c c' : Prop :=
  c_pinned c = c_pinned c' ∧ pinned_counts (c_st c) = pinned_counts (c_st c').
Definition same_store c c' : Prop := same_pins c c' ∧ snaps (c_st c) = snaps (c_st c').

#[local] Instance same_pins_preorder : PreOrder same_pins.
Proof. split; [done|]. unfold same_pins. intros x y z [? ?] [? ?]. split; congruence. Qed.
#[local] Instance same_store_preorder : PreOrder same_store.
Proof. unfold same_store. split; [done|]. intros x y z [? ?] [? ?]. split; [by etrans|congruence]. Qed.

Lemma same_pins_count s c c' : same_pins c c' → pin_count s (c_st c') = pin_count s (c_st c).
Proof. intros [_ E]. unfold pin_count. by rewrite E. Qed.

Lemma keeps_held {A} bal p (m : M (Conn B) A) :
  keeps same_pins m → hoare (held bal p) m (λ _, held bal p) (held bal p).
Proof.
  intros Hm c [H1' H2]. specialize (Hm c).
  assert (held bal p (m c).2) as Hh.
  { split; [destruct Hm; congruence|]. intros s. by rewrite (same_pins_count s _ _ Hm). }
  by destruct (m c) as [[a| | |] c'].
Qed.

Lemma keeps_fresh {A} bal sn (m : M (Conn B) A) :
  keeps same_store m → hoare (fresh bal sn) m (λ _, fresh bal sn) (held bal EmptyString).
Proof.
  intros Hm c [H1' H2 H3]. specialize (Hm c). destruct Hm as [Hm Hs].
  assert (fresh bal sn (m c).2) as Hh.
  { split; [destruct Hm; congruence|congruence|]. intros s. by rewrite (same_pins_count s _ _ Hm). }
  destruct (m c) as [[a| | |] c']; try done. by apply (fresh_held bal sn).
Qed.

Lemma same_store_world {A} (m : M (World B) A) : keeps same_store (in_world m).
Proof. intros c. unfold in_world, zoom. by destruct (m (c_world c)). Qed.
Lemma same_pins_world {A} (m : M (World B) A) : keeps same_pins (in_world m).
Proof. intros c. apply same_store_world. Qed.

Lemma same_store_session f :
  (∀ cs st, ∃ ss, (f cs st).2 = with_sessions ss st) → keeps same_store (on_session f).
Proof.
  intros Hf c. unfold on_session. cbn. destruct (Hf (c_session c) (c_st c)) as [ss Hss].
  destruct (f _ _) as [cs st]. cbn in *. by subst st.
Qed.

Ltac pins_leaf :=
  first [apply same_store_world | apply same_pins_world
        | apply same_store_session; intros cs st;
          first [apply recover_session_sessions | apply unsubscribe_sessions | apply terminate_sessions]
        | intros c; cbn; by repeat case_match].

Lemma session_phase_store req : keeps same_store (session_phase req).
Proof. conn_walk; pins_leaf. Qed.
Lemma terminate_phase_store : keeps same_store terminate_phase.
Proof. conn_walk; pins_leaf. Qed.
Lemma canonical_phase_store req : keeps same_store (canonical_phase req).
Proof. conn_walk; pins_leaf. Qed.
Lemma unsubscribe_phase_store : keeps same_store unsubscribe_phase.
Proof. conn_walk; pins_leaf. Qed.
Lemma on_resp_store f : keeps same_store (on_resp f).
Proof. conn_walk; pins_leaf. Qed.

Lemma subscribe_phase_pins : keeps same_pins subscribe_phase.
Proof.
  conn_walk; pins_leaf.
Qed.
Lemma advance_phase_pins req : keeps same_pins (advance_phase req).
Proof.
  conn_walk; pins_leaf.
Qed.
Lemma core_phase_pins a msg req snap old : keeps same_pins (core_phase a msg req snap old).
Proof. conn_walk; pins_leaf. Qed.
Lemma old_snapshot_phase_pins req : keeps same_pins (old_snapshot_phase req).
Proof. conn_walk; pins_leaf. Qed.

(** * The snapshot a request holds *)

(** The stored snapshot that the request names, if any. *)
Definition named_snapshot (req : CoreRequest) sn : string :=
  match get_str (req_params req) "snapshot_id" with
  | Some sid => match sn !! sid with Some _ => sid | None => EmptyString end
  | None => EmptyString
  end.

Lemma snapshot_phase_held bal sn req :
  sn !! EmptyString = None →
  hoare (fresh bal sn) (snapshot_phase touch_lru req)
    (λ _, held bal (named_snapshot req sn)) (held bal EmptyString).
Proof.
  intros Hsn. unfold snapshot_phase, named_snapshot. destruct (get_str _ _) as [sid|].
  - intros c Hc. pose proof (fr_snaps _ _ _ Hc) as Hs. unfold mbind, M_bind, gets. cbv beta iota.
    rewrite Hs. destruct (sn !! sid) as [snap|] eqn:Es; cbn; [|by apply (fresh_held bal sn)].
    assert (sid ≠ EmptyString) as Hne by (intros ->; congruence).
    split; [done|]. intros s. unfold pin_count at 1. cbn. destruct (decide (s = sid)) as [->|Hs'].
    + rewrite lookup_insert_eq, bool_decide_eq_true_2 by done. cbn. by rewrite (fr_counts _ _ _ Hc).
    + rewrite lookup_insert_ne, bool_decide_eq_false_2 by naive_solver.
      rewrite Z.add_0_r. apply (fr_counts _ _ _ Hc).
  - eapply hoare_bind; [apply keeps_fresh, same_store_world|]. intros s. apply hoare_ret.
    intros c. apply fresh_held.
Qed.

(** What [serve] leaves pinned, for a request other than [snapshot.capture]. *)
Definition pin_target sw (req : CoreRequest) sn : string :=
  if snapshot_free (req_method req) || (read_only sw && read_only_blocks (req_method req))
  then EmptyString else named_snapshot req sn.

Lemma serve_held bal sn sw req :
  sn !! EmptyString = None → req_method req ≠ "snapshot.capture" →
  hoare (fresh bal sn) (serve sw req)
    (λ _, held bal (pin_target sw req sn)) (λ c, ∃ p, held bal p c).
Proof.
  intros Hsn Hm. assert (∀ c, held bal EmptyString c → ∃ p, held bal p c) as Hex by eauto.
  assert (∀ A (m : M (Conn B) A), keeps same_store m →
    hoare (fresh bal sn) m (λ _, fresh bal sn) (λ c, ∃ p, held bal p c)) as Hpre.
  { intros A m Hk. eapply hoare_weaken; [by apply keeps_fresh|done|done|done]. }
  assert (∀ A p (m : M (Conn B) A), keeps same_pins m →
    hoare (held bal p) m (λ _, held bal p) (λ c, ∃ p, held bal p c)) as Hpost.
  { intros A p m Hk. eapply hoare_weaken; [by apply keeps_held|done|done|eauto]. }
  unfold serve. eapply hoare_bind; [apply Hpre, session_phase_store|]. intros ?.
  unfold pin_target, snapshot_free.
  apply hoare_if; intros Em.
  { apply bool_decide_eq_true in Em. rewrite Em. change (bool_decide _) with true. cbn [orb].
    eapply hoare_weaken; [apply Hpost, subscribe_phase_pins|intros c; apply fresh_held|done|done]. }
  apply hoare_if; intros Em'.
  { apply bool_decide_eq_true in Em'. rewrite Em'. change (bool_decide _) with true. cbn [orb].
    eapply hoare_weaken; [apply Hpre, unsubscribe_phase_store|done|intros ? c; apply fresh_held|done]. }
  eapply hoare_bind.
  { apply hoare_if; intros _; [apply Hpre, terminate_phase_store|by apply hoare_ret]. } intros ?.
  apply bool_decide_eq_false in Em, Em'.
  rewrite (bool_decide_eq_false_2 (req_method req ∈ _)) by (rewrite !elem_of_cons, elem_of_nil; tauto).
  cbn [orb]. apply hoare_if; intros Hb; rewrite Hb.
  { eapply hoare_weaken; [apply Hpre, on_resp_store|done|intros ? c; apply fresh_held|done]. }
  eapply hoare_bind; [apply Hpre, canonical_phase_store|]. intros ?.
  rewrite bool_decide_eq_false_2 by done. unfold dispatch_phase.
  eapply hoare_bind; [eapply hoare_weaken; [by apply snapshot_phase_held|done|done|done]|]. intros [snap|].
  - eapply hoare_bind; [apply Hpost, old_snapshot_phase_pins|]. intros old.
    eapply hoare_bind; [apply Hpost, core_phase_pins|]. intros ?. apply Hpost, advance_phase_pins.
  - apply Hpost. intros c. apply on_resp_store.
Qed.

(** Taking the pin back. *)
Lemma unpin_held bal p : hoare (held bal p) unpin_phase
  (λ _ c, c_pinned c = p ∧ ∀ s, pin_count s (c_st c) = bal s) (λ _, False).
Proof.
  apply hoare_modify. intros c [Hp Hc]. rewrite Hp. destruct p as [|a p'] eqn:E.
  - split; [done|]. intros s. rewrite Hc, bool_decide_eq_false_2 by naive_solver. lia.
  - rewrite <-E in *. assert (p ≠ EmptyString) by by rewrite E.
    replace (negb (is_empty p)) with true by by rewrite E. split; [done|]. intros s.
    unfold pin_count at 1. cbn. destruct (decide (s = p)) as [->|Hne].
    + rewrite lookup_insert_eq. cbn. rewrite Hc, bool_decide_eq_true_2 by done. lia.
    + rewrite lookup_insert_ne by done. fold (pin_count s (c_st c)).
      rewrite Hc, bool_decide_eq_false_2 by naive_solver. lia.
Qed.

Lemma pipe_message_balanced sw json c req out c' :
  state_ok (c_st c) → parse_request_json json = Ok req → req_method req ≠ "snapshot.capture" →
  pipe_message sw json c = (Ok out, c') → ∀ s, pin_count s (c_st c') = pin_count s (c_st c).
Proof.
  intros Hok Hp Hm E. set (bal := λ s, pin_count s (c_st c)). set (sn := snaps (c_st c)).
  assert (sn !! EmptyString = None) as Hsn.
  { destruct (sn !! EmptyString) eqn:Es; [|done]. exfalso.
    destruct (so_snaps _ Hok EmptyString) as (k & _ & Hk); [unfold sn in Es; eauto|done]. }
  assert (hoare (λ x, x = c) (pipe_message sw json)
            (λ _ x, ∀ s, pin_count s (c_st x) = bal s) (λ _, True)) as Hh.
  { unfold pipe_message. apply (hoare_bind (λ _, fresh bal sn)).
    { apply hoare_modify. intros x ->. by split. } intros ?.
    apply (hoare_bind (λ _ x, ∃ p, held bal p x)).
    { apply (hoare_try _ _ _ _ (λ x, ∃ p, held bal p x)).
      - unfold process. apply (hoare_bind (λ r x, r = req ∧ fresh bal sn x)).
        { apply hoare_lift. intros x Hx. by rewrite Hp. } intros r.
        intros x [-> Hx]. revert x Hx. apply (hoare_bind (λ _, fresh bal sn)).
        { eapply hoare_weaken; [apply keeps_fresh, on_resp_store|done|done|eauto]. } intros ?.
        apply (hoare_bind (λ _, fresh bal sn)); [by apply hoare_gets|]. intros cs.
        apply hoare_if; intros _.
        + eapply hoare_bind; [eapply hoare_weaken; [apply keeps_fresh, same_store_world|done|done|eauto]|].
          intros ?. eapply hoare_weaken; [apply keeps_fresh, on_resp_store|done| |eauto].
          intros ? x Hx. exists EmptyString. by apply (fresh_held bal sn).
        + eapply hoare_weaken; [by apply serve_held|done|intros ? x Hx; exists (pin_target sw req sn); exact Hx|done].
      - intros w. apply hoare_modify. intros x (p & Hx). exists p. by destruct Hx; split. } intros ?.
    apply (hoare_bind (λ _ x, ∃ p, held bal p x)); [by apply hoare_gets|]. intros o.
    apply (hoare_bind (λ _ x, ∀ s, pin_count s (c_st x) = bal s)).
    { intros x (p & Hx). pose proof (unpin_held bal p x Hx) as Hu.
      destruct (unpin_phase x) as [[[]| | |] x']; tauto. } intros ?. by apply hoare_ret. }
  specialize (Hh c eq_refl). by rewrite E in Hh.
Qed.

(** C20: Every request gives back exactly the pin it took: after any request
    other than a capture, served or refused or ended by an exception, the pin
    count of every snapshot is what it was before. *)
Theorem request_pins_balanced sw json c req out c' :
  state_ok (c_st c) → parse_request_json json = Ok req → req_method req ≠ "snapshot.capture" →
  pipe_message sw json c = (Ok out, c') → ∀ s, pin_count s (c_st c') = pin_count s (c_st c).
Proof. apply pipe_message_balanced. Qed.

Lemma pipe_disconnect_unpins c u c' :
  c_pinned c ≠ EmptyString → pipe_disconnect c = (Ok u, c') →
  pin_count (c_pinned c) (c_st c') = pin_count (c_pinned c) (c_st c) - 1.
Proof.
  intros Hne. unfold pipe_disconnect, unpin_phase, on_st, mbind, M_bind, modify. cbv beta iota.
  destruct (c_pinned c) as [|a p] eqn:E; [done|]. cbn [is_empty negb].
  match goal with |- context [in_world (LOG INFO ?m) ?x] =>
    destruct (in_world_LOG INFO m x) as (c1 & -> & Hst) end.
  intros [= _ <-]. rewrite Hst. unfold pin_count at 1. cbn. by rewrite lookup_insert_eq.
Qed.

(** A connection whose last request used a snapshot gives its pin back
    twice: once after the answer and once more when it closes, because the
    variable that remembers the snapshot is cleared only when a further message
    arrives.  The count ends one below where it started, so a later request
    that pins the snapshot no longer protects it from eviction. *)
Theorem disconnect_unpins_twice sw json c req out c1 u c2 :
  state_ok (c_st c) → parse_request_json json = Ok req → req_method req ≠ "snapshot.capture" →
  pipe_message sw json c = (Ok out, c1) → c_pinned c1 ≠ EmptyString →
  pipe_disconnect c1 = (Ok u, c2) →
  pin_count (c_pinned c1) (c_st c2) = pin_count (c_pinned c1) (c_st c) - 1.
Proof.
  intros Hok Hp Hm E Hne Hd. rewrite (pipe_disconnect_unpins c1 u c2 Hne Hd).
  by rewrite (pipe_message_balanced sw json c req out c1).
Qed.
End Pins.

Definition one_snapshot : ServerState :=
  (store_snapshot (mkSnapshot [1]) (ServerState_init Limits_default)).2.

Lemma one_snapshot_ok : state_ok one_snapshot.
Proof. apply store_snapshot_ok; [apply init_ok|cbn; lia]. Qed.

Definition use_request : string := request_text "8" "window.listTop" [("snapshot_id", JStr "s-1")].

Lemma request_pins_balanced_witness :
  match pipe_message (H0 := test_clock) (H1 := test_watchdog) open_switches use_request
          (auth_conn one_snapshot) with
  | (Ok _, c') => pin_count "s-1" (c_st c') = 0
  | _ => False
  end.
Proof.
  destruct (pipe_message (H0 := test_clock) (H1 := test_watchdog) open_switches use_request
              (auth_conn one_snapshot)) as [[out| | |] c'] eqn:E; try (vm_compute in E; discriminate E).
  rewrite (request_pins_balanced (H0 := test_clock) (H1 := test_watchdog) open_switches use_request
             (auth_conn one_snapshot) (mkCoreRequest "8" "window.listTop" [("snapshot_id", JStr "s-1")])
             out c' one_snapshot_ok); [by vm_compute|by vm_compute|done|exact E].
Defined.

Lemma disconnect_unpins_twice_witness :
  match pipe_message (H0 := test_clock) (H1 := test_watchdog) open_switches use_request
          (auth_conn one_snapshot) with
  | (Ok _, c1) => match pipe_disconnect (H0 := test_clock) c1 with
                  | (Ok _, c2) => pin_count "s-1" (c_st c2) = -1
                  | _ => False
                  end
  | _ => False
  end.
Proof.
  destruct (pipe_message (H0 := test_clock) (H1 := test_watchdog) open_switches use_request
              (auth_conn one_snapshot)) as [[out| | |] c1] eqn:E1; try (vm_compute in E1; discriminate E1).
  assert (c_pinned c1 = "s-1") as Hp by (vm_compute in E1; by injection E1 as _ <-).
  destruct (pipe_disconnect_returns (H1 := test_clock) c1) as (c2 & E2). rewrite E2.
  pose proof (disconnect_unpins_twice (H0 := test_clock) (H1 := test_watchdog) open_switches use_request
             (auth_conn one_snapshot) (mkCoreRequest "8" "window.listTop" [("snapshot_id", JStr "s-1")])
             out c1 () c2 one_snapshot_ok) as Hd.
  rewrite Hp in Hd. rewrite Hd; [by vm_compute|by vm_compute|done|exact E1|done|exact E2].
Defined.
