(* ===== verification/Framing.v ===== *)
(** [daemon/src/pipe_win32.cpp] and the socket helpers of
    [daemon/src/tcp_server.cpp]: messages as a 32-bit little-endian length and
    the text, over a stream that delivers bytes in pieces of any size. *)

From S2P Require Import Prelude CString.

Local Open Scope Z_scope.

(** * Model *)

(** What the peer has sent and closed: the pieces that arrive together. *)
Definition stream : Type := list string.

(** One [recv] or [ReadFile] of at most [n] bytes; nothing when the stream has
    ended. *)
Definition recv (n : nat) (s : stream) : string * stream :=
  match s with
  | [] => (EmptyString, [])
  | c :: s' =>
      if (String.length c <=? n)%nat then (c, s') else (str_take n c, str_drop n c :: s')
  end.

(** [read_all] and [socket_read_all]: a piece of no bytes is a failure. *)
Fixpoint read_all_loop (fuel len : nat) (buf : string) (s : stream) : option (string * stream) :=
  match fuel with
  | O => if (len =? 0)%nat then Some (buf, s) else None
  | S fuel =>
      if (len =? 0)%nat then Some (buf, s) else
      let '(piece, s') := recv len s in
      if is_empty piece then None
      else read_all_loop fuel (len - String.length piece) (buf +:+ piece) s'
  end.

(** Each turn takes a byte at least. *)
Definition read_all (len : nat) (s : stream) : option (string * stream) :=
  read_all_loop len len EmptyString s.

(** A [uint32_t] in memory. *)
Definition le32 (n : Z) : string :=
  String (chr (n mod 256)) (String (chr (n / 256 mod 256))
    (String (chr (n / 65536 mod 256)) (String (chr (n / 16777216 mod 256)) EmptyString))).

Definition un_le32 (s : string) : Z :=
  match s with
  | String a (String b (String c (String d EmptyString))) =>
      code a + 256 * code b + 65536 * code c + 16777216 * code d
  | _ => 0
  end.

(** The bytes that [pipe_write_message] and the TCP server write for a
    message: [(uint32_t)json.size()], then that many bytes. *)
Definition write_message (json : string) : string :=
  let len := Z.of_nat (String.length json) mod 2 ^ 32 in
  le32 len +:+ str_take (Z.to_nat len) json.

(** [pipe_read_message]. *)
Definition pipe_read_message (s : stream) : option (string * stream) :=
  '(hdr, s) ← read_all 4 s;
  read_all (Z.to_nat (un_le32 hdr)) s.

(** The frame of an unencrypted TCP request: empty and oversized ones end the
    connection. *)
Definition tcp_read_message (s : stream) : option (string * stream) :=
  '(hdr, s) ← read_all 4 s;
  let len := un_le32 hdr in
  if (len =? 0) || (10 * 1024 * 1024 <? len) then None
  else read_all (Z.to_nat len) s.

(** * Proofs *)

(** The bytes of a stream. *)
Definition bytes (s : stream) : string := foldr (λ c r, c +:+ r) EmptyString s.
(** Pieces carry at least one byte. *)
Definition stream_ok (s : stream) : Prop := Forall (λ c, c ≠ EmptyString) s.

Lemma str_take_drop n s : str_take n s +:+ str_drop n s = s.
Proof.
  revert n. induction s as [|c s IH]; intros [|n]; try done.
  cbn [str_take str_drop]. by rewrite str_app_cons, IH.
Qed.

Lemma str_take_length n s : (n ≤ String.length s)%nat → String.length (str_take n s) = n.
Proof. revert n. induction s as [|c s IH]; intros [|n] Hn; simpl in *; try lia. rewrite IH; lia. Qed.

Lemma str_drop_length n s : String.length (str_drop n s) = (String.length s - n)%nat.
Proof. revert n. induction s as [|c s IH]; intros [|n]; simpl; rewrite ?IH; done. Qed.

Lemma str_length_zero s : String.length s = 0%nat → s = EmptyString.
Proof. by destruct s. Qed.

(** A piece is a part of the bytes, no longer than asked for, and not empty
    while there are bytes. *)
Lemma recv_spec n s :
  stream_ok s → (0 < n)%nat →
  let '(piece, s') := recv n s in
  bytes s = piece +:+ bytes s' ∧ stream_ok s' ∧ (String.length piece ≤ n)%nat
  ∧ (piece = EmptyString → bytes s = EmptyString).
Proof.
  intros Hs Hn. destruct s as [|c s]; [by split_and!; [| |simpl; lia|]|].
  inversion_clear Hs as [|? ? Hc Hs']. cbn [recv].
  destruct (Nat.leb_spec (String.length c) n) as [Hle|Hgt].
  - split_and!; [done|done|done|]. by intros ->.
  - split_and!.
    + change (bytes (str_drop n c :: s)) with (str_drop n c +:+ bytes s).
      by rewrite <-str_app_assoc, str_take_drop.
    + constructor; [|done]. intros E. apply (f_equal String.length) in E.
      rewrite str_drop_length in E. simpl in E. lia.
    + rewrite str_take_length; lia.
    + intros E. apply (f_equal String.length) in E. rewrite str_take_length in E by lia. simpl in E. lia.
Qed.

Lemma read_all_loop_spec fuel len buf s :
  stream_ok s → (len ≤ fuel)%nat →
  match read_all_loop fuel len buf s with
  | Some (out, s') => ∃ got, out = buf +:+ got ∧ String.length got = len
                             ∧ bytes s = got +:+ bytes s' ∧ stream_ok s'
  | None => (String.length (bytes s) < len)%nat
  end.
Proof.
  revert len buf s. induction fuel as [|fuel IH]; intros len buf s Hs Hf; cbn [read_all_loop].
  - replace len with 0%nat by lia. exists EmptyString. by rewrite str_app_nil_r.
  - destruct (Nat.eqb_spec len 0) as [->|Hne]; [exists EmptyString; by rewrite str_app_nil_r|].
    pose proof (recv_spec len s Hs ltac:(lia)) as Hr. destruct (recv len s) as [piece s'].
    destruct Hr as (Hb & Hs' & Hle & Hemp). destruct piece as [|a p] eqn:Ep; cbn [is_empty].
    { rewrite (Hemp eq_refl). simpl. lia. }
    rewrite <-Ep in *. assert (1 ≤ String.length piece)%nat by (rewrite Ep; simpl; lia).
    specialize (IH (len - String.length piece)%nat (buf +:+ piece) s' Hs' ltac:(lia)).
    destruct (read_all_loop _ _ _ _) as [[out s'']|].
    + destruct IH as (got & -> & Hg & Hb' & Hok). exists (piece +:+ got). split_and!; [|..|done].
      * by rewrite str_app_assoc.
      * rewrite str_length_app. lia.
      * by rewrite Hb, Hb', str_app_assoc.
    + rewrite Hb, str_length_app. lia.
Qed.

Lemma str_app_inj (a b c d : string) :
  String.length a = String.length c → a +:+ b = c +:+ d → a = c ∧ b = d.
Proof.
  revert c. induction a as [|x a IH]; intros [|y c] Hl E; simpl in Hl; try lia; [done|].
  rewrite !str_app_cons in E. injection E as -> E. destruct (IH c) as [-> ->]; [lia|done|done].
Qed.

(** Reading what is there does not depend on how it was cut. *)
Lemma read_all_bytes s a rest :
  stream_ok s → bytes s = a +:+ rest →
  ∃ s', read_all (String.length a) s = Some (a, s') ∧ bytes s' = rest ∧ stream_ok s'.
Proof.
  intros Hs Hb. unfold read_all.
  pose proof (read_all_loop_spec (String.length a) (String.length a) EmptyString s Hs ltac:(lia)) as Hr.
  destruct (read_all_loop _ _ _ _) as [[out s']|].
  - destruct Hr as (got & -> & Hg & Hb' & Hok). rewrite Hb in Hb'.
    apply str_app_inj in Hb' as [<- Hrest]; [|done]. rewrite str_app_nil_l. by exists s'.
  - rewrite Hb, str_length_app in Hr. lia.
Qed.

Lemma un_le32_le32 n : 0 ≤ n < 2 ^ 32 → un_le32 (le32 n) = n.
Proof.
  intros Hn. unfold le32, un_le32. rewrite !code_chr by (apply Z.mod_pos_bound; lia).
  Z.to_euclidean_division_equations; lia.
Qed.

Lemma str_take_all s n : n = String.length s → str_take n s = s.
Proof. intros ->. induction s as [|c s IH]; [done|]. cbn. by rewrite IH. Qed.

Lemma write_message_small json :
  Z.of_nat (String.length json) < 2 ^ 32 →
  write_message json = le32 (Z.of_nat (String.length json)) +:+ json.
Proof.
  intros Hl. unfold write_message. rewrite Z.mod_small by lia. by rewrite str_take_all by lia.
Qed.

Lemma read_header s json rest :
  stream_ok s → Z.of_nat (String.length json) < 2 ^ 32 → bytes s = write_message json +:+ rest →
  ∃ s1, read_all 4 s = Some (le32 (Z.of_nat (String.length json)), s1)
        ∧ bytes s1 = json +:+ rest ∧ stream_ok s1.
Proof.
  intros Hs Hl Hb. rewrite write_message_small, str_app_assoc in Hb by done.
  by apply (read_all_bytes s (le32 (Z.of_nat (String.length json)))).
Qed.

Lemma pipe_read_bytes s json rest :
  stream_ok s → Z.of_nat (String.length json) < 2 ^ 32 → bytes s = write_message json +:+ rest →
  ∃ s', pipe_read_message s = Some (json, s') ∧ bytes s' = rest ∧ stream_ok s'.
Proof.
  intros Hs Hl Hb. destruct (read_header s json rest Hs Hl Hb) as (s1 & E1 & Hb1 & Hs1).
  unfold pipe_read_message. rewrite E1. cbn [mbind option_bind]. rewrite un_le32_le32, Nat2Z.id by lia.
  by apply read_all_bytes.
Qed.

(** A message that one end writes is what the other end of a pipe reads,
    however the bytes are cut into pieces on the way, and what follows it in the
    stream is left for the next read. *)
Theorem pipe_message_roundtrip s json rest :
  stream_ok s → Z.of_nat (String.length json) < 2 ^ 32 → bytes s = write_message json +:+ rest →
  ∃ s', pipe_read_message s = Some (json, s') ∧ bytes s' = rest ∧ stream_ok s'.
Proof. apply pipe_read_bytes. Qed.

Lemma pipe_message_roundtrip_witness :
  ∃ s', pipe_read_message [str_take 3 (write_message "hello"); str_drop 3 (write_message "hello") +:+ "x"]
        = Some ("hello", s') ∧ bytes s' = "x" ∧ stream_ok s'.
Proof.
  apply pipe_message_roundtrip; [repeat constructor; by vm_compute|by vm_compute|by vm_compute].
Defined.

(** The TCP server reads a message of one byte to ten mebibytes as it was
    sent, however it was cut, and ends the connection, before it reads any of
    the text, on an empty or a larger one. *)
Theorem tcp_message_limits s json rest :
  stream_ok s → Z.of_nat (String.length json) < 2 ^ 32 → bytes s = write_message json +:+ rest →
  (0 < Z.of_nat (String.length json) ≤ 10485760 →
     ∃ s', tcp_read_message s = Some (json, s') ∧ bytes s' = rest ∧ stream_ok s')
  ∧ (¬ (0 < Z.of_nat (String.length json) ≤ 10485760) → tcp_read_message s = None).
Proof.
  intros Hs Hl Hb. destruct (read_header s json rest Hs Hl Hb) as (s1 & E1 & Hb1 & Hs1).
  unfold tcp_read_message. rewrite E1. cbn [mbind option_bind]. rewrite un_le32_le32 by lia.
  change (10 * 1024 * 1024) with 10485760. split; intros Hr.
  - rewrite (proj2 (Z.eqb_neq _ 0)), (proj2 (Z.ltb_ge _ _)) by lia. cbn. rewrite Nat2Z.id.
    by apply read_all_bytes.
  - destruct (Z.eqb_spec (Z.of_nat (String.length json)) 0); [done|].
    rewrite (proj2 (Z.ltb_lt _ _)) by lia. done.
Qed.

Lemma tcp_message_limits_witness :
  (∃ s', tcp_read_message [write_message "hello" +:+ "y"] = Some ("hello", s') ∧ bytes s' = "y" ∧ stream_ok s')
  ∧ tcp_read_message [write_message EmptyString +:+ "y"] = None.
Proof.
  split.
  - apply (tcp_message_limits [write_message "hello" +:+ "y"] "hello" "y");
      [by repeat constructor|by vm_compute|by vm_compute|cbn; lia].
  - apply (tcp_message_limits [write_message EmptyString +:+ "y"] EmptyString "y");
      [by repeat constructor|by vm_compute|by vm_compute|cbn; lia].
Defined.
