(* ===== verification/Crypto.v ===== *)
(** [core/src/crypto.cpp]: the session encryption and the checking of SSH
    signatures.  The primitives of the Windows CNG library (ECDH, AES-GCM,
    Ed25519) are parameters, with the laws that CNG documents for them. *)

From S2P Require Import Prelude StdMap CString Base64 Types Backend Core.

Local Open Scope Z_scope.

(** * The library *)

(** What the code asks of CNG; [None] and [false] are failure statuses. *)
Class BCrypt := {
  LocalKey : Type;
  SessionKey : Type;
  open_ecdh : bool;
  generate_key_pair : option LocalKey;
  export_public : LocalKey → list Z;
  (** import of a public blob, agreement, and the SHA-256 derivation *)
  derive_secret : LocalKey → list Z → option (list Z);
  open_aes_gcm : bool;
  symmetric_key : list Z → option SessionKey;
  (** ciphertext and tag *)
  gcm_encrypt : SessionKey → list Z → list Z → option (list Z * list Z);
  gcm_decrypt : SessionKey → list Z → list Z → list Z → option (list Z);
  open_ed25519 : bool;
  (** public key, message, 64 bytes of signature *)
  ed25519_verify : list Z → list Z → list Z → bool;
}.

(** AES-GCM decrypts what it encrypted; the tag has 16 bytes. *)
Class GcmLaws `{BCrypt} := {
  gcm_roundtrip k n p ct tag :
    gcm_encrypt k n p = Some (ct, tag) → gcm_decrypt k n tag ct = Some p ∧ length tag = 16%nat;
}.

(** * Sessions *)

Section Crypto.
Context `{BCrypt}.

(** [CryptoSession] with the handles of its [BCryptState]. *)
Record CryptoSession := mkCryptoSession {
  initialized_ : bool;
  hAlgECDH : bool;
  hLocalKey : option LocalKey;
  hSessionKey : option SessionKey;
  nonce_counter_ : Z }.

Definition CryptoSession_new : CryptoSession := mkCryptoSession false false None None 0.

Definition generate_local_key (cs : CryptoSession) : list Z * CryptoSession :=
  if negb open_ecdh then ([], cs) else
  match generate_key_pair with
  | None => ([], mkCryptoSession (initialized_ cs) true (hLocalKey cs) (hSessionKey cs) (nonce_counter_ cs))
  | Some k =>
      (export_public k,
       mkCryptoSession (initialized_ cs) true (Some k) (hSessionKey cs) (nonce_counter_ cs))
  end.

Definition compute_shared_secret (remote_pubkey : list Z) (cs : CryptoSession) : bool * CryptoSession :=
  match hLocalKey cs with
  | None => (false, cs)
  | Some k =>
      match derive_secret k remote_pubkey with
      | None => (false, cs)
      | Some derived =>
          if negb open_aes_gcm then (false, cs) else
          match symmetric_key derived with
          | None => (false, cs)
          | Some sk => (true, mkCryptoSession true (hAlgECDH cs) (hLocalKey cs) (Some sk) (nonce_counter_ cs))
          end
      end
  end.

(** A [uint64_t] copied over the first 8 of 12 zero bytes. *)
Definition nonce_bytes (n : Z) : list Z :=
  ((λ i, n / 2 ^ (8 * Z.of_nat i) mod 256) <$> seq 0 8) ++ [0; 0; 0; 0].

(** The nonce, the tag, the ciphertext; nothing on failure. *)
Definition encrypt (plaintext : string) (cs : CryptoSession) : list Z * CryptoSession :=
  match initialized_ cs, hSessionKey cs with
  | true, Some k =>
      let nonce := nonce_bytes (nonce_counter_ cs) in
      let cs' := mkCryptoSession (initialized_ cs) (hAlgECDH cs) (hLocalKey cs) (hSessionKey cs)
                   ((nonce_counter_ cs + 1) mod 2 ^ 64) in
      match gcm_encrypt k nonce (string_bytes plaintext) with
      | None => ([], cs')
      | Some (ct, tag) => (nonce ++ tag ++ ct, cs')
      end
  | _, _ => ([], cs)
  end.

Fixpoint bytes_string (l : list Z) : string :=
  match l with [] => EmptyString | b :: l' => String (chr b) (bytes_string l') end.

Definition decrypt (ciphertext : list Z) (cs : CryptoSession) : string :=
  match initialized_ cs, hSessionKey cs with
  | true, Some k =>
      if (length ciphertext <? 28)%nat then EmptyString else
      let nonce := take 12 ciphertext in
      let tag := take 16 (drop 12 ciphertext) in
      match gcm_decrypt k nonce tag (drop 28 ciphertext) with
      | None => EmptyString
      | Some p => bytes_string p
      end
  | _, _ => EmptyString
  end.

(** * Signatures *)

(** [ss >> type >> b64], then the last 32 bytes of the blob. *)
Definition parse_ssh_pubkey (line : string) : list Z :=
  let '(type, rest) := read_word line in
  let '(b64, _) := read_word rest in
  if negb (bool_decide (type = "ssh-ed25519")) then [] else
  let decoded := decode b64 in
  if (length decoded <? 32)%nat then [] else drop (length decoded - 32) decoded.

Definition verify_ssh_sig (message : list Z) (sig_b64 pubkey_line : string) : bool :=
  let raw_pubkey := parse_ssh_pubkey pubkey_line in
  if bool_decide (raw_pubkey = []) then false else
  let raw_sig := decode sig_b64 in
  if (length raw_sig <? 64)%nat then false else
  if negb open_ed25519 then false
  else ed25519_verify raw_pubkey message (take 64 raw_sig).

Definition sign_ssh_msg (message : list Z) (private_key_path : string) : string :=
  "SSHSIG_STUB_REPLACE_WITH_REAL_SIGNING".

(** * Proofs *)

Lemma bytes_string_bytes s : bytes_string (string_bytes s) = s.
Proof. induction s as [|c s IH]; [done|]. cbn. by rewrite chr_code, IH. Qed.

(** Two sessions that have agreed on a key. *)
Definition agreed (a b : CryptoSession) : Prop :=
  initialized_ a = true ∧ initialized_ b = true ∧ hSessionKey a = hSessionKey b.

Lemma nonce_length n : length (nonce_bytes n) = 12%nat.
Proof. done. Qed.

Lemma decrypt_encrypt `{!GcmLaws} a b p ct a' :
  agreed a b → encrypt p a = (ct, a') → ct ≠ [] → decrypt ct b = p.
Proof.
  intros (Ha & Hb & Hk) He Hne. unfold encrypt in He. unfold decrypt. rewrite Ha in He. rewrite Hb, <-Hk.
  destruct (hSessionKey a) as [k|]; [|by simplify_eq].
  destruct (gcm_encrypt k _ _) as [[c tag]|] eqn:E; [|by simplify_eq].
  apply gcm_roundtrip in E as [Hd Ht]. apply (f_equal fst) in He. cbn [fst] in He. subst ct.
  set (n := nonce_bytes (nonce_counter_ a)) in *. assert (length n = 12%nat) as Hn by done.
  destruct (Nat.ltb_spec (length (n ++ tag ++ c)) 28) as [Hlt|_]; [rewrite !length_app in Hlt; lia|].
  cbv zeta. assert (take 12 (n ++ tag ++ c) = n) as -> by by rewrite <-Hn, take_app_length.
  assert (drop 12 (n ++ tag ++ c) = tag ++ c) as -> by by rewrite <-Hn, drop_app_length.
  assert (take 16 (tag ++ c) = tag) as -> by by rewrite <-Ht, take_app_length.
  assert (drop 28 (n ++ tag ++ c) = c) as ->.
  { replace 28%nat with (length (n ++ tag)) by (rewrite length_app; lia).
    rewrite app_assoc. apply drop_app_length. }
  rewrite Hd. apply bytes_string_bytes.
Qed.

(** C36: A message that one end of an encrypted session sends is what the other
    end reads, for any session pair with the same key, given that AES-GCM
    decrypts what it encrypts. *)
Theorem session_roundtrip `{!GcmLaws} a b p ct a' :
  agreed a b → encrypt p a = (ct, a') → ct ≠ [] → decrypt ct b = p.
Proof. apply decrypt_encrypt. Qed.

(** The state after encrypting a list of messages. *)
Definition encrypt_all (ps : list string) (cs : CryptoSession) : CryptoSession :=
  foldl (λ cs p, (encrypt p cs).2) cs ps.

Lemma encrypt_key p cs :
  hSessionKey (encrypt p cs).2 = hSessionKey cs ∧ initialized_ (encrypt p cs).2 = initialized_ cs.
Proof.
  unfold encrypt. destruct (initialized_ cs) eqn:E; [|done].
  destruct (hSessionKey cs) eqn:E'; [|done]. destruct (gcm_encrypt _ _ _) as [[]|]; by rewrite ?E, ?E'.
Qed.

Lemma encrypt_all_counter ps cs k :
  initialized_ cs = true → hSessionKey cs = Some k → 0 ≤ nonce_counter_ cs < 2 ^ 64 →
  nonce_counter_ (encrypt_all ps cs) = (nonce_counter_ cs + Z.of_nat (length ps)) mod 2 ^ 64
  ∧ hSessionKey (encrypt_all ps cs) = Some k ∧ initialized_ (encrypt_all ps cs) = true.
Proof.
  revert cs. induction ps as [|p ps IH]; intros cs Hi Hk Hc.
  { cbn. rewrite Z.add_0_r, Z.mod_small by lia. done. }
  destruct (encrypt_key p cs) as [Hk' Hi'].
  assert (nonce_counter_ (encrypt p cs).2 = (nonce_counter_ cs + 1) mod 2 ^ 64) as Hn.
  { unfold encrypt. rewrite Hi, Hk. by destruct (gcm_encrypt _ _ _) as [[]|]. }
  destruct (IH (encrypt p cs).2) as (H1 & H2 & H3); [congruence|congruence| |].
  { rewrite Hn. apply Z.mod_pos_bound. lia. }
  cbn [encrypt_all foldl]. fold (encrypt_all ps (encrypt p cs).2). split_and!; [|done|done].
  rewrite H1, Hn, Zplus_mod_idemp_l. f_equal. cbn [length]. lia.
Qed.

(** The two directions of an encrypted connection use the same nonces with
    the same key: the message a client sends after [n] messages and the message
    the server sends after [n] messages are encrypted under one nonce, since
    both ends count from zero and share one key. *)
Theorem nonce_reuse_across_directions client server ps qs k p q pc ps' :
  initialized_ client = true → initialized_ server = true →
  hSessionKey client = Some k → hSessionKey server = Some k →
  nonce_counter_ client = 0 → nonce_counter_ server = 0 → length ps = length qs →
  encrypt p (encrypt_all ps client) = (pc, ps') → pc ≠ [] → (encrypt q (encrypt_all qs server)).1 ≠ [] →
  take 12 pc = take 12 (encrypt q (encrypt_all qs server)).1.
Proof.
  intros Hic His Hkc Hks Hnc Hns Hl He Hne Hne'.
  destruct (encrypt_all_counter ps client k) as (C1 & C2 & C3); [done|done|lia|].
  destruct (encrypt_all_counter qs server k) as (S1 & S2 & S3); [done|done|lia|].
  rewrite Hnc in C1. rewrite Hns, <-Hl, <-C1 in S1.
  unfold encrypt in *. rewrite C3, C2 in He. rewrite S3, S2 in *. rewrite S1 in *.
  destruct (gcm_encrypt k _ (string_bytes p)) as [[c1 t1]|]; [|by simplify_eq].
  destruct (gcm_encrypt k _ (string_bytes q)) as [[c2 t2]|]; [|by simplify_eq].
  injection He as <- _. done.
Qed.

(** The client's signing function can never satisfy the server: what
    [sign_ssh_msg] returns is rejected by [verify_ssh_sig] for every message,
    key file and authorized key, whatever the signature library does. *)
Theorem stub_signature_rejected message path line :
  verify_ssh_sig message (sign_ssh_msg message path) line = false.
Proof.
  unfold verify_ssh_sig. destruct (bool_decide _); [done|].
  replace (length (decode (sign_ssh_msg message path)) <? 64)%nat with true by by vm_compute. done.
Qed.
End Crypto.

(** * A concrete library *)

(** A cipher that copies, with a constant tag, for evaluating the model. *)
Definition test_bcrypt : BCrypt := {|
  LocalKey := list Z; SessionKey := list Z;
  open_ecdh := true; generate_key_pair := Some [1]; export_public := λ k, 2 :: k;
  derive_secret := λ k r, Some (k ++ r); open_aes_gcm := true; symmetric_key := Some;
  gcm_encrypt := λ _ _ p, Some (p, repeat 7 16);
  gcm_decrypt := λ _ _ _ c, Some c;
  open_ed25519 := true; ed25519_verify := λ pk m s, true |}.

#[export] Instance test_bcrypt_laws : GcmLaws (H := test_bcrypt).
Proof. split. intros k n p ct tag [= <- <-]. done. Qed.

Definition test_session : CryptoSession (H := test_bcrypt) :=
  mkCryptoSession (H := test_bcrypt) true true (Some [1]) (Some [5]) 0.

Lemma session_roundtrip_witness :
  decrypt (H := test_bcrypt) (encrypt (H := test_bcrypt) "hi" test_session).1 test_session = "hi".
Proof.
  destruct (encrypt (H := test_bcrypt) "hi" test_session) as [ct a'] eqn:E. cbn [fst].
  eapply (session_roundtrip (H := test_bcrypt)); [|exact E|]; [done|].
  vm_compute in E. by injection E as <- _.
Defined.

Lemma nonce_reuse_across_directions_witness :
  let enc p := encrypt (H := test_bcrypt) p (encrypt_all (H := test_bcrypt) ["x"] test_session) in
  take 12 (enc "request").1 = take 12 (enc "answer").1.
Proof.
  cbv zeta.
  destruct (encrypt (H := test_bcrypt) "request" (encrypt_all (H := test_bcrypt) ["x"] test_session))
    as [pc ps'] eqn:E. cbn [fst].
  eapply (nonce_reuse_across_directions (H := test_bcrypt) test_session test_session ["x"] ["x"] [5] "request" "answer");
    [done..|exact E| |].
  - vm_compute in E. by injection E as <- _.
  - by vm_compute.
Defined.
