(* ===== verification/Tcp.v ===== *)
(** [daemon/src/tcp_server.cpp]: the handshake of a TCP connection, its request
    handler, and a whole connection over a stream of bytes. *)

From S2P Require Import Prelude StdMap CString Double Json Base64 Types Logger Backend Core.
From S2P Require Import Crypto ServerState Server Framing.

Local Open Scope Z_scope.

Section Tcp.
Context {B : Type} `{IBackend B} `{Clock} `{Watchdog} `{BCrypt}.

Abbreviation Act := (M (Conn B)).

(** * Identity *)

Record AuthContext := mkAuthContext {
  ac_keys_data : string; ac_identity : string; ac_sig_b64 : string; ac_nonce : list Z }.

(** The lines of the key file; the first that contains the identity decides. *)
Fixpoint verify_lines (ctx : AuthContext) (lines : list string) : bool :=
  match lines with
  | [] => false
  | line :: lines =>
      if is_empty line || head_is (λ c, ascii_eqb c "#") line then verify_lines ctx lines
      else if contains (ac_identity ctx) line
      then verify_ssh_sig (ac_nonce ctx) (ac_sig_b64 ctx) line
      else verify_lines ctx lines
  end.

Definition newline : ascii := chr 10.
Definition verify_identity (ctx : AuthContext) : bool :=
  verify_lines ctx (getlines newline (ac_keys_data ctx)).

(** * Handshake *)

Definition challenge_json (auth_keys : string) (nonce server_pubkey : list Z) : Value :=
  obj ([("type", JStr "hello"); ("version", JStr PROTOCOL_VERSION)]
       ++ if negb (is_empty auth_keys)
          then ("nonce", JStr (Base64.encode nonce))
               :: match server_pubkey with
                  | [] => []
                  | pk => [("pubkey", JStr (Base64.encode pk))]
                  end
          else []).

Definition auth_status_json : Value := obj [("type", JStr "auth_status"); ("ok", JBool true)].

(** The [try] block: whether the client is let in, and the session after the
    key exchange.  An exception is a refusal. *)
Definition check_answer (auth_keys : string) (nonce : list Z) (cs : CryptoSession) (resp_json : string)
    : result (option (CryptoSession * bool)) :=
  v ← json_parse resp_json ≫= as_obj;
  version ← obj_at "version" v ≫= as_str;
  if negb (bool_decide (version = PROTOCOL_VERSION)) then Ok None else
  identity ← obj_at "identity" v ≫= as_str;
  signature ← obj_at "signature" v ≫= as_str;
  if negb (verify_identity (mkAuthContext auth_keys identity signature nonce)) then Ok None else
  match get_str v "pubkey" with
  | Some pk =>
      let '(ok, cs) := compute_shared_secret (Base64.decode pk) cs in Ok (Some (cs, negb ok))
  | None => Ok (Some (cs, false))
  end.

(** The client's answer: any length, but [recv] takes it as an [int] and fails
    on a negative one. *)
Definition read_answer (s : stream) : option (string * stream) :=
  '(hdr, s) ← read_all 4 s;
  let rlen := un_le32 hdr in
  if 2 ^ 31 <=? rlen then None else read_all (Z.to_nat rlen) s.

(** The texts that the server sends, and the session and the rest of the stream
    when it goes on to serve requests.  Sending succeeds; [nonce] is what the
    random generator gives. *)
Definition handshake (auth_keys : string) (nonce : list Z) (s : stream)
    : M (World B) (list string * option (CryptoSession * stream)) :=
  let '(server_pubkey, cs) := generate_local_key CryptoSession_new in
  let hello := dumps (challenge_json auth_keys nonce server_pubkey) in
  if is_empty auth_keys then mret ([hello], Some (cs, s)) else
  match read_answer s with
  | None => mret ([hello], None)
  | Some (resp_json, s) =>
      match check_answer auth_keys nonce cs resp_json with
      | Ok (Some (cs, failed)) =>
          _ ← (if failed : bool then LOG DEBUG "ECDH shared secret computation failed" else mret ());
          mret ([hello; dumps auth_status_json], Some (cs, s))
      | Ok None | Throw _ => mret ([hello], None)
      | Undef => lift_result Undef
      | OutOfFuel => lift_result OutOfFuel
      end
  end.

(** * Requests *)

(** The session that the request names, unless there are too many; [false] when
    the request is answered. *)
Definition tcp_session_phase (req : CoreRequest) : Act bool :=
  match get_str (req_params req) "session_id" with
  | Some sid =>
      st ← gets c_st;
      if (max_sessions (limits st) <=? Z.of_nat (size (sessions st)))
         && negb (bool_decide (is_Some (sessions st !! sid))) then
        _ ← on_resp (set_error "E_TOO_MANY_SESSIONS" "session limit reached");
        mret false
      else
        t ← in_world now;
        _ ← on_session (recover_session sid t);
        mret true
  | None => mret true
  end.

(** The TCP server does not log a terminated session. *)
Definition tcp_terminate_phase : Act () :=
  cs ← gets c_session;
  if negb (SessionID_empty (cs_id cs)) then on_session terminate_state else mret ().

Definition tcp_dispatch_phase (admin : bool) (req : CoreRequest) : Act () :=
  snap ← snapshot_phase (λ _ st, st) req;
  match snap with
  | None => on_resp (set_error "E_BAD_SNAPSHOT" "unknown snapshot")
  | Some snap =>
      old ← old_snapshot_phase req;
      _ ← core_phase admin EmptyString req snap old;
      advance_phase req
  end.

Definition tcp_serve (ro admin : bool) (req : CoreRequest) : Act () :=
  continue ← tcp_session_phase req;
  if negb continue then mret ()
  else if bool_decide (req_method req = "events.subscribe") then subscribe_phase
  else if bool_decide (req_method req = "events.unsubscribe") then unsubscribe_phase
  else
    _ ← (if bool_decide (req_method req = "session.terminate") then tcp_terminate_phase else mret ());
    if ro && read_only_blocks (req_method req)
    then on_resp (set_error "E_ACCESS_DENIED" "daemon is running in read-only mode")
    else
      _ ← canonical_phase req;
      if bool_decide (req_method req = "snapshot.capture") then capture_phase
      else tcp_dispatch_phase admin req.

(** [catch (...)]. *)
Definition tcp_bad_request (r : CoreResponse) : CoreResponse :=
  mkCoreResponse (resp_id r) false (resp_result r) "E_BAD_REQUEST" (resp_error_message r) (resp_metrics r).

(** One turn of the loop: a fresh session per request, the answer's text, the
    pin given back. *)
Definition tcp_message (ro admin : bool) (json : string) : Act string :=
  _ ← modify (λ c, set_session ClientSession_default
                     (set_pinned EmptyString (set_canonical false (set_resp CoreResponse_default c))));
  _ ← try_catch
        (req ← lift_result (parse_request_json json);
         _ ← on_resp (set_id (req_id req));
         tcp_serve ro admin req)
        (λ _, on_resp tcp_bad_request);
  out ← gets (λ c, serialize_response_json (c_resp c) (c_canonical c));
  _ ← unpin_phase;
  mret out.

(** * Transport *)

(** [encrypted_recv]: bounded frames, and an empty text is a failure. *)
Definition encrypted_recv (cs : CryptoSession) (s : stream) : option (string * stream) :=
  '(ct, s) ← tcp_read_message s;
  let plaintext := decrypt (string_bytes ct) cs in
  if is_empty plaintext then None else Some (plaintext, s).

(** [encrypted_send]: nothing is sent when encryption fails. *)
Definition encrypted_send (plaintext : string) (cs : CryptoSession) : option string * CryptoSession :=
  let '(ct, cs) := encrypt plaintext cs in
  match ct with [] => (None, cs) | _ => (Some (bytes_string ct), cs) end.

Definition receive (encrypted : bool) (cs : CryptoSession) (s : stream) : option (string * stream) :=
  if encrypted then encrypted_recv cs s else tcp_read_message s.

Definition transmit (encrypted : bool) (out : string) (cs : CryptoSession) : list string * CryptoSession :=
  if encrypted then
    match encrypted_send out cs with (Some ct, cs) => ([ct], cs) | (None, cs) => ([], cs) end
  else ([out], cs).

(** The loop until the stream ends; each message takes at least a byte of it. *)
Fixpoint tcp_loop (fuel : nat) (ro admin encrypted : bool) (cs : CryptoSession) (s : stream)
    : Act (list string) :=
  match fuel with
  | O => lift_result OutOfFuel
  | S fuel =>
      match receive encrypted cs s with
      | None => mret []
      | Some (json, s) =>
          out ← tcp_message ro admin json;
          let '(sent, cs) := transmit encrypted out cs in
          rest ← tcp_loop fuel ro admin encrypted cs s;
          mret (sent ++ rest)
      end
  end.

(** [handle_socket_client]. *)
Definition handle_socket_client (auth_keys : string) (ro admin : bool) (nonce : list Z) (s : stream)
    : Act (list string) :=
  r ← in_world (handshake auth_keys nonce s);
  match r with
  | (sent, None) => mret sent
  | (sent, Some (cs, s)) =>
      rest ← tcp_loop (S (String.length (bytes s))) ro admin (initialized_ cs) cs s;
      mret (sent ++ rest)
  end.
End Tcp.
