(* ===== verification/TcpProps.v ===== *)
(** Properties of the TCP server: who is let in, when a connection is
    encrypted, how many sessions there can be, and that every connection is
    served to its end. *)

From S2P Require Import Prelude StdMap CString Double Json JsonTotal Base64 Types Logger Backend FakeBackend Core.
From S2P Require Import Hoare CoreProps Live ServerState ServerStateProps Server ServerProps ServerGates.
From S2P Require Import Framing Crypto Tcp.

Local Open Scope Z_scope.

(** * Identity *)

Section Identity.
Context `{BCrypt}.

(** A line of the key file that says nothing about the identity. *)
Definition skipped (identity line : string) : Prop :=
  line = EmptyString ∨ head_is (λ c, ascii_eqb c "#") line = true ∨ contains identity line = false.

Lemma verify_lines_spec ctx lines :
  verify_lines ctx lines = true ↔
  ∃ pre line post,
    lines = pre ++ line :: post ∧ Forall (skipped (ac_identity ctx)) pre
    ∧ ¬ skipped (ac_identity ctx) line ∧ verify_ssh_sig (ac_nonce ctx) (ac_sig_b64 ctx) line = true.
Proof.
  assert (∀ l, ¬ skipped (ac_identity ctx) l ↔
            is_empty l || head_is (λ c, ascii_eqb c "#") l = false ∧ contains (ac_identity ctx) l = true) as Hsk.
  { intros l. unfold skipped. destruct l as [|a l]; [cbn; naive_solver|]. cbn [is_empty orb].
    destruct (head_is _ _), (contains _ _); naive_solver. }
  induction lines as [|l lines IH]; cbn [verify_lines].
  { split; [done|]. intros ([] & ? & ? & ? & _); done. }
  assert (Hskip : skipped (ac_identity ctx) l →
    verify_lines ctx lines = true ↔ ∃ pre line post,
      l :: lines = pre ++ line :: post ∧ Forall (skipped (ac_identity ctx)) pre
      ∧ ¬ skipped (ac_identity ctx) line ∧ verify_ssh_sig (ac_nonce ctx) (ac_sig_b64 ctx) line = true).
  { intros Hl. rewrite IH. split.
    - intros (pre & line & post & -> & Hf & Hr). exists (l :: pre), line, post. split_and!; [done|by constructor|naive_solver..].
    - intros ([|x pre] & line & post & [= <- ->] & Hf & Hns & Hr); [done|].
      inversion Hf. by exists pre, line, post. }
  destruct (is_empty l || _) eqn:E1.
  { apply Hskip. unfold skipped. destruct l; [by left|]. cbn [is_empty orb] in E1. auto. }
  destruct (contains (ac_identity ctx) l) eqn:E2; [|apply Hskip; unfold skipped; auto].
  assert (¬ skipped (ac_identity ctx) l) as Hns by by apply Hsk.
  split.
  - intros Hv. by exists [], l, lines.
  - intros ([|x pre] & line & post & [= <- ->] & Hf & _ & Hv); [done|]. by inversion Hf.
Qed.

(** The server accepts an identity and a signature exactly when the first
    line of the key file that contains the identity, empty lines and comments
    aside, carries a key that verifies the signature of this connection's
    nonce; a later line for the same identity is never tried. *)
Theorem verify_identity_spec ctx :
  verify_identity ctx = true ↔
  ∃ pre line post,
    getlines newline (ac_keys_data ctx) = pre ++ line :: post ∧ Forall (skipped (ac_identity ctx)) pre
    ∧ ¬ skipped (ac_identity ctx) line ∧ verify_ssh_sig (ac_nonce ctx) (ac_sig_b64 ctx) line = true.
Proof. apply verify_lines_spec. Qed.
End Identity.

(** * Handshake *)

Section Handshake.
Context {B : Type} `{IBackend B} `{Clock} `{Watchdog} `{BCrypt}.
Implicit Types (c : Conn B) (w : World B).

(** The client's answer [v], after the hello, is acceptable. *)
Record acceptable (auth_keys : string) (nonce : list Z) (s : stream) (s' : stream) (v : Object) : Prop := {
  ac_text : ∃ resp_json, read_answer s = Some (resp_json, s') ∧ json_parse resp_json = Ok (JObj v);
  ac_version : get_str v "version" = Some PROTOCOL_VERSION;
  ac_proof : ∃ identity signature,
    get_str v "identity" = Some identity ∧ get_str v "signature" = Some signature
    ∧ verify_identity (mkAuthContext auth_keys identity signature nonce) = true }.

Lemma obj_at_str k o t : obj_at k o ≫= as_str = Ok t → get_str o k = Some t.
Proof. unfold obj_at, get_str. destruct (map_find k o) as [[]|]; by intros [= ->]. Qed.

Lemma obj_at_str_cases k o : (∃ t, obj_at k o ≫= as_str = Ok t) ∨ (∃ what, obj_at k o ≫= as_str = Throw what).
Proof. unfold obj_at. destruct (map_find k o) as [[]|]; eauto. Qed.

(** The session that the key exchange leaves. *)
Definition exchanged (v : Object) (cs : CryptoSession) : CryptoSession :=
  match get_str v "pubkey" with
  | Some pk => (compute_shared_secret (Base64.decode pk) cs).2
  | None => cs
  end.

Lemma check_answer_accepts auth_keys nonce cs resp_json cs' failed :
  check_answer auth_keys nonce cs resp_json = Ok (Some (cs', failed)) →
  ∃ v, json_parse resp_json = Ok (JObj v) ∧ get_str v "version" = Some PROTOCOL_VERSION
    ∧ (∃ identity signature, get_str v "identity" = Some identity ∧ get_str v "signature" = Some signature
         ∧ verify_identity (mkAuthContext auth_keys identity signature nonce) = true)
    ∧ cs' = exchanged v cs.
Proof.
  unfold check_answer, exchanged. destruct (json_parse resp_json) as [v0| | |]; try done.
  destruct v0 as [| | | | |v]; try done. cbn [mbind result_bind as_obj]. exists v. split; [done|].
  destruct (obj_at_str_cases "version" v) as [[ver E1]|[? E1]]; rewrite E1 in *; [|done]. cbn [mbind result_bind] in *.
  apply obj_at_str in E1. case_bool_decide; [subst ver|done]. cbn [negb] in *.
  destruct (obj_at_str_cases "identity" v) as [[id E2]|[? E2]]; rewrite E2 in *; [|done]. cbn [mbind result_bind] in *.
  apply obj_at_str in E2.
  destruct (obj_at_str_cases "signature" v) as [[sg E3]|[? E3]]; rewrite E3 in *; [|done]. cbn [mbind result_bind] in *.
  apply obj_at_str in E3. destruct (verify_identity _) eqn:E4; [cbn [negb] in *|done].
  split_and!; [done|by exists id, sg|].
  destruct (get_str v "pubkey") as [pk|]; [|by simplify_eq].
  destruct (compute_shared_secret _ _); by simplify_eq.
Qed.

(** With keys, the server goes on only after an acceptable answer. *)
Lemma handshake_accepts auth_keys nonce s w sent cs s' w' :
  auth_keys ≠ EmptyString → handshake auth_keys nonce s w = (Ok (sent, Some (cs, s')), w') →
  ∃ v, acceptable auth_keys nonce s s' v ∧ cs = exchanged v (generate_local_key CryptoSession_new).2.
Proof.
  intros Hk. unfold handshake. destruct (generate_local_key _) as [pk cs0]. cbn [snd].
  destruct (is_empty auth_keys) eqn:Ek; [by destruct auth_keys|].
  destruct (read_answer s) as [[resp_json s1]|] eqn:Er; [|done].
  destruct (check_answer auth_keys nonce cs0 resp_json) as [[[cs1 failed]|]| | |] eqn:Ec; try done.
  intros Hh. apply check_answer_accepts in Ec as (v & Hj & Hv & Hp & ->). exists v.
  assert (cs = exchanged v cs0 ∧ s' = s1) as [-> ->].
  { revert Hh. destruct failed; [|by intros [= _ -> -> _]]. unfold mbind, M_bind.
    destruct (LOG_eq DEBUG "ECDH shared secret computation failed" w) as (w1 & -> & _). by intros [= _ -> -> _]. }
  split; [|done]. split; [by exists resp_json|done|done].
Qed.

(** Otherwise it has only sent its hello. *)
Lemma handshake_refuses auth_keys nonce s w sent w' :
  handshake auth_keys nonce s w = (Ok (sent, None), w') → (∃ hello, sent = [hello]) ∧ w' = w.
Proof.
  unfold handshake. destruct (generate_local_key _) as [pk cs0].
  destruct (is_empty auth_keys); [done|].
  destruct (read_answer s) as [[resp_json s1]|]; [|intros [= <- <-]; eauto].
  destruct (check_answer auth_keys nonce cs0 resp_json) as [[[cs1 failed]|]| | |]; try done;
    try (intros [= <- <-]; eauto; fail).
  destruct failed; [|done]. unfold mbind, M_bind.
  by destruct (LOG_eq DEBUG "ECDH shared secret computation failed" w) as (w1 & -> & _).
Qed.

(** C26: With authorized keys configured, a TCP client that does not answer the
    server's challenge with the right protocol version and an identity and
    signature that the key file verifies gets the hello and nothing else: no
    request of it is read, and neither the server's state nor the backend nor
    the log changes. *)
Theorem tcp_admission auth_keys ro admin nonce s c sent c' :
  auth_keys ≠ EmptyString → handle_socket_client auth_keys ro admin nonce s c = (Ok sent, c') →
  (∃ s' v, acceptable auth_keys nonce s s' v) ∨ ((∃ hello, sent = [hello]) ∧ c' = c).
Proof.
  intros Hk. unfold handle_socket_client, in_world, zoom, mbind, M_bind.
  destruct (handshake auth_keys nonce s (c_world c)) as [[[sent0 [[cs s']|]]| | |] w'] eqn:E; try done.
  - intros _. left. apply handshake_accepts in E as (v & Ha & _); [|done]. eauto.
  - intros [= <- <-]. right. apply handshake_refuses in E as [Hh ->]. split; [done|]. by destruct c.
Qed.

Lemma generate_not_initialized : initialized_ (generate_local_key CryptoSession_new).2 = false.
Proof. unfold generate_local_key. by repeat case_match. Qed.

(** C34: A TCP connection that serves requests is encrypted exactly when keys
    are configured and the client's answer carries a public key with which the
    key agreement succeeds; a client that leaves the key out, or sends one that
    does not work, is served in plain text. *)
Theorem tcp_encryption auth_keys nonce s w sent cs s' w' :
  handshake auth_keys nonce s w = (Ok (sent, Some (cs, s')), w') →
  initialized_ cs = true ↔
  auth_keys ≠ EmptyString ∧ ∃ v pk, acceptable auth_keys nonce s s' v ∧ get_str v "pubkey" = Some pk
    ∧ (compute_shared_secret (Base64.decode pk) (generate_local_key CryptoSession_new).2).1 = true.
Proof.
  intros Hh. pose proof generate_not_initialized as Hg. destruct (decide (auth_keys = EmptyString)) as [->|Hk].
  { split; [|naive_solver]. unfold handshake in Hh. destruct (generate_local_key _) as [pk cs0].
    injection Hh as _ <- _ _. cbn in Hg. by rewrite Hg. }
  assert (∀ k, initialized_ (compute_shared_secret k (generate_local_key CryptoSession_new).2).2
             = (compute_shared_secret k (generate_local_key CryptoSession_new).2).1) as Hcs.
  { intros k. unfold compute_shared_secret. repeat case_match; done. }
  destruct (handshake_accepts _ _ _ _ _ _ _ _ Hk Hh) as (v & Ha & ->). unfold exchanged.
  split.
  - intros Hi. split; [done|]. exists v. destruct (get_str v "pubkey") as [pk|]; [|congruence].
    exists pk. split_and!; [done|done|]. by rewrite <-Hcs.
  - intros (_ & v' & pk & Ha' & Hpk & Hs).
    assert (v' = v) as ->.
    { destruct Ha as [(r & E1 & E2) _ _], Ha' as [(r' & E1' & E2') _ _]. simplify_eq. congruence. }
    rewrite Hpk. by rewrite Hcs.
Qed.
End Handshake.

(** * Connections *)

Section Served.
Context {B : Type} `{LiveBackend B} `{Clock} `{Watchdog} `{BCrypt}.
Context (U : Prop) `{!Covers U} (floor : Z) (others : list string).
Implicit Types (c : Conn B).

Abbreviation keeps_ok h n m := (lives U (conn_ok floor others h n) m).

Lemma tcp_session_phase_ok h n req : keeps_ok h n (tcp_session_phase req).
Proof.
  unfold tcp_session_phase. destruct (get_str _ _) as [sid|]; [|apply lives_ret].
  apply lives_bind; [apply gets_ok|]. intros st. apply lives_if; intros _.
  - apply lives_bind; [apply on_resp_ok|]. intros ?. apply lives_ret.
  - apply lives_bind; [apply in_world_ok, now_lives|]. intros t.
    apply lives_bind; [|intros ?; apply lives_ret].
    apply on_session_ok. auto.
Qed.

Lemma tcp_terminate_phase_ok h n : keeps_ok h n tcp_terminate_phase.
Proof.
  unfold tcp_terminate_phase. apply lives_bind; [apply gets_ok|]. intros cs.
  apply lives_if; intros _; [|apply lives_ret].
  apply on_session_ok. auto.
Qed.

Lemma tcp_serve_ok n ro admin req :
  0 ≤ n → U ∨ numbers_ok req = true →
  triple U False (conn_ok floor others false (n + 1)) (tcp_serve ro admin req)
    (λ _, conn_ok floor others true n) (conn_ok floor others true n).
Proof.
  intros Hn Hreq. unfold tcp_serve. apply bind_uses_one; [apply tcp_session_phase_ok|]. intros continue.
  apply hoare_if; intros _; [apply ok_uses_one, lives_ret|].
  apply hoare_if; intros _; [by apply subscribe_phase_ok|].
  apply hoare_if; intros _; [apply ok_uses_one, unsubscribe_phase_ok|].
  apply bind_uses_one; [apply lives_if; intros _; [apply tcp_terminate_phase_ok|apply lives_ret]|]. intros ?.
  apply hoare_if; intros _; [apply ok_uses_one, on_resp_ok|].
  apply bind_uses_one; [apply canonical_phase_ok|]. intros ?.
  apply hoare_if; intros _; [by apply capture_phase_ok|].
  apply (dispatch_ok U); [done|apply nothing_harmless|done].
Qed.

Lemma tcp_message_ok n ro admin json E :
  0 ≤ n → U ∨ message_ok json = true →
  triple U False (state_between floor others (n + 1)) (tcp_message ro admin json) (λ _, state_between floor others n) E.
Proof.
  intros Hn Hj. unfold tcp_message.
  apply (hoare_bind (λ _, conn_ok floor others false (n + 1))). { apply hoare_modify. intros c Hc%state_between_conn. by eapply conn_ok_st; [..|exact Hc]. } intros ?.
  apply (hoare_bind (λ _, conn_ok floor others true n)).
  { eapply hoare_try.
    - apply parsed_ok; [done|]. intros req Hreq.
      apply bind_uses_one; [apply on_resp_ok|]. intros ?. by apply tcp_serve_ok.
    - intros w. apply hoare_modify. intros c. by apply conn_ok_st. } intros ?.
  apply (hoare_bind (λ _, conn_ok floor others true n)); [by apply hoare_gets|]. intros out.
  eapply hoare_bind; [apply unpin_phase_ok|]. intros ?. apply hoare_ret. intros c. apply between_state.
Qed.

(** Reading takes bytes off the stream. *)
Lemma read_all_spec len s :
  stream_ok s →
  match read_all len s with
  | Some (got, s') => String.length got = len ∧ bytes s = got +:+ bytes s' ∧ stream_ok s'
  | None => (String.length (bytes s) < len)%nat
  end.
Proof.
  intros Hs. pose proof (read_all_loop_spec len len EmptyString s Hs ltac:(lia)) as Hr. unfold read_all.
  destruct (read_all_loop _ _ _ _) as [[got s']|]; [|done]. by destruct Hr as (got' & -> & Hr).
Qed.

Lemma read_all_shorter len s got s' :
  stream_ok s → read_all len s = Some (got, s') →
  stream_ok s' ∧ (String.length (bytes s') + len = String.length (bytes s))%nat.
Proof.
  intros Hs E. pose proof (read_all_spec len s Hs) as Hr. rewrite E in Hr. destruct Hr as (Hl & Hb & Hs').
  split; [done|]. rewrite Hb, str_length_app. lia.
Qed.

Lemma tcp_read_shorter s json s' :
  stream_ok s → tcp_read_message s = Some (json, s') →
  stream_ok s' ∧ (String.length (bytes s') < String.length (bytes s))%nat.
Proof.
  intros Hs. unfold tcp_read_message. destruct (read_all 4 s) as [[hdr s1]|] eqn:E1; [|done].
  cbn [mbind option_bind]. destruct (_ || _); [done|]. intros E2.
  apply read_all_shorter in E1 as [Hs1 L1]; [|done]. apply read_all_shorter in E2 as [Hs2 L2]; [|done].
  split; [done|lia].
Qed.

Lemma receive_shorter encrypted cs s json s' :
  stream_ok s → receive encrypted cs s = Some (json, s') →
  stream_ok s' ∧ (String.length (bytes s') < String.length (bytes s))%nat.
Proof.
  intros Hs. unfold receive, encrypted_recv. destruct encrypted; [|by apply tcp_read_shorter].
  destruct (tcp_read_message s) as [[ct s1]|] eqn:E; [|done]. cbn [mbind option_bind].
  destruct (is_empty _); [done|]. intros [= <- <-]. by eapply tcp_read_shorter.
Qed.

(** The requests that a stream delivers, until it ends or a frame is refused. *)
Fixpoint requests (fuel : nat) (encrypted : bool) (cs : CryptoSession) (s : stream) : list string :=
  match fuel with
  | O => []
  | S fuel =>
      match receive encrypted cs s with
      | None => []
      | Some (json, s) => json :: requests fuel encrypted cs s
      end
  end.

(** Sending only moves the nonce counter. *)
Definition same_key (cs cs' : CryptoSession) : Prop :=
  hSessionKey cs' = hSessionKey cs ∧ initialized_ cs' = initialized_ cs.

Lemma transmit_key encrypted out cs : same_key cs (transmit encrypted out cs).2.
Proof.
  unfold transmit, encrypted_send. destruct encrypted; [|done]. pose proof (encrypt_key out cs) as Hk.
  destruct (encrypt out cs) as [ct cs1]. by destruct ct.
Qed.

Lemma requests_key fuel encrypted cs cs' s :
  same_key cs cs' → requests fuel encrypted cs' s = requests fuel encrypted cs s.
Proof.
  intros [Hk Hi]. revert s. induction fuel as [|fuel IH]; intros s; [done|]. cbn [requests].
  assert (receive encrypted cs' s = receive encrypted cs s) as ->.
  { unfold receive, encrypted_recv. destruct encrypted; [|done].
    destruct (tcp_read_message s) as [[ct s1]|]; [|done]. cbn. unfold decrypt. by rewrite Hk, Hi. }
  destruct (receive _ _ _) as [[json s']|]; [|done]. by rewrite IH.
Qed.

(** One answer for each request, but for those that cannot be encrypted. *)
Definition answers_fit (encrypted : bool) (sent reqs : list string) : Prop :=
  (length sent ≤ length reqs)%nat ∧ (encrypted = false → length sent = length reqs).

Lemma answers_fit_cons encrypted out cs sent json reqs :
  answers_fit encrypted sent reqs →
  answers_fit encrypted ((transmit encrypted out cs).1 ++ sent) (json :: reqs).
Proof.
  intros [H1' H2']. unfold answers_fit, transmit, encrypted_send. destruct encrypted; rewrite ?length_app; cbn.
  - destruct (encrypt out cs) as [[|? ?] ?]; cbn; split; done || lia.
  - split; [lia|]. intros _. by rewrite H2'.
Qed.

Lemma tcp_loop_ok fuel ro admin encrypted cs s E :
  stream_ok s → (String.length (bytes s) < fuel)%nat →
  U ∨ forallb message_ok (requests fuel encrypted cs s) = true →
  triple U False (state_between floor others (Z.of_nat (String.length (bytes s)))) (tcp_loop fuel ro admin encrypted cs s)
    (λ sent c, state_between floor others 0 c ∧ answers_fit encrypted sent (requests fuel encrypted cs s)) E.
Proof.
  assert (∀ n m c, n ≤ m → state_between floor others m c → state_between floor others n c) as Hroom.
  { intros n m c Hnm []. split; try done. lia. }
  revert cs s. induction fuel as [|fuel IH]; intros cs s Hs Hf Hm; [lia|]. cbn [tcp_loop requests] in *.
  destruct (receive encrypted cs s) as [[json s']|] eqn:Er.
  2: { apply hoare_ret. intros c Hc. split; [eapply Hroom; [|done]; lia|by split]. }
  destruct (receive_shorter _ _ _ _ _ Hs Er) as [Hs' Hlen].
  assert ((U ∨ message_ok json = true) ∧ (U ∨ forallb message_ok (requests fuel encrypted cs s') = true)) as [Hj Hms]
    by (cbn in Hm; rewrite andb_true_iff in Hm; tauto).
  set (k := Z.of_nat (String.length (bytes s'))).
  apply (hoare_bind (λ _, state_between floor others k)).
  { eapply hoare_weaken; [apply (tcp_message_ok k); [lia|done]| |done|exact (λ _ HE, HE)].
    intros c. apply Hroom. lia. }
  intros out. pose proof (transmit_key encrypted out cs) as Hk.
  pose proof (λ reqs sent, answers_fit_cons encrypted out cs sent json reqs) as Hfit.
  destruct (transmit encrypted out cs) as [sent cs']. cbn [fst snd] in *.
  rewrite <-(requests_key fuel encrypted cs cs' s' Hk) in *.
  eapply hoare_bind; [apply IH; [done|lia|done]|]. intros rest. apply hoare_ret.
  intros c [Hc Ha]. split; [done|by apply Hfit].
Qed.

(** The handshake ends and keeps the backend sound; what is left of the stream
    is no longer. *)
Lemma check_answer_defined auth_keys nonce cs resp_json :
  match check_answer auth_keys nonce cs resp_json with Undef | OutOfFuel => False | _ => True end.
Proof.
  unfold check_answer. pose proof (json_parse_consumes resp_json) as Hp.
  destruct (json_parse resp_json) as [v0| | |]; try done. destruct v0 as [| | | | |v]; try done.
  cbn [mbind result_bind as_obj].
  destruct (obj_at_str_cases "version" v) as [[? ->]|[? ->]]; [|done]. cbn [mbind result_bind].
  destruct (negb _); [done|].
  destruct (obj_at_str_cases "identity" v) as [[? ->]|[? ->]]; [|done]. cbn [mbind result_bind].
  destruct (obj_at_str_cases "signature" v) as [[? ->]|[? ->]]; [|done]. cbn [mbind result_bind].
  destruct (negb _); [done|]. destruct (get_str v "pubkey"); [|done]. by destruct (compute_shared_secret _ _).
Qed.

Lemma handshake_stream auth_keys nonce s (w : World B) E :
  stream_ok s → live_world w →
  match handshake auth_keys nonce s w with
  | (Ok (_, r), w') => live_world w' ∧ ∀ cs s', r = Some (cs, s') →
      stream_ok s' ∧ (String.length (bytes s') ≤ String.length (bytes s))%nat
  | (Throw _, _) => E
  | _ => False
  end.
Proof.
  intros Hs Hw. unfold handshake. destruct (generate_local_key _) as [pk cs0].
  destruct (is_empty auth_keys); [split; [done|]; by intros cs s' [= <- <-]|].
  unfold read_answer. destruct (read_all 4 s) as [[hdr s1]|] eqn:E1; [|done]. cbn [mbind option_bind].
  destruct (_ <=? _); [done|]. destruct (read_all _ s1) as [[resp_json s2]|] eqn:E2; [|done].
  apply read_all_shorter in E1 as [Hs1 L1]; [|done]. apply read_all_shorter in E2 as [Hs2 L2]; [|done].
  pose proof (check_answer_defined auth_keys nonce cs0 resp_json) as Hd.
  destruct (check_answer auth_keys nonce cs0 resp_json) as [[[cs1 failed]|]| | |]; try done.
  assert (∀ w', live_world w' → live_world w' ∧ ∀ cs s', Some (cs1, s2) = Some (cs, s') →
            stream_ok s' ∧ (String.length (bytes s') ≤ String.length (bytes s))%nat) as Hfin.
  { intros w' Hw'. split; [done|]. intros cs s' [= <- <-]. split; [done|lia]. }
  destruct failed; [|by apply Hfin]. unfold mbind, M_bind, LOG. by destruct (should_log _ _); apply Hfin.
Qed.
End Served.

Section Connection.
Context {B : Type} `{LiveBackend B} `{Clock} `{Watchdog} `{BCrypt}.
Implicit Types (c : Conn B).

(** The texts of the handshake, whether the connection is then encrypted, and
    the requests that it delivers. *)
Definition connection_parts (auth_keys : string) (nonce : list Z) (s : stream) (w : World B)
    : list string * bool * list string :=
  match handshake auth_keys nonce s w with
  | (Ok (hello, Some (cs, s')), _) =>
      (hello, initialized_ cs, requests (S (String.length (bytes s'))) (initialized_ cs) cs s')
  | (Ok (hello, None), _) => (hello, false, [])
  | _ => ([], false, [])
  end.

End Connection.

(** * Sessions *)

Section Sessions.
Context {B : Type} `{IBackend B} `{Clock} `{Watchdog}.
Implicit Types (c : Conn B).

(** At most [N] sessions, and the connection's session is one of them. *)
Record bounded (N : Z) c : Prop := {
  bo_size : Z.of_nat (size (sessions (c_st c))) ≤ N;
  bo_max : max_sessions (limits (c_st c)) ≤ N;
  bo_mine : cs_id (c_session c) ≠ mkSessionID EmptyString →
            is_Some (sessions (c_st c) !! sid_val (cs_id (c_session c))) }.

(** Steps that do not touch the sessions. *)
Definition same_sessions c c' : Prop :=
  sessions (c_st c) = sessions (c_st c') ∧ limits (c_st c) = limits (c_st c') ∧ cs_id (c_session c) = cs_id (c_session c').

#[local] Instance same_sessions_preorder : PreOrder same_sessions.
Proof. split; [done|]. unfold same_sessions. intros x y z. naive_solver congruence. Qed.

Lemma keeps_bounded {A} N (m : M (Conn B) A) :
  keeps same_sessions m → hoare (bounded N) m (λ _, bounded N) (bounded N).
Proof.
  intros Hm c [H1' H2' H3']. specialize (Hm c). destruct Hm as (E1 & E2 & E3).
  assert (bounded N (m c).2) as Hb by (split; rewrite <-?E1, <-?E2, <-?E3; done).
  by destruct (m c) as [[a| | |] c'].
Qed.

Lemma SessionID_empty_spec id : SessionID_empty id = true ↔ id = mkSessionID EmptyString.
Proof. destruct id as [[|a v]]; cbn; naive_solver. Qed.

(** Changing a session that is there leaves their number. *)
Lemma update_session_size k f st :
  is_Some (sessions st !! k) → size (sessions (update_session k f st)) = size (sessions st).
Proof. intros Hk. unfold update_session. cbn. by rewrite map_size_insert_Some. Qed.

Lemma in_world_sessions {A} (m : M (World B) A) : keeps same_sessions (in_world m).
Proof. intros c. unfold in_world, zoom. by destruct (m (c_world c)). Qed.

Lemma evict_loop_sessions fuel st st' :
  evict_loop fuel st = Ok st' → sessions st' = sessions st ∧ limits st' = limits st.
Proof.
  revert st. induction fuel as [|fuel IH]; intros st; cbn [evict_loop]; case_match; try done;
    try (by intros [= <-]).
  destruct (lru_order st) as [|x rest]; [done|]. intros [-> ->]%IH. unfold evict_step. by case_match.
Qed.

Lemma store_and_evict_sessions s : keeps same_sessions (store_and_evict s).
Proof.
  intros c. unfold store_and_evict. destruct (store_snapshot s (c_st c)) as [sid st] eqn:Es.
  destruct (evict st) as [st'| | |] eqn:Ee; try done. apply evict_loop_sessions in Ee as [E1 E2].
  injection Es as _ <-. unfold same_sessions. cbn. by rewrite E1, E2.
Qed.

(** A change of the connection's own session. *)
Lemma bounded_session N c cs st :
  bounded N c → limits st = limits (c_st c) →
  Z.of_nat (size (sessions st)) ≤ Z.max (max_sessions (limits (c_st c))) (Z.of_nat (size (sessions (c_st c)))) →
  (cs_id cs ≠ mkSessionID EmptyString → is_Some (sessions st !! sid_val (cs_id cs))) →
  bounded N (set_session cs (set_st st c)).
Proof. intros [? ? ?] El Hs Hm. split; cbn; rewrite ?El; [lia|done|done]. Qed.

Lemma updated_mine k f st : is_Some (sessions (update_session k f st) !! k).
Proof. cbn. rewrite lookup_insert_eq. eauto. Qed.

Lemma stored_session N c s cs k f :
  bounded N c → cs_id cs = cs_id (c_session c) → k = sid_val (cs_id cs) →
  let st := (store_snapshot s (c_st c)).2 in
  bounded N (set_session cs (set_st (if negb (SessionID_empty (cs_id cs)) then update_session k f st else st) c)).
Proof.
  intros Hb Eid -> st. rewrite Eid. destruct (SessionID_empty _) eqn:Ee; cbn [negb].
  - apply bounded_session; [done|done|cbn; lia|]. apply SessionID_empty_spec in Ee. by rewrite Eid, Ee.
  - assert (is_Some (sessions st !! sid_val (cs_id (c_session c)))) as Hk.
    { apply (bo_mine _ _ Hb). intros E. rewrite E in Ee. done. }
    apply bounded_session; [done|done| |].
    + rewrite update_session_size by done. cbn. lia.
    + intros _. rewrite Eid. apply updated_mine.
Qed.

Lemma subscribe_phase_bounded N : hoare (bounded N) subscribe_phase (λ _, bounded N) (bounded N).
Proof.
  unfold subscribe_phase. eapply hoare_bind; [apply keeps_bounded, in_world_sessions|]. intros s.
  eapply hoare_bind; [|intros ?; by apply keeps_bounded; intros c].
  intros c Hc. unfold locked, subscribe_state.
  pose proof (stored_session N c s) as Hst. destruct (store_snapshot s (c_st c)) as [sid st].
  by apply Hst.
Qed.

Lemma advance_phase_bounded N req : hoare (bounded N) (advance_phase req) (λ _, bounded N) (bounded N).
Proof.
  unfold advance_phase. eapply hoare_bind; [by apply keeps_bounded; intros c|]. intros ok.
  apply hoare_if; intros _; [|by apply hoare_ret].
  eapply hoare_bind; [apply keeps_bounded, in_world_sessions|]. intros s. apply hoare_modify. intros c Hc.
  unfold advance_state. pose proof (stored_session N c s) as Hst. destruct (store_snapshot s (c_st c)) as [sid st].
  by apply (Hst (mkClientSession _ _ sid _) (sid_val (cs_id (c_session c))) (ps_set_snap sid)).
Qed.

Lemma unsubscribe_phase_bounded N : hoare (bounded N) unsubscribe_phase (λ _, bounded N) (bounded N).
Proof.
  unfold unsubscribe_phase. eapply hoare_bind; [|intros ?; by apply keeps_bounded; intros c].
  apply hoare_modify. intros c Hc. unfold unsubscribe_state. cbn [cs_id].
  destruct (negb _); [destruct (sessions (c_st c) !! _) as [ps|] eqn:E|]; apply bounded_session; try done.
  - rewrite update_session_size by eauto. lia.
  - intros _. apply updated_mine.
  - lia.
  - apply Hc.
  - lia.
  - apply Hc.
Qed.

Lemma tcp_terminate_phase_bounded N : hoare (bounded N) tcp_terminate_phase (λ _, bounded N) (bounded N).
Proof.
  unfold tcp_terminate_phase. eapply hoare_bind; [by apply keeps_bounded; intros c|]. intros cs.
  apply hoare_if; intros _; [|by apply hoare_ret]. apply hoare_modify. intros c Hc. unfold terminate_state.
  destruct (negb _); apply bounded_session; try done; try lia; [|apply Hc].
  cbn. rewrite map_size_delete. case_match; unfold id; lia.
Qed.

(** A new session is made only below the limit. *)
Lemma tcp_session_phase_bounded N req : hoare (bounded N) (tcp_session_phase req) (λ _, bounded N) (bounded N).
Proof.
  unfold tcp_session_phase. destruct (get_str _ _) as [sid|]; [|by apply hoare_ret].
  apply (hoare_bind (λ st c, st = c_st c ∧ bounded N c)); [by apply hoare_gets|]. intros st.
  apply hoare_if; intros Hfull.
  { eapply (hoare_weaken _ (bounded N) _ _ (λ _, bounded N) _ (bounded N)); [|by intros c [_ Hc]|done|done].
    eapply hoare_bind; [by apply keeps_bounded; intros c|]. intros ?. by apply hoare_ret. }
  intros c [-> Hc]. unfold mbind, M_bind, in_world, zoom, now, on_session, modify, recover_session. cbv beta iota.
  cbn [c_st c_session set_world c_world].
  destruct (sessions (c_st c) !! sid) as [ps|] eqn:E.
  - apply (bounded_session N (set_world _ c)); [by destruct Hc|done| |].
    + cbn. rewrite map_size_insert_Some by eauto. lia.
    + intros _. cbn. rewrite lookup_insert_eq. eauto.
  - apply (bounded_session N (set_world _ c)); [by destruct Hc|done| |].
    + cbn. rewrite map_size_insert_None by done. apply andb_false_iff in Hfull as [Hf|Hf]; [lia|].
      apply negb_false_iff, bool_decide_eq_true in Hf. destruct Hf. congruence.
    + intros _. cbn. rewrite lookup_insert_eq. eauto.
Qed.

Lemma snapshot_phase_sessions req : keeps same_sessions (snapshot_phase (λ _ st, st) req).
Proof.
  unfold snapshot_phase. destruct (get_str _ _) as [sid|].
  - intros c. unfold mbind, M_bind, gets. cbv beta iota. by destruct (snaps (c_st c) !! sid).
  - refine (keeps_bind _ _ _ _ _); [apply in_world_sessions|]. intros s. refine (keeps_ret _ _).
Qed.

Lemma tcp_dispatch_bounded N admin req :
  hoare (bounded N) (tcp_dispatch_phase admin req) (λ _, bounded N) (bounded N).
Proof.
  unfold tcp_dispatch_phase. eapply hoare_bind; [apply keeps_bounded, snapshot_phase_sessions|].
  intros [snap|]; [|by apply keeps_bounded; intros c].
  eapply hoare_bind; [apply keeps_bounded; intros c; unfold old_snapshot_phase; by destruct (get_str _ _)|].
  intros old. eapply hoare_bind; [|intros ?; apply advance_phase_bounded].
  apply keeps_bounded. unfold core_phase. refine (keeps_bind _ _ _ _ _); [apply in_world_sessions|].
  intros r c. unfold mbind, M_bind, gets. cbv beta iota. by destruct (watchdog_fires _).
Qed.

Lemma tcp_serve_bounded N ro admin req :
  hoare (bounded N) (tcp_serve ro admin req) (λ _, bounded N) (bounded N).
Proof.
  unfold tcp_serve. eapply hoare_bind; [apply tcp_session_phase_bounded|]. intros continue.
  apply hoare_if; intros _; [by apply hoare_ret|].
  apply hoare_if; intros _; [apply subscribe_phase_bounded|].
  apply hoare_if; intros _; [apply unsubscribe_phase_bounded|].
  eapply hoare_bind; [apply hoare_if; intros _; [apply tcp_terminate_phase_bounded|by apply hoare_ret]|]. intros ?.
  apply hoare_if; intros _; [by apply keeps_bounded; intros c|].
  eapply hoare_bind; [apply keeps_bounded; intros c; unfold canonical_phase; by destruct (get_bool _ _)|]. intros ?.
  apply hoare_if; intros _; [|apply tcp_dispatch_bounded].
  unfold capture_phase. eapply hoare_bind; [apply keeps_bounded, in_world_sessions|]. intros s.
  eapply hoare_bind; [apply keeps_bounded, store_and_evict_sessions|]. intros sid. by apply keeps_bounded; intros c.
Qed.

End Sessions.

(** * Witnesses *)

Definition test_keys : string := "ssh-ed25519 AAAAC3NzaC1lZDI1NTE5AAAAIAABAgMEBQYHCAkKCwwNDg8QERITFBUWFxgZGhscHR4f alice".
(** Sixty-four bytes of signature. *)
Definition test_signature : string := Base64.encode (repeat 9 64).
Definition test_answer (fields : list (string * Value)) : string :=
  dumps (obj ([("version", JStr PROTOCOL_VERSION); ("identity", JStr "alice"); ("signature", JStr test_signature)]
              ++ fields)).
Definition fresh_conn : Conn FakeBackend := new_conn (ServerState_init Limits_default).
Definition test_stream (fields : list (string * Value)) : stream :=
  [write_message (test_answer fields) +:+ write_message (request_text "1" "window.listTop" [("session_id", JStr "x")])].

Abbreviation test_client s :=
  (handle_socket_client (H0 := test_clock) (H1 := test_watchdog) (H2 := test_bcrypt) test_keys false false [1; 2; 3] s
     fresh_conn).

Lemma tcp_admission_witness :
  match test_client (test_stream []) with
  | (Ok sent, c') =>
      (∃ s' v, acceptable (H2 := test_bcrypt) test_keys [1; 2; 3] (test_stream []) s' v)
      ∨ ((∃ hello, sent = [hello]) ∧ c' = fresh_conn)
  | _ => False
  end.
Proof.
  destruct (test_client (test_stream [])) as [[sent| | |] c'] eqn:E; try (vm_compute in E; discriminate E).
  apply (tcp_admission (H0 := test_clock) (H1 := test_watchdog) (H2 := test_bcrypt) test_keys false false
           [1; 2; 3] (test_stream []) fresh_conn sent c' ltac:(discriminate) E).
Defined.

Lemma tcp_encryption_witness :
  match handshake (H0 := test_clock) (H2 := test_bcrypt) test_keys [1; 2; 3]
          (test_stream [("pubkey", JStr "AgM=")]) test_world with
  | (Ok (_, Some (cs, s')), _) => initialized_ cs = true
      ∧ ∃ v pk, acceptable (H2 := test_bcrypt) test_keys [1; 2; 3] (test_stream [("pubkey", JStr "AgM=")]) s' v
                ∧ get_str v "pubkey" = Some pk
  | _ => False
  end.
Proof.
  destruct (handshake (H0 := test_clock) (H2 := test_bcrypt) test_keys [1; 2; 3]
              (test_stream [("pubkey", JStr "AgM=")]) test_world) as [[[sent [[cs s']|]]| | |] w'] eqn:E;
    try (vm_compute in E; discriminate E).
  pose proof (tcp_encryption (H0 := test_clock) (H2 := test_bcrypt) test_keys [1; 2; 3]
                (test_stream [("pubkey", JStr "AgM=")]) test_world sent cs s' w' E) as He.
  assert (initialized_ cs = true) as Hi by (clear He; vm_compute in E; injection E as _ <- _ _; reflexivity).
  split; [exact Hi|]. destruct (proj1 He Hi) as (_ & v & pk & Ha & Hp & _). exists v, pk. split; [exact Ha|exact Hp].
Defined.


