(* ===== verification/Update.v ===== *)
(** [core/src/update.cpp]: version tags, the answer of the release server, and
    the address of a download.  What the server sends is an input. *)

From S2P Require Import Prelude StdMap CString Double Json JsonTotal Types Core.

Local Open Scope Z_scope.

(** * Model *)

(** A prefix of [v] or [V] is dropped; a segment that is no number makes the
    whole version empty. *)
Definition parse_version (tag : string) : list Z :=
  let s := if head_is (λ c, ascii_eqb c "v" || ascii_eqb c "V") tag then str_drop 1 tag else tag in
  match mapM (M := option) (λ seg, match stoi seg with Ok n => Some n | _ => None end) (getlines "." s) with
  | Some parts => parts
  | None => []
  end.

(** The loop over the longer of the two, from position [i] on, with [k] left. *)
Fixpoint compare_from (k i : nat) (a b : list Z) : Z :=
  match k with
  | O => 0
  | S k =>
      let va := default 0 (a !! i) in
      let vb := default 0 (b !! i) in
      if va <? vb then -1 else if vb <? va then 1 else compare_from k (S i) a b
  end.

Definition compare_versions (a b : list Z) : Z :=
  let n := if (length b <? length a)%nat then length a else length b in
  compare_from n 0 a b.

(** One turn of the loop over [assets]. *)
Definition scan_asset (info : UpdateInfo) (asset : Value) : UpdateInfo :=
  match asset with
  | JObj a =>
      match get_str a "name", get_str a "browser_download_url" with
      | Some name, Some url =>
          if contains "Installer" name && is_empty (up_installer_url info) then
            mkUpdateInfo (up_update_available info) (up_current_version info) (up_latest_version info)
              (up_release_notes info) (up_error info) url (up_portable_zip_url info)
          else if contains "Portable" name && contains ".zip" name && is_empty (up_portable_zip_url info) then
            mkUpdateInfo (up_update_available info) (up_current_version info) (up_latest_version info)
              (up_release_notes info) (up_error info) (up_installer_url info) url
          else info
      | _, _ => info
      end
  | _ => info
  end.

Definition with_error (e : string) (info : UpdateInfo) : UpdateInfo :=
  mkUpdateInfo (up_update_available info) (up_current_version info) (up_latest_version info)
    (up_release_notes info) e (up_installer_url info) (up_portable_zip_url info).

(** [check_for_update], for the body that the HTTPS request returns. *)
Definition check_for_update (json_body current_version : string) : result UpdateInfo :=
  let info := mkUpdateInfo false current_version EmptyString EmptyString EmptyString EmptyString EmptyString in
  if is_empty json_body then Ok (with_error "Failed to query GitHub API" info) else
  match json_parse json_body with
  | Throw what => Ok (with_error ("JSON parse error: " +:+ what) info)
  | Undef => Undef
  | OutOfFuel => OutOfFuel
  | Ok (JObj o) =>
      match get_str o "tag_name" with
      | None => Ok (with_error "No tag_name in response" info)
      | Some tag =>
          let notes := default EmptyString (get_str o "body") in
          let info := mkUpdateInfo false current_version tag notes EmptyString EmptyString EmptyString in
          let info := match map_find "assets" o with
                      | Some (JArr assets) => foldl scan_asset info assets
                      | _ => info
                      end in
          let cur := parse_version current_version in
          let lat := parse_version tag in
          if bool_decide (cur = []) || bool_decide (lat = []) then Ok (with_error "Version parse error" info)
          else Ok (mkUpdateInfo (0 <? compare_versions lat cur) (up_current_version info) (up_latest_version info)
                     (up_release_notes info) (up_error info) (up_installer_url info) (up_portable_zip_url info))
      end
  | Ok _ => Ok (with_error "Invalid API response" info)
  end.

(** Host and path of an address. *)
Definition split_host (rest : string) : string * string :=
  match str_find "/" rest with
  | None => (rest, "/")
  | Some slash => (str_take slash rest, str_drop slash rest)
  end.

Definition parse_url (url : string) : option (string * string) :=
  if starts_with "https://" url then Some (split_host (str_drop 8 url))
  else if starts_with "http://" url then Some (split_host (str_drop 7 url))
  else None.

(** * Comparing versions *)

(** The part of a version at a position; missing parts are zero. *)
Definition part (l : list Z) (i : nat) : Z := default 0 (l !! i).

(** The versions agree before [j]. *)
Definition agree (j : nat) (a b : list Z) : Prop := ∀ i, (i < j)%nat → part a i = part b i.

Definition version_lt (a b : list Z) : Prop := ∃ j, agree j a b ∧ part a j < part b j.

Lemma compare_from_spec k i a b :
  agree i a b →
  (compare_from k i a b = 0 ∧ agree (i + k) a b)
  ∨ (compare_from k i a b = -1 ∧ version_lt a b)
  ∨ (compare_from k i a b = 1 ∧ version_lt b a).
Proof.
  revert i. induction k as [|k IH]; intros i Hi; cbn [compare_from].
  { left. split; [done|]. by rewrite Nat.add_0_r. }
  fold (part a i). fold (part b i).
  destruct (Z.ltb_spec (part a i) (part b i)); [right; left; split; [done|by exists i]|].
  destruct (Z.ltb_spec (part b i) (part a i)).
  { right; right. split; [done|]. exists i. split; [|done]. intros j Hj. symmetry. by apply Hi. }
  rewrite <-Nat.add_succ_comm. apply IH. intros j Hj. destruct (decide (j = i)) as [->|]; [lia|apply Hi; lia].
Qed.

Lemma part_beyond l i : (length l ≤ i)%nat → part l i = 0.
Proof. intros Hi. unfold part. by rewrite lookup_ge_None_2. Qed.

Lemma compare_versions_cases a b :
  (compare_versions a b = 0 ∧ ∀ i, part a i = part b i)
  ∨ (compare_versions a b = -1 ∧ version_lt a b)
  ∨ (compare_versions a b = 1 ∧ version_lt b a).
Proof.
  unfold compare_versions. set (n := if (_ <? _)%nat then _ else _).
  assert (length a ≤ n ∧ length b ≤ n)%nat as [Ha Hb].
  { unfold n. destruct (Nat.ltb_spec (length b) (length a)); lia. }
  destruct (compare_from_spec n 0 a b) as [[E Hag]|?]; [intros i ?; lia| |tauto].
  left. split; [done|]. intros i. destruct (decide (i < n)%nat); [by apply Hag|].
  by rewrite !part_beyond by lia.
Qed.

Lemma version_lt_irrefl a b : (∀ i, part a i = part b i) → ¬ version_lt a b.
Proof. intros E (j & _ & Hj). rewrite E in Hj. lia. Qed.

Lemma version_lt_trans a b c : version_lt a b → version_lt b c → version_lt a c.
Proof.
  intros (j & Hj & Lj) (k & Hk & Lk). exists (Nat.min j k). split.
  - intros i Hi. rewrite Hj, Hk by lia. done.
  - destruct (Nat.lt_trichotomy j k) as [H|[->|H]].
    + rewrite Nat.min_l by lia. rewrite <-Hk by lia. done.
    + rewrite Nat.min_id. lia.
    + rewrite Nat.min_r by lia. by rewrite Hj by lia.
Qed.

Lemma version_lt_asym a b : version_lt a b → ¬ version_lt b a.
Proof. intros H1 H2. by eapply (version_lt_irrefl a a), version_lt_trans. Qed.

Lemma version_lt_ext a a' b b' :
  (∀ i, part a i = part a' i) → (∀ i, part b i = part b' i) → version_lt a b → version_lt a' b'.
Proof. intros Ea Eb (j & Hj & Lj). exists j. split; [intros i Hi|]; rewrite <-Ea, <-Eb; auto. Qed.

Lemma compare_pos a b : 0 < compare_versions a b ↔ version_lt b a.
Proof.
  pose proof (version_lt_asym a b). pose proof (version_lt_irrefl b a).
  destruct (compare_versions_cases a b) as [[-> E]|[[-> ?]|[-> ?]]]; split; intros ?; done || lia || tauto || idtac.
  exfalso. apply (version_lt_irrefl b a); [|done]. intros i. by rewrite E.
Qed.

(** [compare_versions] is the lexicographic order of versions padded with
    zeros: it is negative exactly when the first version is smaller at the
    first position where they differ, zero exactly when they differ by zeros at
    the end only, swapping the versions negates it, and it is transitive. *)
Theorem compare_versions_order a b c :
  (compare_versions a b < 0 ↔ version_lt a b)
  ∧ (compare_versions a b = 0 ↔ ∀ i, part a i = part b i)
  ∧ compare_versions b a = - compare_versions a b
  ∧ (compare_versions a b ≤ 0 → compare_versions b c ≤ 0 → compare_versions a c ≤ 0).
Proof.
  pose proof (version_lt_asym a b). pose proof (version_lt_asym a c).
  pose proof (version_lt_irrefl a b). pose proof (version_lt_irrefl b a).
  pose proof (version_lt_irrefl a c). pose proof (version_lt_irrefl c a).
  assert ((∀ i, part b i = part a i) ↔ ∀ i, part a i = part b i) as Hsym by (split; intros E i; by rewrite E).
  split_and!.
  - destruct (compare_versions_cases a b) as [[-> ?]|[[-> ?]|[-> ?]]]; split; intros ?; done || lia || tauto.
  - destruct (compare_versions_cases a b) as [[-> ?]|[[-> ?]|[-> ?]]]; split; intros ?; done || lia || tauto.
  - destruct (compare_versions_cases a b) as [[-> ?]|[[-> ?]|[-> ?]]],
      (compare_versions_cases b a) as [[-> ?]|[[-> ?]|[-> ?]]]; try done; tauto.
  - destruct (compare_versions_cases a c) as [[-> ?]|[[-> ?]|[-> Hca]]]; try lia. intros Hab Hbc. exfalso.
    assert (version_lt c b) as Hcb.
    { destruct (compare_versions_cases a b) as [[_ Eab]|[[_ Lab]|[E _]]]; [| |lia].
      - by apply (version_lt_ext c c a b).
      - by apply (version_lt_trans c a b). }
    destruct (compare_versions_cases b c) as [[_ Ebc]|[[_ Lbc]|[E _]]]; [| |lia].
    + by apply (version_lt_irrefl c b).
    + by apply (version_lt_asym c b).
Qed.

(** * Version tags *)

(** [1.2.3]. *)
Fixpoint dotted (l : list Z) : string :=
  match l with
  | [] => EmptyString
  | [n] => print_base 10 n
  | n :: l => print_base 10 n +:+ String "." (dotted l)
  end.

Lemma stoi_print n : 0 ≤ n < 2 ^ 31 → stoi (print_base 10 n) = Ok n.
Proof.
  intros Hn. unfold stoi. pose proof (read_print_base dec_digit 10 n EmptyString dec_digit_char) as Hr.
  rewrite str_app_nil_r in Hr. specialize (Hr ltac:(lia) ltac:(lia) eq_refl).
  destruct (print_base_head 10 n) as (d & rest & Hd & E); [lia|lia|]. rewrite E in Hr |- *.
  destruct (digit_char_plain d) as (H1 & H2 & H3 & _); [lia|]. cbn [skip_while]. rewrite H1. cbn [read_sign].
  rewrite (ascii_eqb_ne _ _ H2), (ascii_eqb_ne _ _ H3). cbv beta iota. unfold head_is.
  rewrite (proj2 (isdigit_dec_digit _)) by (rewrite dec_digit_char by lia; eauto). rewrite Hr. cbn [fst].
  rewrite (proj2 (Z.leb_le _ _)), (proj2 (Z.ltb_lt _ _)) by lia. done.
Qed.

(** [d] does not occur in [s]. *)
Fixpoint lacks (d : ascii) (s : string) : Prop :=
  match s with EmptyString => True | String c s => c ≠ d ∧ lacks d s end.

Lemma split_on_lacks d s : lacks d s → split_on d s = [s].
Proof.
  induction s as [|c s IH]; [done|]. intros [Hc Hs]. cbn [split_on]. rewrite ascii_eqb_ne by done.
  by rewrite IH.
Qed.

Lemma split_on_app d s t : lacks d s → split_on d (s +:+ String d t) = s :: split_on d t.
Proof.
  induction s as [|c s IH]; cbn [lacks].
  - intros _. rewrite str_app_nil_l. cbn [split_on]. by rewrite (proj2 (ascii_eqb_eq d d)).
  - intros [Hc Hs]. rewrite str_app_cons. cbn [split_on]. rewrite ascii_eqb_ne by done. by rewrite IH.
Qed.

Lemma print_lacks_dot n : 0 ≤ n → lacks "." (print_base 10 n).
Proof.
  intros Hn. unfold print_base. generalize (S (Z.to_nat (Z.log2 n))) as f.
  assert (lacks "." EmptyString) as Hacc by done. revert n Hn Hacc. generalize EmptyString as acc.
  intros acc n Hn Hacc f. revert n acc Hn Hacc. induction f as [|f IH]; intros n acc Hn Hacc; [done|].
  cbn [print_base_go]. pose proof (Z.mod_pos_bound n 10 ltac:(lia)) as Hd.
  assert (lacks "." (String (digit_char (n mod 10)) acc)) as Hacc'.
  { split; [|done]. set (d := n mod 10) in *. clearbody d. enum_lt 10 d; done. }
  destruct (n <? 10); [done|]. apply IH; [apply Z.div_pos; lia|done].
Qed.

Lemma print_not_empty n : 0 ≤ n → print_base 10 n ≠ EmptyString.
Proof. intros Hn. destruct (print_base_head 10 n) as (d & rest & _ & ->); [lia|done|done]. Qed.

Lemma split_dotted l : Forall (λ n, 0 ≤ n) l → l ≠ [] → split_on "." (dotted l) = print_base 10 <$> l.
Proof.
  induction l as [|n l IH]; [done|]. intros [Hn Hl]%Forall_cons _. destruct l as [|m l].
  { cbn [dotted fmap list_fmap]. by apply split_on_lacks, print_lacks_dot. }
  change (dotted (n :: m :: l)) with (print_base 10 n +:+ String "." (dotted (m :: l))).
  rewrite split_on_app by by apply print_lacks_dot. by rewrite IH.
Qed.

Lemma getlines_dotted l : Forall (λ n, 0 ≤ n) l → l ≠ [] → getlines "." (dotted l) = print_base 10 <$> l.
Proof.
  intros Hl Hne. unfold getlines. rewrite split_dotted by done. rewrite fmap_last.
  destruct (last l) as [n|] eqn:E; [|done]. cbn [fmap option_fmap option_map].
  apply last_Some_elem_of in E. rewrite Forall_forall in Hl. specialize (Hl _ E).
  destruct (print_base 10 n) eqn:Ep; [|done]. by destruct (print_not_empty n).
Qed.

Lemma dotted_head l :
  Forall (λ n, 0 ≤ n) l → l ≠ [] → head_is (λ c, ascii_eqb c "v" || ascii_eqb c "V") (dotted l) = false.
Proof.
  intros Hl Hne. destruct l as [|n l]; [done|]. apply Forall_cons in Hl as [Hn _].
  destruct (print_base_head 10 n) as (d & rest & Hd & E); [lia|done|].
  assert (∃ r, dotted (n :: l) = String (digit_char d) r) as [r ->].
  { destruct l; cbn [dotted]; rewrite E; [by eexists|]. rewrite str_app_cons. by eexists. }
  cbn [head_is]. enum_lt 10 d; reflexivity.
Qed.

(** [parse_version] reads a version tag as it is written: numbers with dots
    between them, with or without a leading [v], give the list of the
    numbers. *)
Theorem parse_version_roundtrip l :
  l ≠ [] → Forall (λ n, 0 ≤ n < 2 ^ 31) l →
  parse_version (dotted l) = l ∧ parse_version (String "v" (dotted l)) = l.
Proof.
  intros Hne Hl. assert (Forall (λ n, 0 ≤ n) l) as Hp by (eapply Forall_impl; [exact Hl|simpl; lia]).
  assert (mapM (M := option) (λ seg, match stoi seg with Ok n => Some n | _ => None end) (getlines "." (dotted l))
          = Some l) as Hm.
  { rewrite getlines_dotted by done. clear Hne Hp. induction Hl as [|n l Hn Hl IH]; [done|].
    rewrite fmap_cons. cbn [mapM]. rewrite stoi_print by done. cbn [mbind option_bind]. by rewrite IH. }
  unfold parse_version. rewrite dotted_head by done.
  change (str_drop 1 (String "v" (dotted l))) with (dotted l). cbn [head_is].
  change (ascii_eqb "v" "v" || ascii_eqb "v" "V") with true. cbn iota. by rewrite Hm.
Qed.

Lemma parse_version_roundtrip_witness :
  parse_version "0.1.1" = [0; 1; 1] ∧ parse_version "v0.1.1" = [0; 1; 1].
Proof. apply (parse_version_roundtrip [0; 1; 1]); [done|]. repeat constructor; by vm_compute. Defined.

(** * The answer of the server *)

Lemma scan_asset_keeps info asset :
  up_update_available (scan_asset info asset) = up_update_available info
  ∧ up_current_version (scan_asset info asset) = up_current_version info
  ∧ up_latest_version (scan_asset info asset) = up_latest_version info
  ∧ up_error (scan_asset info asset) = up_error info.
Proof. unfold scan_asset. by repeat case_match. Qed.

Lemma scan_assets_keep info assets :
  up_update_available (foldl scan_asset info assets) = up_update_available info
  ∧ up_current_version (foldl scan_asset info assets) = up_current_version info
  ∧ up_latest_version (foldl scan_asset info assets) = up_latest_version info
  ∧ up_error (foldl scan_asset info assets) = up_error info.
Proof.
  revert info. induction assets as [|a assets IH]; intros info; [done|]. cbn [foldl].
  destruct (IH (scan_asset info a)) as (-> & -> & -> & ->). apply scan_asset_keeps.
Qed.

(** The answer announces the release [tag]. *)
Definition announces (json_body tag : string) : Prop :=
  json_body ≠ EmptyString ∧ ∃ o, json_parse json_body = Ok (JObj o) ∧ get_str o "tag_name" = Some tag.

