(* ===== verification/ViewModel.v ===== *)
(** [clients/gui/viewmodel/viewmodel.cpp]: the view model of the GUI, over a
    transport, and what it shows when the other end is a window service. *)

From S2P Require Import Prelude StdMap CString Double Json JsonTotal JsonRoundtrip Types Core.

Local Open Scope Z_scope.

(** * Model *)

(** [ITransport]: one request, one answer; it may throw. *)
Class ITransport (S : Type) := request : string → M S string.

#[local] Unset Elimination Schemes.
Inductive Node := mkNode { n_hwnd : string; n_label : string; n_children : list Node }.
#[local] Set Elimination Schemes.
Record Property := mkProperty { p_key : string; p_value : string }.

(** [ViewModel]; the transport's state stands for the pointer [t_]. *)
Record ViewModel (S : Type) := mkViewModel { t_ : S; tree_ : list Node; props_ : list Property }.
Arguments mkViewModel {S} _ _ _.
Arguments t_ {S} _.
Arguments tree_ {S} _.
Arguments props_ {S} _.

(** [o.at(k).as_str()] and the like. *)
Definition at_str (k : string) (o : Object) : result string := obj_at k o ≫= as_str.
Definition at_obj (k : string) (o : Object) : result Object := obj_at k o ≫= as_obj.
Definition at_arr (k : string) (o : Object) : result (list Value) := obj_at k o ≫= as_arr.
Definition at_bool (k : string) (o : Object) : result bool := obj_at k o ≫= as_bool.

Section ViewModel.
Context {S : Type} `{ITransport S}.

Abbreviation VM := (M (ViewModel S)).

Definition set_transport (s : S) (vm : ViewModel S) : ViewModel S := mkViewModel s (tree_ vm) (props_ vm).
Definition set_tree (l : list Node) : VM () := modify (λ vm, mkViewModel (t_ vm) l (props_ vm)).
Definition set_props (l : list Property) : VM () := modify (λ vm, mkViewModel (t_ vm) (tree_ vm) l).

(** [json::parse(t_->request(dumps(o))).as_obj()]. *)
Definition ask (o : Value) : VM Object :=
  text ← zoom t_ set_transport (request (dumps o));
  lift_result (json_parse text ≫= as_obj).

Definition capture_request (id : string) : Value :=
  obj [("id", JStr id); ("method", JStr "snapshot.capture"); ("params", obj [("canonical", JBool true)])].

Definition list_request (id sid : string) : Value :=
  obj [("id", JStr id); ("method", JStr "window.listTop");
       ("params", obj [("canonical", JBool true); ("snapshot_id", JStr sid)])].

Definition info_request (id sid hwnd : string) : Value :=
  obj [("id", JStr id); ("method", JStr "window.getInfo");
       ("params", obj [("canonical", JBool true); ("snapshot_id", JStr sid); ("hwnd", JStr hwnd)])].

(** The first half of both operations. *)
Definition take_snapshot (id : string) : VM string :=
  cap_resp ← ask (capture_request id);
  lift_result (at_obj "result" cap_resp ≫= at_str "snapshot_id").

(** The loop that fills the tree; nodes made before an exception stay. *)
Fixpoint add_nodes (l : list Value) : VM () :=
  match l with
  | [] => mret ()
  | e :: l =>
      hwnd ← lift_result (as_obj e ≫= at_str "hwnd");
      _ ← modify (λ vm, mkViewModel (t_ vm) (tree_ vm ++ [mkNode hwnd hwnd []]) (props_ vm));
      add_nodes l
  end.

Definition refresh : VM () :=
  sid ← take_snapshot "gui-1";
  resp ← ask (list_request "gui-2" sid);
  _ ← set_tree [];
  l ← lift_result (at_arr "result" resp);
  add_nodes l.

Definition select_hwnd (hwnd : string) : VM () :=
  sid ← take_snapshot "gui-3";
  resp ← ask (info_request "gui-4" sid hwnd);
  _ ← set_props [];
  ok ← lift_result (at_bool "ok" resp);
  if ok : bool then
    info ← lift_result (at_obj "result" resp);
    set_props ((λ kv, mkProperty kv.1 (dumps kv.2)) <$> info)
  else mret ().
End ViewModel.

(** * What the view model needs of the other end *)

(** A text that reads as the object [o]. *)
Definition reads_as (text : string) (o : Object) : Prop := json_parse text = Ok (JObj o).

(** [serves s hs]: the service is ready, and its windows are [hs].
    [holds s sid hs]: it has a snapshot [sid] with the windows [hs]. *)
Class WindowService (S : Type) `{ITransport S} := {
  serves : S → list hwnd_u64 → Prop;
  holds : S → string → list hwnd_u64 → Prop;
  capture_answer s hs id : serves s hs →
    ∃ text s' o r sid, request (dumps (capture_request id)) s = (Ok text, s') ∧ reads_as text o
      ∧ map_find "result" o = Some (JObj r) ∧ map_find "snapshot_id" r = Some (JStr sid) ∧ holds s' sid hs;
  list_answer s sid hs id : holds s sid hs →
    ∃ text s' o, request (dumps (list_request id sid)) s = (Ok text, s') ∧ reads_as text o
      ∧ map_find "result" o = Some (hwnd_array hs);
}.

Section Client.
Context {S : Type} `{WindowService S}.

Definition window_node (h : hwnd_u64) : Node :=
  mkNode (Hwnd_to_string (mkHwnd h)) (Hwnd_to_string (mkHwnd h)) [].

Lemma ask_answer o (vm : ViewModel S) text s' a :
  request (dumps o) (t_ vm) = (Ok text, s') → reads_as text a → ask o vm = (Ok a, set_transport s' vm).
Proof.
  intros Er Ha. unfold ask, mbind, M_bind, zoom, lift_result. rewrite Er. cbv beta iota.
  unfold reads_as in Ha. by rewrite Ha.
Qed.

Lemma add_nodes_windows hs (vm : ViewModel S) :
  add_nodes ((λ h, obj [("hwnd", hwnd_json h)]) <$> hs) vm
  = (Ok (), mkViewModel (t_ vm) (tree_ vm ++ (window_node <$> hs)) (props_ vm)).
Proof.
  revert vm. induction hs as [|h hs IH]; intros vm.
  - cbn. rewrite app_nil_r. by destruct vm.
  - rewrite !fmap_cons. cbn [add_nodes]. unfold mbind at 1, M_bind at 1. unfold lift_result at 1.
    change (as_obj (obj [("hwnd", hwnd_json h)]) ≫= at_str "hwnd")
      with (Ok (Hwnd_to_string (mkHwnd h))). cbv beta iota.
    unfold mbind at 1, M_bind at 1. unfold modify at 1. cbv beta iota. rewrite IH. cbn [t_ tree_ props_].
    by rewrite <-app_assoc.
Qed.

(** When the other end is a window service, [refresh] ends normally and the
    tree shows the service's windows. *)
Lemma refresh_windows (vm : ViewModel S) hs :
  serves (t_ vm) hs → ∃ s', refresh vm = (Ok (), mkViewModel s' (window_node <$> hs) (props_ vm)).
Proof.
  intros Hs. destruct (capture_answer _ _ "gui-1" Hs) as (text & s1 & o & r & sid & E1 & R1 & F1 & F2 & Hh).
  destruct (list_answer s1 sid hs "gui-2" Hh) as (text2 & s2 & o2 & E2 & R2 & F3).
  exists s2. unfold refresh, take_snapshot. unfold mbind, M_bind.
  rewrite (ask_answer _ _ _ _ _ E1 R1). unfold lift_result, at_obj, at_str, at_arr, obj_at. cbv beta iota.
  rewrite F1. cbn [or_throw as_obj mbind result_bind]. rewrite F2. cbn [or_throw as_str mbind result_bind].
  rewrite (ask_answer _ (set_transport s1 vm) _ _ _ E2 R2). cbv beta iota. unfold set_tree, modify. cbv beta iota.
  rewrite F3. cbn [or_throw as_arr hwnd_array mbind result_bind]. by rewrite add_nodes_windows.
Qed.
End Client.
