(* ===== verification/GuiServer.v ===== *)
(** The named-pipe server as the other end of the GUI's view model: it is a
    window service, so the view model shows the windows of the server's
    backend. *)

From S2P Require Import Prelude StdMap CString Double Json JsonTotal JsonRoundtrip Types Logger Backend.
From S2P Require Import FakeBackend Core CoreProps CoreMethods Hoare Live ServerState ServerStateProps Server.
From S2P Require Import ServerProps ServerGates ViewModel.

Local Open Scope Z_scope.

(** A snapshot lists its windows. *)
Class SnapshotLaws (B : Type) `{IBackend B} := {
  list_top_snapshot s b : list_top s b = (Ok (snap_top s), b);
}.

#[export] Instance FakeBackend_snapshots : SnapshotLaws FakeBackend.
Proof. split. by intros s b. Qed.

(** Methods end in time, and take less than some millennia. *)
Class Prompt `{Clock} `{Watchdog} := {
  never_fires n : watchdog_fires n = false;
  short_durations i j : Z.abs (duration_ms (steady_now i) (steady_now j)) < 2 ^ 53;
}.

Section Pipe.
Context {B : Type} `{SnapshotLaws B} `{Prompt} (sw : Switches).
Implicit Types (c x : Conn B).

(** * One request *)

(** The connection when a request is about to be served. *)
Definition ready (id : string) c : Conn B :=
  set_resp (set_id id CoreResponse_default)
    (set_pinned EmptyString (set_canonical false (set_resp CoreResponse_default c))).

Lemma pipe_message_run json c req x :
  parse_request_json json = Ok req → cs_authenticated (c_session c) = true →
  serve sw req (ready (req_id req) c) = (Ok (), x) →
  ∃ c', pipe_message sw json c = (Ok (response_text (c_resp x)), c')
        ∧ c_session c' = c_session x ∧ snaps (c_st c') = snaps (c_st x).
Proof.
  intros Hp Ha Hs. unfold pipe_message, process, try_catch, mbind, M_bind, modify, lift_result.
  cbv beta iota. rewrite Hp. cbv beta iota. unfold on_resp, modify, gets. cbv beta iota.
  cbn [c_session set_resp set_pinned set_canonical c_resp]. rewrite Ha. cbn [negb andb].
  unfold ready in Hs. cbn in Hs |- *. rewrite Hs. unfold unpin_phase, modify. cbv beta iota.
  eexists. split; [done|]. by destruct (is_empty (c_pinned x)).
Qed.

(** The text of a success reads as its object. *)
Lemma success_reads v r :
  value_ok v → nums_exact v → value_ok (JObj (resp_metrics r)) → nums_exact (JObj (resp_metrics r)) →
  ∃ o, reads_as (response_text (set_result v r)) o ∧ map_find "result" o = Some v.
Proof.
  intros Hv Hn Hmv Hmn. exists (to_json_obj (set_result v r)). split.
  - apply json_parse_dumps; unfold to_json_obj; cbn [resp_ok set_result resp_metrics resp_result resp_id].
    + destruct (resp_metrics r) as [|kv m]; (split; [apply map_of_ok|]); by split_and!.
    + destruct (resp_metrics r) as [|kv m]; by split_and!.
  - unfold to_json_obj. cbn [resp_ok set_result resp_metrics resp_result resp_id].
    by destruct (resp_metrics r).
Qed.

(** The duration that [handle] reports. *)
Lemma handle_duration a req s o w r w' :
  handle (B := B) a req s o w = (Ok r, w') →
  ∃ i j r0, r = set_metric "duration_ms" (num (duration_ms (steady_now i) (steady_now j))) r0.
Proof.
  unfold handle, mbind, M_bind, now. destruct (LOG_eq DEBUG ("Handling request: " +:+ req_method req +:+ " (id="
    +:+ req_id req +:+ ")") (mkWorld (w_backend w) (w_logger w) (Datatypes.S (w_ticks w)))) as (w0 & -> & _).
  destruct (run_method a req s o w0) as [[r0| | |] w1]; try done. intros [= <- <-]. by do 3 eexists.
Qed.

(** * The service *)

#[export] Instance pipe_transport : ITransport (Conn B) := pipe_message sw.

(** A connection that may ask, to a server with room for a snapshot whose
    backend would list [hs]. *)
Record pipe_serves c (hs : list hwnd_u64) : Prop := {
  ps_auth : cs_authenticated (c_session c) = true;
  ps_state : state_ok (c_st c);
  ps_count : snap_counter (c_st c) + 1 < 2 ^ 64;
  ps_room : Z.of_nat (n_pinned (c_st c)) < max_snapshots (limits (c_st c));
  ps_windows : ∃ b', capture_snapshot (w_backend (c_world c)) = (Ok (mkSnapshot hs), b') }.

Definition pipe_holds c (sid : string) (hs : list hwnd_u64) : Prop :=
  cs_authenticated (c_session c) = true ∧ snaps (c_st c) !! sid = Some (mkSnapshot hs).

Definition capture_req (id : string) : CoreRequest :=
  mkCoreRequest id "snapshot.capture" (map_of [("canonical", JBool true)]).
Definition list_req (id sid : string) : CoreRequest :=
  mkCoreRequest id "window.listTop" (map_of [("canonical", JBool true); ("snapshot_id", JStr sid)]).

Lemma serve_capture id x hs :
  pipe_serves x hs →
  ∃ sid x', serve sw (capture_req id) x = (Ok (), x')
    ∧ c_resp x' = set_result (obj [("snapshot_id", JStr sid)]) (c_resp x)
    ∧ c_session x' = c_session x ∧ snaps (c_st x') !! sid = Some (mkSnapshot hs).
Proof.
  intros [Ha Hst Hc Hr [b' Eb]]. pose proof (stored_survives (mkSnapshot hs) (c_st x) Hst Hc Hr) as Hs.
  unfold serve. assert (session_phase (B := B) (capture_req id) = mret ()) as -> by reflexivity.
  change (bool_decide (req_method (capture_req id) = "events.subscribe")) with false.
  change (bool_decide (req_method (capture_req id) = "events.unsubscribe")) with false.
  change (bool_decide (req_method (capture_req id) = "session.terminate")) with false.
  change (read_only_blocks (req_method (capture_req id))) with false. rewrite andb_false_r.
  change (bool_decide (req_method (capture_req id) = "snapshot.capture")) with true.
  assert (canonical_phase (B := B) (capture_req id) = modify (set_canonical true)) as -> by reflexivity.
  unfold capture_phase, mbind, M_bind, mret, M_ret, modify, in_world, backend, zoom. cbv beta iota.
  cbn [c_world set_canonical w_backend]. rewrite Eb. cbv beta iota. unfold store_and_evict.
  cbn [c_st set_world set_canonical]. destruct (store_snapshot (mkSnapshot hs) (c_st x)) as [sid st1].
  destruct Hs as (st2 & -> & Hsid & _). cbv beta iota. by exists sid; eexists.
Qed.

Lemma serve_list id sid x hs :
  pipe_holds x sid hs →
  ∃ d x', serve sw (list_req id sid) x = (Ok (), x')
    ∧ c_resp x' = set_metric "duration_ms" (num d) (set_result (hwnd_array hs) CoreResponse_default)
    ∧ Z.abs d < 2 ^ 53.
Proof.
  intros [Ha Hs]. unfold serve. assert (session_phase (B := B) (list_req id sid) = mret ()) as -> by reflexivity.
  change (bool_decide (req_method (list_req id sid) = "events.subscribe")) with false.
  change (bool_decide (req_method (list_req id sid) = "events.unsubscribe")) with false.
  change (bool_decide (req_method (list_req id sid) = "session.terminate")) with false.
  change (read_only_blocks (req_method (list_req id sid))) with false. rewrite andb_false_r.
  change (bool_decide (req_method (list_req id sid) = "snapshot.capture")) with false.
  assert (canonical_phase (B := B) (list_req id sid) = modify (set_canonical true)) as -> by reflexivity.
  unfold dispatch_phase, snapshot_phase, old_snapshot_phase.
  change (get_str (req_params (list_req id sid)) "snapshot_id") with (Some sid).
  change (get_str (req_params (list_req id sid)) "old_snapshot_id") with (@None string).
  unfold mbind, M_bind, mret, M_ret, modify, gets. cbv beta iota. cbn [c_st set_canonical]. rewrite Hs.
  unfold on_st, modify. cbv beta iota. unfold core_phase, mbind, M_bind, in_world, zoom.
  match goal with |- context [handle ?a ?q ?s ?o ?w] => set (w0 := w); set (o0 := o) end.
  destruct (handle_of_handler (admin_logs sw) (list_req id sid) (mkSnapshot hs) o0 w0 window_listTop
              (set_result (hwnd_array hs) CoreResponse_default) (w_backend w0)) as (d & w' & E & _).
  { reflexivity. }
  { intros w1 Hw1. unfold window_listTop, mbind, M_bind, backend, zoom. rewrite list_top_snapshot. by eexists. }
  rewrite E. cbv beta iota. unfold gets. cbn [c_world set_world]. rewrite never_fires. cbv beta iota.
  destruct (handle_duration _ _ _ _ _ _ _ E) as (i & j & r0 & Er).
  apply (f_equal (λ r, map_find "duration_ms" (resp_metrics r))) in Er. unfold set_metric in Er.
  cbn [resp_metrics] in Er. rewrite !map_find_set_eq in Er. apply (inj Some) in Er.
  unfold advance_phase, on_resp, modify, mbind, M_bind, gets. cbv beta iota.
  change (bool_decide (req_method (list_req id sid) = "events.poll")) with false. cbn [andb].
  exists (duration_ms (steady_now i) (steady_now j)). eexists. split; [done|].
  split; [by rewrite <-Er|apply short_durations].
Qed.

Lemma hwnd_array_ok hs : value_ok (hwnd_array hs) ∧ nums_exact (hwnd_array hs).
Proof. unfold hwnd_array. induction hs as [|h hs [IH1 IH2]]; [done|]. by split; split; [split_and!; repeat constructor| |split_and!|]. Qed.

#[export, refine] Instance pipe_service : WindowService (Conn B) :=
  {| serves := pipe_serves; holds := pipe_holds |}.
Proof.
  - intros c hs id Hc.
    destruct (serve_capture id (ready id c) hs) as (sid & x & Es & Er & Ese & Esn); [by destruct Hc; split|].
    assert (parse_request_json (dumps (capture_request id)) = Ok (capture_req id)) as Hp
      by (by apply (parse_request_dumps (capture_req id)); [repeat constructor|]).
    destruct (pipe_message_run _ c _ x Hp (ps_auth _ _ Hc) Es) as (c' & Em & E1 & E2).
    destruct (success_reads (obj [("snapshot_id", JStr sid)]) (c_resp (ready id c))) as (o & Hro & Hfo);
      [by repeat constructor|done|by repeat constructor|done|].
    exists (response_text (c_resp x)), c', o, (map_of [("snapshot_id", JStr sid)]), sid.
    split_and!; [exact Em|by rewrite Er|done|done|]. split; [by rewrite E1, Ese; apply Hc|by rewrite E2].
  - intros c sid hs id Hc.
    destruct (serve_list id sid (ready id c) hs Hc) as (d & x & Es & Er & Hd).
    assert (parse_request_json (dumps (list_request id sid)) = Ok (list_req id sid)) as Hp
      by (by apply (parse_request_dumps (list_req id sid)); [repeat constructor|]).
    destruct (pipe_message_run _ c _ x Hp (proj1 Hc) Es) as (c' & Em & _).
    destruct (hwnd_array_ok hs) as [Hok Hex].
    destruct (success_reads (hwnd_array hs) (set_metric "duration_ms" (num d) CoreResponse_default))
      as (o & Hro & Hfo); [done|done|by repeat constructor|split; [by exists d|done]|].
    exists (response_text (c_resp x)), c', o. split_and!; [exact Em|by rewrite Er|done].
Defined.

(** The GUI's view model and the daemon work together: over a named-pipe
    connection that is authenticated, to a server with room for one more
    snapshot, [refresh] ends normally and its tree shows exactly the windows
    that the server's backend lists when the snapshot is taken, in its order,
    each under the text of its handle; through the two requests, their texts,
    the stored snapshot, and the texts of the answers nothing is lost. *)
Theorem gui_shows_windows (vm : ViewModel (Conn B)) hs :
  pipe_serves (t_ vm) hs →
  ∃ c', refresh vm = (Ok (), mkViewModel c' (window_node <$> hs) (props_ vm)).
Proof. exact (refresh_windows (H0 := pipe_service) vm hs). Qed.
End Pipe.

(** * A run *)

(** A clock that stands still. *)
Definition still_clock : Clock := {| steady_now := λ _, 0; local_time := λ _, "t" |}.
Definition test_prompt : Prompt (H := still_clock) (H0 := test_watchdog).
Proof. split; [done|]. intros i j. by vm_compute. Qed.

Definition test_vm : ViewModel (Conn FakeBackend) :=
  mkViewModel (auth_conn (ServerState_init Limits_default)) [] [].

Lemma gui_shows_windows_witness :
  ∃ c', refresh (H := pipe_transport (H1 := still_clock) (H2 := test_watchdog) open_switches) test_vm
        = (Ok (), mkViewModel c' [mkNode "0x1" "0x1" []] []).
Proof.
  apply (gui_shows_windows (H1 := still_clock) (H2 := test_watchdog) (H3 := test_prompt) open_switches test_vm [1]).
  split; [done|apply init_ok|by vm_compute|by vm_compute|by eexists].
Defined.
