(* ===== verification/Main.v ===== *)
(** [main] and [run_discovery_responder] of [daemon/src/server.cpp]: the
    command line, the limits and the configuration made from it, the key file,
    and the answer to a discovery packet. *)

From S2P Require Import Prelude StdMap CString Double Json Types Logger Backend FakeBackend Core.
From S2P Require Import CoreProps ServerState Server ServerProps ServerGates Framing Crypto Tcp.

Local Open Scope Z_scope.

(** * Options *)

(** The [int] variables of [main]. *)
Inductive IntOption :=
| tcp_port | max_snaps | max_conns | session_ttl | req_timeout | poll_interval | max_wait
| discovery_port_opt | max_mem_read | uia_depth_opt | service_timeout | max_event_log_opt.

#[export] Instance IntOption_eq_dec : EqDecision IntOption.
Proof. solve_decision. Defined.

(** The local variables of [main], [g_pipe_name] and the logger's level. *)
Record Options := mkOptions {
  o_headless : bool; o_bind_public : bool; o_read_only : bool; o_include_hostname : bool;
  o_admin_logs : bool; o_require_auth : bool;
  o_auth_keys : string; o_pipe_name : string; o_level : LogLevel;
  o_int : IntOption → Z }.

Definition int_default (o : IntOption) : Z :=
  match o with
  | tcp_port => 1985 | max_snaps => 1000 | max_conns => 32 | session_ttl => 3600 | req_timeout => 5000
  | poll_interval => 100 | max_wait => 30000 | discovery_port_opt => 1986 | max_mem_read => 1024 * 1024
  | uia_depth_opt => -1 | service_timeout => 30 | max_event_log_opt => 1000
  end.

Definition pipe_prefix : string := "\\.\pipe\".

Definition Options_default : Options :=
  mkOptions false false false false false false EmptyString (pipe_prefix +:+ "wininspectd") INFO int_default.

(** * The command line *)

(** The variables, and [argv] from [i] on. *)
Abbreviation Args := (M (Options * list string)).

Definition on_options (f : Options → Options) : Args () := modify (λ s, (f s.1, s.2)).

(** [if (std::string(argv[i]) == name) ...]. *)
Definition flag (name : string) (f : Options → Options) : Args () :=
  args ← gets snd;
  match args with
  | a :: _ => if bool_decide (a = name) then on_options f else mret ()
  | [] => mret ()
  end.

(** [if (std::string(argv[i]) == name && i + 1 < argc) { ... argv[++i] ... }];
    what follows in the loop's body looks at the value. *)
Definition valued (name : string) (f : string → Args ()) : Args () :=
  args ← gets snd;
  match args with
  | a :: v :: rest =>
      if bool_decide (a = name)
      then _ ← modify (λ s, (s.1, v :: rest)); f v
      else mret ()
  | _ => mret ()
  end.

Definition set_int (k : IntOption) (n : Z) (o : Options) : Options :=
  mkOptions (o_headless o) (o_bind_public o) (o_read_only o) (o_include_hostname o) (o_admin_logs o)
    (o_require_auth o) (o_auth_keys o) (o_pipe_name o) (o_level o)
    (λ k', if bool_decide (k' = k) then n else o_int o k').

(** [x = std::stoi(argv[++i])]; no exception is caught. *)
Definition int_option (name : string) (k : IntOption) : Args () :=
  valued name (λ v, n ← lift_result (stoi v); on_options (set_int k n)).

Definition set_headless (o : Options) : Options :=
  mkOptions true (o_bind_public o) (o_read_only o) (o_include_hostname o) (o_admin_logs o)
    (o_require_auth o) (o_auth_keys o) (o_pipe_name o) (o_level o) (o_int o).
Definition set_bind_public (o : Options) : Options :=
  mkOptions (o_headless o) true (o_read_only o) (o_include_hostname o) (o_admin_logs o)
    (o_require_auth o) (o_auth_keys o) (o_pipe_name o) (o_level o) (o_int o).
Definition set_read_only (o : Options) : Options :=
  mkOptions (o_headless o) (o_bind_public o) true (o_include_hostname o) (o_admin_logs o)
    (o_require_auth o) (o_auth_keys o) (o_pipe_name o) (o_level o) (o_int o).
Definition set_include_hostname (o : Options) : Options :=
  mkOptions (o_headless o) (o_bind_public o) (o_read_only o) true (o_admin_logs o)
    (o_require_auth o) (o_auth_keys o) (o_pipe_name o) (o_level o) (o_int o).
Definition set_admin_logs (o : Options) : Options :=
  mkOptions (o_headless o) (o_bind_public o) (o_read_only o) (o_include_hostname o) true
    (o_require_auth o) (o_auth_keys o) (o_pipe_name o) (o_level o) (o_int o).
Definition set_require_auth (o : Options) : Options :=
  mkOptions (o_headless o) (o_bind_public o) (o_read_only o) (o_include_hostname o) (o_admin_logs o)
    true (o_auth_keys o) (o_pipe_name o) (o_level o) (o_int o).
Definition set_auth_keys (s : string) (o : Options) : Options :=
  mkOptions (o_headless o) (o_bind_public o) (o_read_only o) (o_include_hostname o) (o_admin_logs o)
    (o_require_auth o) s (o_pipe_name o) (o_level o) (o_int o).
Definition set_pipe_name (s : string) (o : Options) : Options :=
  mkOptions (o_headless o) (o_bind_public o) (o_read_only o) (o_include_hostname o) (o_admin_logs o)
    (o_require_auth o) (o_auth_keys o) s (o_level o) (o_int o).
Definition set_log_level (l : LogLevel) (o : Options) : Options :=
  mkOptions (o_headless o) (o_bind_public o) (o_read_only o) (o_include_hostname o) (o_admin_logs o)
    (o_require_auth o) (o_auth_keys o) (o_pipe_name o) l (o_int o).

Definition parse_level (lvl : string) : option LogLevel :=
  if bool_decide (lvl = "TRACE") then Some TRACE
  else if bool_decide (lvl = "DEBUG") then Some DEBUG
  else if bool_decide (lvl = "INFO") then Some INFO
  else if bool_decide (lvl = "WARN") then Some WARN
  else if bool_decide (lvl = "ERROR") then Some ERR
  else None.

(** The body of the loop. *)
Definition option_step : Args () :=
  _ ← flag "--headless" set_headless;
  _ ← flag "--public" set_bind_public;
  _ ← flag "--read-only" set_read_only;
  _ ← flag "--require-auth" set_require_auth;
  _ ← flag "--include-hostname" set_include_hostname;
  _ ← flag "--admin-logs" set_admin_logs;
  _ ← valued "--auth-keys" (λ v, on_options (set_auth_keys v));
  _ ← int_option "--port" tcp_port;
  _ ← int_option "--max-snapshots" max_snaps;
  _ ← int_option "--max-conns" max_conns;
  _ ← int_option "--session-ttl" session_ttl;
  _ ← int_option "--request-timeout" req_timeout;
  _ ← int_option "--poll-interval" poll_interval;
  _ ← int_option "--max-wait" max_wait;
  _ ← valued "--pipe-name" (λ v, on_options (set_pipe_name (pipe_prefix +:+ v)));
  _ ← int_option "--discovery-port" discovery_port_opt;
  _ ← int_option "--max-mem-read" max_mem_read;
  _ ← int_option "--uia-depth" uia_depth_opt;
  _ ← int_option "--service-timeout" service_timeout;
  _ ← int_option "--max-event-log" max_event_log_opt;
  valued "--log-level" (λ v, match parse_level v with Some l => on_options (set_log_level l) | None => mret () end).

(** The loop over the arguments after the program's name: each turn takes one
    at least. *)
Fixpoint option_loop (fuel : nat) : Args () :=
  args ← gets snd;
  match args, fuel with
  | [], _ => mret ()
  | _, O => lift_result OutOfFuel
  | _, S fuel =>
      _ ← option_step;
      _ ← modify (λ s, (s.1, drop 1 s.2));
      option_loop fuel
  end.

Definition parse_args (args : list string) : result Options :=
  match option_loop (length args) (Options_default, args) with
  | (Ok _, s) => Ok s.1
  | (Throw w, _) => Throw w
  | (Undef, _) => Undef
  | (OutOfFuel, _) => OutOfFuel
  end.

(** * The configuration *)

(** [(size_t)n] of an [int]. *)
Definition size_t (n : Z) : Z := n mod 2 ^ 64.

Definition configure (o : Options) : Limits :=
  mkLimits (size_t (o_int o max_event_log_opt)) (size_t (o_int o max_snaps)) 256
    (size_t (o_int o max_mem_read))
    (if bool_decide (o_int o uia_depth_opt = -1) then 5 else o_int o uia_depth_opt)
    (o_int o service_timeout) (o_int o max_conns) (o_int o session_ttl) (o_int o req_timeout)
    (o_int o poll_interval) (o_int o max_wait) (o_int o discovery_port_opt).

(** What [backend->set_config] is given. *)
Definition backend_config (l : Limits) : Object :=
  map_of [("max_mem_read", num (max_mem_read_size l)); ("uia_depth", num (uia_depth l));
          ("service_timeout", num (service_timeout_sec l))].

(** The content of the key file; one that cannot be read gives no text. *)
Definition load_keys (read_file : string → option string) (o : Options) : string :=
  if is_empty (o_auth_keys o) then EmptyString else default EmptyString (read_file (o_auth_keys o)).

Definition switches (read_file : string → option string) (o : Options) : Switches :=
  mkSwitches (o_read_only o) (o_require_auth o) (o_admin_logs o) (load_keys read_file o).

(** * Discovery *)

(** What follows the last backslash. *)
Fixpoint after_backslash (s : string) : string :=
  match s with
  | EmptyString => EmptyString
  | String c s' => if contains "\" s' then after_backslash s' else if ascii_eqb c backslash then s' else String c s'
  end.

(** The answer to a packet, if any, from the environment that the backend
    reports and the host's name. *)
Definition announcement (o : Options) (env : Object) (hostname : string) (msg : string) : result (option string) :=
  if negb (bool_decide (msg = "WININSPECT_DISCOVER")) then Ok None else
  os ← obj_at "os" env ≫= as_str;
  is_wine ← obj_at "is_wine" env ≫= as_bool;
  Ok (Some (dumps (obj ([("type", JStr "announcement"); ("port", num (o_int o tcp_port)); ("os", JStr os);
                         ("is_wine", JBool is_wine); ("pipe_name", JStr (after_backslash (o_pipe_name o)))]
                        ++ if o_include_hostname o then [("hostname", JStr hostname)] else [])))).

(** * The loop ends *)

(** The arguments that are left do not grow. *)
Definition shrinks (s s' : Options * list string) : Prop := (length s'.2 ≤ length s.2)%nat.

#[local] Instance shrinks_preorder : PreOrder shrinks.
Proof. unfold shrinks. split; [intros s; lia|intros x y z; lia]. Qed.

Lemma on_options_shrinks f : keeps shrinks (on_options f).
Proof. intros s. unfold shrinks. cbn. lia. Qed.

Lemma valued_shrinks name f : (∀ v, keeps shrinks (f v)) → keeps shrinks (valued name f).
Proof.
  intros Hf s. unfold valued, mbind, M_bind, gets. cbv beta iota. destruct s as [o [|a [|v rest]]]; cbn [snd]; try done.
  destruct (bool_decide _); [|done]. unfold modify. cbn [fst snd].
  specialize (Hf v (o, v :: rest)). unfold shrinks in *. cbn [snd] in *. cbn [length] in *. lia.
Qed.

Lemma flag_shrinks name f : keeps shrinks (flag name f).
Proof.
  intros s. unfold flag, mbind, M_bind, gets. cbv beta iota. destruct s as [o [|a args]]; cbn [snd]; [done|].
  destruct (bool_decide _); [apply on_options_shrinks|done].
Qed.

Lemma int_option_shrinks name k : keeps shrinks (int_option name k).
Proof.
  apply valued_shrinks. intros v. refine (keeps_bind _ _ _ _ _); [refine (keeps_lift _ _)|]. intros n. apply on_options_shrinks.
Qed.

Lemma option_step_shrinks : keeps shrinks option_step.
Proof.
  unfold option_step.
  repeat (refine (keeps_bind _ _ _ _ _);
          [first [apply flag_shrinks | apply int_option_shrinks | apply valued_shrinks; intros v; apply on_options_shrinks]|intros _]).
  apply valued_shrinks. intros v. destruct (parse_level v); [apply on_options_shrinks|refine (keeps_ret _ _)].
Qed.

(** A conversion returns or throws. *)
Lemma stoi_cases v : (∃ n, stoi v = Ok n) ∨ (∃ what, stoi v = Throw what).
Proof. unfold stoi. destruct (read_sign _) as [neg s2]. repeat case_match; eauto. Qed.

(** No step is undefined or needs fuel. *)
Definition plain {A} (m : Args A) : Prop := ∀ s, match (m s).1 with Undef | OutOfFuel => False | _ => True end.

Lemma plain_bind {A C} (m : Args A) (f : A → Args C) : plain m → (∀ a, plain (f a)) → plain (m ≫= f).
Proof. intros Hm Hf s. specialize (Hm s). unfold mbind, M_bind. destruct (m s) as [[a| | |] s']; try done. apply Hf. Qed.

Lemma valued_plain name f : (∀ v, plain (f v)) → plain (valued name f).
Proof.
  intros Hf. apply plain_bind; [done|]. intros [|a [|v rest]]; try done. destruct (bool_decide _); [|done].
  apply plain_bind; [done|]. intros _. apply Hf.
Qed.

Lemma flag_plain name f : plain (flag name f).
Proof. apply plain_bind; [done|]. intros [|a args]; [done|]. by destruct (bool_decide _). Qed.

Lemma int_option_plain name k : plain (int_option name k).
Proof.
  apply valued_plain. intros v. apply plain_bind; [|done]. intros s. cbn.
  by destruct (stoi_cases v) as [[n ->]|[w ->]].
Qed.

Lemma option_step_plain : plain option_step.
Proof.
  unfold option_step.
  repeat (apply plain_bind;
          [first [apply flag_plain | apply int_option_plain | by apply valued_plain]|intros _]).
  apply valued_plain. intros v. by destruct (parse_level v).
Qed.

Lemma option_loop_ends fuel s :
  (length s.2 ≤ fuel)%nat → match (option_loop fuel s).1 with Undef | OutOfFuel => False | _ => True end.
Proof.
  revert s. induction fuel as [|fuel IH]; intros s Hs; cbn [option_loop]; unfold mbind, M_bind, gets; cbv beta iota;
    destruct s as [o [|a args]]; cbn [snd length] in *; try done; [lia|].
  pose proof (option_step_plain (o, a :: args)) as Hp. pose proof (option_step_shrinks (o, a :: args)) as Hsh.
  destruct (option_step (o, a :: args)) as [[u| | |] s1]; try done. unfold modify. cbv beta iota.
  apply IH. unfold shrinks in Hsh. cbn [snd length] in *. rewrite length_drop. lia.
Qed.

(** Every command line is read or refused with an exception. *)
Lemma parse_args_total args : (∃ o, parse_args args = Ok o) ∨ (∃ what, parse_args args = Throw what).
Proof.
  unfold parse_args. pose proof (option_loop_ends (length args) (Options_default, args) ltac:(done)) as He.
  destruct (option_loop _ _) as [[u| | |] s]; try done; eauto.
Qed.

(** * The key file *)

Section Keys.
Context {B : Type} `{IBackend B} `{Clock} `{BCrypt}.

(** A key file that is named on the command line but cannot be read, or is
    empty, opens the daemon instead of closing it: TCP clients are served
    without a challenge, under [--require-auth] too, and every named-pipe
    client is authenticated unless that switch is given. *)
Theorem unreadable_keys_open read_file o nonce s (w : World B) (c : Conn B) :
  default EmptyString (read_file (o_auth_keys o)) = EmptyString →
  (∃ hello cs, handshake (load_keys read_file o) nonce s w = (Ok ([hello], Some (cs, s)), w))
  ∧ ∃ c', pipe_connect (switches read_file o) c = (Ok (), c')
          ∧ cs_authenticated (c_session c') = negb (o_require_auth o).
Proof.
  intros Hk. assert (load_keys read_file o = EmptyString) as El.
  { unfold load_keys. by destruct (is_empty _). }
  split.
  - rewrite El. unfold handshake. destruct (generate_local_key _) as [pk cs]. by eexists _, cs.
  - destruct (pipe_connect_returns (switches read_file o) c) as (c' & E). exists c'. split; [done|].
    rewrite (pipe_connect_auth _ _ _ E). unfold switches. cbn [require_auth auth_keys_data]. rewrite El.
    apply andb_true_r.
Qed.
End Keys.

Definition keys_args : list string := ["--require-auth"; "--auth-keys"; "missing.txt"].

Lemma unreadable_keys_open_witness :
  match parse_args keys_args with
  | Ok o =>
      o_require_auth o = true ∧
      (∃ hello cs, handshake (H0 := test_clock) (H2 := test_bcrypt) (load_keys (λ _, None) o) [] [] test_world
                   = (Ok ([hello], Some (cs, [])), test_world))
  | _ => False
  end.
Proof.
  destruct (parse_args keys_args) as [o| | |] eqn:E; try (vm_compute in E; discriminate E).
  split; [vm_compute in E; by injection E as <-|].
  apply (unreadable_keys_open (H0 := test_clock) (H1 := test_bcrypt) (λ _, None) o [] [] test_world
           (new_conn (ServerState_init Limits_default)) eq_refl).
Defined.
