(* ===== verification/Daemon.v ===== *)
(** The running daemon ([main], [run_server], [run_discovery_responder] and the
    cleanup thread of [daemon/src/server.cpp], [TcpServer::start] of
    [daemon/src/tcp_server.cpp]): connections of both kinds as threads over one
    server state, the loops that accept them, and how their steps interleave.

    A connection runs the phases of [Server.v] and [Tcp.v]; each step of its
    thread is what the code does under one hold of [st->mu], one call of the
    backend, one method of the engine, one log entry, or work on its own variables. *)

From S2P Require Import Prelude StdMap CString Double Json Types Logger Backend Core ServerState.
From S2P Require Import Server Framing Crypto Tcp TcpProps Main Threads.

Local Open Scope Z_scope.

Section Threads.
Context {B : Type} `{IBackend B} `{Clock} `{Watchdog} `{BCrypt}.

Abbreviation Th := (Prog (Conn B)).

(** * The phases of a request, step by step *)

Definition subscribe_p : Th () :=
  s ← atom (in_world (backend capture_snapshot));
  sid ← atom (locked (subscribe_state s));
  atom (on_resp (set_result (obj [("subscribed", JBool true); ("snapshot_id", JStr sid)]))).

Definition unsubscribe_p : Th () :=
  _ ← atom (on_session unsubscribe_state);
  atom (on_resp (set_result (obj [("unsubscribed", JBool true)]))).

Definition capture_p : Th () :=
  s ← atom (in_world (backend capture_snapshot));
  sid ← atom (store_and_evict s);
  atom (on_resp (set_result (obj [("snapshot_id", JStr sid)]))).

(** The engine's method, then the watchdog's verdict. *)
Definition core_p (admin : bool) (timeout_msg : string) (req : CoreRequest)
    (snap : Snapshot) (old : option Snapshot) : Th () :=
  r ← atom (in_world (handle admin req snap old));
  timeout ← atom (gets (λ c, watchdog_fires (w_ticks (c_world c))));
  if timeout : bool then atom (on_resp (set_error "E_TIMEOUT" timeout_msg))
  else atom (on_resp (λ _, r)).

Definition advance_p (req : CoreRequest) : Th () :=
  ok ← atom (gets (λ c, resp_ok (c_resp c)));
  if bool_decide (req_method req = "events.poll") && ok then
    s ← atom (in_world (backend capture_snapshot));
    atom (on_session (advance_state s))
  else mret ().

Definition dispatch_p (use : string → ServerState → ServerState) (admin : bool) (unknown timeout_msg : string)
    (req : CoreRequest) : Th () :=
  snap ← atom (snapshot_phase use req);
  match snap with
  | None => atom (on_resp (set_error "E_BAD_SNAPSHOT" unknown))
  | Some snap =>
      old ← atom (old_snapshot_phase req);
      _ ← core_p admin timeout_msg req snap old;
      advance_p req
  end.

(** * A named-pipe connection *)

Definition serve_p (sw : Switches) (req : CoreRequest) : Th () :=
  _ ← atom (session_phase req);
  if bool_decide (req_method req = "events.subscribe") then subscribe_p
  else if bool_decide (req_method req = "events.unsubscribe") then unsubscribe_p
  else
    _ ← (if bool_decide (req_method req = "session.terminate") then atom terminate_phase else mret ());
    if read_only sw && read_only_blocks (req_method req)
    then atom (on_resp (set_error "E_ACCESS_DENIED" "daemon is running in read-only mode"))
    else
      _ ← atom (canonical_phase req);
      if bool_decide (req_method req = "snapshot.capture") then capture_p
      else dispatch_p touch_lru (admin_logs sw) "unknown or evicted snapshot_id"
             "request timed out in core engine" req.

Definition process_p (sw : Switches) (json : string) : Th () :=
  req ← atom (lift_result (parse_request_json json));
  _ ← atom (on_resp (set_id (req_id req)));
  cs ← atom (gets c_session);
  if negb (cs_authenticated cs) && negb (bool_decide (req_method req = "hello")) then
    _ ← atom (in_world (LOG WARN ("Unauthorized request attempted: " +:+ req_method req)));
    atom (on_resp (set_error "E_UNAUTHORIZED" "authentication required"))
  else serve_p sw req.

Definition pipe_message_p (sw : Switches) (json : string) : Th string :=
  _ ← atom (modify (λ c, set_pinned EmptyString (set_canonical false (set_resp CoreResponse_default c))));
  _ ← ptry (process_p sw json) (λ what, atom (on_resp (bad_request what)));
  out ← atom (gets (λ c, serialize_response_json (c_resp c) (c_canonical c)));
  _ ← atom unpin_phase;
  mret out.

Fixpoint pipe_loop_p (sw : Switches) (msgs : list string) : Th (list string) :=
  match msgs with
  | [] => mret []
  | json :: msgs => out ← pipe_message_p sw json; outs ← pipe_loop_p sw msgs; mret (out :: outs)
  end.

Definition pipe_connect_p (sw : Switches) : Th () :=
  _ ← atom (modify (λ c, set_pinned EmptyString (set_session ClientSession_default
                           (set_st (with_connections (active_connections (c_st c) + 1) (c_st c)) c))));
  _ ← atom (in_world (LOG INFO "New client connection established."));
  if negb (require_auth sw) && is_empty (auth_keys_data sw) then
    _ ← atom (modify (λ c, set_session (mkClientSession (cs_id (c_session c)) true
                                    (cs_last_snap_id (c_session c)) (cs_subscribed (c_session c))) c));
    atom (in_world (LOG DEBUG "Local auto-auth enabled (no keys, not require-auth)."))
  else mret ().

Definition pipe_disconnect_p : Th () :=
  _ ← atom unpin_phase;
  _ ← atom (on_st (λ st, with_connections (active_connections st - 1) st));
  atom (in_world (LOG INFO "Client connection closed.")).

(** [handle_client]. *)
Definition pipe_thread (sw : Switches) (msgs : list string) : Th (list string) :=
  _ ← pipe_connect_p sw;
  outs ← pipe_loop_p sw msgs;
  _ ← pipe_disconnect_p;
  mret outs.

(** * A TCP connection *)

Definition tcp_serve_p (ro admin : bool) (req : CoreRequest) : Th () :=
  continue ← atom (tcp_session_phase req);
  if negb continue then mret ()
  else if bool_decide (req_method req = "events.subscribe") then subscribe_p
  else if bool_decide (req_method req = "events.unsubscribe") then unsubscribe_p
  else
    _ ← (if bool_decide (req_method req = "session.terminate") then atom tcp_terminate_phase else mret ());
    if ro && read_only_blocks (req_method req)
    then atom (on_resp (set_error "E_ACCESS_DENIED" "daemon is running in read-only mode"))
    else
      _ ← atom (canonical_phase req);
      if bool_decide (req_method req = "snapshot.capture") then capture_p
      else dispatch_p (λ _ st, st) admin "unknown snapshot" EmptyString req.

Definition tcp_message_p (ro admin : bool) (json : string) : Th string :=
  _ ← atom (modify (λ c, set_session ClientSession_default
                     (set_pinned EmptyString (set_canonical false (set_resp CoreResponse_default c)))));
  _ ← ptry
        (req ← atom (lift_result (parse_request_json json));
         _ ← atom (on_resp (set_id (req_id req)));
         tcp_serve_p ro admin req)
        (λ _, atom (on_resp tcp_bad_request));
  out ← atom (gets (λ c, serialize_response_json (c_resp c) (c_canonical c)));
  _ ← atom unpin_phase;
  mret out.

Fixpoint tcp_loop_p (fuel : nat) (ro admin encrypted : bool) (cs : CryptoSession) (s : stream)
    : Th (list string) :=
  match fuel with
  | O => atom (lift_result OutOfFuel)
  | S fuel =>
      match receive encrypted cs s with
      | None => mret []
      | Some (json, s) =>
          out ← tcp_message_p ro admin json;
          let '(sent, cs) := transmit encrypted out cs in
          rest ← tcp_loop_p fuel ro admin encrypted cs s;
          mret (sent ++ rest)
      end
  end.

(** [handle_socket_client]. *)
Definition tcp_thread (auth_keys : string) (ro admin : bool) (nonce : list Z) (s : stream) : Th (list string) :=
  r ← atom (in_world (handshake auth_keys nonce s));
  match r with
  | (sent, None) => mret sent
  | (sent, Some (cs, s)) =>
      rest ← tcp_loop_p (S (String.length (bytes s))) ro admin (initialized_ cs) cs s;
      mret (sent ++ rest)
  end.
End Threads.

(** * The daemon *)

(** The variables of a connection's thread. *)
Record Locals := mkLocals {
  l_session : ClientSession;
  l_pinned : string;
  l_resp : CoreResponse;
  l_canonical : bool }.

Definition Locals_default : Locals := mkLocals ClientSession_default EmptyString CoreResponse_default false.

(** A thread of [client_threads], which keeps those that have ended too;
    [t_requests]: what its client sends. *)
Record Thread (B : Type) := mkThread {
  t_requests : list string;
  t_locals : Locals;
  t_prog : Prog (Conn B) (list string) }.
Arguments mkThread {B} _ _ _.
Arguments t_requests {B} _.
Arguments t_locals {B} _.
Arguments t_prog {B} _.

(** What the threads share, and whether the loops of [run_server], of
    [TcpServer::start] and of the discovery responder go on. *)
Record Daemon (B : Type) := mkDaemon {
  d_world : World B;
  d_st : ServerState;
  d_threads : list (Thread B);
  d_accepting : bool;
  d_listening : bool;
  d_discovery : bool }.
Arguments mkDaemon {B} _ _ _ _ _ _.
Arguments d_world {B} _.
Arguments d_st {B} _.
Arguments d_threads {B} _.
Arguments d_accepting {B} _.
Arguments d_listening {B} _.
Arguments d_discovery {B} _.

(** What the pipe, the socket and the discovery port deliver, and the turns of
    threads. *)
Inductive PipeEvent := CreateFailed (error : Z) | ConnectFailed | PipeConnected (msgs : list string).
Inductive TcpEvent := WouldBlock | AcceptFailed | TcpConnected (nonce : list Z) (s : stream).
Inductive DaemonEvent :=
  | ThreadRuns (i : nat)
  | PipeTurn (ev : PipeEvent)
  | TcpTurn (ev : TcpEvent)
  | CleanupTurn
  | DiscoveryTurn (hostname msg : string).

(** What Winsock answers when the servers start; [udp_ok]: the discovery socket
    was made and bound. *)
Record Winsock := mkWinsock {
  wsa_ok : bool; socket_error : option Z; bind_error : option Z; listen_error : option Z; udp_ok : bool }.

Section Daemon.
Context {B : Type} `{IBackend B} `{Clock} `{Watchdog} `{BCrypt}.
Variables (o : Options) (sw : Switches).

Definition join (w : World B) (st : ServerState) (l : Locals) : Conn B :=
  mkConn w st (l_session l) (l_pinned l) (l_resp l) (l_canonical l).
Definition locals_of (c : Conn B) : Locals :=
  mkLocals (c_session c) (c_pinned c) (c_resp c) (c_canonical c).

Definition with_world (w : World B) (d : Daemon B) : Daemon B :=
  mkDaemon w (d_st d) (d_threads d) (d_accepting d) (d_listening d) (d_discovery d).

(** [client_threads.emplace_back(...)]. *)
Definition spawn (reqs : list string) (p : Prog (Conn B) (list string)) (d : Daemon B) : Daemon B :=
  mkDaemon (d_world d) (d_st d) (d_threads d ++ [mkThread reqs Locals_default p]) (d_accepting d) (d_listening d) (d_discovery d).

(** One step of a thread; [None] when it has ended or does not get further. *)
Definition thread_step (i : nat) (d : Daemon B) : option (Daemon B) :=
  t ← d_threads d !! i;
  match t_prog t with
  | Fin _ => None
  | Atom m k =>
      let go r c := Some (mkDaemon (c_world c) (c_st c)
                            (<[i := mkThread (t_requests t) (locals_of c) (k r)]> (d_threads d))
                            (d_accepting d) (d_listening d) (d_discovery d)) in
      match m (join (d_world d) (d_st d) (t_locals t)) with
      | (Ok x, c) => go (inl x) c
      | (Throw what, c) => go (inr what) c
      | (Undef, _) | (OutOfFuel, _) => None
      end
  end.

(** A logging computation on the shared world; it cannot fail. *)
Definition logged (m : M (World B) ()) (d : Daemon B) : Daemon B := with_world (m (d_world d)).2 d.

(** One turn of the loop of [run_server]. *)
Definition pipe_turn (ev : PipeEvent) (d : Daemon B) : Daemon B :=
  match ev with
  | CreateFailed error =>
      let d := logged (LOG ERR ("Failed to create Named Pipe: " +:+ Z_to_string error)) d in
      mkDaemon (d_world d) (d_st d) (d_threads d) false (d_listening d) (d_discovery d)
  | ConnectFailed => d
  | PipeConnected msgs =>
      let d := logged (LOG DEBUG "Named Pipe connection accepted.") d in
      if negb (accepts (d_st d)) then d else spawn msgs (pipe_thread sw msgs) d
  end.

(** One turn of the loop of [TcpServer::start]. *)
Definition tcp_turn (ev : TcpEvent) (d : Daemon B) : Daemon B :=
  match ev with
  | WouldBlock => d
  | AcceptFailed => mkDaemon (d_world d) (d_st d) (d_threads d) (d_accepting d) false (d_discovery d)
  | TcpConnected nonce s =>
      let '(_, _, reqs) := connection_parts (auth_keys_data sw) nonce s (d_world d) in
      spawn reqs (tcp_thread (auth_keys_data sw) (read_only sw) (admin_logs sw) nonce s) d
  end.

(** One turn of the cleanup thread, after its sleep. *)
Definition cleanup_turn (d : Daemon B) : Daemon B :=
  match now (d_world d) with
  | (Ok t, w) => mkDaemon w (cleanup_sessions t (d_st d)) (d_threads d) (d_accepting d) (d_listening d) (d_discovery d)
  | _ => d
  end.

(** A packet on the discovery port, and what is sent back. *)
Definition discovery_reply (hostname msg : string) : M (World B) (option string) :=
  _ ← LOG DEBUG ("Discovery packet received: " +:+ msg);
  if bool_decide (msg = "WININSPECT_DISCOVER") then
    env ← backend get_env_metadata;
    lift_result (announcement o env hostname msg)
  else mret None.

(** A socket delivers its bytes in pieces of at least one. *)
Definition delivers (ev : TcpEvent) : bool :=
  match ev with TcpConnected _ s => forallb (λ piece, negb (is_empty piece)) s | _ => true end.

(** The process ends with the TCP server, which runs on the main thread, unless a
    tray holds that. *)
Definition process_up (d : Daemon B) : bool := d_listening d || negb (o_headless o).

(** One event; an exception of the discovery thread ends the process too. *)
Definition daemon_step (ev : DaemonEvent) (d : Daemon B) : option (Daemon B) :=
  if negb (process_up d) then None else
  match ev with
  | ThreadRuns i => thread_step i d
  | PipeTurn ev => if d_accepting d then Some (pipe_turn ev d) else None
  | TcpTurn ev => if d_listening d && delivers ev then Some (tcp_turn ev d) else None
  | CleanupTurn => Some (cleanup_turn d)
  | DiscoveryTurn hostname msg =>
      if negb (d_discovery d) then None else
      match discovery_reply hostname msg (d_world d) with
      | (Ok _, w) => Some (with_world w d)
      | _ => None
      end
  end.

(** * The start *)

Definition listen_host : string := if o_bind_public o then "0.0.0.0" else "127.0.0.1".

(** The start of [TcpServer::start]: whether it gets to its loop. *)
Definition tcp_start (ws : Winsock) : M (World B) bool :=
  let place := listen_host +:+ ":" +:+ Z_to_string (o_int o tcp_port) in
  if negb (wsa_ok ws) then _ ← LOG ERR "TCP Server: Winsock not initialized."; mret false else
  _ ← LOG DEBUG "TCP Server: Creating socket...";
  match socket_error ws with
  | Some e => _ ← LOG ERR ("TCP Server: socket() failed: " +:+ Z_to_string e); mret false
  | None =>
      _ ← LOG DEBUG ("TCP Server: Binding to " +:+ place +:+ "...");
      match bind_error ws with
      | Some e => _ ← LOG ERR ("TCP Server: Bind failed: " +:+ Z_to_string e); mret false
      | None =>
          _ ← LOG INFO ("TCP Server listening on " +:+ place);
          mret (negb (bool_decide (is_Some (listen_error ws))))
      end
  end.

(** [main] after the command line, until its threads have started, each having logged that it has: whether the TCP server listens. *)
Definition startup (ws : Winsock) : M (World B) bool :=
  _ ← backend (set_config (backend_config (configure o)));
  _ ← LOG INFO "WinInspect Daemon starting up...";
  env ← backend get_env_metadata;
  os ← lift_result (obj_at "os" env ≫= as_str);
  arch ← lift_result (obj_at "arch" env ≫= as_str);
  _ ← LOG INFO ("Environment: " +:+ os +:+ " (" +:+ arch +:+ ")");
  _ ← match map_find "wine_version" env with
      | Some v => v ← lift_result (as_str v); LOG INFO ("Wine Version: " +:+ v)
      | None => mret ()
      end;
  _ ← (if negb (is_empty (o_auth_keys o)) then
         LOG INFO ("Loaded " +:+ Z_to_string (Z.of_nat (String.length (auth_keys_data sw)))
                   +:+ " bytes of authorized keys from " +:+ o_auth_keys o)
       else mret ());
  _ ← LOG INFO "Starting Discovery responder...";
  _ ← (if udp_ok ws then
         LOG INFO ("Discovery responder listening on UDP " +:+ Z_to_string (discovery_port (configure o)))
       else mret ());
  _ ← LOG INFO "Starting Cleanup thread...";
  _ ← LOG INFO "Starting Named Pipe server (background)...";
  _ ← LOG INFO ("Named Pipe server starting on: " +:+ o_pipe_name o);
  _ ← LOG INFO "Starting TCP Server (blocking main thread)...";
  tcp_start ws.

(** The daemon that has started. *)
Definition daemon_start (ws : Winsock) : M (World B) (Daemon B) :=
  listening ← startup ws;
  w ← get_st;
  mret (mkDaemon w (ServerState_init (configure o)) [] true listening (udp_ok ws)).

(** * Runs *)

(** The daemons that a sequence of events leads to, with [P] all the way. *)
Inductive reachable (P : Daemon B → Prop) (d0 : Daemon B) : Daemon B → Prop :=
  | reach_start : P d0 → reachable P d0 d0
  | reach_step d ev d' : reachable P d0 d → daemon_step ev d = Some d' → P d' → reachable P d0 d'.

Fixpoint run_events (evs : list DaemonEvent) (d : Daemon B) : option (Daemon B) :=
  match evs with
  | [] => Some d
  | ev :: evs => daemon_step ev d ≫= run_events evs
  end.

(** Has the thread not ended? *)
Definition running (t : Thread B) : bool := match t_prog t with Fin _ => false | Atom _ _ => true end.
End Daemon.
