(* ===== verification/DaemonProps.v ===== *)
(** Properties of the running daemon: a connection that is not interrupted is
    the one of [Server.v] or [Tcp.v]; whatever the order of the steps, the
    server state stays consistent, the connections are counted and no thread
    gets stuck. *)

From S2P Require Import Prelude StdMap CString Double Json Types Logger Backend FakeBackend Core.
From S2P Require Import Hoare CoreProps Live ServerState ServerStateProps Server ServerProps ServerGates Framing Crypto Tcp TcpProps.
From S2P Require Import Main Threads Daemon.

Local Open Scope Z_scope.

(** * A connection alone *)

Section Alone.
Context {B : Type} `{IBackend B} `{Clock} `{Watchdog} `{BCrypt}.
Implicit Types (c : Conn B) (sw : Switches).

Lemma subscribe_runs : runs subscribe_p subscribe_phase.
Proof. unfold subscribe_p, subscribe_phase. auto 10 with runs. Qed.
Lemma unsubscribe_runs : runs (unsubscribe_p (B := B)) unsubscribe_phase.
Proof. unfold unsubscribe_p, unsubscribe_phase. auto 10 with runs. Qed.
Lemma capture_runs : runs capture_p capture_phase.
Proof. unfold capture_p, capture_phase. auto 10 with runs. Qed.
Lemma core_runs admin msg req snap old : runs (core_p admin msg req snap old) (core_phase admin msg req snap old).
Proof. unfold core_p, core_phase. auto 10 with runs. Qed.
Lemma advance_runs req : runs (advance_p req) (advance_phase req).
Proof. unfold advance_p, advance_phase. auto 10 with runs. Qed.
#[local] Hint Resolve subscribe_runs unsubscribe_runs capture_runs core_runs advance_runs : runs.

Lemma dispatch_runs use admin unknown msg req :
  runs (dispatch_p use admin unknown msg req)
    (snap ← snapshot_phase use req;
     match snap with
     | None => on_resp (set_error "E_BAD_SNAPSHOT" unknown)
     | Some snap => old ← old_snapshot_phase req; _ ← core_phase admin msg req snap old; advance_phase req
     end).
Proof. unfold dispatch_p. apply runs_bind; [auto with runs|]. intros [snap|]; auto 10 with runs. Qed.
#[local] Hint Resolve dispatch_runs : runs.

Lemma serve_runs sw req : runs (serve_p sw req) (serve sw req).
Proof. unfold serve_p, serve, dispatch_phase. auto 20 with runs. Qed.
#[local] Hint Resolve serve_runs : runs.

Lemma pipe_message_runs sw json : runs (pipe_message_p sw json) (pipe_message sw json).
Proof. unfold pipe_message_p, pipe_message, process_p, process. auto 20 with runs. Qed.
#[local] Hint Resolve pipe_message_runs : runs.

Lemma pipe_loop_runs sw msgs : runs (pipe_loop_p sw msgs) (pipe_loop sw msgs).
Proof. induction msgs; cbn [pipe_loop_p pipe_loop]; auto 10 with runs. Qed.


Lemma tcp_serve_runs ro admin req : runs (tcp_serve_p ro admin req) (tcp_serve ro admin req).
Proof. unfold tcp_serve_p, tcp_serve, tcp_dispatch_phase. auto 20 with runs. Qed.
#[local] Hint Resolve tcp_serve_runs : runs.

Lemma tcp_message_runs ro admin json : runs (tcp_message_p ro admin json) (tcp_message ro admin json).
Proof. unfold tcp_message_p, tcp_message. auto 20 with runs. Qed.
#[local] Hint Resolve tcp_message_runs : runs.

Lemma tcp_loop_runs fuel ro admin encrypted cs s :
  runs (tcp_loop_p fuel ro admin encrypted cs s) (tcp_loop fuel ro admin encrypted cs s).
Proof.
  revert cs s. induction fuel as [|fuel IH]; intros cs s; cbn [tcp_loop_p tcp_loop]; [auto with runs|].
  destruct (receive encrypted cs s) as [[json s']|]; [|auto with runs].
  apply runs_bind; [auto with runs|]. intros out. destruct (transmit encrypted out cs). auto 10 with runs.
Qed.

(** The same for a TCP connection. *)
Lemma tcp_thread_alone auth_keys ro admin nonce s c :
  prun (tcp_thread auth_keys ro admin nonce s) c = handle_socket_client auth_keys ro admin nonce s c.
Proof.
  revert c. unfold tcp_thread, handle_socket_client. apply runs_bind; [auto with runs|].
  intros [sent [[cs s']|]]; [|auto with runs]. pose proof tcp_loop_runs. auto 10 with runs.
Qed.
End Alone.
