(* ===== verification/DaemonLogic.v ===== *)
(** A logic for the daemon's threads: each thread owns a part of what the shared
    state promises, its pin, its number of requests to come and its place in the
    count of connections, and the steps of the others cannot take it away. *)

From S2P Require Import Prelude StdMap CString Double Json Types Logger Backend Core.
From S2P Require Import Hoare CoreProps Live ServerState ServerStateProps Server ServerProps ServerGates Threads Daemon.

Local Open Scope Z_scope.

(** * What a thread owns *)

(** The snapshot that it holds, or the empty text; the value of its variable
    [pinned_sid]; how many snapshots it may still number; 1 when it counts as a
    connection. *)
Record Res := mkRes { r_pin : string; r_var : string; r_budget : Z; r_open : Z }.

Definition pins (rs : list Res) : list string := List.filter (λ p, negb (is_empty p)) (r_pin <$> rs).
Definition budgets (rs : list Res) : Z := foldr (λ r n, r_budget r + n) 0 rs.
Definition opens (rs : list Res) : Z := foldr (λ r n, r_open r + n) 0 rs.

Lemma pins_cons r rs : pins (r :: rs) = if is_empty (r_pin r) then pins rs else r_pin r :: pins rs.
Proof. unfold pins. cbn. by destruct (is_empty _). Qed.

Lemma budgets_cons r rs : budgets (r :: rs) = r_budget r + budgets rs.
Proof. done. Qed.
Lemma opens_cons r rs : opens (r :: rs) = r_open r + opens rs.
Proof. done. Qed.

Lemma copies_pins s r rs : copies s (pins (r :: rs)) = own_pin (r_pin r) s + copies s (pins rs).
Proof.
  rewrite pins_cons. unfold own_pin. destruct (r_pin r) as [|a p] eqn:E; cbn [is_empty].
  - rewrite bool_decide_eq_false_2 by naive_solver. lia.
  - rewrite copies_cons. f_equal. apply (f_equal (λ b : bool, if b then 1 else 0)).
    apply bool_decide_ext. naive_solver.
Qed.

#[export] Instance pins_proper : Proper ((≡ₚ) ==> (≡ₚ)) pins.
Proof.
  intros rs rs' E. induction E as [|r rs rs' E IH|r r' rs|]; rewrite ?pins_cons; [done|..|by etrans].
  - by destruct (is_empty _); rewrite IH.
  - do 2 destruct (is_empty _); try done. apply Permutation_swap.
Qed.
#[export] Instance budgets_proper : Proper ((≡ₚ) ==> (=)) budgets.
Proof. intros rs rs' E. unfold budgets, opens. induction E; cbn; lia. Qed.
#[export] Instance opens_proper : Proper ((≡ₚ) ==> (=)) opens.
Proof. intros rs rs' E. unfold budgets, opens. induction E; cbn; lia. Qed.

Section Logic.
Context {B : Type} `{LiveBackend B} `{Clock} `{Watchdog}.
Implicit Types (c : Conn B) (w : World B) (l : Locals) (r : Res) (rs : list Res).

(** What the shared state promises to threads that own [rs]; [top] bounds the
    snapshots ever numbered, [lim] are the limits. *)
Record shared_ok (top : Z) (lim : Limits) rs w st : Prop := {
  sh_state : state_ok st;
  sh_live : live_world w;
  sh_limits : limits st = lim;
  sh_room : snap_counter st + budgets rs ≤ top;
  sh_budgets : Forall (λ r, 0 ≤ r_budget r) rs;
  sh_pins : ∀ s, pin_count s st ≤ copies s (pins rs);
  sh_vars : Forall (λ r, r_var r ≠ EmptyString → issued st (r_var r)) rs;
  sh_open : active_connections st = opens rs }.

#[export] Instance shared_ok_proper top lim : Proper ((≡ₚ) ==> (=) ==> (=) ==> iff) (shared_ok top lim).
Proof.
  assert (∀ rs rs' w st, rs ≡ₚ rs' → shared_ok top lim rs w st → shared_ok top lim rs' w st) as Himp.
  { intros rs rs' w st E [H1' H2' H3' H4' H5' H6' H7' H8']. split; try done.
    - by rewrite <-E.
    - by rewrite <-E.
    - intros s. rewrite <-E. apply H6'.
    - by rewrite <-E.
    - by rewrite <-E. }
  intros rs rs' E w ? <- st ? <-. split; by apply Himp.
Qed.

(** What the thread's variables say of what it owns. *)
Record coherent l r : Prop := {
  ch_pin : r_pin r = EmptyString ∨ r_pin r = l_pinned l;
  ch_open : 0 ≤ r_open r ≤ 1 }.

(** * Weakest preconditions *)

(** From [l] and [r] the thread never gets stuck, unless [U], keeps what the
    others rely on at each step, and ends with [Q]. *)
Fixpoint wp (U : Prop) {A} (p : Prog (Conn B) A) (Q : A + string → Locals → Res → Prop) l r : Prop :=
  match p with
  | Fin x => Q x l r
  | Atom m k =>
      coherent l r ∧
      ∀ top lim rs w st, shared_ok top lim (r :: rs) w st → top < 2 ^ 64 →
        Z.of_nat (length (pins rs)) < max_snapshots lim →
        let next x c := ∃ r', shared_ok top lim (r' :: rs) (c_world c) (c_st c) ∧ wp U (k x) Q (locals_of c) r' in
        match m (join w st l) with
        | (Ok x, c) => next (inl x) c
        | (Throw what, c) => next (inr what) c
        | (Undef, _) => U
        | (OutOfFuel, _) => False
        end
  end.

Definition post {A} (Q : A → Locals → Res → Prop) (E : Locals → Res → Prop) (x : A + string) : Locals → Res → Prop :=
  match x with inl a => Q a | inr _ => E end.

(** The same as a triple. *)
Definition safe (U : Prop) {A} (P : Locals → Res → Prop) (p : Prog (Conn B) A) Q E : Prop :=
  ∀ l r, P l r → wp U p (post Q E) l r.

Lemma wp_mono U {A} (p : Prog (Conn B) A) (Q Q' : A + string → Locals → Res → Prop) l r :
  (∀ x l r, Q x l r → Q' x l r) → wp U p Q l r → wp U p Q' l r.
Proof.
  intros HQ. revert l r. induction p as [x|X m k IH]; intros l r; [apply HQ|]. intros [Hc Hm]. split; [done|].
  intros top lim rs w st Hs Ht Hl. specialize (Hm top lim rs w st Hs Ht Hl). cbv zeta in *.
  destruct (m (join w st l)) as [[x|what| |] c]; try done; destruct Hm as (r' & Hr & Hw); eauto.
Qed.

Lemma wp_bind U {A C} (p : Prog (Conn B) A) (f : A → Prog (Conn B) C) Q l r :
  wp U p (λ x, match x with inl a => wp U (f a) Q | inr what => Q (inr what) end) l r → wp U (p ≫= f) Q l r.
Proof.
  revert l r. induction p as [[a|what]|X m k IH]; intros l r; [done..|]. intros [Hc Hm]. split; [done|].
  intros top lim rs w st Hs Ht Hl. specialize (Hm top lim rs w st Hs Ht Hl). cbv zeta in *.
  destruct (m (join w st l)) as [[x|what| |] c]; try done; destruct Hm as (r' & Hr & Hw);
    exists r'; split; [done|by apply IH|done|by apply IH].
Qed.

Lemma wp_try U {A} (p : Prog (Conn B) A) h Q l r :
  wp U p (λ x, match x with inl a => Q (inl a) | inr what => wp U (h what) Q end) l r → wp U (ptry p h) Q l r.
Proof.
  revert l r. induction p as [[a|what]|X m k IH]; intros l r; [done..|]. intros [Hc Hm]. split; [done|].
  intros top lim rs w st Hs Ht Hl. specialize (Hm top lim rs w st Hs Ht Hl). cbv zeta in *.
  destruct (m (join w st l)) as [[x|what| |] c]; try done; destruct Hm as (r' & Hr & Hw);
    exists r'; split; [done|by apply IH|done|by apply IH].
Qed.

Lemma safe_ret U {A} (a : A) P (Q : A → Locals → Res → Prop) E : (∀ l r, P l r → Q a l r) → safe U P (mret a) Q E.
Proof. intros HQ l r Hp. by apply HQ. Qed.

Lemma safe_bind U {A C} (R : A → Locals → Res → Prop) (p : Prog (Conn B) A) (f : A → Prog (Conn B) C) P Q E :
  safe U P p R E → (∀ a, safe U (R a) (f a) Q E) → safe U P (p ≫= f) Q E.
Proof.
  intros Hp Hf l r HP. apply wp_bind. eapply wp_mono; [|by apply Hp]. intros [a|what] l' r'; [apply Hf|done].
Qed.

Lemma safe_try U {A} (p : Prog (Conn B) A) h P (Q : A → Locals → Res → Prop) E E' :
  safe U P p Q E → (∀ what, safe U E (h what) Q E') → safe U P (ptry p h) Q E'.
Proof.
  intros Hp Hh l r HP. apply wp_try. eapply wp_mono; [|by apply Hp]. intros [a|what] l' r'; [done|apply Hh].
Qed.

Lemma safe_weaken U {A} (p : Prog (Conn B) A) (P P' E E' : Locals → Res → Prop) Q Q' :
  safe U P' p Q' E' → (∀ l r, P l r → P' l r) → (∀ a l r, Q' a l r → Q a l r) → (∀ l r, E' l r → E l r) →
  safe U P p Q E.
Proof.
  intros Hp HP HQ HE l r Hl. eapply wp_mono; [|by apply Hp, HP]. intros [a|what] l' r'; [apply HQ|apply HE].
Qed.

Lemma safe_if U {A} (b : bool) (p1 p2 : Prog (Conn B) A) P Q E :
  (b = true → safe U P p1 Q E) → (b = false → safe U P p2 Q E) → safe U P (if b then p1 else p2) Q E.
Proof. destruct b; auto. Qed.

(** A step that cannot throw. *)
Lemma safe_nothrow U {A} (m : M (Conn B) A) P Q E E' :
  (∀ c what c', m c ≠ (Throw what, c')) → safe U P (atom m) Q E → safe U P (atom m) Q E'.
Proof.
  intros Hm Hs l r HP. destruct (Hs l r HP) as [Hc Hk]. split; [done|].
  intros top lim rs w st Hsh Ht Hl. specialize (Hk top lim rs w st Hsh Ht Hl). cbv zeta in *.
  specialize (Hm (join w st l)). destruct (m (join w st l)) as [[a|what| |] c]; try done. by edestruct Hm.
Qed.

(** * Steps *)

(** In a request: what the thread has pinned is its own.  Without [h] it has
    pinned nothing; it may number [b] snapshots; [op]: it counts as a
    connection. *)
Record holding (h : bool) (b op : Z) l r : Prop := {
  hd_pin : r_pin r = l_pinned l;
  hd_var : r_var r = l_pinned l;
  hd_budget : b ≤ r_budget r;
  hd_open : r_open r = op;
  hd_none : h = false → l_pinned l = EmptyString }.

(** Between requests: it holds nothing, whatever its variable says. *)
Record idle (b op : Z) l r : Prop := {
  id_pin : r_pin r = EmptyString;
  id_var : r_var r = l_pinned l;
  id_budget : b ≤ r_budget r;
  id_open : r_open r = op }.

Lemma holding_coherent h b op l r : 0 ≤ op ≤ 1 → holding h b op l r → coherent l r.
Proof. intros Hop [H1' _ _ H4' _]. split; [by right|lia]. Qed.
Lemma idle_coherent b op l r : 0 ≤ op ≤ 1 → idle b op l r → coherent l r.
Proof. intros Hop [H1' _ _ H4']. split; [by left|lia]. Qed.

(** Steps that keep the count of connections and the limits. *)
Definition quiet c c' : Prop :=
  active_connections (c_st c') = active_connections (c_st c) ∧ limits (c_st c') = limits (c_st c).

#[export] Instance quiet_preorder : PreOrder quiet.
Proof. split; [done|]. unfold quiet. intros x y z [? ?] [? ?]. split; congruence. Qed.

(** The sequential invariant, for the thread that owns [r]. *)
Lemma shared_conn top lim h b op l r rs w st :
  shared_ok top lim (r :: rs) w st → top < 2 ^ 64 → Z.of_nat (length (pins rs)) < max_snapshots lim →
  holding h b op l r → 0 ≤ b →
  0 ≤ 2 ^ 64 - 1 - snap_counter st - b ∧
  conn_ok (snap_counter st) (pins rs) h (2 ^ 64 - 1 - snap_counter st - b + b) (join w st l).
Proof.
  intros [Hst Hl Hlim Hroom Hb Hp Hv Ho] Ht Hmax [Hpin Hvar Hbud Hop Hn] Hb0.
  apply Forall_cons in Hb as [Hb1 Hb], Hv as [Hv1 Hv].
  assert (0 ≤ budgets rs). { clear -Hb. unfold budgets. induction Hb; cbn; lia. }
  rewrite budgets_cons in Hroom. split; [lia|]. split; cbn; try done; [by rewrite <-Hvar|lia| |by rewrite Hlim].
  intros s. specialize (Hp s). rewrite copies_pins, Hpin in Hp. lia.
Qed.

(** And back, when the thread is left with the right to number [b'] more. *)
Lemma conn_shared top lim h b b' op l r rs w st c :
  shared_ok top lim (r :: rs) w st → holding h b op l r → 0 ≤ b' →
  conn_ok (snap_counter st) (pins rs) true (2 ^ 64 - 1 - snap_counter st - b + b') c → quiet (join w st l) c →
  shared_ok top lim (mkRes (c_pinned c) (c_pinned c) (r_budget r - b + b') op :: rs) (c_world c) (c_st c).
Proof.
  intros [Hst Hl Hlim Hroom Hb Hp Hv Ho] [Hpin Hvar Hbud Hop Hn] Hb' [Kst _ Kpin Kroom Kfloor Klive Kspare _] [Qa Ql].
  apply Forall_cons in Hb as [Hb1 Hb], Hv as [Hv1 Hv].
  rewrite budgets_cons, opens_cons in *. cbn [c_st join] in *. split; try done; [by rewrite Ql| | |..].
  - rewrite budgets_cons. cbn. lia.
  - constructor; [cbn; lia|done].
  - intros s. specialize (Kspare s). rewrite copies_pins. cbn. lia.
  - constructor; [done|]. eapply Forall_impl; [exact Hv|]. cbn. intros r' Hr' Hne.
    destruct (Hr' Hne) as (k & Hk & E). exists k. split; [lia|done].
  - rewrite Qa, Ho, opens_cons. cbn. lia.
Qed.

(** A step that the sequential logic covers. *)
Lemma safe_atom U {A} (m : M (Conn B) A) (V : A → Prop) h h' b b' op :
  0 ≤ b → 0 ≤ b' → 0 ≤ op ≤ 1 → keeps quiet m →
  (∀ floor others n, 0 ≤ n → triple U False (conn_ok floor others h (n + b)) m
     (λ a c, V a ∧ conn_ok floor others h' (n + b') c) (conn_ok floor others h' (n + b'))) →
  safe U (holding h b op) (atom m) (λ a l r, V a ∧ holding h' b' op l r) (holding h' b' op).
Proof.
  intros Hb Hb' Hop Hq Hm l r Hh. split; [by eapply holding_coherent|].
  intros top lim rs w st Hs Ht Hl. destruct (shared_conn top lim h b op l r rs w st Hs Ht Hl Hh Hb) as [Hn Hc].
  specialize (Hm _ _ _ Hn _ Hc). specialize (Hq (join w st l)). cbv zeta.
  assert (∀ c, quiet (join w st l) c → conn_ok (snap_counter st) (pins rs) h' (2 ^ 64 - 1 - snap_counter st - b + b') c →
    ∃ r', shared_ok top lim (r' :: rs) (c_world c) (c_st c) ∧ holding h' b' op (locals_of c) r') as Hback.
  { intros c Hqc Hcc. exists (mkRes (c_pinned c) (c_pinned c) (r_budget r - b + b') op). split.
    - eapply conn_shared; [done|done|done| |done]. by eapply conn_ok_le; [|exact Hcc].
    - split; cbn; try done; [destruct Hh; lia|apply Hcc]. }
  destruct (m (join w st l)) as [[a|what| |] c]; try done.
  - destruct Hm as [HV Hc']. destruct (Hback c Hq Hc') as (r' & Hr & Hh'). by exists r'.
  - destruct (Hback c Hq Hm) as (r' & Hr & Hh'). by exists r'.
Qed.
End Logic.
