(* ===== verification/DaemonSafe.v ===== *)
(** The threads of the daemon in its logic, and what holds of every daemon that
    can be reached: a consistent server state, counted connections, and no
    thread that is stuck or left by an exception. *)

From S2P Require Import Prelude StdMap CString Double Json Types Logger Backend FakeBackend Core.
From S2P Require Import Hoare CoreProps Live ServerState ServerStateProps Server ServerProps ServerGates Framing Crypto Tcp TcpProps.
From S2P Require Import Main Threads Daemon DaemonLogic.

Local Open Scope Z_scope.

Section Steps.
Context {B : Type} `{LiveBackend B} `{Clock} `{Watchdog}.
Implicit Types (c : Conn B) (l : Locals) (r : Res).

(** * Steps leave the count of connections and the limits alone *)

Lemma quiet_world {A} (m : M (World B) A) : keeps quiet (in_world m).
Proof. intros c. unfold in_world, zoom. by destruct (m _). Qed.

Lemma quiet_session f :
  (∀ cs st, ∃ ss, (f cs st).2 = with_sessions ss st) → keeps (quiet (B := B)) (on_session f).
Proof.
  intros Hf c. destruct (Hf (c_session c) (c_st c)) as [ss E]. unfold on_session, modify.
  destruct (f _ _) as [cs st]. cbn in *. by subst st.
Qed.

Lemma quiet_locked {A} (f : ClientSession → ServerState → A * (ClientSession * ServerState)) :
  (∀ cs st, active_connections (f cs st).2.2 = active_connections st ∧ limits (f cs st).2.2 = limits st) →
  keeps (quiet (B := B)) (locked f).
Proof.
  intros Hf c. specialize (Hf (c_session c) (c_st c)). unfold locked. by destruct (f _ _) as [a [cs st]].
Qed.

Lemma evict_loop_quiet fuel st st' :
  evict_loop fuel st = Ok st' → active_connections st' = active_connections st ∧ limits st' = limits st.
Proof.
  revert st. induction fuel as [|fuel IH]; intros st; cbn [evict_loop]; destruct (_ <=? _); try done.
  1, 2: by intros [= <-].
  destruct (lru_order st) as [|x rest]; [done|]. intros E. destruct (IH _ E) as [-> ->].
  unfold evict_step. by destruct (0 <? _).
Qed.

Lemma quiet_store s : keeps (quiet (B := B)) (store_and_evict s).
Proof.
  intros c. unfold store_and_evict. destruct (store_snapshot s (c_st c)) as [sid st] eqn:Es.
  injection Es as _ Est. destruct (evict st) as [st'| | |] eqn:E; try done.
  apply evict_loop_quiet in E as [E1 E2]. unfold quiet. cbn. by rewrite E1, E2, <-Est.
Qed.

Lemma quiet_advance s : keeps (quiet (B := B)) (on_session (advance_state s)).
Proof.
  intros c. unfold on_session, modify, advance_state. destruct (store_snapshot s (c_st c)) as [sid st] eqn:E.
  injection E as _ <-. by destruct (negb _).
Qed.

Lemma quiet_subscribe s : keeps (quiet (B := B)) (locked (subscribe_state s)).
Proof.
  apply quiet_locked. intros cs st. unfold subscribe_state. destruct (store_snapshot s st) as [sid st'] eqn:E.
  injection E as _ <-. cbn. by destruct (negb _).
Qed.

Ltac quiet_walk :=
  conn_walk; try first [ apply quiet_world | by intros ?
    | apply quiet_session; auto ].

Lemma session_phase_count req : keeps (quiet (B := B)) (session_phase req).
Proof. quiet_walk. Qed.
Lemma tcp_session_phase_count req : keeps (quiet (B := B)) (tcp_session_phase req).
Proof. quiet_walk. Qed.
Lemma terminate_phase_count : keeps (quiet (B := B)) terminate_phase.
Proof. quiet_walk. Qed.
Lemma tcp_terminate_phase_count : keeps (quiet (B := B)) tcp_terminate_phase.
Proof. quiet_walk. Qed.
Lemma canonical_phase_quiet req : keeps (quiet (B := B)) (canonical_phase req).
Proof. quiet_walk. Qed.
Lemma old_snapshot_phase_quiet req : keeps (quiet (B := B)) (old_snapshot_phase req).
Proof. quiet_walk. Qed.
Lemma on_resp_quiet f : keeps (quiet (B := B)) (on_resp f).
Proof. by intros c. Qed.
Lemma gets_quiet {A} (f : Conn B → A) : keeps quiet (gets f).
Proof. by intros c. Qed.

Lemma snapshot_phase_quiet use req :
  (∀ sid st, active_connections (use sid st) = active_connections st ∧ limits (use sid st) = limits st) →
  keeps (quiet (B := B)) (snapshot_phase use req).
Proof.
  intros Hu. unfold snapshot_phase. quiet_walk. intros c. unfold on_st, modify, quiet. cbn. by edestruct Hu as [-> ->].
Qed.

(** * Requests *)

Section Requests.
(** [z]: how many more snapshots the thread may number afterwards. *)
Context (U : Prop) `{!Covers U} (op z : Z) (Hop : 0 ≤ op ≤ 1) (Hz : 0 ≤ z).
#[local] Hint Extern 0 (0 ≤ _)%Z => lia : core.

Abbreviation keeps_holding h b p := (safe U (holding h b op) p (λ _, holding h b op) (holding h b op)).
Abbreviation takes_one h p := (safe U (holding h (z + 1) op) p (λ _, holding true z op) (holding true z op)).

(** A step that keeps the sequential invariant. *)
Lemma step_keeps {A} h b (m : M (Conn B) A) :
  0 ≤ b → keeps quiet m → (∀ floor others n, lives U (conn_ok floor others h n) m) → keeps_holding h b (atom m).
Proof.
  intros Hb Hq Hm. eapply (safe_weaken _ _ (holding h b op) (holding h b op));
    [apply (safe_atom U m (λ _, True) h h b b op); [done..|]|done|by intros a l r [_ ?]|done].
  intros floor others n Hn. eapply hoare_weaken; [apply (Hm floor others (n + b))|done|done|done].
Qed.

(** A step that numbers one more snapshot. *)
Lemma step_takes {A} h (m : M (Conn B) A) :
  keeps quiet m →
  (∀ floor others n, 0 ≤ n → triple U False (conn_ok floor others h (n + 1)) m
     (λ _, conn_ok floor others true n) (conn_ok floor others true n)) →
  takes_one h (atom m).
Proof.
  intros Hq Hm. eapply (safe_weaken _ _ (holding h (z + 1) op) (holding h (z + 1) op));
    [apply (safe_atom U m (λ _, True) h true (z + 1) z op); [done..|]|done|by intros a l r [_ ?]|done].
  intros floor others n Hn. rewrite Z.add_assoc. eapply hoare_weaken; [apply (Hm floor others (n + z)); lia|done..].
Qed.

Lemma holding_less h b b' l r : b' ≤ b → holding h b op l r → holding true b' op l r.
Proof. intros Hb []. split; try done. lia. Qed.

Lemma keeps_takes {A} h (p : Prog (Conn B) A) : keeps_holding h (z + 1) p → takes_one h p.
Proof. intros Hp. eapply safe_weaken; [exact Hp|done|..]; intros *; apply holding_less; lia. Qed.

Lemma takes_bind {A C} h (p : Prog (Conn B) A) (f : A → Prog (Conn B) C) :
  keeps_holding h (z + 1) p → (∀ a, takes_one h (f a)) → takes_one h (p ≫= f).
Proof.
  intros Hp Hf. apply (safe_bind _ (λ _, holding h (z + 1) op)); [|done].
  eapply safe_weaken; [exact Hp|done|done|]. intros l r. apply holding_less. lia.
Qed.

Lemma bind_takes {A C} h (p : Prog (Conn B) A) (f : A → Prog (Conn B) C) :
  takes_one h p → (∀ a, keeps_holding true z (f a)) → takes_one h (p ≫= f).
Proof. intros Hp Hf. by apply (safe_bind _ (λ _, holding true z op)). Qed.

Lemma holding_bind {A C} h b (p : Prog (Conn B) A) (f : A → Prog (Conn B) C) :
  keeps_holding h b p → (∀ a, keeps_holding h b (f a)) → keeps_holding h b (p ≫= f).
Proof. intros Hp Hf. by apply (safe_bind _ (λ _, holding h b op)). Qed.

Lemma resp_step h b f : 0 ≤ b → keeps_holding h b (atom (on_resp f)).
Proof. intros Hb. apply step_keeps; [done|apply on_resp_quiet|]. intros. by apply on_resp_ok. Qed.
Lemma gets_step {A} h b (f : Conn B → A) : 0 ≤ b → keeps_holding h b (atom (gets f)).
Proof. intros Hb. apply step_keeps; [done|apply gets_quiet|]. intros. by apply gets_ok. Qed.
Lemma world_step {A} h b (m : M (World B) A) : 0 ≤ b → lives U live_world m → keeps_holding h b (atom (in_world m)).
Proof. intros Hb Hm. apply step_keeps; [done|apply quiet_world|]. intros. by apply in_world_ok. Qed.
Lemma capture_step h b : 0 ≤ b → keeps_holding h b (atom (in_world (backend capture_snapshot))).
Proof. intros Hb. apply world_step; [done|]. apply backend_lives. auto with live. Qed.
Lemma LOG_step h b level msg : 0 ≤ b → keeps_holding h b (atom (in_world (LOG level msg))).
Proof. intros Hb. apply world_step; [done|]. apply LOG_lives. Qed.
Lemma ret_step {A} h b (a : A) : keeps_holding h b (mret a).
Proof. by apply safe_ret. Qed.

Lemma subscribe_safe h : takes_one h subscribe_p.
Proof.
  unfold subscribe_p. apply takes_bind; [by apply capture_step|]. intros s.
  apply bind_takes; [|intros ?; by apply resp_step].
  apply step_takes; [apply quiet_subscribe|]. intros. by apply subscribe_state_ok.
Qed.

Lemma unsubscribe_safe h b : 0 ≤ b → keeps_holding h b unsubscribe_p.
Proof.
  intros Hb. unfold unsubscribe_p. apply holding_bind; [|intros ?; by apply resp_step].
  apply step_keeps; [done|apply quiet_session; auto|]. intros. apply on_session_ok. auto.
Qed.

Lemma capture_safe h : takes_one h capture_p.
Proof.
  unfold capture_p. apply takes_bind; [by apply capture_step|]. intros s.
  apply bind_takes; [|intros ?; by apply resp_step].
  apply step_takes; [apply quiet_store|]. intros. by apply store_and_evict_ok.
Qed.

Lemma core_safe h b a msg req snap old :
  0 ≤ b → U ∨ numbers_ok req = true → keeps_holding h b (core_p a msg req snap old).
Proof.
  intros Hb Hreq. unfold core_p. apply holding_bind; [by apply world_step, handle_lives|]. intros r.
  apply holding_bind; [by apply gets_step|]. intros t. apply safe_if; intros _; by apply resp_step.
Qed.

Lemma advance_safe h req : takes_one h (advance_p req).
Proof.
  unfold advance_p. apply takes_bind; [by apply gets_step|]. intros ok.
  apply safe_if; intros _; [|apply keeps_takes, ret_step].
  apply takes_bind; [by apply capture_step|]. intros s.
  apply step_takes; [apply quiet_advance|]. intros. by apply advance_state_ok.
Qed.

Lemma dispatch_safe use a unknown msg req :
  harmless use → (∀ sid st, active_connections (use sid st) = active_connections st) →
  U ∨ numbers_ok req = true → takes_one false (dispatch_p use a unknown msg req).
Proof.
  intros Hu Ha Hreq. unfold dispatch_p. apply (safe_bind _ (λ _, holding true (z + 1) op)).
  - eapply safe_weaken; [apply (safe_atom U _ (λ _, True) false true (z + 1) (z + 1) op); [done..| |]|done|by intros ? l r [_ ?]|].
    + apply snapshot_phase_quiet. intros sid st. split; [apply Ha|apply Hu].
    + intros floor others n Hn. eapply hoare_weaken; [by apply snapshot_phase_ok|done|done|done].
    + intros l r. apply holding_less. lia.
  - intros [snap|]; [|by apply keeps_takes, resp_step].
    apply takes_bind. { apply step_keeps; [done|apply old_snapshot_phase_quiet|]. intros. by apply old_snapshot_phase_ok. }
    intros old. apply takes_bind; [by apply core_safe|]. intros ?. apply advance_safe.
Qed.

Lemma serve_safe sw req : U ∨ numbers_ok req = true → takes_one false (serve_p sw req).
Proof.
  intros Hreq. unfold serve_p.
  apply takes_bind. { apply step_keeps; [done|apply session_phase_count|]. intros. by apply session_phase_ok. } intros ?.
  apply safe_if; intros _; [apply subscribe_safe|].
  apply safe_if; intros _; [by apply keeps_takes, unsubscribe_safe|].
  apply takes_bind.
  { apply safe_if; intros _; [|apply ret_step]. apply step_keeps; [done|apply terminate_phase_count|].
    intros. by apply terminate_phase_ok. } intros ?.
  apply safe_if; intros _; [by apply keeps_takes, resp_step|].
  apply takes_bind. { apply step_keeps; [done|apply canonical_phase_quiet|]. intros. by apply canonical_phase_ok. } intros ?.
  apply safe_if; intros _; [apply capture_safe|]. apply dispatch_safe; [apply touch_lru_harmless|done|done].
Qed.

Lemma tcp_serve_safe ro admin req : U ∨ numbers_ok req = true → takes_one false (tcp_serve_p ro admin req).
Proof.
  intros Hreq. unfold tcp_serve_p.
  apply takes_bind. { apply step_keeps; [done|apply tcp_session_phase_count|]. intros. by apply tcp_session_phase_ok. }
  intros continue. apply safe_if; intros _; [apply keeps_takes, ret_step|].
  apply safe_if; intros _; [apply subscribe_safe|].
  apply safe_if; intros _; [by apply keeps_takes, unsubscribe_safe|].
  apply takes_bind.
  { apply safe_if; intros _; [|apply ret_step]. apply step_keeps; [done|apply tcp_terminate_phase_count|].
    intros. by apply tcp_terminate_phase_ok. } intros ?.
  apply safe_if; intros _; [by apply keeps_takes, resp_step|].
  apply takes_bind. { apply step_keeps; [done|apply canonical_phase_quiet|]. intros. by apply canonical_phase_ok. } intros ?.
  apply safe_if; intros _; [apply capture_safe|]. apply dispatch_safe; [apply nothing_harmless|done|done].
Qed.

(** A message that is read and then served. *)
Lemma parsed_safe {A} json (f : CoreRequest → Prog (Conn B) A) :
  U ∨ message_ok json = true → (∀ req, U ∨ numbers_ok req = true → takes_one false (f req)) →
  takes_one false (req ← atom (lift_result (parse_request_json json)); f req).
Proof.
  intros Hj Hf. apply (safe_bind _ (λ req l r, (U ∨ numbers_ok req = true) ∧ holding false (z + 1) op l r)).
  - eapply safe_weaken;
      [apply (safe_atom U _ (λ req, U ∨ numbers_ok req = true) false false (z + 1) (z + 1) op); [done..|by intros c|]|done|done|].
    + intros floor others n Hn. apply hoare_lift. intros c Hc. unfold message_ok in Hj.
      pose proof (parse_request_defined json) as Hp. by destruct (parse_request_json json).
    + intros l r. apply holding_less. lia.
  - intros req l r [Hreq Hl]. by apply Hf.
Qed.

Lemma process_safe sw json : U ∨ message_ok json = true → takes_one false (process_p sw json).
Proof.
  intros Hj. unfold process_p. apply parsed_safe; [done|]. intros req Hreq.
  apply takes_bind; [by apply resp_step|]. intros ?. apply takes_bind; [by apply gets_step|]. intros cs.
  apply safe_if; intros _; [|by apply serve_safe].
  apply keeps_takes, holding_bind; [by apply LOG_step|]. intros ?. by apply resp_step.
Qed.
End Requests.

(** * Between requests *)

Section Idle.
Context (U : Prop) (E : Locals → Res → Prop).

(** What the thread owns changes without the state. *)
Lemma shared_ok_own top lim r r' rs w w' st :
  shared_ok top lim (r :: rs) w st → live_world w' → r_pin r = EmptyString → r_pin r' = EmptyString →
  r_budget r' = r_budget r → r_open r' = r_open r → (r_var r' ≠ EmptyString → issued st (r_var r')) →
  shared_ok top lim (r' :: rs) w' st.
Proof.
  intros [Hst Hl Hlim Hroom Hb Hp Hv Ho] Hw Ep Ep' Eb Eo Hv'.
  apply Forall_cons in Hb as [Hb1 Hb], Hv as [Hv1 Hv]. rewrite budgets_cons, opens_cons in *.
  split; try done; rewrite ?budgets_cons, ?opens_cons, ?Eb, ?Eo; try done.
  - constructor; [by rewrite Eb|done].
  - intros s. specialize (Hp s). rewrite copies_pins, Ep in Hp. by rewrite copies_pins, Ep'.
  - by constructor.
Qed.

(** The state changes in its pins, downwards, and in the connections. *)
Lemma shared_ok_pins top lim r r' rs w st st' :
  shared_ok top lim (r :: rs) w st → state_ok st' → snap_counter st' = snap_counter st → limits st' = limits st →
  (∀ s, pin_count s st' ≤ pin_count s st) → r_pin r' = r_pin r → r_var r' = r_var r →
  r_budget r' = r_budget r → active_connections st' - r_open r' = active_connections st - r_open r →
  shared_ok top lim (r' :: rs) w st'.
Proof.
  intros [Hst Hl Hlim Hroom Hb Hp Hv Ho] Hst' Ec El Hpin Ep Ev Eb Eo.
  apply Forall_cons in Hb as [Hb1 Hb]. rewrite budgets_cons, opens_cons in *.
  split; try done; rewrite ?budgets_cons, ?opens_cons, ?Eb, ?Ec; try congruence; try lia.
  - constructor; [by rewrite Eb|done].
  - intros s. specialize (Hp s). specialize (Hpin s). rewrite copies_pins in *. rewrite Ep. lia.
  - assert (∀ x, issued st x → issued st' x) as Hi by (unfold issued; by rewrite Ec).
    apply Forall_cons in Hv as [Hv1 Hv]. constructor; [rewrite Ev; auto|]. eapply Forall_impl; [done|]. cbn. auto.
Qed.

(** A step on the thread's own variables or on the world. *)
Lemma idle_step {A} (m : M (Conn B) A) (V : A → Prop) b op :
  0 ≤ op ≤ 1 →
  (∀ c, live_world (c_world c) →
     match m c with
     | (Ok a, c') => V a ∧ live_world (c_world c') ∧ c_st c' = c_st c ∧ c_pinned c' = c_pinned c
     | (Undef, _) => U
     | (Throw _, _) | (OutOfFuel, _) => False
     end) →
  safe U (idle b op) (atom m) (λ a l r, V a ∧ idle b op l r) E.
Proof.
  intros Hop Hm l r Hi. split; [by eapply idle_coherent|]. intros top lim rs w st Hs _ _. cbv zeta.
  specialize (Hm (join w st l) (sh_live _ _ _ _ _ Hs)). destruct (m (join w st l)) as [[a| | |] c]; try done.
  destruct Hm as (HV & Hl & Est & Epin). cbn in Est, Epin. exists r. destruct Hi as [Hp Hv Hb Ho]. split.
  - rewrite Est. eapply shared_ok_own; [done..|]. pose proof (sh_vars _ _ _ _ _ Hs) as Hvs.
    by apply Forall_cons in Hvs as [? _].
  - split; [done|]. split; try done. by rewrite Hv, <-Epin.
Qed.

Lemma idle_modify f b op :
  0 ≤ op ≤ 1 → (∀ c, c_world (f c) = c_world c ∧ c_st (f c) = c_st c ∧ c_pinned (f c) = c_pinned c) →
  safe U (idle b op) (atom (modify f)) (λ _, idle b op) E.
Proof.
  intros Hop Hf. eapply safe_weaken; [apply (idle_step _ (λ _, True) b op Hop)|done|by intros ? l r [_ ?]|done].
  intros c Hc. cbn. by destruct (Hf c) as (-> & -> & ->).
Qed.

Lemma idle_LOG level msg b op : 0 ≤ op ≤ 1 → safe U (idle b op) (atom (in_world (LOG level msg))) (λ _, idle b op) E.
Proof.
  intros Hop. eapply safe_weaken; [apply (idle_step _ (λ _, True) b op Hop)|done|by intros ? l r [_ ?]|done].
  intros c Hc. pose proof (LOG_lives (U := U) level msg (c_world c) Hc) as HL.
  destruct (LOG_eq level msg (c_world c)) as (w' & E' & _). unfold in_world, zoom. rewrite E' in *. done.
Qed.

(** The start of a request. *)
Lemma reset_safe f b op :
  0 ≤ op ≤ 1 → (∀ c, c_world (f c) = c_world c ∧ c_st (f c) = c_st c ∧ c_pinned (f c) = EmptyString) →
  safe U (idle b op) (atom (modify f)) (λ _, holding false b op) E.
Proof.
  intros Hop Hf l r Hi. split; [by eapply idle_coherent|]. intros top lim rs w st Hs _ _. cbn.
  destruct (Hf (join w st l)) as (Ew & Est & Epin). destruct Hi as [Hp Hv Hb Ho].
  exists (mkRes EmptyString EmptyString (r_budget r) op). rewrite Ew, Est. split.
  - by eapply shared_ok_own; [exact Hs|apply Hs|..].
  - split; cbn; by rewrite ?Epin.
Qed.

(** Its end. *)
Lemma unpin_safe b op :
  0 ≤ b → 0 ≤ op ≤ 1 → safe U (holding true b op) (atom unpin_phase) (λ _, idle b op) E.
Proof.
  intros Hb Hop l r Hh. split; [by eapply holding_coherent|]. intros top lim rs w st Hs Ht Hl. cbv zeta.
  destruct (shared_conn top lim true b op l r rs w st Hs Ht Hl Hh Hb) as [Hn Hc].
  pose proof (unpin_phase_ok U _ _ _ (λ _, False) _ Hc) as [Hb1 Hb2].
  assert (quiet (join w st l) (unpin_phase (join w st l)).2) as Hq
    by (unfold unpin_phase, modify, quiet; cbn; by destruct (negb _)).
  unfold unpin_phase, modify in *. cbn [fst snd] in *.
  match type of Hb1 with context [set_pinned _ ?x] => set (c := x) in * end.
  exists (mkRes EmptyString (c_pinned c) (r_budget r - b + b) op). split.
  - eapply (shared_ok_own top lim (mkRes EmptyString EmptyString (r_budget r - b + b) op));
      [|by destruct Hb1|done..].
    refine (conn_shared top lim true b b op l r rs w st (set_pinned EmptyString c) Hs Hh Hb _ Hq).
    by eapply conn_ok_le; [|exact Hb1].
  - split; cbn; try done. destruct Hh. lia.
Qed.

(** The unpinning after the loop finds the variable of the last request. *)
Lemma unpin_again_safe b op : 0 ≤ op ≤ 1 → safe U (idle b op) (atom unpin_phase) (λ _, idle b op) E.
Proof.
  intros Hop l r Hi. split; [by eapply idle_coherent|]. intros top lim rs w st Hs _ _. cbn.
  destruct Hi as [Hp Hv Hb Ho]. exists r. destruct (is_empty (l_pinned l)) eqn:Ee; cbn; [done|]. split; [|done].
  pose proof (sh_vars _ _ _ _ _ Hs) as Hvs. apply Forall_cons in Hvs as [Hv1 _]. rewrite Hv in Hv1.
  apply (shared_ok_pins top lim r r rs w st); try done.
  - apply unpin_ok; [apply Hs|]. apply Hv1. by destruct (l_pinned l).
  - intros s. rewrite unpin_le. case_bool_decide; lia.
Qed.

(** The connection is counted, and no longer counted. *)
Lemma count_safe (f : Conn B → Conn B) b n n' :
  0 ≤ n ≤ 1 → (∀ c, c_world (f c) = c_world c ∧ c_st (f c) = with_connections (active_connections (c_st c) + (n' - n)) (c_st c)
                    ∧ (c_pinned (f c) = c_pinned c ∨ c_pinned (f c) = EmptyString)) →
  safe U (idle b n) (atom (modify f)) (λ _, idle b n') E.
Proof.
  intros Hop Hf l r Hi. split; [by eapply idle_coherent|]. intros top lim rs w st Hs _ _. cbn.
  destruct (Hf (join w st l)) as (Ew & Est & Epin). destruct Hi as [Hp Hv Hb Ho].
  exists (mkRes EmptyString (c_pinned (f (join w st l))) (r_budget r) n'). rewrite Ew, Est. split; [|done].
  pose proof (sh_vars _ _ _ _ _ Hs) as Hvs. apply Forall_cons in Hvs as [Hv1 _].
  eapply (shared_ok_own top lim (mkRes (r_pin r) (r_var r) (r_budget r) n') _ rs w); [|apply Hs|done..|].
  - apply (shared_ok_pins top lim r _ rs w st); try done; [apply with_connections_ok, Hs|]. cbn. lia.
  - cbn. intros Hne. destruct Epin as [E1|E1]; rewrite E1 in *; [|done]. cbn in *. rewrite <-Hv in *. auto.
Qed.
End Idle.

(** * Connections *)

Section Connections.
Context `{BCrypt} (U : Prop) `{!Covers U}.
#[local] Abbreviation never := (λ (_ : Locals) (_ : Res), False).

(** One message, for either server: [reset] starts the request, [serve] serves it
    and [caught] is the end of the [try] block. *)
Lemma message_safe b op reset (serve : Prog (Conn B) ()) (caught : string → CoreResponse → CoreResponse) :
  0 ≤ b → 0 ≤ op ≤ 1 →
  (∀ c, c_world (reset c) = c_world c ∧ c_st (reset c) = c_st c ∧ c_pinned (reset c) = EmptyString) →
  safe U (holding false (b + 1) op) serve (λ _, holding true b op) (holding true b op) →
  safe U (idle (b + 1) op)
    (_ ← atom (modify reset);
     _ ← ptry serve (λ what, atom (on_resp (caught what)));
     out ← atom (gets (λ c, serialize_response_json (c_resp c) (c_canonical c)));
     _ ← atom unpin_phase;
     mret out) (λ _, idle b op) never.
Proof.
  intros Hb Hop Hr Hs. eapply safe_bind; [by apply reset_safe|]. intros ?.
  apply (safe_bind _ (λ _, holding true b op)).
  { eapply safe_try; [exact Hs|]. intros what. eapply safe_nothrow; [done|]. by apply resp_step. } intros ?.
  apply (safe_bind _ (λ _, holding true b op)). { eapply safe_nothrow; [done|]. by apply gets_step. } intros out.
  eapply safe_bind; [by apply unpin_safe|]. intros ?. by apply safe_ret.
Qed.

Lemma pipe_message_safe sw json b op :
  0 ≤ b → 0 ≤ op ≤ 1 → U ∨ message_ok json = true →
  safe U (idle (b + 1) op) (pipe_message_p sw json) (λ _, idle b op) never.
Proof. intros Hb Hop Hj. apply message_safe; [done|done|done|]. by apply process_safe. Qed.

Lemma tcp_message_safe ro admin json b op :
  0 ≤ b → 0 ≤ op ≤ 1 → U ∨ message_ok json = true →
  safe U (idle (b + 1) op) (tcp_message_p ro admin json) (λ _, idle b op) never.
Proof.
  intros Hb Hop Hj. apply (message_safe b op _ _ (λ _, tcp_bad_request)); [done|done|done|].
  apply parsed_safe; [done..|]. intros req Hreq. apply takes_bind; [apply resp_step; [done|lia]|]. intros ?.
  by apply tcp_serve_safe.
Qed.

Lemma pipe_loop_safe sw msgs op :
  0 ≤ op ≤ 1 → U ∨ forallb message_ok msgs = true →
  safe U (idle (Z.of_nat (length msgs)) op) (pipe_loop_p sw msgs) (λ _, idle 0 op) never.
Proof.
  intros Hop. induction msgs as [|json msgs IH]; intros Hm; [by apply safe_ret|]. cbn [pipe_loop_p length].
  replace (Z.of_nat (S (length msgs))) with (Z.of_nat (length msgs) + 1) by lia.
  assert ((U ∨ message_ok json = true) ∧ (U ∨ forallb message_ok msgs = true)) as [Hj Hms]
    by (cbn in Hm; rewrite andb_true_iff in Hm; tauto).
  eapply safe_bind; [apply pipe_message_safe; [lia|done|done]|]. intros out.
  eapply safe_bind; [by apply IH|]. intros outs. by apply safe_ret.
Qed.

(** A named-pipe connection, from its first step to its last. *)
Lemma pipe_thread_safe sw msgs :
  U ∨ forallb message_ok msgs = true →
  safe U (idle (Z.of_nat (length msgs)) 0) (pipe_thread sw msgs) (λ _, idle 0 0) never.
Proof.
  intros Hm. unfold pipe_thread. set (n := Z.of_nat (length msgs)). apply (safe_bind _ (λ _, idle n 1)).
  - unfold pipe_connect_p. eapply safe_bind; [apply (count_safe _ _ _ n 0 1); [done|]|].
    { intros c. cbn. auto. } intros ?.
    eapply safe_bind; [by apply idle_LOG|]. intros ?. apply safe_if; intros _; [|by apply safe_ret].
    eapply safe_bind; [by apply idle_modify|]. intros ?. by apply idle_LOG.
  - intros ?. eapply safe_bind; [by apply pipe_loop_safe|]. intros outs.
    apply (safe_bind _ (λ _, idle 0 0)); [|intros ?; by apply safe_ret]. unfold pipe_disconnect_p.
    eapply safe_bind; [by apply unpin_again_safe|]. intros ?.
    eapply safe_bind; [apply (count_safe _ _ _ 0 1 0); [done|]; intros c; cbn; auto|]. intros ?. by apply idle_LOG.
Qed.

Lemma tcp_loop_safe fuel ro admin encrypted cs s :
  stream_ok s → (String.length (bytes s) < fuel)%nat → U ∨ forallb message_ok (requests fuel encrypted cs s) = true →
  safe U (idle (Z.of_nat (length (requests fuel encrypted cs s))) 0) (tcp_loop_p fuel ro admin encrypted cs s)
    (λ _, idle 0 0) never.
Proof.
  revert cs s. induction fuel as [|fuel IH]; intros cs s Hs Hf Hm; [lia|]. cbn [tcp_loop_p requests] in *.
  destruct (receive encrypted cs s) as [[json s']|] eqn:Er; [|by apply safe_ret].
  destruct (receive_shorter _ _ _ _ _ Hs Er) as [Hs' Hlen].
  assert ((U ∨ message_ok json = true) ∧ (U ∨ forallb message_ok (requests fuel encrypted cs s') = true)) as [Hj Hms]
    by (cbn in Hm; rewrite andb_true_iff in Hm; tauto).
  cbn [length]. replace (Z.of_nat (S _)) with (Z.of_nat (length (requests fuel encrypted cs s')) + 1) by lia.
  eapply safe_bind; [apply tcp_message_safe; [lia|done|done]|]. intros out.
  pose proof (transmit_key encrypted out cs) as Hk. destruct (transmit encrypted out cs) as [sent cs'].
  rewrite <-(requests_key fuel encrypted cs cs' s' Hk) in *.
  eapply safe_bind; [apply IH; [done|lia|done]|]. intros rest. by apply safe_ret.
Qed.

(** The handshake does not depend on the world. *)
Lemma handshake_world auth_keys nonce s (w w' : World B) :
  (handshake auth_keys nonce s w).1 = (handshake auth_keys nonce s w').1.
Proof.
  unfold handshake. destruct (generate_local_key _) as [pk cs0]. destruct (is_empty auth_keys); [done|].
  destruct (read_answer s) as [[resp_json s1]|]; [|done].
  destruct (check_answer auth_keys nonce cs0 resp_json) as [[[cs1 failed]|]| | |]; try done.
  unfold mbind, M_bind. destruct failed; [|done]. unfold LOG. by do 2 destruct (should_log _ _).
Qed.

(** A TCP connection; [w0]: the world when it is accepted. *)
Lemma tcp_thread_safe auth_keys ro admin nonce s (w0 : World B) :
  stream_ok s → live_world w0 →
  let reqs := (connection_parts auth_keys nonce s w0).2 in
  U ∨ forallb message_ok reqs = true →
  safe U (idle (Z.of_nat (length reqs)) 0) (tcp_thread auth_keys ro admin nonce s) (λ _, idle 0 0) never.
Proof.
  intros Hs Hw0 reqs Hm. unfold tcp_thread.
  apply (safe_bind _ (λ a l r, (handshake auth_keys nonce s w0).1 = Ok a ∧ idle (Z.of_nat (length reqs)) 0 l r)).
  - apply idle_step; [done|]. intros c Hc. pose proof (handshake_world auth_keys nonce s (c_world c) w0) as Hw.
    pose proof (handshake_stream auth_keys nonce s (c_world c) False Hs Hc) as Hh. unfold in_world, zoom.
    destruct (handshake auth_keys nonce s (c_world c)) as [[[sent r]| | |] w']; try done.
    by destruct Hh as [Hl _].
  - intros [sent r] l res [Ha Hi]. pose proof (handshake_stream auth_keys nonce s w0 False Hs Hw0) as Hh.
    unfold reqs, connection_parts in *. destruct (handshake auth_keys nonce s w0) as [x w1]. cbn in Ha. subst x.
    destruct Hh as [_ Hr]. destruct r as [[cs s']|]; [|done].
    destruct (Hr cs s' eq_refl) as [Hs' Hlen]. revert l res Hi.
    eapply safe_bind; [apply tcp_loop_safe; [done|lia|done]|]. intros rest. by apply safe_ret.
Qed.
End Connections.
End Steps.
