(* ===== verification/DaemonInv.v ===== *)
(** What holds of every daemon that can be reached, whatever the order in which
    connections arrive and their threads run: the invariant, progress, and the
    end of every connection. *)

From S2P Require Import Prelude StdMap CString Double Json Types Logger Backend FakeBackend Core.
From S2P Require Import Hoare CoreProps Live ServerState ServerStateProps Server ServerProps ServerGates Framing Crypto Tcp TcpProps.
From S2P Require Import Main Threads Daemon DaemonLogic DaemonSafe.

Local Open Scope Z_scope.

(** A list with one element changed. *)
Lemma insert_delete_perm {A} (l : list A) i x y : l !! i = Some x → <[i := y]> l ≡ₚ y :: delete i l.
Proof.
  revert i. induction l as [|z l IH]; intros [|i]; try done. cbn. intros E.
  rewrite (IH i E). apply Permutation_swap.
Qed.

Section Inv.
Context {B : Type} `{LiveBackend B} `{Clock} `{Watchdog} `{BCrypt}.
Implicit Types (d : Daemon B) (t : Thread B) (ts : list (Thread B)) (rs : list Res).

(** The requests of all connections so far, the connections that have not
    ended, and those of them whose variable names the snapshot [s]. *)
Definition asked ts : Z := Z.of_nat (length (concat (t_requests <$> ts))).
Definition in_flight ts : Z := Z.of_nat (length (List.filter running ts)).
Definition users (s : string) ts : Z :=
  Z.of_nat (length (List.filter (λ t, running t && bool_decide (l_pinned (t_locals t) = s)) ts)).

(** No more connections at work than snapshots may be kept, and the counter of
    snapshots does not run out. *)
Definition bounded d : Prop :=
  in_flight (d_threads d) ≤ max_snapshots (limits (d_st d)) ∧ 1 + asked (d_threads d) < 2 ^ 64.

(** What undefined behaviour of a thread means. *)
Definition thread_ub t : Prop := backend_ub ∨ forallb message_ok (t_requests t) = false.

(** A thread that has ended: by a return, holding nothing. *)
Definition ended (x : list string + string) (l : Locals) (r : Res) : Prop :=
  (∃ outs, x = inl outs) ∧ r_pin r = EmptyString ∧ r_open r = 0.

Definition thread_ok t r : Prop := wp (thread_ub t) (t_prog t) ended (t_locals t) r.

(** The invariant. *)
Record daemon_ok (lim : Limits) rs d : Prop := {
  dk_threads : Forall2 thread_ok (d_threads d) rs;
  dk_shared : shared_ok (1 + asked (d_threads d)) lim rs (d_world d) (d_st d) }.

(** * What the threads own *)

Lemma thread_ok_cases t r :
  thread_ok t r →
  if running t then coherent (t_locals t) r
  else r_pin r = EmptyString ∧ r_open r = 0 ∧ ∃ outs, t_prog t = Fin (inl outs).
Proof.
  unfold thread_ok, running. destruct (t_prog t) as [x|X m k]; cbn; [|by intros [? _]].
  intros ([outs ->] & ? & ?). eauto.
Qed.

Lemma pins_in_flight ts rs : Forall2 thread_ok ts rs → Z.of_nat (length (pins rs)) ≤ in_flight ts.
Proof.
  unfold in_flight. induction 1 as [|t r ts rs Ht%thread_ok_cases _ IH]; [done|]. rewrite pins_cons. cbn.
  destruct (running t); [destruct (is_empty (r_pin r)); cbn; lia|]. destruct Ht as (-> & _). cbn. lia.
Qed.

Lemma pins_users s ts rs : Forall2 thread_ok ts rs → copies s (pins rs) ≤ users s ts.
Proof.
  unfold users. induction 1 as [|t r ts rs Ht%thread_ok_cases _ IH]; [done|]. rewrite copies_pins. cbn.
  unfold own_pin. case_bool_decide as E; destruct (running t); cbn; try (case_bool_decide; cbn; lia); try lia.
  - destruct Ht as [[Hp|Hp] _]; destruct E as [-> Hne]; [congruence|]. rewrite bool_decide_eq_true_2 by done. cbn. lia.
  - destruct Ht as (Hp & _), E as [-> Hne]. congruence.
Qed.

Lemma opens_in_flight ts rs : Forall2 thread_ok ts rs → 0 ≤ opens rs ≤ in_flight ts.
Proof.
  unfold in_flight. induction 1 as [|t r ts rs Ht%thread_ok_cases _ IH]; [done|]. rewrite opens_cons. cbn.
  destruct (running t); cbn; [destruct Ht; lia|]. destruct Ht as (_ & -> & _). lia.
Qed.

#[export] Instance in_flight_proper : Proper ((≡ₚ) ==> (=)) in_flight.
Proof. intros ts ts' E. unfold in_flight. induction E; cbn; repeat case_match; cbn; lia. Qed.

(** The others of a running thread leave room for its pin. *)
Lemma others_pins ts rs i t d :
  bounded d → d_threads d = ts → Forall2 thread_ok ts rs → ts !! i = Some t → running t = true →
  Z.of_nat (length (pins (delete i rs))) < max_snapshots (limits (d_st d)).
Proof.
  intros [Hb _] E Hf Hi Ht. rewrite E in Hb. pose proof (Forall2_delete _ _ _ i Hf) as Hd.
  apply pins_in_flight in Hd. rewrite (delete_Permutation ts i t Hi) in Hb. unfold in_flight in *.
  cbn in Hb. rewrite Ht in Hb. cbn in Hb. lia.
Qed.

Lemma asked_insert ts i t t' : ts !! i = Some t → t_requests t' = t_requests t → asked (<[i := t']> ts) = asked ts.
Proof.
  intros Hi Ht. unfold asked. rewrite list_fmap_insert, Ht.
  rewrite list_insert_id; [done|]. by rewrite list_lookup_fmap, Hi.
Qed.

(** * Steps *)

(** A running thread takes a step that keeps the invariant, or its behaviour is
    undefined. *)
Lemma thread_step_ok lim rs d i t :
  bounded d → daemon_ok lim rs d → d_threads d !! i = Some t → running t = true →
  match thread_step i d with
  | Some d' => ∃ rs', daemon_ok lim rs' d'
  | None => thread_ub t
  end.
Proof.
  intros Hb [Hf Hs] Hi Ht. destruct (Forall2_lookup_l _ _ _ _ _ Hf Hi) as (r & Hr & Htr).
  pose proof (others_pins _ _ _ _ d Hb eq_refl Hf Hi Ht) as Hroom.
  pose proof (sh_limits _ _ _ _ _ Hs) as Hlim. rewrite Hlim in Hroom.
  unfold thread_step. rewrite Hi. cbn [mbind option_bind]. unfold thread_ok, running in *.
  destruct (t_prog t) as [x|X m k] eqn:Ep; [done|]. destruct Htr as [_ Hm].
  specialize (Hm (1 + asked (d_threads d)) lim (delete i rs) (d_world d) (d_st d)). rewrite <-(delete_Permutation rs i r Hr) in Hm.
  specialize (Hm Hs (proj2 Hb) Hroom). cbv zeta in Hm.
  assert (∀ y c r', shared_ok (1 + asked (d_threads d)) lim (r' :: delete i rs) (c_world c) (c_st c) →
    wp (thread_ub t) (k y) ended (locals_of c) r' →
    ∃ rs', daemon_ok lim rs' (mkDaemon (c_world c) (c_st c)
      (<[i := mkThread (t_requests t) (locals_of c) (k y)]> (d_threads d)) (d_accepting d) (d_listening d)
      (d_discovery d))) as Hnext.
  { intros y c r' Hs' Hw. exists (<[i := r']> rs). split; cbn.
    - apply Forall2_insert; [done|]. exact Hw.
    - by rewrite (asked_insert _ i t), (insert_delete_perm rs i r r' Hr). }
  destruct (m (join (d_world d) (d_st d) (t_locals t))) as [[x|what| |] c]; try done.
  all: destruct Hm as (r' & Hs' & Hw); eauto.
Qed.

(** The shared world changes. *)
Lemma daemon_ok_world lim rs d w : live_world w → daemon_ok lim rs d → daemon_ok lim rs (with_world w d).
Proof. intros Hw [Hf []]. split; [done|]. by split. Qed.

Lemma daemon_ok_LOG lim rs d level msg : daemon_ok lim rs d → daemon_ok lim rs (logged (LOG level msg) d).
Proof.
  intros Hd. apply daemon_ok_world; [|done]. pose proof (LOG_lives (U := backend_ub) level msg (d_world d)) as HL.
  specialize (HL (sh_live _ _ _ _ _ (dk_shared _ _ _ Hd))).
  destruct (LOG_eq level msg (d_world d)) as (w' & E & _). by rewrite E in *.
Qed.

(** A new thread owns as many snapshots as it has requests. *)
Lemma spawn_ok lim rs d reqs p :
  daemon_ok lim rs d →
  (∀ l r, idle (Z.of_nat (length reqs)) 0 l r → wp (backend_ub ∨ forallb message_ok reqs = false) p ended l r) →
  ∃ rs', daemon_ok lim rs' (spawn reqs p d).
Proof.
  intros [Hf Hs] Hp. set (r := mkRes EmptyString EmptyString (Z.of_nat (length reqs)) 0).
  exists (rs ++ [r]). split; cbn.
  - apply Forall2_app; [done|]. constructor; [|constructor]. by apply Hp.
  - assert (asked (d_threads d ++ [mkThread reqs Locals_default p]) = asked (d_threads d) + Z.of_nat (length reqs)) as ->.
    { unfold asked. rewrite fmap_app, concat_app, !length_app. cbn. rewrite app_nil_r. lia. }
    assert (rs ++ [r] ≡ₚ r :: rs) as -> by (by rewrite Permutation_app_comm).
    destruct Hs as [? ? ? Hroom ? Hpins ? Ho]. split; try done.
    + rewrite budgets_cons. cbn [r_budget r]. lia.
    + constructor; [cbn; lia|done].
    + by constructor.
Qed.

(** The end of a connection, from the logic's. *)
Lemma safe_ended U (p : Prog (Conn B) (list string)) n :
  safe U (idle n 0) p (λ _, idle 0 0) (λ _ _, False) → ∀ l r, idle n 0 l r → wp U p ended l r.
Proof.
  intros Hp l r Hi. eapply wp_mono; [|by apply Hp]. intros [outs|what] l' r'; [|done]. intros []. split; eauto.
Qed.

Lemma message_cases reqs :
  (backend_ub (B := B) ∨ forallb message_ok reqs = false) ∨ forallb message_ok reqs = true.
Proof. destruct (forallb _ _); auto. Qed.

Lemma pipe_turn_ok lim rs d sw ev : daemon_ok lim rs d → ∃ rs', daemon_ok lim rs' (pipe_turn sw ev d).
Proof.
  intros Hd. destruct ev as [e| |msgs]; cbn [pipe_turn]; [|eauto|].
  - exists rs. destruct (daemon_ok_LOG lim rs d ERR ("Failed to create Named Pipe: " +:+ Z_to_string e) Hd). by split.
  - pose proof (daemon_ok_LOG lim rs d DEBUG "Named Pipe connection accepted." Hd) as Hl.
    destruct (negb _); [eauto|]. eapply spawn_ok; [done|].
    apply safe_ended, pipe_thread_safe; [apply _|]. apply message_cases.
Qed.

Lemma tcp_turn_ok lim rs d sw ev :
  delivers ev = true → daemon_ok lim rs d → ∃ rs', daemon_ok lim rs' (tcp_turn sw ev d).
Proof.
  intros Hdel Hd. destruct ev as [| |nonce s]; cbn [tcp_turn]; [eauto| |].
  - exists rs. by destruct Hd.
  - assert (stream_ok s) as Hs.
    { apply Forall_forall. intros x Hx%list_elem_of_In ->. cbn in Hdel. rewrite forallb_forall in Hdel.
      by specialize (Hdel _ Hx). }
    pose proof (tcp_thread_safe (backend_ub ∨ forallb message_ok (connection_parts (auth_keys_data sw) nonce s (d_world d)).2 = false)
      (auth_keys_data sw) (read_only sw) (admin_logs sw) nonce s (d_world d) Hs
      (sh_live _ _ _ _ _ (dk_shared _ _ _ Hd)) (message_cases _)) as Ht.
    destruct (connection_parts _ _ _ _) as [[hello enc] reqs]. cbn [snd] in Ht.
    eapply spawn_ok; [done|]. by apply safe_ended.
Qed.

Lemma cleanup_turn_ok lim rs d : daemon_ok lim rs d → daemon_ok lim rs (cleanup_turn d).
Proof.
  intros [Hf [? ? ? ? ? ? ? ?]]. unfold cleanup_turn. cbn. split; [done|]. split; try done. by apply with_sessions_ok.
Qed.

Lemma discovery_ok lim rs d o hostname msg x w :
  daemon_ok lim rs d → discovery_reply o hostname msg (d_world d) = (Ok x, w) → daemon_ok lim rs (with_world w d).
Proof.
  intros Hd E. apply daemon_ok_world; [|done].
  assert (lives backend_ub live_world (discovery_reply (B := B) o hostname msg)) as Hl.
  { unfold discovery_reply. apply lives_bind; [apply LOG_lives|]. intros ?. apply lives_if; intros Hm; [|apply lives_ret].
    apply lives_bind; [apply backend_lives; auto with live|]. intros env. apply lives_lift.
    unfold announcement. destruct (negb _); [done|].
    destruct (obj_at_str_cases "os" env) as [[? ->]|[? ->]]; [|done]. cbn [mbind result_bind].
    unfold obj_at. by destruct (map_find "is_wine" env) as [[]|]. }
  specialize (Hl _ (sh_live _ _ _ _ _ (dk_shared _ _ _ Hd))). by rewrite E in Hl.
Qed.

Lemma daemon_step_ok lim rs d o sw ev d' :
  bounded d → daemon_ok lim rs d → daemon_step o sw ev d = Some d' → ∃ rs', daemon_ok lim rs' d'.
Proof.
  intros Hb Hd. unfold daemon_step. destruct (negb (process_up o d)); [done|].
  destruct ev as [i|ev|ev| |hostname msg].
  - intros E. destruct (d_threads d !! i) as [t|] eqn:Hi; [|unfold thread_step in E; by rewrite Hi in E].
    destruct (running t) eqn:Ht.
    + pose proof (thread_step_ok lim rs d i t Hb Hd Hi Ht) as Hs. by rewrite E in Hs.
    + unfold thread_step in E. rewrite Hi in E. cbn in E. unfold running in Ht. by destruct (t_prog t).
  - destruct (d_accepting d); [|done]. intros [= <-]. by eapply pipe_turn_ok.
  - destruct (d_listening d && delivers ev) eqn:El; [|done]. intros [= <-]. apply andb_true_iff in El as [_ El].
    by eapply tcp_turn_ok.
  - intros [= <-]. exists rs. by apply cleanup_turn_ok.
  - destruct (negb _); [done|]. destruct (discovery_reply o hostname msg (d_world d)) as [[x| | |] w] eqn:E; try done.
    intros [= <-]. exists rs. by eapply discovery_ok.
Qed.

(** * Reachable daemons *)

Lemma startup_lives o sw ws : lives backend_ub live_world (startup (B := B) o sw ws).
Proof.
  live_walk; apply lives_lift; [..|by destruct v].
  all: unfold obj_at; by destruct (map_find _ _) as [[]|].
Qed.

Lemma daemon_start_ok o sw ws (w w' : World B) d :
  live_world w → daemon_start o sw ws w = (Ok d, w') → daemon_ok (configure o) [] d.
Proof.
  intros Hw. unfold daemon_start, mbind, M_bind, get_st. pose proof (startup_lives o sw ws w Hw) as Hs.
  destruct (startup o sw ws w) as [[b| | |] w1]; try done. intros [= <- <-]. split; [constructor|].
  split; cbn; try done. apply init_ok.
Qed.

Section Reachable.
Context (o : Options) (sw : Switches) (ws : Winsock) (w w' : World B) (d0 : Daemon B).
Hypothesis (Hlive : live_world w) (Hstart : daemon_start o sw ws w = (Ok d0, w')).

Lemma reachable_ok d : reachable o sw bounded d0 d → bounded d ∧ ∃ rs, daemon_ok (configure o) rs d.
Proof.
  induction 1 as [Hb|d ev d' _ [Hb [rs Hd]] Hs Hb'].
  - split; [done|]. exists []. by eapply daemon_start_ok.
  - split; [done|]. exact (daemon_step_ok _ rs d o sw ev d' Hb Hd Hs).
Qed.
End Reachable.
End Inv.

Section Theorems.
Context {B : Type} `{LiveBackend B} `{Clock} `{Watchdog} `{BCrypt}.
Implicit Types (d : Daemon B) (t : Thread B).

(** C4: However many connections of both kinds the daemon serves and however
    their threads interleave, at every moment the snapshot store is consistent,
    no snapshot has more pins than there are connections at work whose request
    names it, and the count of connections lies between zero and their number;
    so it is back to zero, with no pin left, whenever all have ended.  Each step
    of a thread is one hold of the server's lock, one call of the backend or
    work on its own variables; no more connections are at work than snapshots
    may be kept, and fewer than 2^64 requests are made in all. *)
Theorem daemon_consistent o sw ws (w w' : World B) d0 d :
  live_world w → daemon_start o sw ws w = (Ok d0, w') → reachable o sw bounded d0 d →
  state_ok (d_st d)
  ∧ (∀ s, pin_count s (d_st d) ≤ users s (d_threads d))
  ∧ 0 ≤ active_connections (d_st d) ≤ in_flight (d_threads d).
Proof.
  intros Hl Hs Hr. destruct (reachable_ok o sw ws w w' d0 Hl Hs d Hr) as [_ [rs [Hf Hsh]]]. split_and!.
  - apply Hsh.
  - intros s. etrans; [apply (sh_pins _ _ _ _ _ Hsh)|by apply pins_users].
  - rewrite (sh_open _ _ _ _ _ Hsh). by apply (opens_in_flight (d_threads d)).
  - rewrite (sh_open _ _ _ _ _ Hsh). by apply (opens_in_flight (d_threads d)).
Qed.

End Theorems.
