(* ===== verification/DaemonRuns.v ===== *)
(** Runs of the daemon: without new connections they end, with every connection
    served; and two runs that the limits do not prevent. *)

From Stdlib Require Import Wellfounded.
From S2P Require Import Prelude StdMap CString Double Json Types Logger Backend FakeBackend Core.
From S2P Require Import Hoare CoreProps Live ServerState ServerStateProps Server ServerProps ServerGates ServerPins Framing Crypto Tcp TcpProps.
From S2P Require Import Main Threads Daemon DaemonLogic DaemonSafe DaemonInv.

Local Open Scope Z_scope.

(** * Threads end *)

(** What is left of a program after a step. *)
Definition after {S A} (p' p : Prog S A) : Prop :=
  match p with Fin _ => False | Atom m k => ∃ r, p' = k r end.

Lemma after_wf {S A} : well_founded (after (S := S) (A := A)).
Proof. intros p. induction p as [x|X m k IH]; constructor; [done|]. intros p' [r ->]. apply IH. Qed.

(** One element of a list takes a step. *)
Definition one {X} (R : X → X → Prop) (l' l : list X) : Prop :=
  ∃ i x y, l !! i = Some x ∧ R y x ∧ l' = <[i := y]> l.

Lemma one_acc_cons {X} (R : X → X → Prop) x l : Acc R x → Acc (one R) l → Acc (one R) (x :: l).
Proof.
  intros Hx. revert l. induction Hx as [x _ IHx]. intros l Hl. induction Hl as [l Hl IHl].
  constructor. intros l' (i & y & z & Hi & HR & ->). destruct i as [|i]; cbn in *.
  - injection Hi as ->. apply IHx; [done|]. by constructor.
  - apply IHl. by exists i, y, z.
Qed.

Lemma one_wf {X} (R : X → X → Prop) : well_founded R → well_founded (one R).
Proof.
  intros HR l. induction l as [|x l IH]; [|by apply one_acc_cons]. constructor. by intros l' (i & x & y & Hi & _).
Qed.

Section Ends.
Context {B : Type} `{LiveBackend B} `{Clock} `{Watchdog} `{BCrypt}.
Implicit Types (d : Daemon B) (t : Thread B).

(** Some thread takes a step. *)
Definition runs_on d' d : Prop := ∃ i, thread_step i d = Some d'.

Lemma thread_step_inv i d d' :
  thread_step i d = Some d' →
  ∃ t X (m : M (Conn B) X) k r c, d_threads d !! i = Some t ∧ t_prog t = Atom m k
    ∧ d' = mkDaemon (c_world c) (c_st c) (<[i := mkThread (t_requests t) (locals_of c) (k r)]> (d_threads d))
             (d_accepting d) (d_listening d) (d_discovery d)
    ∧ (m (join (d_world d) (d_st d) (t_locals t))).2 = c.
Proof.
  unfold thread_step. destruct (d_threads d !! i) as [t|] eqn:Hi; [|done]. cbn [mbind option_bind].
  destruct (t_prog t) as [x|X m k] eqn:Hp; [done|].
  destruct (m (join (d_world d) (d_st d) (t_locals t))) as [[x|what| |] c] eqn:Em; try done.
  all: intros [= <-]; eexists t, X, m, k, _, c; split_and!; [done..|by rewrite Em].
Qed.

Lemma runs_on_wf : well_founded runs_on.
Proof.
  intros d. apply (Acc_incl _ _ (λ d' d, one after (t_prog <$> d_threads d') (t_prog <$> d_threads d))).
  - intros d' d1 [i (t & X & m & k & r & c & Hi & Hp & -> & _)%thread_step_inv].
    exists i, (t_prog t), (k r). split_and!; [by rewrite list_lookup_fmap, Hi|rewrite Hp; by exists r|].
    cbn. by rewrite list_fmap_insert.
  - apply (Acc_inverse_image _ _ _ (λ d, t_prog <$> d_threads d)), one_wf, after_wf.
Qed.

Lemma no_infinite_run d (f : nat → Daemon B) : f 0%nat = d → ¬ ∀ n, runs_on (f (S n)) (f n).
Proof.
  revert f. induction (runs_on_wf d) as [d _ IH]. intros f <- Hf.
  exact (IH (f 1%nat) (Hf 0%nat) (λ n, f (S n)) eq_refl (λ n, Hf (S n))).
Qed.

(** A thread's step keeps the bounds. *)
Lemma thread_step_bounded lim rs d i d' :
  bounded d → daemon_ok lim rs d → thread_step i d = Some d' → bounded d' ∧ ∃ rs', daemon_ok lim rs' d'.
Proof.
  intros Hb Hd E. destruct (thread_step_inv i d d' E) as (t & X & m & k & r & c & Hi & Hp & Ed & _).
  assert (running t = true) as Ht by (unfold running; by rewrite Hp).
  pose proof (thread_step_ok lim rs d i t Hb Hd Hi Ht) as Hk. rewrite E in Hk. split; [|done].
  destruct Hk as [rs' [_ Hs']]. destruct Hd as [_ Hs], Hb as [Hb1 Hb2]. unfold bounded.
  rewrite (sh_limits _ _ _ _ _ Hs'). rewrite (sh_limits _ _ _ _ _ Hs) in Hb1. subst d'. cbn [d_threads].
  rewrite (asked_insert _ i t) by done. split; [|done].
  rewrite (insert_delete_perm _ i t) by done. rewrite (delete_Permutation _ i t Hi) in Hb1.
  unfold in_flight in *. cbn [List.filter] in *. rewrite Ht in Hb1. destruct (running (mkThread _ _ _)); cbn [length] in *; lia.
Qed.

Lemma runs_bounded lim rs d d' :
  bounded d → daemon_ok lim rs d → rtc (flip runs_on) d d' → bounded d' ∧ ∃ rs', daemon_ok lim rs' d'.
Proof.
  intros Hb Hd Hr. revert rs Hb Hd. induction Hr as [d|d d1 d2 [i E] _ IH]; intros rs Hb Hd; [eauto|].
  destruct (thread_step_bounded lim rs d i d1 Hb Hd E) as [Hb1 [rs1 Hd1]]. by apply (IH rs1).
Qed.

(** Threads that have ended hold nothing. *)
Lemma ended_clean lim rs d :
  daemon_ok lim rs d → Forall (λ t, running t = false) (d_threads d) →
  Forall (λ t, ∃ outs, t_prog t = Fin (inl outs)) (d_threads d)
  ∧ active_connections (d_st d) = 0 ∧ ∀ s, pin_count s (d_st d) ≤ 0.
Proof.
  intros [Hf Hs] He. assert (in_flight (d_threads d) = 0 ∧ ∀ s, users s (d_threads d) = 0) as [Hi Hu].
  { unfold in_flight, users. clear -He. induction He as [|t ts Ht _ [IH1 IH2]]; [done|]. cbn. by rewrite Ht. }
  split_and!.
  - clear -Hf He. induction Hf as [|t r ts rs Ht%thread_ok_cases Hf IH]; [constructor|].
    apply Forall_cons in He as [He1 He]. rewrite He1 in Ht. constructor; [tauto|auto].
  - rewrite (sh_open _ _ _ _ _ Hs). pose proof (opens_in_flight _ _ Hf). lia.
  - intros s. rewrite <-(Hu s). etrans; [apply (sh_pins _ _ _ _ _ Hs)|by apply pins_users].
Qed.

End Ends.

(** * The limit on connections *)

Section Limit.
Context {B : Type} `{IBackend B} `{Clock} `{Watchdog} `{BCrypt}.
Context (o : Options) (sw : Switches).
Implicit Types (d : Daemon B).
#[local] Abbreviation reaches := (reachable o sw (λ _, True)).

Lemma reaches_trans d0 d1 d2 : reaches d0 d1 → reaches d1 d2 → reaches d0 d2.
Proof. intros H1' H2'. induction H2' as [_|d ev d' _ IH E _]; [done|]. by eapply reach_step. Qed.

Lemma reaches_step ev d d' : daemon_step o sw ev d = Some d' → reaches d d'.
Proof. intros E. by eapply reach_step; [apply reach_start|..]. Qed.

(** A connection that has been accepted and not begun. *)
Definition waiting : Thread B := mkThread [] Locals_default (pipe_thread sw []).

Lemma accept_many n d :
  process_up o d = true → d_accepting d = true → accepts (d_st d) = true →
  ∃ d', reaches d d' ∧ d_st d' = d_st d ∧ d_threads d' = d_threads d ++ replicate n waiting ∧ process_up o d' = true.
Proof.
  revert d. induction n as [|n IH]; intros d Hu Ha Hl.
  { exists d. split_and!; [by apply reach_start|done|by rewrite app_nil_r|done]. }
  set (d1 := pipe_turn sw (PipeConnected []) d).
  assert (d_st d1 = d_st d ∧ d_accepting d1 = true ∧ d_threads d1 = d_threads d ++ [waiting] ∧ process_up o d1 = true)
    as (Es & Ea & Et & Eu).
  { unfold d1, pipe_turn. cbn. by rewrite Hl. }
  destruct (IH d1) as (d2 & Hr & Es2 & Et2 & Eu2); [done|done|by rewrite Es|].
  exists d2. split_and!; [|by rewrite Es2|by rewrite Et2, Et, <-app_assoc|done].
  eapply reaches_trans; [|exact Hr]. apply (reaches_step (PipeTurn (PipeConnected []))). unfold daemon_step. by rewrite Hu, Ha.
Qed.

Lemma begin_many n pre d :
  process_up o d = true → d_threads d = pre ++ replicate n waiting →
  ∃ d', reaches d d' ∧ active_connections (d_st d') = active_connections (d_st d) + Z.of_nat n.
Proof.
  revert pre d. induction n as [|n IH]; intros pre d Hu Et.
  { exists d. split; [by apply reach_start|lia]. }
  set (c := set_st (with_connections (active_connections (d_st d) + 1) (d_st d))
              (join (d_world d) (d_st d) Locals_default)).
  assert (∃ t, thread_step (length pre) d = Some (mkDaemon (d_world d) (c_st c)
    (<[length pre := t]> (d_threads d)) (d_accepting d) (d_listening d) (d_discovery d))) as [t E].
  { unfold thread_step. rewrite Et. rewrite lookup_app_r, Nat.sub_diag by lia. by eexists. }
  match type of E with _ = Some ?x => set (d1 := x) in * end.
  assert (d_threads d1 = (pre ++ [t]) ++ replicate n waiting) as Et1.
  { cbn. rewrite Et, insert_app_r_alt, Nat.sub_diag by lia. cbn. by rewrite <-app_assoc. }
  destruct (IH (pre ++ [t]) d1 Hu Et1) as (d' & Hr & Hc).
  exists d'. split; [|cbn in Hc; lia]. eapply reaches_trans; [|exact Hr]. apply (reaches_step (ThreadRuns (length pre))).
  unfold daemon_step. by rewrite Hu.
Qed.

End Limit.

(** * Sample runs *)

#[local] Existing Instance test_clock.
#[local] Existing Instance test_watchdog.
#[local] Existing Instance test_bcrypt.

Definition test_winsock : Winsock := mkWinsock true None None None true.

(** The daemon on the fake backend that the command line [args] starts. *)
Definition test_start (args : list string) : option (Options * Daemon FakeBackend) :=
  match parse_args args with
  | Ok o => match daemon_start o open_switches test_winsock test_world with
            | (Ok d, _) => Some (o, d)
            | _ => None
            end
  | _ => None
  end.

Definition subscribe_request : string := request_text "1" "events.subscribe" [].
Definition capture_request : string := request_text "2" "snapshot.capture" [].
Definition use_second_request : string := request_text "9" "window.listTop" [("snapshot_id", JStr "s-2")].

Lemma run_events_reaches o evs (d d' : Daemon FakeBackend) :
  run_events o open_switches evs d = Some d' → reachable o open_switches (λ _, True) d d'.
Proof.
  revert d. induction evs as [|ev evs IH]; intros d; cbn [run_events].
  - intros [= ->]. by apply reach_start.
  - destruct (daemon_step o open_switches ev d) as [d1|] eqn:E; [|done]. cbn. intros Hr.
    eapply reaches_trans; [by eapply reaches_step|]. by apply IH.
Qed.

Definition boundedb (d : Daemon FakeBackend) : bool :=
  (in_flight (d_threads d) <=? max_snapshots (limits (d_st d))) && (1 + asked (d_threads d) <? 2 ^ 64).

(** The same with the bounds checked at each step. *)
Fixpoint run_bounded (o : Options) (evs : list DaemonEvent) (d : Daemon FakeBackend) : option (Daemon FakeBackend) :=
  if negb (boundedb d) then None else
  match evs with
  | [] => Some d
  | ev :: evs => daemon_step o open_switches ev d ≫= run_bounded o evs
  end.

Lemma run_bounded_reaches o evs d0 d d' :
  run_bounded o evs d = Some d' → (bounded d → reachable o open_switches bounded d0 d) →
  reachable o open_switches bounded d0 d'.
Proof.
  revert d. induction evs as [|ev evs IH]; intros d; cbn [run_bounded];
    destruct (negb (boundedb d)) eqn:Eb; try done; apply negb_false_iff, andb_true_iff in Eb as [Eb1 Eb2];
    apply Z.leb_le in Eb1; apply Z.ltb_lt in Eb2.
  - intros [= ->] Hr. by apply Hr.
  - destruct (daemon_step o open_switches ev d) as [d1|] eqn:E; [|done]. cbn. intros Hrun Hr.
    apply (IH d1 Hrun). intros Hb1. eapply reach_step; [by apply Hr|exact E|done].
Qed.

Lemma test_world_live : live_world test_world.
Proof. apply sample_acyclic. Qed.

(** Two connections at once: one has pinned its snapshot while the other
    captures. *)
Definition two_connections : list DaemonEvent :=
  [PipeTurn (PipeConnected [subscribe_request; use_request]); PipeTurn (PipeConnected [capture_request])]
  ++ replicate 12 (ThreadRuns 0) ++ replicate 5 (ThreadRuns 1) ++ replicate 9 (ThreadRuns 0)
  ++ [CleanupTurn; DiscoveryTurn "host" "WININSPECT_DISCOVER"] ++ replicate 8 (ThreadRuns 1).

Definition sample_run (args : list string) (evs : list DaemonEvent) : option (Daemon FakeBackend) :=
  '(o, d) ← test_start args; run_bounded o evs d.

(** What the sample run gives to a theorem about reachable daemons. *)
Lemma sample_reachable (Q : Daemon FakeBackend → Prop) args evs :
  match sample_run args evs with Some _ => true | None => false end = true →
  (∀ o d0 w' d, daemon_start o open_switches test_winsock test_world = (Ok d0, w') →
     reachable o open_switches bounded d0 d → sample_run args evs = Some d → Q d) →
  match sample_run args evs with Some d => Q d | None => False end.
Proof.
  intros Hc HQ. unfold sample_run, test_start in *. destruct (parse_args args) as [o| | |]; try done.
  destruct (daemon_start o open_switches test_winsock test_world) as [[d0| | |] w'] eqn:Es; try done.
  cbn [mbind option_bind] in *. destruct (run_bounded o evs d0) as [d|] eqn:Er; [|done].
  apply (HQ o d0 w' d); [done| |done]. eapply run_bounded_reaches; [exact Er|]. intros Hb. by apply reach_start.
Qed.

Lemma daemon_consistent_witness :
  match sample_run [] two_connections with
  | Some d => state_ok (d_st d) ∧ pin_count "s-1" (d_st d) ≤ users "s-1" (d_threads d)
              ∧ 0 ≤ active_connections (d_st d) ≤ in_flight (d_threads d)
  | None => False
  end.
Proof.
  apply sample_reachable; [vm_compute; reflexivity|]. intros o d0 w' d Es Hr _.
  destruct (daemon_consistent o open_switches test_winsock test_world w' d0 d test_world_live Es Hr) as (H1' & H2' & H3').
  split; [exact H1'|split; [apply H2'|exact H3']].
Defined.




(** * A daemon that hangs *)

(** Two connections hold a snapshot each, the third is about to capture. *)
Definition three_connections : list DaemonEvent :=
  [PipeTurn (PipeConnected [subscribe_request; use_request]);
   PipeTurn (PipeConnected [subscribe_request; use_second_request]); PipeTurn (PipeConnected [capture_request])]
  ++ replicate 21 (ThreadRuns 0) ++ replicate 21 (ThreadRuns 1) ++ replicate 11 (ThreadRuns 2).

(** Without the bound on the connections at work the daemon can hang: under
    [--max-snapshots 1], three connections with ordinary requests lead to a
    daemon in which the third one's next step, the capture under the server's
    lock, never ends. *)
Theorem capture_can_hang :
  match test_start ["--max-snapshots"; "1"] with
  | Some (o, d0) =>
      ∃ d, reachable o open_switches (λ _, True) d0 d
        ∧ thread_step 2 d = None ∧ running <$> d_threads d !! 2%nat = Some true
        ∧ ∀ s fuel, evict_loop fuel (store_snapshot s (d_st d)).2 = OutOfFuel
  | None => False
  end.
Proof.
  assert (match test_start ["--max-snapshots"; "1"] with
          | Some (o, d0) =>
              match run_events o open_switches three_connections d0 with
              | Some d => match thread_step 2 d with None => true | Some _ => false end = true
                          ∧ running <$> d_threads d !! 2%nat = Some true
                          ∧ snap_counter (d_st d) = 3 ∧ lru_order (d_st d) = ["s-1"; "s-2"]
                          ∧ pin_count "s-1" (d_st d) = 1 ∧ pin_count "s-2" (d_st d) = 1
                          ∧ pin_count "s-3" (d_st d) = 0 ∧ max_snapshots (limits (d_st d)) = 1
              | None => False
              end
          | None => False
          end) as Hc by (vm_compute; done).
  destruct (test_start _) as [[o d0]|]; [|done].
  destruct (run_events o open_switches three_connections d0) as [d|] eqn:Er; [|done].
  exists d. split; [by eapply run_events_reaches|]. destruct Hc as (Hs & Hr & Ec & El & E1 & E2 & E3 & Em).
  split_and!; [by destruct (thread_step 2 d)|done|]. intros s. apply evict_never_ends.
  - cbn. rewrite El, Ec. repeat constructor; set_solver.
  - unfold n_pinned, pinnedb, pin_count in *. cbn. rewrite El, Ec. change (make_snap_id 3) with "s-3". cbn. by rewrite E1, E2, E3, Em.
Qed.
