(* ===== verification/Cli.v ===== *)
(** [clients/cli/src/cli.cpp]: the command-line client, from [argv] to the
    request it sends, and its conversation with the daemon. *)

From Stdlib Require Import SpecFloat.
From S2P Require Import Prelude StdMap CString Double Json Base64 Types Core Crypto Framing.

Local Open Scope Z_scope.

(** * Numbers on the command line *)

(** The mantissa, and the exponent after [p], of a hexadecimal number. *)
Definition read_binary_exponent (s : string) : Z :=
  match s with
  | String c s' =>
      if ascii_eqb (toupper c) "P"%char then
        let '(neg, s2) := read_sign s' in
        if head_is isdigit s2 then
          let v := (read_digits dec_digit 10 0 s2).1 in if neg then - v else v
        else 0
      else 0
  | EmptyString => 0
  end.

Definition is_xdigit (c : ascii) : bool := bool_decide (is_Some (hex_digit c)).

(** The digits after [0x], when there is one. *)
Definition strtod_hex (neg : bool) (s : string) : option (result double) :=
  let '(m1, s2) := read_digits hex_digit 16 0 s in
  let frac := match s2 with
              | String c s' => if ascii_eqb c "."%char then s' else EmptyString
              | EmptyString => EmptyString
              end in
  let '(m2, s3) := read_digits hex_digit 16 m1 frac in
  let k := Z.of_nat (String.length frac - String.length s3)%nat in
  if head_is is_xdigit s || head_is is_xdigit frac then
    let rest := if head_is (λ c, ascii_eqb c "."%char) s2 then s3 else s2 in
    Some match m2 with
         | Zpos p =>
             match binary_round prec64 emax64 neg p (read_binary_exponent rest - 4 * k) with
             | S754_infinity _ | S754_zero _ => Throw "stod argument out of range"
             | d => Ok d
             end
         | _ => Ok (S754_zero neg)
         end
  else None.

(** [std::stod]: decimal text ([Double.stod]), hexadecimal text, infinity and
    NaN. *)
Definition stod_any (s : string) : result double :=
  let '(neg, s1) := read_sign (skip_while isspace s) in
  let u := str_map toupper s1 in
  if starts_with "INF" u then Ok (S754_infinity neg)
  else if starts_with "NAN" u then Ok S754_nan
  else if starts_with "0X" u then
    match strtod_hex neg (str_drop 2 s1) with Some r => r | None => stod s end
  else stod s.

Definition oct_digit (c : ascii) : option Z :=
  match dec_digit c with Some d => if d <? 8 then Some d else None | None => None end.

(** [std::stoull(s, nullptr, 0)]: the base is that of the prefix; a negative
    number wraps around. *)
Definition stoull_auto (s : string) : result Z :=
  let '(neg, s1) := read_sign (skip_while isspace s) in
  let u := str_map toupper s1 in
  let digits := if starts_with "0X" u && head_is is_xdigit (str_drop 2 s1)
                then Some (read_digits hex_digit 16 0 (str_drop 2 s1)).1
                else if head_is (λ c, ascii_eqb c "0"%char) s1
                then Some (read_digits oct_digit 8 0 s1).1
                else if head_is isdigit s1 then Some (read_digits dec_digit 10 0 s1).1 else None in
  match digits with
  | None => Throw "invalid stoull argument"
  | Some v =>
      if v <? 2 ^ 64 then Ok ((if neg then - v else v) mod 2 ^ 64)
      else Throw "stoull argument out of range"
  end.

(** * Options *)

(** The variables of [main] that an option sets, and [g_pipe_name]. *)
Record CliOptions := mkCliOptions {
  use_tcp : bool; tcp_host : string; cli_port : Z; session_id_arg : string; cli_pipe : string }.

Definition CliOptions_default : CliOptions :=
  mkCliOptions false "127.0.0.1" 1985 EmptyString "\\.\pipe\wininspectd".

Definition set_cli_pipe (name : string) (o : CliOptions) : CliOptions :=
  mkCliOptions (use_tcp o) (tcp_host o) (cli_port o) (session_id_arg o) ("\\.\pipe\" +:+ name).
Definition set_cli_tcp (host : string) (port : Z) (o : CliOptions) : CliOptions :=
  mkCliOptions true host port (session_id_arg o) (cli_pipe o).
Definition set_cli_session (sid : string) (o : CliOptions) : CliOptions :=
  mkCliOptions (use_tcp o) (tcp_host o) (cli_port o) sid (cli_pipe o).

(** [host:port], or a host. *)
Definition set_host_port (host_port : string) (o : CliOptions) : result CliOptions :=
  match str_find ":" host_port with
  | Some colon =>
      port ← stoi (str_drop (S colon) host_port);
      Ok (set_cli_tcp (str_take colon host_port) port o)
  | None => Ok (set_cli_tcp host_port (cli_port o) o)
  end.

(** The loop over [argv] after the program's name: the options, and [args].
    [--pipe] and [--session-id] are options only when a value follows;
    [--tcp] takes what follows, if anything. *)
Fixpoint scan_args (argv : list string) (o : CliOptions) (args : list string)
    : result (CliOptions * list string) :=
  match argv with
  | [] => Ok (o, args)
  | a :: rest =>
      if bool_decide (a = "--tcp") then
        match rest with
        | v :: rest' => o ← set_host_port v o; scan_args rest' o args
        | [] => Ok (set_cli_tcp (tcp_host o) (cli_port o) o, args)
        end
      else
        match rest with
        | v :: rest' =>
            if bool_decide (a = "--pipe") then scan_args rest' (set_cli_pipe v o) args
            else if bool_decide (a = "--session-id") then scan_args rest' (set_cli_session v o) args
            else scan_args rest o (args ++ [a])
        | [] => Ok (o, args ++ [a])
        end
  end.

(** * Commands *)

(** What [main] goes on to do. *)
Inductive Action :=
| Usage
| Send (method : string) (params : Object)
| Watch (params : Object)
| Discover (port timeout_ms : Z)
| SaveKey (path : string).

(** A command: [argv], [args] and [params] at the start of its block. *)
Definition Command : Type := list string → list string → Object → result Action.

(** [params[key] = ...args[index]...]. *)
Inductive Kind :=
| Text      (* the argument *)
| Number    (* [std::stod] of it *)
| Address   (* [(double)std::stoull] of it, any base *)
| IsTrue.   (* whether it is "true" *)

Definition kind_value (k : Kind) (a : string) : result Value :=
  match k with
  | Text => Ok (JStr a)
  | Number => d ← stod_any a; Ok (JNum d)
  | Address => n ← stoull_auto a; Ok (JNum (double_of_Z n))
  | IsTrue => Ok (JBool (bool_decide (a = "true")))
  end.

(** The assignments of a command, in order; one from an argument that may be
    absent is guarded by [args.size()]. *)
Fixpoint assign (fields : list (string * nat * Kind)) (args : list string) (params : Object) : result Object :=
  match fields with
  | [] => Ok params
  | (key, i, k) :: fields =>
      match args !! i with
      | Some a => v ← kind_value k a; assign fields args (map_set key v params)
      | None => assign fields args params
      end
  end.

(** [if (args.size() < n) return usage(); ...; return send_and_print(method)]. *)
Definition simple (n : nat) (method : string) (fields : list (string * nat * Kind)) : Command :=
  λ _ args params,
    if (length args <? n)%nat then Ok Usage else
    params ← assign fields args params; Ok (Send method params).

(** The loops over [get_snapshot]. *)
Fixpoint snapshot_args (args : list string) (params : Object) : Object :=
  match args with
  | a :: ((v :: rest) as r) =>
      if bool_decide (a = "--snapshot") then snapshot_args rest (map_set "snapshot_id" (JStr v) params)
      else snapshot_args r params
  | _ => params
  end.

(** The same with [--snapshot] options after the first [n] arguments. *)
Definition with_snapshot (n : nat) (method : string) (fields : list (string * nat * Kind)) : Command :=
  λ _ args params,
    if (length args <? n)%nat then Ok Usage else
    params ← assign fields args params; Ok (Send method (snapshot_args (drop n args) params)).

(** [args[1].rfind("0x", 0) == 0]. *)
Definition cmd_tree : Command := λ _ args params,
  match args with
  | _ :: h :: rest =>
      if starts_with "0x" h
      then Ok (Send "window.getTree" (snapshot_args rest (map_set "hwnd" (JStr h) params)))
      else Ok (Send "window.getTree" (snapshot_args (h :: rest) params))
  | _ => Ok (Send "window.getTree" params)
  end.

(** [--wait-ms] anywhere in [argv]: the last one counts, each is read. *)
Fixpoint wait_args (argv : list string) (params : Object) : result Object :=
  match argv with
  | a :: ((v :: _) as r) =>
      if bool_decide (a = "--wait-ms")
      then d ← stod_any v; wait_args r (map_set "wait_ms" (JNum d) params)
      else wait_args r params
  | _ => Ok params
  end.

Definition cmd_events_poll : Command := λ argv args params,
  match args with
  | _ :: sid :: rest =>
      let params := map_set "snapshot_id" (JStr sid) params in
      let params := match rest with
                    | old :: _ =>
                        if negb (starts_with "0x" old) && negb (contains "--" old)
                        then map_set "old_snapshot_id" (JStr old) params else params
                    | [] => params
                    end in
      params ← wait_args argv params;
      Ok (Send "events.poll" params)
  | _ => Ok Usage
  end.

(** A value that is an option's name is taken as the value. *)
Fixpoint update_args (args : list string) (params : Object) : Object :=
  match args with
  | a :: ((v :: rest) as r) =>
      if bool_decide (a = "--url") then update_args rest (map_set "url" (JStr v) params)
      else if bool_decide (a = "--type") then update_args rest (map_set "type" (JStr v) params)
      else update_args r params
  | _ => params
  end.

Definition cmd_update : Command := λ _ args params,
  Ok (Send "daemon.downloadUpdate" (update_args (drop 1 args) params)).

(** The options of [discover], anywhere in [argv].  A port that [std::stoi]
    reads is not the name of the other option. *)
Fixpoint discover_args (argv : list string) (port timeout : Z) : result (Z * Z) :=
  match argv with
  | a :: ((v :: rest) as r) =>
      if bool_decide (a = "--discovery-port") then port ← stoi v; discover_args rest port timeout
      else if bool_decide (a = "--discovery-timeout")
      then timeout ← stoi v; discover_args rest port timeout
      else discover_args r port timeout
  | _ => Ok (port, timeout)
  end.

Definition cmd_discover : Command := λ argv _ _,
  '(port, timeout) ← discover_args argv 1986 2000; Ok (Discover port timeout).

Definition cmd_watch : Command := λ _ _ params, Ok (Watch params).

Definition cmd_config : Command := λ _ args _,
  match args with
  | _ :: k :: path :: _ => if bool_decide (k = "--key") then Ok (SaveKey path) else Ok Usage
  | _ => Ok Usage
  end.

(** The blocks [if (cmd == name) ...] of [main], in order. *)
Definition window_commands : list (string * Command) :=
  [("discover", cmd_discover);
   ("capture", simple 1 "snapshot.capture" []);
   ("top", with_snapshot 1 "window.listTop" []);
   ("info", with_snapshot 2 "window.getInfo" [("hwnd", 1%nat, Text)]);
   ("children", with_snapshot 2 "window.listChildren" [("hwnd", 1%nat, Text)]);
   ("tree", cmd_tree);
   ("highlight", simple 2 "window.highlight" [("hwnd", 1%nat, Text)]);
   ("pick", with_snapshot 3 "window.pickAtPoint" [("x", 1%nat, Number); ("y", 2%nat, Number)]);
   ("set-prop", simple 4 "window.setProperty"
      [("hwnd", 1%nat, Text); ("name", 2%nat, Text); ("value", 3%nat, Text)]);
   ("control-click", simple 4 "window.controlClick"
      [("hwnd", 1%nat, Text); ("x", 2%nat, Number); ("y", 3%nat, Number); ("button", 4%nat, Number)]);
   ("control-send", simple 3 "window.controlSend" [("hwnd", 1%nat, Text); ("text", 2%nat, Text)])].

Definition screen_commands : list (string * Command) :=
  [("get-pixel", simple 3 "screen.getPixel" [("x", 1%nat, Number); ("y", 2%nat, Number)]);
   ("pixel-search", simple 8 "screen.pixelSearch"
      [("left", 1%nat, Number); ("top", 2%nat, Number); ("right", 3%nat, Number); ("bottom", 4%nat, Number);
       ("r", 5%nat, Number); ("g", 6%nat, Number); ("b", 7%nat, Number); ("variation", 8%nat, Number)]);
   ("capture", simple 5 "screen.capture"
      [("left", 1%nat, Number); ("top", 2%nat, Number); ("right", 3%nat, Number); ("bottom", 4%nat, Number)]);
   ("ps", simple 1 "process.list" []);
   ("kill", simple 2 "process.kill" [("pid", 1%nat, Number)]);
   ("file-info", simple 2 "file.getInfo" [("path", 1%nat, Text)]);
   ("file-read", simple 2 "file.read" [("path", 1%nat, Text)]);
   ("find-regex", simple 1 "window.findRegex" [("title_regex", 1%nat, Text); ("class_regex", 2%nat, Text)])].

Definition system_commands : list (string * Command) :=
  [("reg-read", simple 2 "reg.read" [("path", 1%nat, Text)]);
   ("reg-write", simple 5 "reg.write"
      [("path", 1%nat, Text); ("name", 2%nat, Text); ("type", 3%nat, Text); ("data", 4%nat, Text)]);
   ("reg-delete", simple 2 "reg.delete" [("path", 1%nat, Text); ("name", 2%nat, Text)]);
   ("clip-read", simple 1 "clipboard.read" []);
   ("clip-write", simple 2 "clipboard.write" [("text", 1%nat, Text)]);
   ("svc-list", simple 1 "service.list" []);
   ("svc-status", simple 2 "service.status" [("name", 1%nat, Text)]);
   ("svc-control", simple 3 "service.control" [("name", 1%nat, Text); ("action", 2%nat, Text)]);
   ("env-get", simple 1 "env.get" []);
   ("env-set", simple 3 "env.set" [("name", 1%nat, Text); ("value", 2%nat, Text)]);
   ("wine-drives", simple 1 "wine.drives" []);
   ("wine-overrides", simple 1 "wine.overrides" []);
   ("mutex-check", simple 2 "sync.checkMutex" [("name", 1%nat, Text)]);
   ("mutex-create", simple 2 "sync.createMutex" [("name", 1%nat, Text); ("own", 2%nat, IsTrue)]);
   ("mem-read", simple 4 "mem.read" [("pid", 1%nat, Number); ("address", 2%nat, Address); ("size", 3%nat, Number)]);
   ("mem-write", simple 4 "mem.write" [("pid", 1%nat, Number); ("address", 2%nat, Address); ("data_b64", 3%nat, Text)]);
   ("image-match", simple 6 "image.match"
      [("left", 1%nat, Number); ("top", 2%nat, Number); ("right", 3%nat, Number); ("bottom", 4%nat, Number);
       ("sub_image_b64", 5%nat, Text)]);
   ("input-hook", simple 2 "input.hook" [("enabled", 1%nat, IsTrue)])].

Definition daemon_commands : list (string * Command) :=
  [("events-poll", cmd_events_poll);
   ("events-subscribe", simple 1 "events.subscribe" []);
   ("events-unsubscribe", simple 1 "events.unsubscribe" []);
   ("watch", cmd_watch);
   ("status", simple 1 "daemon.status" []);
   ("ensure-visible", simple 3 "window.ensureVisible" [("hwnd", 1%nat, Text); ("visible", 2%nat, IsTrue)]);
   ("ensure-foreground", simple 2 "window.ensureForeground" [("hwnd", 1%nat, Text)]);
   ("post-message", simple 3 "window.postMessage"
      [("hwnd", 1%nat, Text); ("msg", 2%nat, Number); ("wparam", 3%nat, Number); ("lparam", 4%nat, Number)]);
   ("send-input", simple 2 "input.send" [("data_b64", 1%nat, Text)]);
   ("ui-inspect", simple 2 "ui.inspect" [("hwnd", 1%nat, Text)]);
   ("ui-invoke", simple 3 "ui.invoke" [("hwnd", 1%nat, Text); ("automation_id", 2%nat, Text)]);
   ("health", simple 1 "daemon.health" []);
   ("capabilities", simple 1 "daemon.capabilities" []);
   ("check-update", simple 1 "daemon.checkUpdate" []);
   ("update", cmd_update);
   ("config", cmd_config)].

Definition commands : list (string * Command) :=
  window_commands ++ screen_commands ++ system_commands ++ daemon_commands.

(** The first block whose name is [cmd]. *)
Fixpoint find_command (cmd : string) (l : list (string * Command)) : option Command :=
  match l with
  | [] => None
  | (name, c) :: l => if bool_decide (cmd = name) then Some c else find_command cmd l
  end.

Definition base_params (o : CliOptions) : Object :=
  let params := map_set "canonical" (JBool true) [] in
  if negb (is_empty (session_id_arg o)) then map_set "session_id" (JStr (session_id_arg o)) params else params.

(** [main], up to what it does to the outside. *)
Definition cli_main (argv : list string) : result (CliOptions * Action) :=
  '(o, args) ← scan_args argv CliOptions_default [];
  match args with
  | [] => Ok (o, Usage)
  | cmd :: _ =>
      match find_command cmd commands with
      | Some c => a ← c argv args (base_params o); Ok (o, a)
      | None => Ok (o, Usage)
      end
  end.

(** * The conversation with the daemon *)

(** [make_req]. *)
Definition make_req (id method : string) (params : Object) : string :=
  dumps (obj [("id", JStr id); ("method", JStr method); ("params", JObj params)]).

(** What the daemon sends from here on, and what has been written to it. *)
Record Wire := mkWire { incoming : stream; outgoing : list string }.
Abbreviation IO := (M Wire).

(** [Conn::send].  A socket takes the length as an [int], and sending nothing
    counts as a failure. *)
Definition conn_send (is_tcp : bool) (m : string) : IO bool := λ c,
  let len := Z.of_nat (String.length m) mod 2 ^ 32 in
  if is_tcp && ((len =? 0) || (2 ^ 31 <=? len)) then (Ok false, c)
  else (Ok true, mkWire (incoming c) (outgoing c ++ [write_message m])).

Fixpoint zeros (n : nat) : string :=
  match n with O => EmptyString | S n => String (chr 0) (zeros n) end.

(** One [recv] or [ReadFile]. *)
Definition read_some (n : nat) : IO string := λ c,
  let '(piece, s) := recv n (incoming c) in (Ok piece, mkWire s (outgoing c)).

(** [Conn::recv]: one read for the length and one for the text, whatever they
    deliver.  A length of which only a part arrives is read uninitialised; what
    is missing of the text stays zero. *)
Definition conn_recv (is_tcp : bool) : IO (option string) :=
  hdr ← read_some 4;
  if is_empty hdr then mret None else
  if (String.length hdr <? 4)%nat then lift_result Undef else
  let len := un_le32 hdr in
  if is_tcp && (2 ^ 31 <=? len) then mret None else
  if negb is_tcp && (len =? 0) then mret (Some EmptyString) else
  piece ← read_some (Z.to_nat len);
  if is_empty piece then mret None
  else mret (Some (piece +:+ zeros (Z.to_nat len - String.length piece))).

(** [get_config_path], given [USERPROFILE] and [HOME]. *)
Definition get_config_path (userprofile home : option string) : string :=
  match userprofile, home with
  | Some h, _ | None, Some h => h +:+ "/.wininspect_config"
  | None, None => ".wininspect_config"
  end.

(** [load_key_path]: the first line of the file, if there is one. *)
Definition load_key_path (file : option string) : string :=
  match file with
  | Some text => default EmptyString (head (getlines (chr 10) text))
  | None => EmptyString
  end.

(** [resp] of [perform_auth]. *)
Definition auth_answer (signature : string) : Value :=
  obj [("version", JStr PROTOCOL_VERSION); ("identity", JStr "wininspect-user"); ("signature", JStr signature)].

(** The challenge: nothing to do, or the nonce to sign. *)
Definition read_challenge (challenge_json : string) : result (option string) :=
  v ← json_parse challenge_json;
  if negb (is_obj v) then Ok None else
  o ← as_obj v;
  t ← obj_at "type" o ≫= as_str;
  if negb (bool_decide (t = "hello")) then Ok None else
  nonce ← obj_at "nonce" o ≫= as_str; Ok (Some nonce).

(** The daemon's verdict. *)
Definition read_verdict (status_json : string) : result bool :=
  sv ← json_parse status_json;
  if negb (is_obj sv) then Ok false else
  o ← as_obj sv;
  t ← obj_at "type" o ≫= as_str;
  if negb (bool_decide (t = "auth_status")) then Ok false else obj_at "ok" o ≫= as_bool.

(** No exception is caught here or in [main]. *)
Definition perform_auth (key_path : string) : IO bool :=
  challenge ← conn_recv true;
  match challenge with
  | None => mret false
  | Some challenge_json =>
      nonce ← lift_result (read_challenge challenge_json);
      match nonce with
      | None => mret true
      | Some nonce_b64 =>
          if is_empty key_path then mret false else
          let sig := sign_ssh_msg (decode nonce_b64) key_path in
          if is_empty sig then mret false else
          ok ← conn_send true (dumps (auth_answer sig));
          if negb ok then mret false else
          status ← conn_recv true;
          match status with
          | None => mret false
          | Some status_json => lift_result (read_verdict status_json)
          end
      end
  end.

(** What the client prints, and its exit code. *)
Inductive Output :=
| Printed (text : string)
| ConnectFailed
| CommunicationError.
Definition exit_code (o : Output) : Z := match o with Printed _ => 0 | _ => 1 end.

(** [connect_daemon], when the socket connects or the pipe opens. *)
Definition connect_daemon (o : CliOptions) (key_path : string) : IO bool :=
  if use_tcp o then perform_auth key_path else mret true.

Definition send_and_print (o : CliOptions) (key_path method : string) (params : Object) : IO Output :=
  connected ← connect_daemon o key_path;
  if negb connected then mret ConnectFailed else
  sent ← conn_send (use_tcp o) (make_req "cli-1" method params);
  if negb sent then mret CommunicationError else
  resp ← conn_recv (use_tcp o);
  mret match resp with Some text => Printed text | None => CommunicationError end.

(** The messages of [watch] up to its [n]-th turn. *)
Definition watch_messages (params : Object) (n : nat) : list string :=
  make_req "w-0" "events.poll" params :: replicate n (make_req "w-1" "events.poll" params).
