(* ===== verification/CliProps.v ===== *)
(** The command-line client: the requests it makes and that the daemon
    understands them, what it reads back, the commands that cannot work, and
    that it never gets past the handshake over TCP. *)

From S2P Require Import Prelude StdMap CString Double Json JsonTotal JsonRoundtrip Base64 Types Logger.
From S2P Require Import Backend FakeBackend Core Hoare CoreProps CoreMethods Framing Crypto Cli.

Local Open Scope Z_scope.

(** * The requests *)

(** What a command may do: its requests have one of the methods [ms], and
    their parameters hold the invariant of [std::map]. *)
Definition action_ok (ms : list string) (a : Action) : Prop :=
  match a with
  | Send m params => m ∈ ms ∧ value_ok (JObj params)
  | Watch params => value_ok (JObj params)
  | _ => True
  end.

Definition command_ok (ms : list string) (c : Command) : Prop :=
  ∀ argv args params a, value_ok (JObj params) → c argv args params = Ok a → action_ok ms a.

(** A step that succeeds. *)
Lemma result_bind_Ok {A C} (r : result A) (f : A → result C) c :
  r ≫= f = Ok c ↔ ∃ a, r = Ok a ∧ f a = Ok c.
Proof. destruct r; naive_solver. Qed.

Lemma kind_value_ok k a v : kind_value k a = Ok v → value_ok v.
Proof.
  destruct k; cbn; [by intros [= <-]| | |by intros [= <-]];
    intros (x & _ & [= <-])%result_bind_Ok; done.
Qed.

Lemma assign_ok fields args params p :
  value_ok (JObj params) → assign fields args params = Ok p → value_ok (JObj p).
Proof.
  revert params. induction fields as [|[[key i] k] fields IH]; cbn; intros params Hp E; [by simplify_eq|].
  destruct (args !! i) as [a|]; [|by eapply IH].
  apply result_bind_Ok in E as (v & Hv & E). eapply IH; [|exact E].
  apply value_ok_set; [done|]. by eapply kind_value_ok.
Qed.

Lemma snapshot_args_ok args params : value_ok (JObj params) → value_ok (JObj (snapshot_args args params)).
Proof.
  revert params. induction args as [|a|a v rest IH1 IH2] using list_pair_ind; intros params Hp; try done.
  cbn [snapshot_args]. case_bool_decide; [|by apply IH2]. by apply IH1, value_ok_set.
Qed.

Lemma update_args_ok args params : value_ok (JObj params) → value_ok (JObj (update_args args params)).
Proof.
  revert params. induction args as [|a|a v rest IH1 IH2] using list_pair_ind; intros params Hp; try done.
  cbn [update_args]. do 2 (case_bool_decide; [by apply IH1, value_ok_set|]). by apply IH2.
Qed.

Lemma wait_args_ok argv params p :
  value_ok (JObj params) → wait_args argv params = Ok p → value_ok (JObj p).
Proof.
  revert params. induction argv as [|a|a v rest _ IH] using list_pair_ind; intros params Hp E; [by simplify_eq/=..|].
  cbn [wait_args] in E. case_bool_decide; [|by eapply IH].
  apply result_bind_Ok in E as (d & _ & E). eapply IH; [|exact E]. by apply value_ok_set.
Qed.

Create HintDb cli.
#[local] Hint Resolve value_ok_set snapshot_args_ok update_args_ok : cli.
#[local] Hint Extern 1 (value_ok (JStr _)) => exact I : cli.

Lemma simple_ok n m fields ms : m ∈ ms → command_ok ms (simple n m fields).
Proof.
  intros Hm argv args params a Hp. unfold simple. destruct (_ <? _)%nat; [by intros [= <-]|].
  intros (p & Ha & [= <-])%result_bind_Ok. split; [done|]. by eapply assign_ok.
Qed.

Lemma with_snapshot_ok n m fields ms : m ∈ ms → command_ok ms (with_snapshot n m fields).
Proof.
  intros Hm argv args params a Hp. unfold with_snapshot. destruct (_ <? _)%nat; [by intros [= <-]|].
  intros (p & Ha & [= <-])%result_bind_Ok. split; [done|]. by eapply snapshot_args_ok, assign_ok.
Qed.

Lemma cmd_tree_ok ms : "window.getTree" ∈ ms → command_ok ms cmd_tree.
Proof.
  intros Hm argv args params a Hp. unfold cmd_tree.
  repeat case_match; intros [= <-]; (split; [done|]); auto with cli. by apply (snapshot_args_ok (_ :: _)).
Qed.

Lemma cmd_events_poll_ok ms : "events.poll" ∈ ms → command_ok ms cmd_events_poll.
Proof.
  intros Hm argv args params a Hp. unfold cmd_events_poll. destruct args as [|c [|sid rest]]; try by intros [= <-].
  intros (p & Ha & [= <-])%result_bind_Ok. split; [done|]. eapply wait_args_ok; [|exact Ha].
  repeat case_match; auto with cli.
Qed.

Lemma cmd_update_ok ms : "daemon.downloadUpdate" ∈ ms → command_ok ms cmd_update.
Proof. intros Hm argv args params a Hp [= <-]. split; auto with cli. Qed.

Lemma cmd_watch_ok ms : command_ok ms cmd_watch.
Proof. by intros argv args params a Hp [= <-]. Qed.

Lemma cmd_discover_ok ms : command_ok ms cmd_discover.
Proof. intros argv args params a Hp ([port timeout] & _ & [= <-])%result_bind_Ok. done. Qed.

Lemma cmd_config_ok ms : command_ok ms cmd_config.
Proof. intros argv args params a Hp. unfold cmd_config. repeat case_match; by intros [= <-]. Qed.

#[local] Hint Resolve simple_ok with_snapshot_ok cmd_tree_ok cmd_events_poll_ok cmd_update_ok cmd_watch_ok
  cmd_discover_ok cmd_config_ok : cli.

#[local] Hint Extern 1 (_ ∈ _) => apply (bool_decide_unpack _); vm_compute; exact I : cli.

(** The methods of the requests, in the order of the commands. *)
Definition cli_methods : list string :=
  ["snapshot.capture"; "window.listTop"; "window.getInfo"; "window.listChildren"; "window.getTree";
   "window.highlight"; "window.pickAtPoint"; "window.setProperty"; "window.controlClick";
   "window.controlSend"; "screen.getPixel"; "screen.pixelSearch"; "process.list"; "process.kill";
   "file.getInfo"; "file.read"; "window.findRegex"; "reg.read"; "reg.write"; "reg.delete";
   "clipboard.read"; "clipboard.write"; "service.list"; "service.status"; "service.control"; "env.get";
   "env.set"; "wine.drives"; "wine.overrides"; "sync.checkMutex"; "sync.createMutex"; "mem.read";
   "mem.write"; "image.match"; "input.hook"; "events.poll"; "events.subscribe"; "events.unsubscribe";
   "daemon.status"; "window.ensureVisible"; "window.ensureForeground"; "window.postMessage";
   "input.send"; "ui.inspect"; "ui.invoke"; "daemon.health"; "daemon.capabilities";
   "daemon.checkUpdate"; "daemon.downloadUpdate"].

(** The commands that a name can select: the second block for [capture] is
    behind the first. *)
Lemma find_command_ok cmd c :
  find_command cmd commands = Some c → command_ok cli_methods c.
Proof.
  unfold commands. cbn [app window_commands screen_commands system_commands daemon_commands find_command].
  repeat (case_bool_decide; [intros [= <-]; subst cmd; try done; eauto 2 with cli|]); try done.
Qed.

Lemma base_params_ok o : value_ok (JObj (base_params o)).
Proof. unfold base_params. destruct (negb _); by repeat constructor. Qed.

Lemma cli_main_ok argv o a : cli_main argv = Ok (o, a) → action_ok cli_methods a.
Proof.
  intros ([o' args] & _ & E)%result_bind_Ok. destruct args as [|cmd args]; [by simplify_eq|].
  destruct (find_command cmd commands) as [c|] eqn:Ec; [|by simplify_eq].
  apply result_bind_Ok in E as (a' & Ea & E). simplify_eq.
  eapply find_command_ok; [exact Ec|apply base_params_ok|exact Ea].
Qed.

(** * One exchange over the pipe *)

(** A message as one write or two, then [rest]. *)
Definition delivers (s : stream) (text : string) (rest : stream) : Prop :=
  s = write_message text :: rest ∨ s = le32 (Z.of_nat (String.length text)) :: text :: rest.

Lemma is_empty_length s : is_empty s = false ↔ (0 < String.length s)%nat.
Proof. destruct s; simpl; split; done || lia. Qed.

Lemma str_drop_app a b : str_drop (String.length a) (a +:+ b) = b.
Proof. induction a as [|c a IH]; [by destruct b|exact IH]. Qed.

Lemma str_take_prefix a b : str_take (String.length a) (a +:+ b) = a.
Proof. induction a as [|c a IH]; [by destruct b|]. rewrite str_app_cons. cbn [String.length str_take]. by rewrite IH. Qed.

(** Reading a whole number of writes. *)
Lemma delivers_reads s text rest :
  delivers s text rest → (0 < String.length text)%nat → Z.of_nat (String.length text) < 2 ^ 32 →
  ∃ s', recv 4 s = (le32 (Z.of_nat (String.length text)), s') ∧ recv (String.length text) s' = (text, rest).
Proof.
  intros [->| ->] Hne Hl; exists (text :: rest); (split; [|cbn; by rewrite Nat.leb_refl]); [|done].
  rewrite write_message_small by done. set (h := le32 _). unfold recv.
  rewrite (proj2 (Nat.leb_gt _ _)) by (rewrite str_length_app; cbn; lia).
  change 4%nat with (String.length h). by rewrite str_take_prefix, str_drop_app.
Qed.

Lemma conn_recv_delivers tcp s text rest out :
  delivers s text rest → (0 < String.length text)%nat → Z.of_nat (String.length text) < 2 ^ 31 →
  conn_recv tcp (mkWire s out) = (Ok (Some text), mkWire rest out).
Proof.
  intros Hd Hne Hl. destruct (delivers_reads s text rest Hd Hne ltac:(lia)) as (s' & E1 & E2).
  unfold conn_recv, read_some, mbind, M_bind, mret, M_ret. cbn [incoming]. rewrite E1. cbv beta iota.
  change (is_empty (le32 _)) with false. change (String.length (le32 _) <? 4)%nat with false. cbv iota.
  rewrite un_le32_le32 by lia. rewrite (proj2 (Z.leb_gt _ _)) by lia. rewrite andb_false_r.
  rewrite (proj2 (Z.eqb_neq _ _)) by lia. rewrite andb_false_r. rewrite Nat2Z.id. cbn [incoming outgoing].
  rewrite E2. cbv beta iota. rewrite (proj2 (is_empty_length text)) by done.
  by rewrite Nat.sub_diag, str_app_nil_r.
Qed.

Lemma make_req_json id m params : make_req id m params = dumps (request_json (mkCoreRequest id m params)).
Proof. done. Qed.

Lemma pipe_read_written json :
  Z.of_nat (String.length json) < 2 ^ 32 →
  ∃ s, pipe_read_message [write_message json] = Some (json, s) ∧ bytes s = EmptyString.
Proof.
  intros Hl. destruct (pipe_read_bytes [write_message json] json EmptyString) as (s & E & Hb & _); [|done| |].
  - constructor; [|constructor]. by rewrite write_message_small by done.
  - cbn. by rewrite !str_app_nil_r.
  - by exists s.
Qed.

(** C17: The client and the named-pipe server understand each other: when the
    command line selects a request, the client writes one message, which the
    server's transport reads back as a text that the server parses to exactly
    the request's method and parameters, and the client prints the server's
    answer unchanged if it is delivered in whole writes. *)
Theorem cli_pipe_exchange argv o m params key reply s :
  cli_main argv = Ok (o, Send m params) → use_tcp o = false →
  nums_exact (JObj params) → Z.of_nat (String.length (make_req "cli-1" m params)) < 2 ^ 32 →
  delivers s reply [] → (0 < String.length reply)%nat → Z.of_nat (String.length reply) < 2 ^ 31 →
  let sent := write_message (make_req "cli-1" m params) in
  send_and_print o key m params (mkWire s []) = (Ok (Printed reply), mkWire [] [sent])
  ∧ (∃ rest, pipe_read_message [sent] = Some (make_req "cli-1" m params, rest) ∧ bytes rest = EmptyString)
  ∧ parse_request_json (make_req "cli-1" m params) = Ok (mkCoreRequest "cli-1" m params)
  ∧ m ∈ cli_methods.
Proof.
  intros Hmain Htcp Hex Hlen Hd Hne Hl. apply cli_main_ok in Hmain as [Hm Hok]. split_and!; [| | |done].
  - unfold send_and_print, connect_daemon, conn_send, mbind, M_bind, mret, M_ret. rewrite Htcp.
    cbn [negb andb incoming outgoing app]. by rewrite (conn_recv_delivers false s reply []).
  - by apply pipe_read_written.
  - rewrite make_req_json. by apply parse_request_dumps.
Qed.

Definition pick_args : list string := ["pick"; "10"; "-20"; "--snapshot"; "s-1"; "--session-id"; "me"].
Definition pick_params : Object :=
  [("canonical", JBool true); ("session_id", JStr "me"); ("snapshot_id", JStr "s-1");
   ("x", JNum (double_of_Z 10)); ("y", JNum (double_of_Z (-20)))].
Definition pick_options : CliOptions := set_cli_session "me" CliOptions_default.

Lemma cli_pipe_exchange_witness :
  cli_main pick_args = Ok (pick_options, Send "window.pickAtPoint" pick_params)
  ∧ send_and_print pick_options "" "window.pickAtPoint" pick_params (mkWire [write_message "{}"] [])
    = (Ok (Printed "{}"), mkWire [] [write_message (make_req "cli-1" "window.pickAtPoint" pick_params)]).
Proof.
  assert (cli_main pick_args = Ok (pick_options, Send "window.pickAtPoint" pick_params)) as E
    by (vm_compute; reflexivity).
  split; [exact E|].
  refine (proj1 (cli_pipe_exchange pick_args pick_options "window.pickAtPoint" pick_params "" "{}"
                   [write_message "{}"] E _ _ _ _ _ _)).
  - reflexivity.
  - split_and!; try exact I; [by exists 10|by exists (-20)].
  - vm_compute. reflexivity.
  - left. reflexivity.
  - cbn. lia.
  - cbn. lia.
Defined.

(** * Reading a reply in pieces *)

Lemma recv_header n s : recv 4 (le32 n :: s) = (le32 n, s).
Proof. done. Qed.

Lemma recv_piece n p s : (String.length p ≤ n)%nat → recv n (p :: s) = (p, s).
Proof. intros Hl. cbn. by rewrite (proj2 (Nat.leb_le _ _)). Qed.

(** A reply whose text arrives in two pieces is truncated by the client:
    [Conn::recv] returns the first piece filled up with zero bytes, and leaves
    the second in the stream, where the next read takes it for a length; the
    transports of the daemon read the same bytes as the whole text. *)
Theorem cli_recv_fragments tcp a b rest out :
  (0 < String.length a)%nat → (0 < String.length b)%nat → stream_ok rest →
  Z.of_nat (String.length (a +:+ b)) < 2 ^ 31 →
  let s := le32 (Z.of_nat (String.length (a +:+ b))) :: a :: b :: rest in
  conn_recv tcp (mkWire s out) = (Ok (Some (a +:+ zeros (String.length b))), mkWire (b :: rest) out)
  ∧ ∃ rest', pipe_read_message s = Some (a +:+ b, rest') ∧ bytes rest' = bytes rest.
Proof.
  intros Ha Hb Hrest Hl s. subst s. pose proof (str_length_app a b) as Hab. split.
  - unfold conn_recv, read_some, mbind, M_bind, mret, M_ret. cbn [incoming outgoing].
    rewrite recv_header. cbv beta iota.
    change (is_empty (le32 _)) with false. change (String.length (le32 _) <? 4)%nat with false. cbv iota.
    rewrite un_le32_le32 by lia. rewrite (proj2 (Z.leb_gt _ _)), andb_false_r by lia.
    rewrite (proj2 (Z.eqb_neq _ _)), andb_false_r by lia. rewrite Nat2Z.id. cbn [incoming outgoing].
    rewrite recv_piece by lia. cbv beta iota. rewrite (proj2 (is_empty_length a)) by done.
    do 4 f_equal. f_equal. lia.
  - edestruct (pipe_read_bytes (le32 (Z.of_nat (String.length (a +:+ b))) :: a :: b :: rest) (a +:+ b)
                 (bytes rest)) as (s' & E & Hs' & _); [..|by exists s'].
    + repeat constructor; [done|by destruct a; [simpl in Ha; lia|]|by destruct b; [simpl in Hb; lia|]|done].
    + lia.
    + rewrite (write_message_small (a +:+ b)) by lia. cbn. by rewrite !str_app_assoc.
Qed.

Lemma cli_recv_fragments_witness :
  conn_recv false (mkWire [le32 4; "{a"; "b}"] []) = (Ok (Some ("{a" +:+ zeros 2)), mkWire ["b}"] []).
Proof.
  exact (proj1 (cli_recv_fragments false "{a" "b}" [] [] ltac:(cbn; lia) ltac:(cbn; lia) (List.Forall_nil _)
                  ltac:(vm_compute; reflexivity))).
Defined.

(** * Commands that cannot work *)

(** What is in [args] stays there. *)
Lemma scan_args_prefix argv o x args o' args' :
  scan_args argv o (x :: args) = Ok (o', args') → ∃ args'', args' = x :: args''.
Proof.
  revert o args. induction argv as [|a|a v rest IH1 IH2] using list_pair_ind; intros o args E.
  - cbn in E. simplify_eq. by exists args.
  - cbn in E. destruct (bool_decide _); simplify_eq; by eexists.
  - cbn [scan_args] in E. destruct (bool_decide (a = "--tcp")).
    { apply result_bind_Ok in E as (o1 & _ & E). by eapply IH1. }
    destruct (bool_decide (a = "--pipe")); [by eapply IH1|].
    destruct (bool_decide (a = "--session-id")); [by eapply IH1|]. by eapply (IH2 o (args ++ [a])).
Qed.

(** No command line makes the client ask for [screen.capture], although the
    usage text offers [capture <left> <top> <right> <bottom>]: such a line asks
    for a snapshot of the windows.  The command [status] asks for
    [daemon.status], which the engine always answers with [E_BAD_METHOD]. *)
Theorem cli_command_gaps {B} `{IBackend B} `{Clock} :
  (∀ argv o m params, cli_main argv = Ok (o, Send m params) → m ≠ "screen.capture")
  ∧ (∀ argv o a, cli_main ("capture" :: argv) = Ok (o, a) → a = Send "snapshot.capture" (base_params o))
  ∧ (cli_main ["status"] = Ok (CliOptions_default, Send "daemon.status" [("canonical", JBool true)]))
  ∧ ∀ admin req snap old (w : World B), req_method req = "daemon.status" →
      ∃ r w', handle admin req snap old w = (Ok r, w') ∧ resp_ok r = false ∧ resp_error_code r = "E_BAD_METHOD".
Proof.
  split_and!.
  - intros argv o m params E ->. apply cli_main_ok in E as [Hm _].
    revert Hm. apply (bool_decide_unpack _). vm_compute. exact I.
  - intros argv o a ([o' args] & Hs & E)%result_bind_Ok.
    assert (∃ args', args = "capture" :: args') as [args' ->].
    { destruct argv as [|v argv]; [injection Hs as <- <-; by exists []|].
      by apply (scan_args_prefix (v :: argv) CliOptions_default "capture" []) in Hs. }
    apply result_bind_Ok in E as (a' & Ha & E). simplify_eq. by cbn in Ha; simplify_eq.
  - reflexivity.
  - intros admin req snap old w Hm. destruct (handle_answers admin req snap old w) as (w0 & _ & Ha).
    rewrite Hm in Ha. destruct (map_find "daemon.status" (dispatch_ admin)) as [h|] eqn:E; [discriminate E|].
    destruct Ha as (d & w2 & _ & ->). by do 2 eexists.
Qed.

Lemma cli_command_gaps_witness :
  cli_main ["capture"; "0"; "0"; "10"; "10"]
  = Ok (CliOptions_default, Send "snapshot.capture" [("canonical", JBool true)])
  ∧ ∃ r w', handle (H0 := test_clock) false (mkCoreRequest "cli-1" "daemon.status" []) Snapshot_empty None test_world
            = (Ok r, w') ∧ resp_ok r = false ∧ resp_error_code r = "E_BAD_METHOD".
Proof.
  destruct (cli_command_gaps (B := FakeBackend) (H0 := test_clock)) as (_ & _ & _ & Hs).
  split; [reflexivity|]. apply Hs. reflexivity.
Defined.
