(* ===== verification/CliServer.v ===== *)
(** The command-line client against the daemon: over TCP it never gets past
    the handshake, and [watch] over the pipe only ever gets errors. *)

From S2P Require Import Prelude StdMap CString Double Json JsonTotal JsonRoundtrip Base64 Types Logger.
From S2P Require Import Backend FakeBackend Core Hoare CoreProps CoreMethods Live ServerState ServerStateProps.
From S2P Require Import Server ServerProps ServerGates Framing Crypto Tcp TcpProps Cli CliProps.

Local Open Scope Z_scope.

(** * TCP *)

Section Tcp.
Context {B : Type} `{IBackend B} `{Clock} `{BCrypt}.

(** The texts of the server as the client reads them. *)
Definition frames (texts : list string) : stream := write_message <$> texts.

(** The client's signature is refused for every line of the key file. *)
Lemma stub_refused keys nonce msg path identity :
  verify_identity (mkAuthContext keys identity (sign_ssh_msg msg path) nonce) = false.
Proof.
  unfold verify_identity. cbn [ac_keys_data]. induction (getlines newline keys) as [|line lines IH]; [done|].
  cbn [verify_lines]. destruct (_ || _); [done|]. cbn [ac_identity ac_nonce ac_sig_b64].
  destruct (contains identity line); [|done].
  change (sign_ssh_msg msg path) with (sign_ssh_msg nonce path). apply stub_signature_rejected.
Qed.

Lemma challenge_json_ok keys nonce pk :
  value_ok (challenge_json keys nonce pk) ∧ nums_exact (challenge_json keys nonce pk).
Proof.
  unfold challenge_json. destruct (negb (is_empty keys)); [destruct pk|]; split; repeat constructor.
Qed.

(** The challenge without keys has no nonce; with keys it has. *)
Lemma read_challenge_hello keys nonce pk :
  read_challenge (dumps (challenge_json keys nonce pk))
  = if is_empty keys then Throw "invalid map<K, T> key" else Ok (Some (encode nonce)).
Proof.
  destruct (challenge_json_ok keys nonce pk) as [Hok Hex]. unfold read_challenge.
  rewrite json_parse_dumps by done. unfold challenge_json. destruct (is_empty keys); [done|].
  by destruct pk.
Qed.

Lemma dumps_nonempty o : (0 < String.length (dumps (obj o)))%nat.
Proof. cbn. lia. Qed.

(** The server's reading of the client's answer. *)
Lemma handshake_stub keys nonce msg path rest w :
  let answer := dumps (auth_answer (sign_ssh_msg msg path)) in
  is_empty keys = false →
  (handshake (B := B) keys nonce (write_message answer :: rest) w).1
  = Ok ([dumps (challenge_json keys nonce (generate_local_key CryptoSession_new).1)], None).
Proof.
  intros answer Hk. unfold handshake. destruct (generate_local_key CryptoSession_new) as [pk cs]. rewrite Hk.
  assert (read_answer (write_message answer :: rest) = Some (answer, rest)) as -> by (vm_compute; reflexivity).
  assert (check_answer keys nonce cs answer = Ok None) as ->; [|done].
  unfold check_answer. assert (json_parse answer = Ok (auth_answer (sign_ssh_msg msg path))) as ->
    by (vm_compute; reflexivity).
  cbn [mbind result_bind as_obj obj_at auth_answer obj].
  change (obj_at "version" _) with (Ok (JStr PROTOCOL_VERSION)).
  change (obj_at "identity" _) with (Ok (JStr "wininspect-user")).
  change (obj_at "signature" _) with (Ok (JStr (sign_ssh_msg msg path))).
  cbn [mbind result_bind as_str]. rewrite bool_decide_eq_true_2 by done. cbn [negb].
  by rewrite stub_refused.
Qed.

(** The hello comes first. *)
Lemma handshake_hello keys nonce up w down srv w' :
  handshake (B := B) keys nonce up w = (Ok (down, srv), w') →
  ∃ down', down = dumps (challenge_json keys nonce (generate_local_key CryptoSession_new).1) :: down'.
Proof.
  unfold handshake. destruct (generate_local_key _) as [pk cs]. destruct (is_empty keys); [by intros [= <- <- _]; eexists|].
  destruct (read_answer up) as [[resp s]|]; [|by intros [= <- <- _]; eexists].
  destruct (check_answer _ _ _ _) as [[[cs' failed]|]|what| |]; try done; try by intros [= <- <- _]; eexists.
  unfold mbind, M_bind. destruct failed; [|by intros [= <- <- _]; eexists].
  destruct (LOG_eq DEBUG "ECDH shared secret computation failed" w) as (w1 & -> & _).
  by intros [= <- <- _]; eexists.
Qed.

Lemma send_answer msg key s :
  let answer := dumps (auth_answer (sign_ssh_msg msg key)) in
  conn_send true answer (mkWire s []) = (Ok true, mkWire s [write_message answer]).
Proof. vm_compute. reflexivity. Qed.

(** The client's side of the handshake. *)
Lemma perform_auth_hello keys nonce pk key s :
  let hello := dumps (challenge_json keys nonce pk) in
  Z.of_nat (String.length hello) < 2 ^ 31 →
  perform_auth key (mkWire (write_message hello :: s) [])
  = if is_empty keys then (Throw "invalid map<K, T> key", mkWire s [])
    else if is_empty key then (Ok false, mkWire s [])
    else (status ← conn_recv true;
          match status with
          | None => mret false
          | Some status_json => lift_result (read_verdict status_json)
          end) (mkWire s [write_message (dumps (auth_answer (sign_ssh_msg (decode (encode nonce)) key)))]).
Proof.
  intros hello Hl. unfold perform_auth, mbind, M_bind, lift_result.
  rewrite (conn_recv_delivers true _ hello s); [|by left|apply dumps_nonempty|done].
  cbv beta iota. unfold hello. rewrite read_challenge_hello. destruct (is_empty keys); [done|].
  destruct (is_empty key); [done|].
  change (is_empty (sign_ssh_msg (decode (encode nonce)) key)) with false. cbv beta iota.
  by rewrite send_answer.
Qed.

(** Nothing that was written is taken back. *)
Definition writes_on (c c' : Wire) : Prop := ∃ l, outgoing c' = outgoing c ++ l.

#[local] Instance writes_on_preorder : PreOrder writes_on.
Proof.
  split; [intros c; exists []; by rewrite app_nil_r|].
  intros c1 c2 c3 [l1 E1] [l2 E2]. exists (l1 ++ l2). by rewrite E2, E1, (assoc_L _).
Qed.

Lemma conn_send_writes tcp m : keeps writes_on (conn_send tcp m).
Proof. intros c. unfold conn_send. destruct (tcp && _); [reflexivity|]. by exists [write_message m]. Qed.

Lemma read_some_writes n : keeps writes_on (read_some n).
Proof. intros c. unfold read_some. destruct (recv n (incoming c)). exists []. by rewrite app_nil_r. Qed.

(** Follow a conversation to its reads and writes. *)
Ltac io_step :=
  lazymatch goal with
  | |- keeps _ (read_some _) => apply read_some_writes
  | |- keeps _ (conn_send _ _) => apply conn_send_writes
  | |- keeps _ _ => walk_step
  end.

Lemma conn_recv_writes tcp : keeps writes_on (conn_recv tcp).
Proof. repeat io_step. Qed.

(** The client after it has sent its answer. *)
Definition after_answer (m : string) (params : Object) : IO Output :=
  connected ← (status ← conn_recv true;
               match status with
               | None => mret false
               | Some status_json => lift_result (read_verdict status_json)
               end);
  if negb connected then mret ConnectFailed else
  sent ← conn_send true (make_req "cli-1" m params);
  if negb sent then mret CommunicationError else
  resp ← conn_recv true;
  mret match resp with Some text => Printed text | None => CommunicationError end.

Lemma after_answer_writes m params : keeps writes_on (after_answer m params).
Proof.
  unfold after_answer. repeat first [apply conn_recv_writes|io_step].
Qed.

(** C40: Over TCP the client never sends a request, whatever the daemon's
    configuration, the client's key and the command: without authorized keys
    the daemon's hello has no nonce and the client dies of the exception that
    looking it up throws; with keys the daemon refuses the placeholder that the
    client sends for a signature, and the client reports that it cannot
    connect. *)
Theorem cli_tcp_never_connects keys nonce key o m params up down srv w w' r c :
  use_tcp o = true →
  handshake (B := B) keys nonce up w = (Ok (down, srv), w') →
  Forall (λ t, Z.of_nat (String.length t) < 2 ^ 31) down →
  send_and_print o key m params (mkWire (frames down) []) = (r, c) →
  up = outgoing c →
  if is_empty keys then ∃ what, r = Throw what else r = Ok ConnectFailed.
Proof.
  intros Ho Hh Hl Hs Hup. destruct (handshake_hello _ _ _ _ _ _ _ Hh) as [down' ->].
  inversion_clear Hl as [|? ? Hl1 Hl2]. revert Hs. change (frames (?t :: down')) with (write_message t :: frames down').
  unfold send_and_print, connect_daemon. rewrite Ho. unfold mbind at 1, M_bind at 1.
  rewrite perform_auth_hello by done. destruct (is_empty keys) eqn:Hk; [intros [= <- _]; by eexists|].
  destruct (is_empty key); [by intros [= <- _]|].
  set (ans := write_message _). intros Hs. change (after_answer m params (mkWire (frames down') [ans]) = (r, c)) in Hs.
  destruct (after_answer_writes m params (mkWire (frames down') [ans])) as [l Hc]. rewrite Hs in Hc. cbn in Hc.
  pose proof (handshake_stub keys nonce (decode (encode nonce)) key l w Hk) as Hst.
  fold ans in Hst. rewrite <-Hc, <-Hup, Hh in Hst. cbn in Hst. injection Hst as -> _.
  by vm_compute in Hs; injection Hs as <- _.
Qed.
End Tcp.

Definition tcp_options : CliOptions := set_cli_tcp "127.0.0.1" 1985 CliOptions_default.
Definition test_hello : string :=
  dumps (challenge_json test_keys [1; 2; 3]
           (generate_local_key (H := test_bcrypt) CryptoSession_new).1).

Lemma cli_tcp_never_connects_witness :
  (send_and_print tcp_options "id_ed25519" "daemon.health" [] (mkWire (frames [test_hello]) [])).1
  = Ok ConnectFailed.
Proof.
  destruct (send_and_print tcp_options "id_ed25519" "daemon.health" [] (mkWire (frames [test_hello]) []))
    as [r c] eqn:Es.
  destruct (handshake (B := FakeBackend) (H0 := test_clock) (H2 := test_bcrypt) test_keys [1; 2; 3] (outgoing c) test_world)
    as [[[down srv]| | |] w'] eqn:Eh; [|vm_compute in Es; injection Es as <- <-; vm_compute in Eh; discriminate Eh..].
  assert (down = [test_hello]) as ->.
  { vm_compute in Es. injection Es as _ <-. vm_compute in Eh. injection Eh as <- _ _. vm_compute. reflexivity. }
  exact (cli_tcp_never_connects (B := FakeBackend) (H0 := test_clock) (H1 := test_bcrypt) test_keys [1; 2; 3]
           "id_ed25519" tcp_options "daemon.health" [] (outgoing c) [test_hello] srv test_world w' r c
           eq_refl Eh ltac:(repeat constructor) Es eq_refl).
Defined.

(** * Watching *)

(** The request that [watch] repeats when no session is named. *)
Definition poll_request (id : string) : CoreRequest :=
  mkCoreRequest id "events.poll" (base_params CliOptions_default).

Section Watch.
Context {B : Type} `{LiveBackend B} `{Clock} `{Watchdog} (sw : Switches).
Implicit Types (c : Conn B).

(** A refusal, as text. *)
Definition refusal (out : string) : Prop :=
  ∃ r canonical, out = serialize_response_json r canonical ∧ resp_ok r = false.

(** The connection has no snapshot to compare with. *)
Definition no_baseline c : Prop := cs_last_snap_id (c_session c) = EmptyString.

(** The engine refuses a poll without a snapshot to compare with. *)
Lemma poll_refused id snap w r w' :
  handle (B := B) (admin_logs sw) (poll_request id) snap None w = (Ok r, w') → resp_ok r = false.
Proof.
  destruct (handle_answers (admin_logs sw) (poll_request id) snap None w) as (w0 & _ & Ha).
  change (map_find (req_method (poll_request id)) (dispatch_ (admin_logs sw))) with (Some (events_poll (B := B))) in Ha.
  cbv beta iota in Ha. cbn [events_poll] in Ha. destruct Ha as (d & w2 & _ & ->). by intros [= <- _].
Qed.

Lemma poll_dispatch id c x c' :
  no_baseline c → dispatch_phase sw (poll_request id) c = (x, c') →
  no_baseline c' ∧ (x = Ok () → resp_ok (c_resp c') = false).
Proof.
  intros Hn. unfold dispatch_phase, snapshot_phase, old_snapshot_phase, mbind, M_bind.
  change (get_str (req_params (poll_request id)) "snapshot_id") with (@None string).
  change (get_str (req_params (poll_request id)) "old_snapshot_id") with (@None string).
  change (bool_decide (req_method (poll_request id) = "events.poll")) with true.
  unfold in_world at 1, zoom at 1. cbv beta iota.
  destruct (backend capture_snapshot (c_world c)) as [[snap| | |] w]; try by intros [= <- <-].
  unfold mret, M_ret, gets. cbn [c_session set_world]. rewrite Hn. cbn [is_empty negb andb].
  unfold core_phase, in_world, zoom, mbind, M_bind. cbn [c_world set_world].
  destruct (handle (admin_logs sw) (poll_request id) snap None w) as [[r| | |] w1] eqn:Eh; try by intros [= <- <-].
  apply poll_refused in Eh. unfold advance_phase, on_resp, modify, gets, mbind, M_bind.
  change (bool_decide (req_method (poll_request id) = "events.poll")) with true.
  cbn [c_world set_world]. destruct (watchdog_fires _); cbn [c_resp set_resp set_error resp_ok andb].
  - by intros [= <- <-].
  - rewrite Eh. intros [= <- <-]. done.
Qed.

Lemma serve_poll id : serve sw (poll_request id) = (_ ← mret (); _ ← mret (); _ ← modify (set_canonical true);
                                                      dispatch_phase (B := B) sw (poll_request id)).
Proof. unfold serve. by rewrite andb_false_r || (destruct (read_only sw)). Qed.

Lemma process_poll id json c x c' :
  parse_request_json json = Ok (poll_request id) → no_baseline c → process sw json c = (x, c') →
  no_baseline c' ∧ (x = Ok () → resp_ok (c_resp c') = false).
Proof.
  intros Hp Hn. unfold process, mbind at 1, M_bind at 1, lift_result. rewrite Hp. cbv beta iota.
  rewrite serve_poll. unfold mbind, M_bind, on_resp, modify, gets. cbv beta iota. cbn [c_session set_resp].
  destruct (negb (cs_authenticated (c_session c)) && _).
  - unfold in_world, zoom.
    match goal with |- context [LOG ?l ?m ?w] => destruct (LOG_eq l m w) as (w' & -> & _) end.
    by intros [= <- <-].
  - apply poll_dispatch. done.
Qed.

Lemma watch_message id json c out c' :
  parse_request_json json = Ok (poll_request id) → no_baseline c → pipe_message sw json c = (Ok out, c') →
  no_baseline c' ∧ refusal out.
Proof.
  intros Hp Hn. unfold pipe_message, mbind, M_bind, modify, gets, try_catch. cbv beta iota.
  set (c0 := set_pinned _ _).
  destruct (process sw json c0) as [x c1] eqn:Ep. apply (process_poll id) in Ep as [Hn1 Hx]; [|done|done].
  unfold unpin_phase, on_resp, modify. destruct x as [[]|what| |]; try done; cbv beta iota.
  - intros [= <- <-]. split; [by destruct (is_empty _)|]. by exists (c_resp c1), (c_canonical c1); auto.
  - intros [= <- <-]. split; [by destruct (is_empty _)|]. by do 2 eexists.
Qed.

Lemma watch_loop msgs c outs c' :
  Forall (λ json, ∃ id, parse_request_json json = Ok (poll_request id)) msgs → no_baseline c →
  pipe_loop sw msgs c = (Ok outs, c') → Forall refusal outs.
Proof.
  intros Hm. revert c outs c'. induction Hm as [|json msgs [id Hid] _ IH]; intros c outs c' Hn.
  - by intros [= <- <-].
  - cbn [pipe_loop]. unfold mbind, M_bind.
    destruct (pipe_message sw json c) as [[out| | |] c1] eqn:E1; try done.
    apply (watch_message id) in E1 as [Hn1 Hr]; [|done|done].
    destruct (pipe_loop sw msgs c1) as [[outs1| | |] c2] eqn:E2; try done. intros [= <- <-].
    constructor; [done|]. by eapply IH.
Qed.

Lemma watch_parses n :
  Forall (λ json, ∃ id, parse_request_json json = Ok (poll_request id))
    (watch_messages (base_params CliOptions_default) n).
Proof.
  constructor; [exists "w-0"; vm_compute; reflexivity|]. apply Forall_replicate.
  exists "w-1". vm_compute. reflexivity.
Qed.

Lemma watch_numbers n : forallb message_ok (watch_messages (base_params CliOptions_default) n) = true.
Proof.
  unfold watch_messages. cbn [forallb]. apply andb_true_intro. split; [vm_compute; reflexivity|].
  induction n as [|n IH]; [done|]. cbn [replicate forallb]. apply andb_true_intro.
  split; [vm_compute; reflexivity|done].
Qed.

Lemma pipe_connect_baseline c c' : pipe_connect sw c = (Ok (), c') → no_baseline c'.
Proof.
  unfold pipe_connect, mbind, M_bind, modify, in_world, zoom. cbv beta iota.
  match goal with |- context [LOG ?l ?m ?w] => destruct (LOG_eq l m w) as (w1 & -> & _) end. cbv beta iota.
  destruct (negb (require_auth sw) && _); [|by intros [= <-]].
  match goal with |- context [LOG ?l ?m ?w] => destruct (LOG_eq l m w) as (w2 & -> & _) end. by intros [= <-].
Qed.

(** [wininspect watch] over the pipe never reports an event: it does not
    subscribe, so the server has no snapshot to compare the first poll with,
    answers it with an error and does not move on; every one of the [n + 1]
    polls is answered, and every answer is an error (unless the backend itself
    has undefined behaviour). *)
Theorem watch_never_reports floor others n c :
  let msgs := watch_messages (base_params CliOptions_default) n in
  state_between floor others (Z.of_nat (length msgs)) c →
  match handle_client sw msgs c with
  | (Ok outs, _) => length outs = S n ∧ Forall refusal outs
  | (Undef, _) => backend_ub
  | (Throw _, _) | (OutOfFuel, _) => False
  end.
Proof.
  intros msgs Hc. pose proof (handle_client_contained sw msgs c) as Hn.
  pose proof (handle_client_ok backend_ub floor others sw msgs (λ _, False) (or_intror (watch_numbers n)) c Hc) as Hh.
  destruct (handle_client sw msgs c) as [[outs| | |] c'] eqn:E; try done.
  split; [by rewrite Hn; unfold msgs, watch_messages; cbn; rewrite length_replicate|].
  unfold handle_client, mbind, M_bind in E.
  destruct (pipe_connect sw c) as [[[]| | |] c1] eqn:E1; try done.
  destruct (pipe_loop sw msgs c1) as [[outs1| | |] c2] eqn:E2; try done.
  destruct (pipe_disconnect c2) as [[[]| | |] c3]; try done. injection E as <- <-.
  eapply watch_loop; [apply watch_parses| |exact E2].
  by eapply pipe_connect_baseline.
Qed.
End Watch.

Lemma watch_never_reports_witness :
  match handle_client (H0 := test_clock) (H1 := test_watchdog) open_switches
          (watch_messages (base_params CliOptions_default) 2) (new_conn (ServerState_init Limits_default)) with
  | (Ok outs, _) => length outs = 3%nat ∧ Forall refusal outs
  | _ => False
  end.
Proof.
  pose proof (watch_never_reports (H1 := test_clock) (H2 := test_watchdog) open_switches 1 [] 2
    (new_conn (ServerState_init Limits_default)) ltac:(apply new_conn_ok; [apply init_ok|done..])) as Hw.
  destruct (handle_client (H0 := test_clock) (H1 := test_watchdog) _ _ _) as [[outs| | |] c'] eqn:E;
    try (vm_compute in E; discriminate E). exact Hw.
Defined.
