(* ===== verification/Win32Api.v ===== *)
(** The Windows API as the Win32 backend calls it: the calls, what they return,
    a class that stands for the operating system, and the owners of its
    resources ([core/include/wininspect/util_win32.hpp]). *)

From S2P Require Import Prelude CString Types.

Local Open Scope Z_scope.

(** * Data *)

(** Handles are numbers; [HWND]s are passed on as [hwnd_u64]. *)
Definition NULL : Z := 0.
Definition INVALID_HANDLE_VALUE : Z := -1.

(** UTF-16 text. *)
Definition wide : Type := list Z.

(** An element of the array that [SendInput] takes. *)
Inductive INPUT :=
| MouseInput (dx dy dwFlags : Z)
| KeyInput (wVk wScan dwFlags : Z)
| RawInput (bytes : list Z).

Record PROCESSENTRY := mkPROCESSENTRY { th32ProcessID : Z; szExeFile : wide }.
Record FILE_ATTRIBUTES := mkFILE_ATTRIBUTES { dwFileAttributes : Z; nFileSizeHigh : Z; nFileSizeLow : Z }.
Record ENUM_SERVICE := mkENUM_SERVICE { lpServiceName : wide; lpDisplayName : wide; dwCurrentState : Z }.
Record REG_VALUE := mkREG_VALUE { rvName : wide; rvType : Z; rvData : list Z }.

(** The properties of a UI Automation element, where reading them succeeds. *)
Record UIA_PROPS := mkUIA_PROPS {
  CurrentAutomationId : option wide; CurrentName : option wide; CurrentClassName : option wide;
  CurrentControlType : option Z; CurrentBoundingRectangle : option Rect;
  CurrentIsEnabled : option bool; CurrentIsOffscreen : option bool }.

(** * Calls *)

(** A call and the type of what it returns: [BOOL]s are [bool], a value that an
    output parameter gets only on success is an [option].  Three loops over an
    index or a cursor are one call that returns the list they go through: the
    entries of a process snapshot ([Process32FirstW], [Process32NextW]), the
    subkeys and values of a registry key ([RegEnumKeyExW], [RegEnumValueW]), and
    the pieces of a response ([WinHttpReadData]). *)
Inductive Call : Type → Type :=
(* modules *)
| GetModuleHandleW (name : string) : Call Z
| GetProcAddress (module : Z) (name : string) : Call Z
| RtlGetVersion : Call (option (Z * Z * Z))
| wine_get_version : Call string
(* text *)
| WideCharToMultiByte (ws : wide) : Call string
| MultiByteToWideChar (s : string) : Call (option wide)
(* windows *)
| EnumWindows : Call (list Z)
| EnumChildWindows (parent : Z) : Call (list Z)
| IsWindow (h : Z) : Call bool
| GetParent (h : Z) : Call Z
| GetWindow (h cmd : Z) : Call Z
| GetDesktopWindow : Call Z
| GetClassNameW (h count : Z) : Call wide
| GetWindowTextLengthW (h : Z) : Call Z
| GetWindowTextW (h count : Z) : Call wide
| GetWindowRect (h : Z) : Call (option Rect)
| GetClientRect (h : Z) : Call (option Rect)
| ClientToScreen (h x y : Z) : Call (option (Z * Z))
| GetWindowThreadProcessId (h : Z) : Call (Z * option Z)
| GetWindowLongPtrW (h index : Z) : Call Z
| IsWindowVisible (h : Z) : Call bool
| IsWindowEnabled (h : Z) : Call bool
| IsIconic (h : Z) : Call bool
| IsZoomed (h : Z) : Call bool
| WindowFromPoint (x y : Z) : Call Z
| ChildWindowFromPointEx (h x y flags : Z) : Call Z
| GetForegroundWindow : Call Z
| GetSystemMetrics (index : Z) : Call Z
| SetWindowLongPtrW (h index value : Z) : Call Z
| SetWindowPos (h after flags : Z) : Call bool
| SetLayeredWindowAttributes (h key alpha flags : Z) : Call bool
| ShowWindow (h cmd : Z) : Call bool
| SetForegroundWindow (h : Z) : Call bool
| PostMessageW (h msg wparam lparam : Z) : Call bool
| SendInput (inputs : list INPUT) : Call Z
(* drawing *)
| GetDC : Call Z
| ReleaseDC (dc : Z) : Call ()
| GetPixel (dc x y : Z) : Call Z
| CreatePen (style width color : Z) : Call Z
| GetStockObject (i : Z) : Call Z
| SelectObject (dc obj : Z) : Call Z
| Rectangle (dc : Z) (r : Rect) : Call bool
| InvalidateRect (r : Rect) : Call bool
| UpdateWindow : Call bool
| DeleteObject (obj : Z) : Call bool
| CreateCompatibleDC (dc : Z) : Call Z
| CreateCompatibleBitmap (dc w h : Z) : Call Z
| BitBlt (dst w h src x y : Z) : Call bool
| GetBitmap (bitmap : Z) : Call (option (Z * Z * Z))
| GetDIBits (dc bitmap lines : Z) (room : Z) : Call (list Z)
| DeleteDC (dc : Z) : Call bool
(* processes and files *)
| OpenProcess (access pid : Z) : Call Z
| QueryFullProcessImageNameW (h : Z) : Call (option wide)
| TerminateProcess (h code : Z) : Call bool
| GetCurrentProcessId : Call Z
| GetTempPathW : Call (option wide)
| CreateFileForWriting (path : wide) : Call Z
| WriteFile (h : Z) (data : string) : Call bool
| CreateToolhelp32Snapshot (flags : Z) : Call Z
| Process32Entries (snap : Z) : Call (list PROCESSENTRY)
| CloseHandle (h : Z) : Call bool
| GetFileAttributesExW (path : wide) : Call (option FILE_ATTRIBUTES)
| CreateFileW (path : wide) : Call Z
| GetFileSize (h : Z) : Call Z
| ReadFile (h count : Z) : Call string
| ReadProcessMemory (h addr count : Z) : Call (option (list Z))
| WriteProcessMemory (h addr : Z) (data : list Z) : Call bool
| OpenMutexW (access : Z) (name : wide) : Call Z
| CreateMutexW (own : bool) (name : wide) : Call Z
| GetLastError : Call Z
(* registry *)
| RegOpenKeyExW (root : Z) (path : wide) (access : Z) : Call (option Z)
| RegCreateKeyExW (root : Z) (path : wide) (access : Z) : Call (option Z)
| RegKeys (key : Z) : Call (list wide)
| RegValues (key : Z) : Call (list REG_VALUE)
| RegSetValueExW (key : Z) (name : wide) (type : Z) (data : list Z) : Call bool
| RegDeleteKeyW (root : Z) (path : wide) : Call bool
| RegDeleteValueW (key : Z) (name : wide) : Call bool
| RegCloseKey (key : Z) : Call ()
(* clipboard *)
| OpenClipboard : Call bool
| EmptyClipboard : Call bool
| GetClipboardData : Call Z
| SetClipboardData (mem : Z) : Call bool
| CloseClipboard : Call bool
| GlobalAlloc (bytes : Z) : Call Z
| GlobalLock (mem : Z) : Call Z
| GlobalText (p : Z) : Call wide
| GlobalWrite (p : Z) (ws : wide) : Call ()
| GlobalUnlock (mem : Z) : Call bool
| GlobalFree (mem : Z) : Call Z
(* services *)
| OpenSCManagerW (access : Z) : Call Z
| OpenServiceW (scm : Z) (name : wide) (access : Z) : Call Z
| EnumServicesStatusExW (scm : Z) (room : Z) : Call (bool * Z * list ENUM_SERVICE)
| QueryServiceStatusEx (svc : Z) : Call (option Z)
| StartServiceW (svc : Z) : Call bool
| ControlService (svc control : Z) : Call bool
| CloseServiceHandle (h : Z) : Call bool
(* environment and drives *)
| GetEnvironmentStringsW : Call (option wide)
| FreeEnvironmentStringsW : Call ()
| SetEnvironmentVariableW (name value : wide) : Call bool
| GetLogicalDrives : Call Z
| GetDriveTypeW (root : wide) : Call Z
| QueryDosDeviceW (name : wide) : Call (option wide)
(* UI Automation *)
| CoCreateInstance_UIA : Call (option Z)
| ElementFromHandle (uia h : Z) : Call (option Z)
| CreateTrueCondition (uia : Z) : Call Z
| FindAllChildren (el cond : Z) : Call (option (list (option Z)))
| CurrentProperties (el : Z) : Call UIA_PROPS
| CreatePropertyCondition (uia : Z) (id : wide) : Call Z
| FindFirstSubtree (el cond : Z) : Call Z
| GetInvokePattern (el : Z) : Call (option Z)
| Invoke (pattern : Z) : Call bool
(* WinHTTP *)
| WinHttpOpen : Call Z
| WinHttpConnect (session : Z) (host : wide) : Call Z
| WinHttpOpenRequest (connection : Z) (path : wide) : Call Z
| WinHttpSendRequest (request : Z) : Call bool
| WinHttpReceiveResponse (request : Z) : Call bool
| WinHttpStatusCode (request : Z) : Call (option Z)
| WinHttpLocation (request : Z) : Call (option wide)
| WinHttpReadChunks (request : Z) (size : Z) : Call (list string)
| WinHttpCloseHandle (h : Z) : Call bool
(* time *)
| SteadyNow : Call Z
| SleepMs (ms : Z) : Call ().

(** The operating system: what a call returns may depend on everything that
    happened before, and every call may change everything. *)
Class Windows (OS : Type) := { api {A} : Call A → OS → A * OS }.

(** * The backend's state *)

(** What the backend holds open. *)
Inductive Resource :=
| AHandle (h : Z)      (* closed by [CloseHandle] *)
| AKey (h : Z)         (* [RegCloseKey] *)
| AService (h : Z)     (* [CloseServiceHandle] *)
| AScreenDC (h : Z)    (* [ReleaseDC] *)
| AMemoryDC (h : Z)    (* [DeleteDC] *)
| AnObject (h : Z)     (* [DeleteObject] *)
| AClipboard           (* [CloseClipboard] *)
| AMemory (h : Z)      (* [GlobalFree], unless the clipboard takes it *)
| AnHttp (h : Z)       (* [WinHttpCloseHandle] *)
| Dangling.            (* the mark of closing what is not open *)

#[export] Instance Resource_eq_dec : EqDecision Resource.
Proof. solve_decision. Defined.

(** The members of [Win32Backend], the operating system, and the resources that
    the process owns, most recent first. *)
Record Win32 (OS : Type) := mkWin32 {
  is_wine_ : bool; win_major_ : Z; win_minor_ : Z; win_build_ : Z;
  uia_depth_ : Z; max_mem_read_size_ : Z; service_timeout_sec_ : Z;
  w_os : OS;
  w_owned : list Resource }.
Arguments mkWin32 {OS} _ _ _ _ _ _ _ _ _.
Arguments is_wine_ {OS} _.
Arguments win_major_ {OS} _.
Arguments win_minor_ {OS} _.
Arguments win_build_ {OS} _.
Arguments uia_depth_ {OS} _.
Arguments max_mem_read_size_ {OS} _.
Arguments service_timeout_sec_ {OS} _.
Arguments w_os {OS} _.
Arguments w_owned {OS} _.

Section Calls.
Context {OS : Type} `{Windows OS}.

Abbreviation Win := (M (Win32 OS)).

Definition set_os (os : OS) (s : Win32 OS) : Win32 OS :=
  mkWin32 (is_wine_ s) (win_major_ s) (win_minor_ s) (win_build_ s) (uia_depth_ s) (max_mem_read_size_ s)
    (service_timeout_sec_ s) os (w_owned s).
Definition set_owned (l : list Resource) (s : Win32 OS) : Win32 OS :=
  mkWin32 (is_wine_ s) (win_major_ s) (win_minor_ s) (win_build_ s) (uia_depth_ s) (max_mem_read_size_ s)
    (service_timeout_sec_ s) (w_os s) l.

(** A call. *)
Definition sys {A} (c : Call A) : Win A := λ s, let '(a, os) := api c (w_os s) in (Ok a, set_os os s).

Definition acquire (r : Resource) : Win () := modify (λ s, set_owned (r :: w_owned s) s).

(** Closing what is not owned, a second time for instance, leaves a mark that
    nothing removes. *)
Definition give_back (r : Resource) (l : list Resource) : list Resource :=
  if bool_decide (r ∈ l) then remove_one r l else Dangling :: l.

Definition release (r : Resource) : Win () := modify (λ s, set_owned (give_back r (w_owned s)) s).

(** A scope whose end runs [close], also when an exception leaves it. *)
Definition scope {A} (close : Win ()) (m : Win A) : Win A := λ s,
  let '(r, s1) := m s in
  match r with
  | Ok _ | Throw _ => let '(_, s2) := close s1 in (r, s2)
  | _ => (r, s1)
  end.

(** * Owners *)

(** [SafeHandle]. *)
Definition SafeHandle_is_valid (h : Z) : bool := negb (h =? INVALID_HANDLE_VALUE) && negb (h =? NULL).

Definition close_handle (h : Z) : Win () := _ ← release (AHandle h); _ ← sys (CloseHandle h); mret ().

Definition SafeHandle {A} (open : Call Z) (body : Z → Win A) : Win A :=
  h ← sys open;
  if SafeHandle_is_valid h then _ ← acquire (AHandle h); scope (close_handle h) (body h) else body h.

(** [HKey]: the predefined keys are not closed. *)
Definition HKEY_CLASSES_ROOT : Z := 0x80000000.
Definition HKEY_CURRENT_USER : Z := 0x80000001.
Definition HKEY_LOCAL_MACHINE : Z := 0x80000002.
Definition HKEY_USERS : Z := 0x80000003.

Definition HKey_closes (h : Z) : bool :=
  negb (h =? NULL) && negb (h =? HKEY_LOCAL_MACHINE) && negb (h =? HKEY_CURRENT_USER)
  && negb (h =? HKEY_CLASSES_ROOT) && negb (h =? HKEY_USERS).

Definition close_key (h : Z) : Win () := _ ← release (AKey h); sys (RegCloseKey h).

(** The function that fills it in returns whether it did. *)
Definition HKey {A} (open : Call (option Z)) (body : option Z → Win A) : Win A :=
  o ← sys open;
  match o with
  | Some h => if HKey_closes h then _ ← acquire (AKey h); scope (close_key h) (body o) else body o
  | None => body None
  end.

(** [ScHandle]. *)
Definition ScHandle_is_valid (h : Z) : bool := negb (h =? NULL).

Definition close_service (h : Z) : Win () := _ ← release (AService h); _ ← sys (CloseServiceHandle h); mret ().

Definition ScHandle {A} (open : Call Z) (body : Z → Win A) : Win A :=
  h ← sys open;
  if ScHandle_is_valid h then _ ← acquire (AService h); scope (close_service h) (body h) else body h.

(** Resources that are opened and closed by hand; a call that fails returns
    [NULL]. *)
Definition opened (r : Z → Resource) (open : Call Z) : Win Z :=
  h ← sys open; _ ← (if h =? NULL then mret () else acquire (r h)); mret h.
Definition closed {A} (r : Z → Resource) (close : Call A) (h : Z) : Win () :=
  _ ← (if h =? NULL then mret () else release (r h)); _ ← sys close; mret ().
End Calls.
