(* ===== verification/Win32.v ===== *)
(** [core/src/win32_backend.cpp]: the backend over the Windows API, one
    definition per method. *)

From S2P Require Import Prelude StdMap CString Double Json Base64 Types Update Logger Backend Core Win32Api.

Local Open Scope Z_scope.

(** * Helpers *)

(** A result of [int] or [LONG] arithmetic; overflow is undefined. *)
Definition int_result (z : Z) : result Z := if (- 2 ^ 31 <=? z) && (z <? 2 ^ 31) then Ok z else Undef.

(** [to_u64] and [from_u64]. *)
Definition to_u64 (h : Z) : hwnd_u64 := h mod 2 ^ 64.
Definition from_u64 (h : hwnd_u64) : Z := h.

(** [std::wstring(s.begin(), s.end())]: each (signed) [char] as a [wchar_t]. *)
Definition widen_char (c : ascii) : Z := if code c <? 128 then code c else code c + 0xFF00.
Fixpoint widen (s : string) : wide :=
  match s with EmptyString => [] | String c s' => widen_char c :: widen s' end.

(** Text up to the terminator. *)
Fixpoint wcs (ws : wide) : wide :=
  match ws with [] => [] | w :: ws => if w =? 0 then [] else w :: wcs ws end.
Definition c_str (s : string) : string := take_while (λ c, negb (code c =? 0)) s.

(** [std::wstring::resize]. *)
Definition wresize (n : Z) (ws : wide) : wide :=
  take (Z.to_nat n) ws ++ replicate (Z.to_nat n - length ws) 0.

(** The names of window styles, with their bits. *)
Definition ws_flags : list (Z * string) :=
  [(0x00000000, "WS_OVERLAPPED"); (0x80000000, "WS_POPUP"); (0x40000000, "WS_CHILD");
   (0x20000000, "WS_MINIMIZE"); (0x10000000, "WS_VISIBLE"); (0x08000000, "WS_DISABLED");
   (0x04000000, "WS_CLIPSIBLINGS"); (0x02000000, "WS_CLIPCHILDREN"); (0x01000000, "WS_MAXIMIZE");
   (0x00C00000, "WS_CAPTION"); (0x00800000, "WS_BORDER"); (0x00400000, "WS_DLGFRAME");
   (0x00200000, "WS_VSCROLL"); (0x00100000, "WS_VSCROLL"); (0x00080000, "WS_SYSMENU");
   (0x00040000, "WS_THICKFRAME"); (0x00020000, "WS_GROUP"); (0x00010000, "WS_TABSTOP");
   (0x00020000, "WS_MINIMIZEBOX"); (0x00010000, "WS_MAXIMIZEBOX")].

Definition ws_ex_flags : list (Z * string) :=
  [(0x00000001, "WS_EX_DLGMODALFRAME"); (0x00000004, "WS_EX_NOPARENTNOTIFY");
   (0x00000008, "WS_EX_TOPMOST"); (0x00000010, "WS_EX_ACCEPTFILES"); (0x00000020, "WS_EX_TRANSPARENT");
   (0x00000040, "WS_EX_MDICHILD"); (0x00000080, "WS_EX_TOOLWINDOW"); (0x00000100, "WS_EX_WINDOWEDGE");
   (0x00000200, "WS_EX_CLIENTEDGE"); (0x00000400, "WS_EX_CONTEXTHELP"); (0x00001000, "WS_EX_RIGHT");
   (0x00000000, "WS_EX_LEFT"); (0x00002000, "WS_EX_RTLREADING"); (0x00000000, "WS_EX_LTRREADING");
   (0x00004000, "WS_EX_LEFTSCROLLBAR"); (0x00000000, "WS_EX_RIGHTSCROLLBAR");
   (0x00010000, "WS_EX_CONTROLPARENT"); (0x00020000, "WS_EX_STATICEDGE"); (0x00040000, "WS_EX_APPWINDOW");
   (0x00080000, "WS_EX_LAYERED"); (0x00100000, "WS_EX_NOINHERITLAYOUT"); (0x00400000, "WS_EX_LAYOUTRTL");
   (0x02000000, "WS_EX_COMPOSITED"); (0x08000000, "WS_EX_NOACTIVATE")].

Definition has_bits (style f : Z) : bool := Z.land style f =? f.

Definition parse_ws (style : Z) : list string :=
  (List.filter (λ f, has_bits style f.1 && negb (f.1 =? 0)) ws_flags).*2
  ++ (if style =? 0 then ["WS_OVERLAPPED"] else []).

Definition parse_ws_ex (exstyle : Z) : list string :=
  (List.filter (λ f, has_bits exstyle f.1) ws_ex_flags).*2.

(** [std::set_difference] of sorted ranges, on sorted copies. *)
Fixpoint set_difference (a b : list Z) : list Z :=
  match a with
  | [] => []
  | x :: a' =>
      (fix go (b : list Z) : list Z :=
         match b with
         | [] => x :: a'
         | y :: b' => if x <? y then x :: set_difference a' b
                      else if y <? x then go b' else set_difference a' b'
         end) b
  end.

Definition sorted (v : list hwnd_u64) : list hwnd_u64 := merge_sort Z.le v.

(** [parse_hkey]: the predefined key, or [NULL], and what follows the first
    backslash. *)
Definition parse_hkey (path : string) : Z * string :=
  let '(root, subpath) :=
    match str_find "\" path with
    | None => (path, EmptyString)
    | Some i => (str_take i path, str_drop (S i) path)
    end in
  let hkey :=
    if bool_decide (root = "HKEY_LOCAL_MACHINE") || bool_decide (root = "HKLM") then HKEY_LOCAL_MACHINE
    else if bool_decide (root = "HKEY_CURRENT_USER") || bool_decide (root = "HKCU") then HKEY_CURRENT_USER
    else if bool_decide (root = "HKEY_CLASSES_ROOT") || bool_decide (root = "HKCR") then HKEY_CLASSES_ROOT
    else if bool_decide (root = "HKEY_USERS") || bool_decide (root = "HKU") then HKEY_USERS
    else NULL in
  (hkey, subpath).

(** Registry text: pairs of bytes up to the terminator; without one, what
    follows in the buffer is read. *)
Fixpoint reg_text (data : list Z) : result wide :=
  match data with
  | lo :: hi :: data =>
      let w := lo + 256 * hi in
      if w =? 0 then Ok [] else ws ← reg_text data; Ok (w :: ws)
  | _ => Undef
  end.

Definition reg_dword (data : list Z) : result Z :=
  match data with
  | a :: b :: c :: d :: _ => Ok (a + 256 * b + 65536 * c + 16777216 * d)
  | _ => Undef
  end.

(** Whether [RegEnumValueW] succeeds with buffers of 256 characters and 4096
    bytes. *)
Definition value_fits (v : REG_VALUE) : bool := (length (rvName v) <? 256)%nat && (length (rvData v) <=? 4096)%nat.

(** The bytes of UTF-16 text with its terminator. *)
Definition wide_bytes (ws : wide) : list Z := (ws ++ [0]) ≫= λ w, [w mod 256; w / 256 mod 256].

(** [std::stoul]; [unsigned long] has 32 bits. *)
Definition stoul (s : string) : result Z :=
  let '(neg, s2) := read_sign (skip_while isspace s) in
  if head_is isdigit s2 then
    let v := (read_digits dec_digit 10 0 s2).1 in
    if v <? 2 ^ 32 then Ok ((if neg then - v else v) mod 2 ^ 32) else Throw "stoul argument out of range"
  else Throw "invalid stoul argument".

(** Little-endian fields of the bitmap headers. *)
Definition le_bytes (n : nat) (z : Z) : list Z := (λ i, z / 256 ^ Z.of_nat i mod 256) <$> seq 0 n.

(** [BITMAPFILEHEADER] and [BITMAPINFOHEADER]. *)
Definition bmp_headers (size width height : Z) : list Z :=
  le_bytes 2 0x4D42 ++ le_bytes 4 size ++ le_bytes 2 0 ++ le_bytes 2 0 ++ le_bytes 4 54
  ++ le_bytes 4 40 ++ le_bytes 4 width ++ le_bytes 4 height ++ le_bytes 2 1 ++ le_bytes 2 24
  ++ le_bytes 4 0 ++ replicate 20 0.

(** The bytes that [GetDIBits] writes for [h] lines of [w] pixels of 24 bits. *)
Definition dib_size (w h : Z) : Z := (w * 24 + 31) / 32 * 4 * h.

(** [MAKELPARAM]. *)
Definition MAKELPARAM (x y : Z) : Z := x mod 2 ^ 16 + 2 ^ 16 * (y mod 2 ^ 16).

Fixpoint chunks (fuel k : nat) (l : list Z) : list (list Z) :=
  match fuel, l with
  | S fuel, _ :: _ => take k l :: chunks fuel k (drop k l)
  | _, _ => []
  end.

(** [sizeof(INPUT)] on x64. *)
Definition sizeof_INPUT : nat := 40.

(** The points of a region, row by row. *)
Definition points (r : Rect) : list (Z * Z) :=
  seqZ (top r) (bottom r - top r) ≫= λ y, (λ x, (x, y)) <$> seqZ (left r) (right r - left r).

Definition color_of (c : Z) : Color := mkColor (Z.land c 255) (Z.land (Z.shiftr c 8) 255) (Z.land (Z.shiftr c 16) 255).
Definition CLR_INVALID : Z := 0xFFFFFFFF.

Definition close_to (variation : Z) (target c : Color) : bool :=
  (Z.abs (c_r c - c_r target) <=? variation) && (Z.abs (c_g c - c_g target) <=? variation)
  && (Z.abs (c_b c - c_b target) <=? variation).

(** What bounds the loops that the operating system drives: the windows of a
    tree, and the redirects of a download. *)
Class Fuel := { tree_fuel : nat; redirect_fuel : nat }.

(** [std::regex]: a pattern may be malformed. *)
Class Regex := { regex : Type; regex_compile : string → result regex; regex_search : regex → string → bool }.

Module Win32Ops.
Section Ops.
Context {OS : Type} `{Windows OS} `{Fuel} `{Regex}.

Abbreviation Win := (M (Win32 OS)).

(** * Text *)

Definition w2u8 (ws : wide) : Win string := if bool_decide (ws = []) then mret EmptyString else sys (WideCharToMultiByte ws).

(** The conversion from UTF-8 that three methods write out. *)
Definition u82w (text : string) : Win wide :=
  o ← sys (MultiByteToWideChar (c_str text)); mret (default [] o).

Definition bstr_to_utf8 (bstr : wide) : Win string := w2u8 bstr.

Definition get_window_text_w (h : Z) : Win wide :=
  n ← sys (GetWindowTextLengthW h);
  w ← sys (GetWindowTextW h (n + 1));
  mret (wresize n w).

Definition get_class_name_w (h : Z) : Win wide := sys (GetClassNameW h 256).

Definition title_of (h : Z) : Win string := get_window_text_w h ≫= w2u8.
Definition class_of (h : Z) : Win string := get_class_name_w h ≫= w2u8.

Definition PROCESS_QUERY_LIMITED_INFORMATION : Z := 0x1000.

Definition try_process_image_path (pid : Z) : Win string :=
  SafeHandle (OpenProcess PROCESS_QUERY_LIMITED_INFORMATION pid) (λ h,
    if negb (SafeHandle_is_valid h) then mret EmptyString else
    name ← sys (QueryFullProcessImageNameW h);
    match name with Some ws => w2u8 ws | None => mret EmptyString end).

(** * Configuration *)

Definition set_versions (v : Z * Z * Z) (s : Win32 OS) : Win32 OS :=
  mkWin32 (is_wine_ s) v.1.1 v.1.2 v.2 (uia_depth_ s) (max_mem_read_size_ s) (service_timeout_sec_ s)
    (w_os s) (w_owned s).
Definition set_is_wine (s : Win32 OS) : Win32 OS :=
  mkWin32 true (win_major_ s) (win_minor_ s) (win_build_ s) (uia_depth_ s) (max_mem_read_size_ s)
    (service_timeout_sec_ s) (w_os s) (w_owned s).
Definition set_uia_depth (d : Z) (s : Win32 OS) : Win32 OS :=
  mkWin32 (is_wine_ s) (win_major_ s) (win_minor_ s) (win_build_ s) d (max_mem_read_size_ s)
    (service_timeout_sec_ s) (w_os s) (w_owned s).
Definition set_max_mem_read (n : Z) (s : Win32 OS) : Win32 OS :=
  mkWin32 (is_wine_ s) (win_major_ s) (win_minor_ s) (win_build_ s) (uia_depth_ s) n
    (service_timeout_sec_ s) (w_os s) (w_owned s).
Definition set_service_timeout (n : Z) (s : Win32 OS) : Win32 OS :=
  mkWin32 (is_wine_ s) (win_major_ s) (win_minor_ s) (win_build_ s) (uia_depth_ s) (max_mem_read_size_ s) n
    (w_os s) (w_owned s).

(** The members before the constructor's body. *)
Definition Win32_initial (os : OS) : Win32 OS := mkWin32 false 0 0 0 5 (1024 * 1024) 30 os [].

(** The constructor. *)
Definition Win32Backend_new : Win () :=
  hntdll ← sys (GetModuleHandleW "ntdll.dll");
  _ ← (if hntdll =? NULL then mret () else
       p ← sys (GetProcAddress hntdll "wine_get_version");
       if p =? NULL then mret () else modify set_is_wine);
  _ ← (if hntdll =? NULL then mret () else
       p ← sys (GetProcAddress hntdll "RtlGetVersion");
       if p =? NULL then mret () else
       v ← sys RtlGetVersion;
       match v with Some v => modify (set_versions v) | None => mret () end);
  wine ← gets is_wine_;
  modify (set_uia_depth (if wine : bool then 5 else 50)).

(** One option of [set_config]. *)
Definition config_number (config : Object) (key : string) (cast : double → result Z) (set : Z → Win32 OS → Win32 OS)
    : Win () :=
  match map_find key config with
  | None => mret ()
  | Some v => d ← lift_result (as_num v); n ← lift_result (cast d); modify (set n)
  end.

Definition set_config (config : Object) : Win () :=
  _ ← config_number config "uia_depth" cast_int set_uia_depth;
  _ ← config_number config "max_mem_read" cast_u64 set_max_mem_read;
  config_number config "service_timeout" cast_int set_service_timeout.

(** * Windows *)

(** The callback stops the enumeration at 5000 windows. *)
Definition capture_snapshot : Win Snapshot :=
  hs ← sys EnumWindows; mret (mkSnapshot (to_u64 <$> take 5000 hs)).

Definition list_top (s : Snapshot) : Win (list hwnd_u64) := mret (snap_top s).

Definition list_children (_ : Snapshot) (parent : hwnd_u64) : Win (list hwnd_u64) :=
  hs ← sys (EnumChildWindows (from_u64 parent)); mret (to_u64 <$> hs).

Definition GW_HWNDNEXT : Z := 2.
Definition GW_OWNER : Z := 4.
Definition GW_CHILD : Z := 5.
Definition GWL_STYLE : Z := -16.
Definition GWL_EXSTYLE : Z := -20.

Definition rect_or_zero (r : option Rect) : Rect := default Rect_zero r.

Definition get_info (_ : Snapshot) (hwnd_u : hwnd_u64) : Win (option WindowInfo) :=
  let hwnd := from_u64 hwnd_u in
  exists_ ← sys (IsWindow hwnd);
  if negb exists_ then mret None else
  parent ← sys (GetParent hwnd);
  owner ← sys (GetWindow hwnd GW_OWNER);
  class_name ← class_of hwnd;
  title ← title_of hwnd;
  r ← sys (GetWindowRect hwnd);
  cr ← sys (GetClientRect hwnd);
  let cr := rect_or_zero cr in
  pt ← sys (ClientToScreen hwnd 0 0);
  let pt := default (0, 0) pt in
  w ← lift_result (int_result (right cr - left cr));
  x2 ← lift_result (int_result (pt.1 + w));
  h ← lift_result (int_result (bottom cr - top cr));
  y2 ← lift_result (int_result (pt.2 + h));
  '(tid, pid) ← sys (GetWindowThreadProcessId hwnd);
  let pid := default 0 pid in
  style ← sys (GetWindowLongPtrW hwnd GWL_STYLE);
  exsty ← sys (GetWindowLongPtrW hwnd GWL_EXSTYLE);
  let style := style mod 2 ^ 64 in
  let exstyle := exsty mod 2 ^ 64 in
  visible ← sys (IsWindowVisible hwnd);
  enabled ← sys (IsWindowEnabled hwnd);
  iconic ← sys (IsIconic hwnd);
  zoomed ← sys (IsZoomed hwnd);
  image ← try_process_image_path pid;
  mret (Some {| wi_hwnd := hwnd_u; wi_parent := to_u64 parent; wi_owner := to_u64 owner;
                wi_class_name := class_name; wi_title := title;
                wi_window_rect := rect_or_zero r; wi_client_rect := cr;
                wi_screen_rect := mkRect pt.1 pt.2 x2 y2;
                wi_pid := pid; wi_tid := tid; wi_style := style; wi_exstyle := exstyle;
                wi_style_flags := parse_ws style; wi_ex_style_flags := parse_ws_ex exstyle;
                wi_visible := visible; wi_enabled := enabled; wi_iconic := iconic; wi_zoomed := zoomed;
                wi_process_image := image |}).

Definition CWP_SKIPTRANSPARENT : Z := 4.

Definition pick_at_point (_ : Snapshot) (x y : Z) (flags : PickFlags) : Win (option hwnd_u64) :=
  h ← sys (WindowFromPoint x y);
  if h =? NULL then mret None else
  if prefer_child flags then
    child ← sys (ChildWindowFromPointEx h x y (if ignore_transparent flags then CWP_SKIPTRANSPARENT else 0));
    mret (Some (to_u64 (if child =? NULL then h else child)))
  else mret (Some (to_u64 h)).

(** The loop over the children of a window: the child with its own children,
    then its next sibling. *)
Fixpoint build_children (fuel : nat) (child : Z) : Win (list WindowNode) :=
  if child =? NULL then mret [] else
  match fuel with
  | O => lift_result OutOfFuel
  | S fuel =>
      title ← title_of child;
      class_name ← class_of child;
      first ← sys (GetWindow child GW_CHILD);
      children ← build_children fuel first;
      next ← sys (GetWindow child GW_HWNDNEXT);
      siblings ← build_children fuel next;
      mret (mkWindowNode (to_u64 child) title class_name children :: siblings)
  end.

(** The recursive lambda [build_node]. *)
Definition build_node (h : Z) : Win WindowNode :=
  title ← title_of h;
  class_name ← class_of h;
  first ← sys (GetWindow h GW_CHILD);
  children ← build_children tree_fuel first;
  mret (mkWindowNode (to_u64 h) title class_name children).

(** The callbacks of the two enumerations, over what is enumerated. *)
Fixpoint ask_parents (hs : list Z) : Win () :=
  match hs with
  | [] => mret ()
  | h :: hs => _ ← sys (GetParent h); _ ← sys (GetParent h); ask_parents hs
  end.
Fixpoint flat_nodes (hs : list Z) : Win (list WindowNode) :=
  match hs with
  | [] => mret []
  | h :: hs =>
      title ← title_of h;
      class_name ← class_of h;
      nodes ← flat_nodes hs;
      mret (mkWindowNode (to_u64 h) title class_name [] :: nodes)
  end.

Definition get_window_tree (_ : Snapshot) (root_u : hwnd_u64) : Win (list WindowNode) :=
  root ← (if root_u =? 0 then sys GetDesktopWindow else mret (from_u64 root_u));
  hs ← sys (EnumChildWindows root);
  _ ← ask_parents hs;
  if root_u =? 0 then hs ← sys EnumWindows; flat_nodes hs
  else node ← build_node root; mret [node].

Definition HWND_TOPMOST : Z := -1.
Definition HWND_NOTOPMOST : Z := -2.
Definition WS_EX_LAYERED : Z := 0x80000.
Definition LWA_ALPHA : Z := 2.
(** [SWP_NOMOVE | SWP_NOSIZE]. *)
Definition SWP_flags : Z := 3.

Definition clamp_alpha (alpha : Z) : Z := if alpha <? 0 then 0 else if 255 <? alpha then 255 else alpha.

Definition set_property (hwnd_u : hwnd_u64) (name value : string) : Win bool :=
  let hwnd := from_u64 hwnd_u in
  exists_ ← sys (IsWindow hwnd);
  if negb exists_ then mret false else
  if bool_decide (name = "topmost") then
    sys (SetWindowPos hwnd (if bool_decide (value = "true") then HWND_TOPMOST else HWND_NOTOPMOST) SWP_flags)
  else if bool_decide (name = "opacity") then
    alpha ← lift_result (stoi value);
    exstyle ← sys (GetWindowLongPtrW hwnd GWL_EXSTYLE);
    _ ← sys (SetWindowLongPtrW hwnd GWL_EXSTYLE (Z.lor exstyle WS_EX_LAYERED));
    sys (SetLayeredWindowAttributes hwnd 0 (clamp_alpha alpha) LWA_ALPHA)
  else mret false.

Definition SW_HIDE : Z := 0.
Definition SW_SHOW : Z := 5.

Definition ensure_visible (hwnd : hwnd_u64) (visible : bool) : Win EnsureResult :=
  let h := from_u64 hwnd in
  exists_ ← sys (IsWindow h);
  if negb exists_ then mret (mkEnsureResult false) else
  cur ← sys (IsWindowVisible h);
  if Bool.eqb cur visible then mret (mkEnsureResult false) else
  _ ← sys (ShowWindow h (if visible then SW_SHOW else SW_HIDE));
  mret (mkEnsureResult true).

Definition ensure_foreground (hwnd : hwnd_u64) : Win EnsureResult :=
  let h := from_u64 hwnd in
  exists_ ← sys (IsWindow h);
  if negb exists_ then mret (mkEnsureResult false) else
  fg ← sys GetForegroundWindow;
  if fg =? h then mret (mkEnsureResult false) else
  _ ← sys (SetForegroundWindow h);
  mret (mkEnsureResult true).

Definition PS_SOLID : Z := 0.
Definition NULL_BRUSH : Z := 5.
(** [RGB(255, 0, 0)]. *)
Definition red : Z := 255.

Fixpoint blink (n : nat) (hdc : Z) (r : Rect) : Win () :=
  match n with
  | O => mret ()
  | S n =>
      _ ← sys (Rectangle hdc r);
      _ ← sys (SleepMs 200);
      _ ← sys (InvalidateRect r);
      _ ← sys UpdateWindow;
      _ ← sys (SleepMs 100);
      blink n hdc r
  end.

(** The rectangle is not initialised when [GetWindowRect] fails. *)
Definition highlight_window (hwnd_u : hwnd_u64) : Win bool :=
  let hwnd := from_u64 hwnd_u in
  exists_ ← sys (IsWindow hwnd);
  if negb exists_ then mret false else
  r ← sys (GetWindowRect hwnd);
  hdc ← opened AScreenDC GetDC;
  if hdc =? NULL then mret false else
  pen ← opened AnObject (CreatePen PS_SOLID 5 red);
  oldPen ← sys (SelectObject hdc pen);
  brush ← sys (GetStockObject NULL_BRUSH);
  oldBrush ← sys (SelectObject hdc brush);
  r ← lift_result (match r with Some r => Ok r | None => Undef end);
  _ ← blink 3 hdc r;
  _ ← sys (SelectObject hdc oldPen);
  _ ← sys (SelectObject hdc oldBrush);
  _ ← closed AnObject (DeleteObject pen) pen;
  _ ← closed AScreenDC (ReleaseDC hdc) hdc;
  mret true.

(** * Input *)

Definition MK_LBUTTON : Z := 1.

(** The messages for pressing and letting go of a button. *)
Definition button_messages (button : Z) : Z * Z :=
  if button =? 1 then (0x204, 0x205) else if button =? 2 then (0x207, 0x208) else (0x201, 0x202).

Definition control_click (hwnd_u : hwnd_u64) (x y button : Z) : Win bool :=
  let hwnd := from_u64 hwnd_u in
  exists_ ← sys (IsWindow hwnd);
  if negb exists_ then mret false else
  let lp := MAKELPARAM x y in
  let '(down, up) := button_messages button in
  _ ← sys (PostMessageW hwnd down MK_LBUTTON lp);
  _ ← sys (PostMessageW hwnd up 0 lp);
  mret true.

Definition WM_CHAR : Z := 0x102.

Fixpoint post_chars (hwnd : Z) (ws : wide) : Win () :=
  match ws with
  | [] => mret ()
  | c :: ws => _ ← sys (PostMessageW hwnd WM_CHAR c 0); post_chars hwnd ws
  end.

Definition control_send (hwnd_u : hwnd_u64) (text : string) : Win bool :=
  let hwnd := from_u64 hwnd_u in
  exists_ ← sys (IsWindow hwnd);
  if negb exists_ then mret false else
  wtext ← u82w text;
  _ ← post_chars hwnd wtext;
  mret true.

Definition post_message (hwnd : hwnd_u64) (msg wparam lparam : Z) : Win bool :=
  let h := from_u64 hwnd in
  exists_ ← sys (IsWindow h);
  if negb exists_ then mret false else sys (PostMessageW h msg wparam lparam).

(** [SendInput(...) == count]. *)
Definition send_inputs (inputs : list INPUT) : Win bool :=
  n ← sys (SendInput inputs); mret (n =? Z.of_nat (length inputs)).

Definition send_input (raw_input_data : list Z) : Win bool :=
  if bool_decide (raw_input_data = []) then mret false else
  if negb (length raw_input_data mod sizeof_INPUT =? 0)%nat then mret false else
  send_inputs (RawInput <$> chunks (length raw_input_data) sizeof_INPUT raw_input_data).

Definition SM_CXSCREEN : Z := 0.
Definition SM_CYSCREEN : Z := 1.
(** [MOUSEEVENTF_ABSOLUTE], and with [MOUSEEVENTF_MOVE]. *)
Definition ME_ABSOLUTE : Z := 0x8000.
Definition ME_ABSOLUTE_MOVE : Z := 0x8001.

(** The flags for a button going down and up. *)
Definition button_flags (button : Z) : option (Z * Z) :=
  if button =? 0 then Some (0x2, 0x4) else if button =? 1 then Some (0x8, 0x10)
  else if button =? 2 then Some (0x20, 0x40) else None.

(** [(x * 65535) / sw]. *)
Definition normalize (x sw : Z) : result Z := p ← int_result (x * 65535); Ok (Z.quot p sw).

Definition send_mouse_click (x y button : Z) : Win bool :=
  sw ← sys (GetSystemMetrics SM_CXSCREEN);
  sh ← sys (GetSystemMetrics SM_CYSCREEN);
  let sw := if sw =? 0 then 1 else sw in
  let sh := if sh =? 0 then 1 else sh in
  nx ← lift_result (normalize x sw);
  ny ← lift_result (normalize y sh);
  match button_flags button with
  | Some (down, up) =>
      send_inputs [MouseInput nx ny (Z.lor ME_ABSOLUTE_MOVE down); MouseInput nx ny (Z.lor ME_ABSOLUTE up)]
  | None => mret false
  end.

Definition KEYEVENTF_KEYUP : Z := 2.
Definition KEYEVENTF_UNICODE : Z := 4.

Definition send_key_press (vk : Z) : Win bool :=
  let k := vk mod 2 ^ 16 in send_inputs [KeyInput k 0 0; KeyInput k 0 KEYEVENTF_KEYUP].

(** Each character pressed and let go. *)
Definition key_strokes (ws : wide) : list INPUT :=
  ws ≫= λ c, [KeyInput 0 c KEYEVENTF_UNICODE; KeyInput 0 c (Z.lor KEYEVENTF_UNICODE KEYEVENTF_KEYUP)].

Definition send_text (text : string) : Win bool :=
  wtext ← u82w text;
  if bool_decide (wtext = []) then mret true else send_inputs (key_strokes wtext).

Definition input_hook_enable (_ : bool) : Win bool := mret true.

(** * The screen *)

Definition get_pixel (x y : Z) : Win (option Color) :=
  hdc ← opened AScreenDC GetDC;
  if hdc =? NULL then mret None else
  c ← sys (GetPixel hdc x y);
  _ ← closed AScreenDC (ReleaseDC hdc) hdc;
  mret (if c =? CLR_INVALID then None else Some (color_of c)).

(** The two loops of [pixel_search], up to the first match. *)
Fixpoint search_points (hdc variation : Z) (target : Color) (ps : list (Z * Z)) : Win (option (Z * Z)) :=
  match ps with
  | [] => mret None
  | (x, y) :: ps =>
      c ← sys (GetPixel hdc x y);
      if negb (c =? CLR_INVALID) && close_to variation target (color_of c) then mret (Some (x, y))
      else search_points hdc variation target ps
  end.

Definition pixel_search (region : Rect) (target : Color) (variation : Z) : Win (option (Z * Z)) :=
  hdc ← opened AScreenDC GetDC;
  if hdc =? NULL then mret None else
  r ← search_points hdc variation target (points region);
  _ ← closed AScreenDC (ReleaseDC hdc) hdc;
  mret r.

(** [GetObject] leaves [bmp] uninitialised when it fails, and the buffer is made
    for the bitmap's own format, while [GetDIBits] writes 24 bits per pixel. *)
Definition capture_screen (region : Rect) : Win (option ScreenCapture) :=
  w ← lift_result (int_result (right region - left region));
  h ← lift_result (int_result (bottom region - top region));
  if (w <=? 0) || (h <=? 0) then mret None else
  hdcScreen ← opened AScreenDC GetDC;
  hdcMem ← opened AMemoryDC (CreateCompatibleDC hdcScreen);
  hbm ← opened AnObject (CreateCompatibleBitmap hdcScreen w h);
  _ ← sys (SelectObject hdcMem hbm);
  _ ← sys (BitBlt hdcMem w h hdcScreen (left region) (top region));
  bmp ← sys (GetBitmap hbm);
  '(bmWidth, bmHeight, bmWidthBytes) ← lift_result (match bmp with Some b => Ok b | None => Undef end);
  room ← lift_result (int_result (bmWidthBytes * bmHeight));
  let bfSize := (54 + room) mod 2 ^ 32 in
  if (bfSize <? 54) || (bfSize - 54 <? dib_size bmWidth h) then lift_result Undef else
  bits ← sys (GetDIBits hdcMem hbm h (bfSize - 54));
  let pixels := take (Z.to_nat (bfSize - 54)) bits in
  let buffer := bmp_headers bfSize bmWidth bmHeight ++ pixels
                  ++ replicate (Z.to_nat (bfSize - 54) - length pixels) 0 in
  _ ← closed AnObject (DeleteObject hbm) hbm;
  _ ← closed AMemoryDC (DeleteDC hdcMem) hdcMem;
  _ ← closed AScreenDC (ReleaseDC hdcScreen) hdcScreen;
  mret (Some (mkScreenCapture w h (encode buffer))).

Definition image_match (_ : Rect) (_ : list Z) : Win (option ImageMatchResult) := mret None.

(** * Processes and files *)

Fixpoint process_infos (entries : list PROCESSENTRY) : Win (list ProcessInfo) :=
  match entries with
  | [] => mret []
  | pe :: entries =>
      name ← w2u8 (wcs (szExeFile pe));
      path ← try_process_image_path (th32ProcessID pe);
      out ← process_infos entries;
      mret (mkProcessInfo (th32ProcessID pe) name path :: out)
  end.

Definition TH32CS_SNAPPROCESS : Z := 2.

Definition list_processes : Win (list ProcessInfo) :=
  hSnap ← sys (CreateToolhelp32Snapshot TH32CS_SNAPPROCESS);
  if hSnap =? INVALID_HANDLE_VALUE then mret [] else
  _ ← acquire (AHandle hSnap);
  entries ← sys (Process32Entries hSnap);
  out ← process_infos entries;
  _ ← close_handle hSnap;
  mret out.

Definition PROCESS_TERMINATE : Z := 1.

Definition kill_process (pid : Z) : Win bool :=
  SafeHandle (OpenProcess PROCESS_TERMINATE pid) (λ h,
    if negb (SafeHandle_is_valid h) then mret false else sys (TerminateProcess h 1)).

Definition FILE_ATTRIBUTE_DIRECTORY : Z := 0x10.

Definition get_file_info (path : string) : Win (option FileInfo) :=
  attr ← sys (GetFileAttributesExW (widen path));
  mret match attr with
       | None => None
       | Some a =>
           Some (mkFileInfo path (Z.lor (Z.shiftl (nFileSizeHigh a) 32) (nFileSizeLow a))
                   (negb (Z.land (dwFileAttributes a) FILE_ATTRIBUTE_DIRECTORY =? 0)) "TODO")
       end.

(** [out.resize(size)], then what [ReadFile] delivers over it. *)
Fixpoint zero_text (n : nat) : string := match n with O => EmptyString | S n => String (chr 0) (zero_text n) end.
Definition filled (size : Z) (data : string) : string :=
  let data := str_take (Z.to_nat size) data in data +:+ zero_text (Z.to_nat size - String.length data).

Definition read_file_content (path : string) : Win (option string) :=
  SafeHandle (CreateFileW (widen path)) (λ h,
    if negb (SafeHandle_is_valid h) then mret None else
    size ← sys (GetFileSize h);
    data ← sys (ReadFile h size);
    mret (Some (filled size data))).

(** The callback of [find_windows_regex]. *)
Fixpoint matching_windows (re_t re_c : regex) (hs : list Z) : Win (list hwnd_u64) :=
  match hs with
  | [] => mret []
  | h :: hs =>
      title ← title_of h;
      cls ← class_of h;
      out ← matching_windows re_t re_c hs;
      mret (if regex_search re_t title && regex_search re_c cls then to_u64 h :: out else out)
  end.

Definition find_windows_regex (title_re class_re : string) : Win (list hwnd_u64) :=
  re_t ← lift_result (regex_compile title_re);
  re_c ← lift_result (regex_compile class_re);
  hs ← sys EnumWindows;
  matching_windows re_t re_c hs.

(** * The registry *)

Definition KEY_READ : Z := 0x20019.
Definition KEY_WRITE : Z := 0x20006.
Definition KEY_SET_VALUE : Z := 2.
Definition REG_SZ : Z := 1.
Definition REG_DWORD : Z := 4.

Fixpoint key_names (names : list wide) : Win (list string) :=
  match names with
  | [] => mret []
  | n :: names => s ← w2u8 (wcs n); out ← key_names names; mret (s :: out)
  end.

Definition read_value (v : REG_VALUE) : Win RegistryValue :=
  name ← w2u8 (wcs (rvName v));
  if rvType v =? REG_SZ then
    ws ← lift_result (reg_text (rvData v)); data ← w2u8 ws; mret (mkRegistryValue name "SZ" data)
  else if rvType v =? REG_DWORD then
    d ← lift_result (reg_dword (rvData v)); mret (mkRegistryValue name "DWORD" (Z_to_string d))
  else mret (mkRegistryValue name "BINARY" "(binary data)").

(** The loop over the values ends at the first one that does not fit the
    buffers. *)
Fixpoint key_values (values : list REG_VALUE) : Win (list RegistryValue) :=
  match values with
  | [] => mret []
  | v :: values =>
      if value_fits v then rv ← read_value v; out ← key_values values; mret (rv :: out) else mret []
  end.

Definition reg_read (path : string) : Win (option RegistryKeyInfo) :=
  let '(root, subpath) := parse_hkey path in
  if root =? NULL then mret None else
  HKey (RegOpenKeyExW root (widen subpath) KEY_READ) (λ key,
    match key with
    | None => mret None
    | Some hKey =>
        names ← sys (RegKeys hKey);
        subkeys ← key_names names;
        vals ← sys (RegValues hKey);
        values ← key_values vals;
        mret (Some (mkRegistryKeyInfo path subkeys values))
    end).

(** What [reg_write] stores for a value: its type and bytes. *)
Definition encode_value (val : RegistryValue) : result (option (Z * list Z)) :=
  if bool_decide (rv_type val = "SZ") then Ok (Some (REG_SZ, wide_bytes (widen (rv_data val))))
  else if bool_decide (rv_type val = "DWORD") then
    d ← stoul (rv_data val); Ok (Some (REG_DWORD, le_bytes 4 d))
  else Ok None.

Definition reg_write (path : string) (val : RegistryValue) : Win bool :=
  let '(root, subpath) := parse_hkey path in
  if root =? NULL then mret false else
  HKey (RegCreateKeyExW root (widen subpath) KEY_WRITE) (λ key,
    match key with
    | None => mret false
    | Some hKey =>
        enc ← lift_result (encode_value val);
        match enc with
        | Some (type, data) => sys (RegSetValueExW hKey (widen (rv_name val)) type data)
        | None => mret false
        end
    end).

Definition reg_delete (path value_name : string) : Win bool :=
  let '(root, subpath) := parse_hkey path in
  if root =? NULL then mret false else
  if is_empty value_name then sys (RegDeleteKeyW root (widen subpath)) else
  HKey (RegOpenKeyExW root (widen subpath) KEY_SET_VALUE) (λ key,
    match key with
    | None => mret false
    | Some hKey => sys (RegDeleteValueW hKey (widen value_name))
    end).

Definition reg_subscribe (_ : string) : Win bool := mret true.

(** * The clipboard *)

Definition close_clipboard : Win () := _ ← release AClipboard; _ ← sys CloseClipboard; mret ().

Definition clipboard_read : Win (option string) :=
  ok ← sys OpenClipboard;
  if negb ok then mret None else
  _ ← acquire AClipboard;
  hData ← sys GetClipboardData;
  out ← (if hData =? NULL then mret EmptyString else
         p ← sys (GlobalLock hData);
         if p =? NULL then mret EmptyString else
         ws ← sys (GlobalText p);
         out ← w2u8 (wcs ws);
         _ ← sys (GlobalUnlock hData);
         mret out);
  _ ← close_clipboard;
  mret (if hData =? NULL then None else Some out).

(** The allocated block is filled and handed over, or freed. *)
Definition give_to_clipboard (hMem : Z) (wtext : wide) : Win bool :=
  if hMem =? NULL then mret false else
  p ← sys (GlobalLock hMem);
  if p =? NULL then _ ← closed AMemory (GlobalFree hMem) hMem; mret false else
  _ ← sys (GlobalWrite p (wtext ++ [0]));
  _ ← sys (GlobalUnlock hMem);
  set ← sys (SetClipboardData hMem);
  if set : bool then _ ← release (AMemory hMem); mret true
  else _ ← closed AMemory (GlobalFree hMem) hMem; mret false.

Definition clipboard_write (text : string) : Win bool :=
  ok ← sys OpenClipboard;
  if negb ok then mret false else
  _ ← acquire AClipboard;
  _ ← sys EmptyClipboard;
  wtext ← u82w text;
  hMem ← opened AMemory (GlobalAlloc (2 * (Z.of_nat (length wtext) + 1)));
  success ← give_to_clipboard hMem wtext;
  _ ← close_clipboard;
  mret success.

(** * Services *)

Definition SC_MANAGER_CONNECT : Z := 1.
Definition SC_MANAGER_ENUMERATE_SERVICE : Z := 4.
Definition SERVICE_QUERY_STATUS : Z := 4.
Definition SERVICE_START : Z := 0x10.
Definition SERVICE_STOP : Z := 0x20.
Definition SERVICE_CONTROL_STOP : Z := 1.
Definition ERROR_MORE_DATA : Z := 234.
Definition SERVICE_STOPPED : Z := 1.
Definition SERVICE_START_PENDING : Z := 2.
Definition SERVICE_STOP_PENDING : Z := 3.
Definition SERVICE_RUNNING : Z := 4.
Definition SERVICE_PAUSED : Z := 7.

Fixpoint service_infos (entries : list ENUM_SERVICE) : Win (list ServiceInfo) :=
  match entries with
  | [] => mret []
  | e :: entries =>
      name ← w2u8 (wcs (lpServiceName e));
      display ← w2u8 (wcs (lpDisplayName e));
      out ← service_infos entries;
      mret (mkServiceInfo name display (if dwCurrentState e =? SERVICE_RUNNING then "RUNNING" else "STOPPED") :: out)
  end.

Definition service_list : Win (list ServiceInfo) :=
  ScHandle (OpenSCManagerW SC_MANAGER_ENUMERATE_SERVICE) (λ hSCM,
    if negb (ScHandle_is_valid hSCM) then mret [] else
    '(_, bytesNeeded, _) ← sys (EnumServicesStatusExW hSCM 0);
    e ← sys GetLastError;
    if e =? ERROR_MORE_DATA then
      '(ok, _, entries) ← sys (EnumServicesStatusExW hSCM bytesNeeded);
      if ok : bool then service_infos entries else mret []
    else mret []).

Definition state_name (state : Z) : string :=
  if state =? SERVICE_RUNNING then "RUNNING" else if state =? SERVICE_STOPPED then "STOPPED"
  else if state =? SERVICE_START_PENDING then "STARTING" else if state =? SERVICE_STOP_PENDING then "STOPPING"
  else if state =? SERVICE_PAUSED then "PAUSED" else "OTHER".

Definition service_status (name : string) : Win string :=
  ScHandle (OpenSCManagerW SC_MANAGER_CONNECT) (λ hSCM,
    if negb (ScHandle_is_valid hSCM) then mret "UNKNOWN" else
    ScHandle (OpenServiceW hSCM (widen name) SERVICE_QUERY_STATUS) (λ hSvc,
      if negb (ScHandle_is_valid hSvc) then mret "NOT_FOUND" else
      state ← sys (QueryServiceStatusEx hSvc);
      mret match state with Some st => state_name st | None => "UNKNOWN" end)).

(** [duration_cast<seconds>(now - start).count()]. *)
Definition seconds_since (start now : Z) : Z := Z.quot (now - start) 1000000000.

(** The polling loop: whether the target state was seen in time. *)
Fixpoint await_state (fuel : nat) (hSvc target start timeout : Z) : Win bool :=
  t ← sys SteadyNow;
  if timeout <=? seconds_since start t then mret false else
  match fuel with
  | O => lift_result OutOfFuel
  | S fuel =>
      state ← sys (QueryServiceStatusEx hSvc);
      if bool_decide (state = Some target) then mret true else
      _ ← sys (SleepMs 500);
      await_state fuel hSvc target start timeout
  end.

(** Two turns a second, while time passes ([SleepMs] lasts as long as it says). *)
Definition await_fuel (timeout : Z) : nat := Z.to_nat (2 * timeout).

Definition service_control (name action : string) : Win bool :=
  let starting := bool_decide (action = "start") in
  ScHandle (OpenSCManagerW SC_MANAGER_CONNECT) (λ hSCM,
    if negb (ScHandle_is_valid hSCM) then mret false else
    ScHandle (OpenServiceW hSCM (widen name)
                (if starting then SERVICE_START else Z.lor SERVICE_STOP SERVICE_QUERY_STATUS)) (λ hSvc,
      if negb (ScHandle_is_valid hSvc) then mret false else
      ok ← (if starting then sys (StartServiceW hSvc)
            else if bool_decide (action = "stop") then sys (ControlService hSvc SERVICE_CONTROL_STOP)
            else mret false);
      if negb ok then mret false else
      start ← sys SteadyNow;
      timeout ← gets service_timeout_sec_;
      _ ← await_state (await_fuel timeout) hSvc (if starting then SERVICE_RUNNING else SERVICE_STOPPED) start timeout;
      mret true)).

(** * The environment and drives *)

(** The entry before the first [=] and after it. *)
Fixpoint split_eq (ws : wide) : option (wide * wide) :=
  match ws with
  | [] => None
  | w :: ws => if w =? 61 then Some ([], ws)
               else match split_eq ws with Some (a, b) => Some (w :: a, b) | None => None end
  end.

(** The loop over the block: entries up to their terminators, and an empty one
    at the end.  Each turn takes one character at least. *)
Fixpoint env_loop (fuel : nat) (curr : wide) : Win (list EnvVar) :=
  match curr, fuel with
  | [], _ => lift_result Undef
  | _, O => lift_result OutOfFuel
  | c :: _, S fuel =>
      if c =? 0 then mret [] else
      let s := wcs curr in
      let rest := drop (S (length s)) curr in
      match split_eq s with
      | Some ((_ :: _) as name, value) =>
          n ← w2u8 name;
          v ← w2u8 value;
          out ← env_loop fuel rest;
          mret (mkEnvVar n v :: out)
      | _ => env_loop fuel rest
      end
  end.

Definition env_get_all : Win (list EnvVar) :=
  env ← sys GetEnvironmentStringsW;
  match env with
  | None => mret []
  | Some block =>
      out ← env_loop (length block) block;
      _ ← sys FreeEnvironmentStringsW;
      mret out
  end.

Definition env_set (name value : string) : Win bool := sys (SetEnvironmentVariableW (widen name) (widen value)).

Definition drive_letter (i : Z) : string := String (chr (65 + i)) EmptyString.
Definition drive_type (type : Z) : string :=
  if type =? 3 then "Fixed" else if type =? 4 then "Remote" else if type =? 5 then "CDROM"
  else if type =? 6 then "RamDisk" else "Unknown".

Fixpoint drive_infos (mask : Z) (ds : list Z) : Win (list DriveInfo) :=
  match ds with
  | [] => mret []
  | i :: ds =>
      if Z.testbit mask i then
        type ← sys (GetDriveTypeW (widen (drive_letter i +:+ ":\")));
        dev ← sys (QueryDosDeviceW (widen (drive_letter i +:+ ":")));
        mapping ← match dev with Some ws => w2u8 (wcs ws) | None => mret EmptyString end;
        out ← drive_infos mask ds;
        mret (mkDriveInfo (drive_letter i) mapping (drive_type type) :: out)
      else drive_infos mask ds
  end.

Definition wine_get_drives : Win (list DriveInfo) :=
  mask ← sys GetLogicalDrives; drive_infos mask (seqZ 0 26).

Definition wine_get_overrides : Win (list string) :=
  info ← reg_read "HKCU\Software\Wine\DllOverrides";
  mret match info with
       | Some info => (λ v, rv_name v +:+ "=" +:+ rv_data v) <$> rk_values info
       | None => []
       end.

(** * Synchronization and memory *)

Definition SYNCHRONIZE : Z := 0x100000.
Definition ERROR_ALREADY_EXISTS : Z := 183.

Definition sync_check_mutex (name : string) : Win bool :=
  SafeHandle (OpenMutexW SYNCHRONIZE (widen name)) (λ h, mret (SafeHandle_is_valid h)).

Definition sync_create_mutex (name : string) (own : bool) : Win bool :=
  SafeHandle (CreateMutexW own (widen name)) (λ h,
    if SafeHandle_is_valid h then e ← sys GetLastError; mret (negb (e =? ERROR_ALREADY_EXISTS)) else mret false).

Definition PROCESS_VM_READ : Z := 0x10.
(** [PROCESS_VM_WRITE | PROCESS_VM_OPERATION]. *)
Definition PROCESS_VM_WRITE_OP : Z := 0x28.

Definition mem_read (pid address size : Z) : Win (option MemoryRegion) :=
  max ← gets max_mem_read_size_;
  let size := if max <? size then max else size in
  SafeHandle (OpenProcess PROCESS_VM_READ pid) (λ h,
    if negb (SafeHandle_is_valid h) then mret None else
    data ← sys (ReadProcessMemory h address size);
    mret match data with
         | Some buffer => Some (mkMemoryRegion address (encode buffer))
         | None => None
         end).

Definition mem_write (pid address : Z) (data : list Z) : Win bool :=
  SafeHandle (OpenProcess PROCESS_VM_WRITE_OP pid) (λ h,
    if negb (SafeHandle_is_valid h) then mret false else sys (WriteProcessMemory h address data)).

(** * UI Automation *)

Definition opt_text (o : option wide) : Win string :=
  match o with Some ws => bstr_to_utf8 ws | None => mret EmptyString end.

(** [get_element_info]: what cannot be read keeps its default. *)
Definition get_element_info (el : Z) : Win UIElementInfo :=
  p ← sys (CurrentProperties el);
  automation_id ← opt_text (CurrentAutomationId p);
  name ← opt_text (CurrentName p);
  class_name ← opt_text (CurrentClassName p);
  mret (mkUIElementInfo automation_id name class_name
          (match CurrentControlType p with Some t => Z_to_string t | None => EmptyString end)
          (rect_or_zero (CurrentBoundingRectangle p))
          (default false (CurrentIsEnabled p))
          (match CurrentIsOffscreen p with Some b => negb b | None => false end) []).

Definition with_children (el : UIElementInfo) (ch : list UIElementInfo) : UIElementInfo :=
  mkUIElementInfo (ui_automation_id el) (ui_name el) (ui_class_name el) (ui_control_type el)
    (ui_bounding_rect el) (ui_enabled el) (ui_visible el) ch.

(** [walk_uia_tree], with as many levels left as [max_depth - depth + 1]. *)
Fixpoint walk_uia_tree (levels : nat) (cond root : Z) : Win (list UIElementInfo) :=
  match levels with
  | O => mret []
  | S levels =>
      found ← sys (FindAllChildren root cond);
      match found with
      | None => mret []
      | Some nodes =>
          (fix go (nodes : list (option Z)) : Win (list UIElementInfo) :=
             match nodes with
             | [] => mret []
             | None :: nodes => go nodes
             | Some node :: nodes =>
                 info ← get_element_info node;
                 ch ← walk_uia_tree levels cond node;
                 out ← go nodes;
                 mret (with_children info ch :: out)
             end) nodes
      end
  end.

Definition uia_levels (max_depth : Z) : nat := Z.to_nat (max_depth + 1).

(** The element for a window; [hr] is still that of [CoCreateInstance] when the
    window does not exist, and [pRoot] is null. *)
Definition element_for (uia : Z) (parent : hwnd_u64) : Win (option Z) :=
  exists_ ← sys (IsWindow (from_u64 parent));
  if exists_ : bool then
    el ← sys (ElementFromHandle uia (from_u64 parent));
    mret match el with Some e => if e =? NULL then None else Some e | None => None end
  else mret None.

Definition inspect_ui_elements (parent : hwnd_u64) : Win (list UIElementInfo) :=
  uia ← sys CoCreateInstance_UIA;
  match uia with
  | None => mret []
  | Some uia =>
      root ← element_for uia parent;
      match root with
      | None => mret []
      | Some root =>
          cond ← sys (CreateTrueCondition uia);
          if cond =? NULL then mret [] else
          depth ← gets uia_depth_;
          walk_uia_tree (uia_levels depth) cond root
      end
  end.

Definition invoke_ui_element (hwnd : hwnd_u64) (automation_id : string) : Win bool :=
  uia ← sys CoCreateInstance_UIA;
  match uia with
  | None => mret false
  | Some uia =>
      root ← element_for uia hwnd;
      match root with
      | None => mret false
      | Some root =>
          cond ← sys (CreatePropertyCondition uia (wcs (widen automation_id)));
          target ← (if cond =? NULL then mret NULL else sys (FindFirstSubtree root cond));
          if target =? NULL then mret false else
          pattern ← sys (GetInvokePattern target);
          match pattern with
          | Some p => if p =? NULL then mret false else sys (Invoke p)
          | None => mret false
          end
      end
  end.

(** * Capabilities *)

Definition os_name (s : Win32 OS) : string :=
  if is_wine_ s then "windows (wine)"
  else if 22000 <=? win_build_ s then "windows 11"
  else if win_major_ s =? 10 then "windows 10" else "windows".

Definition health_key : wide := widen "Software\WinInspectHealthCheck".

Definition get_capabilities : Win Capabilities :=
  s ← get_st;
  wine_version ← (if is_wine_ s then
                    hntdll ← sys (GetModuleHandleW "ntdll.dll");
                    p ← sys (GetProcAddress hntdll "wine_get_version");
                    if p =? NULL then mret EmptyString else sys wine_get_version
                  else mret EmptyString);
  clipboard ← sys OpenClipboard;
  _ ← (if clipboard : bool then _ ← acquire AClipboard; close_clipboard else mret ());
  key ← sys (RegCreateKeyExW HKEY_CURRENT_USER health_key KEY_WRITE);
  _ ← match key with
      | Some h =>
          _ ← acquire (AKey h);
          _ ← close_key h;
          _ ← sys (RegDeleteKeyW HKEY_CURRENT_USER health_key);
          mret ()
      | None => mret ()
      end;
  uia ← sys CoCreateInstance_UIA;
  scm ← opened AService (OpenSCManagerW SC_MANAGER_CONNECT);
  _ ← (if scm =? NULL then mret () else close_service scm);
  pid ← sys GetCurrentProcessId;
  SafeHandle (OpenProcess PROCESS_VM_READ pid) (λ hSelf,
    injected ← sys (SendInput []);
    hdc ← opened AScreenDC GetDC;
    _ ← (if hdc =? NULL then mret () else closed AScreenDC (ReleaseDC hdc) hdc);
    mret {| caps_os := os_name s; caps_is_wine := is_wine_ s; caps_arch := "x64";
            caps_win_major := win_major_ s; caps_win_minor := win_minor_ s; caps_win_build := win_build_ s;
            caps_uia_available := bool_decide (uia ≠ None); caps_clipboard_available := clipboard;
            caps_registry_writable := bool_decide (key ≠ None);
            caps_service_manager := negb (scm =? NULL);
            caps_process_memory := SafeHandle_is_valid hSelf;
            caps_input_injection := injected =? 0;
            caps_window_highlight := negb (hdc =? NULL);
            caps_wine_version := wine_version |}).

Definition get_env_metadata : Win Object :=
  caps ← get_capabilities;
  let diag := map_of [("clipboard", JBool (caps_clipboard_available caps));
                      ("registry_write", JBool (caps_registry_writable caps));
                      ("uia_available", JBool (caps_uia_available caps));
                      ("service_manager", JBool (caps_service_manager caps));
                      ("process_memory", JBool (caps_process_memory caps));
                      ("input_injection", JBool (caps_input_injection caps));
                      ("window_highlight", JBool (caps_window_highlight caps))] in
  mret (map_of ([("os", JStr (caps_os caps)); ("is_wine", JBool (caps_is_wine caps));
                 ("win_major", num (caps_win_major caps)); ("win_minor", num (caps_win_minor caps));
                 ("win_build", num (caps_win_build caps)); ("arch", JStr (caps_arch caps))]
                ++ (if is_empty (caps_wine_version caps) then []
                    else [("wine_version", JStr (caps_wine_version caps))])
                ++ [("diagnostics", JObj diag)])).

(** * Events *)

Definition poll_events (old_snap new_snap : Snapshot) : Win (list Event) :=
  let o := sorted (snap_top old_snap) in
  let n := sorted (snap_top new_snap) in
  mret (((λ h, mkEvent 0 "window.created" h EmptyString) <$> set_difference n o)
        ++ ((λ h, mkEvent 0 "window.destroyed" h EmptyString) <$> set_difference o n)).

(** * Updates ([core/src/update.cpp]) *)

Definition open_http (open : Call Z) : Win Z := opened AnHttp open.
Definition close_http (h : Z) : Win () := closed AnHttp (WinHttpCloseHandle h) h.

(** [body += buf], which stops at a zero byte. *)
Definition https_get (host path : wide) : Win string :=
  hSession ← open_http WinHttpOpen;
  if hSession =? NULL then mret EmptyString else
  hConnect ← open_http (WinHttpConnect hSession host);
  if hConnect =? NULL then _ ← close_http hSession; mret EmptyString else
  hRequest ← open_http (WinHttpOpenRequest hConnect path);
  if hRequest =? NULL then _ ← close_http hConnect; _ ← close_http hSession; mret EmptyString else
  ok ← sys (WinHttpSendRequest hRequest);
  ok ← (if ok : bool then sys (WinHttpReceiveResponse hRequest) else mret false);
  body ← (if ok : bool then
            pieces ← sys (WinHttpReadChunks hRequest 4095);
            mret (foldl (λ body buf, body +:+ c_str buf) EmptyString pieces)
          else mret EmptyString);
  _ ← close_http hRequest; _ ← close_http hConnect; _ ← close_http hSession;
  mret body.

Definition check_for_update : Win UpdateInfo :=
  body ← https_get (widen "api.github.com") (widen "/repos/SemperSupra/WinInspect/releases/latest");
  lift_result (Update.check_for_update body WININSPECT_VERSION).

Fixpoint write_pieces (hFile : Z) (pieces : list string) : Win () :=
  match pieces with
  | [] => mret ()
  | p :: pieces => _ ← sys (WriteFile hFile p); write_pieces hFile pieces
  end.

(** The characters of a header, narrowed. *)
Fixpoint narrow (ws : wide) : string :=
  match ws with [] => EmptyString | w :: ws => String (chr (w mod 256)) (narrow ws) end.

Definition close_all (hRequest hConnect hSession : Z) : Win () :=
  _ ← close_http hRequest; _ ← close_http hConnect; _ ← close_http hSession; mret ().

(** One call of [download_to_file], [again] being the call for a redirect: the
    response is written to the file whatever its status, unless it is one. *)
Definition download_step (again : string → Win bool) (url : string) (outPath : wide) : Win bool :=
  match Update.parse_url url with
  | None => mret false
  | Some (host, path) =>
      hSession ← open_http WinHttpOpen;
      if hSession =? NULL then mret false else
      hConnect ← open_http (WinHttpConnect hSession (widen host));
      if hConnect =? NULL then _ ← close_http hSession; mret false else
      hRequest ← open_http (WinHttpOpenRequest hConnect (widen path));
      if hRequest =? NULL then _ ← close_http hConnect; _ ← close_http hSession; mret false else
      ok ← sys (WinHttpSendRequest hRequest);
      ok ← (if ok : bool then sys (WinHttpReceiveResponse hRequest) else mret false);
      if negb ok then _ ← close_all hRequest hConnect hSession; mret false else
      status ← sys (WinHttpStatusCode hRequest);
      let status := default 0 status in
      location ← (if (status =? 302) || (status =? 301) then sys (WinHttpLocation hRequest) else mret None);
      match location with
      | Some redirectUrl => _ ← close_all hRequest hConnect hSession; again (narrow redirectUrl)
      | None =>
          hFile ← sys (CreateFileForWriting outPath);
          if hFile =? INVALID_HANDLE_VALUE then _ ← close_all hRequest hConnect hSession; mret false else
          _ ← acquire (AHandle hFile);
          pieces ← sys (WinHttpReadChunks hRequest 8192);
          _ ← write_pieces hFile pieces;
          _ ← close_handle hFile;
          _ ← close_all hRequest hConnect hSession;
          mret true
      end
  end.

Fixpoint download_to_file (fuel : nat) (url : string) (outPath : wide) : Win bool :=
  download_step (λ u, match fuel with
                      | O => lift_result OutOfFuel
                      | S fuel => download_to_file fuel u outPath
                      end) url outPath.

Definition out_file (tempPath : wide) (version_tag type_hint : string) : wide :=
  if bool_decide (type_hint = "portable")
  then tempPath ++ widen "WinInspectPortable-" ++ widen version_tag ++ widen ".zip"
  else tempPath ++ widen "WinInspect-Installer-" ++ widen version_tag ++ widen ".exe".

Definition download_update (url type_hint : string) : Win string :=
  if is_empty url then mret EmptyString else
  tempPath ← sys GetTempPathW;
  match tempPath with
  | None => mret EmptyString
  | Some tempPath =>
      let outFile := out_file tempPath WININSPECT_VERSION type_hint in
      ok ← download_to_file redirect_fuel url outFile;
      if negb ok then mret EmptyString else sys (WideCharToMultiByte outFile)
  end.
End Ops.
End Win32Ops.

(** * The interface *)

#[export] Instance Win32_IBackend {OS} `{Windows OS} `{Fuel} `{Regex} : IBackend (Win32 OS) := {|
  set_config := Win32Ops.set_config;
  capture_snapshot := Win32Ops.capture_snapshot;
  list_top := Win32Ops.list_top;
  list_children := Win32Ops.list_children;
  get_info := Win32Ops.get_info;
  pick_at_point := Win32Ops.pick_at_point;
  get_window_tree := Win32Ops.get_window_tree;
  ensure_visible := Win32Ops.ensure_visible;
  ensure_foreground := Win32Ops.ensure_foreground;
  highlight_window := Win32Ops.highlight_window;
  set_property := Win32Ops.set_property;
  post_message := Win32Ops.post_message;
  send_input := Win32Ops.send_input;
  send_mouse_click := Win32Ops.send_mouse_click;
  send_key_press := Win32Ops.send_key_press;
  send_text := Win32Ops.send_text;
  control_click := Win32Ops.control_click;
  control_send := Win32Ops.control_send;
  get_pixel := Win32Ops.get_pixel;
  capture_screen := Win32Ops.capture_screen;
  pixel_search := Win32Ops.pixel_search;
  list_processes := Win32Ops.list_processes;
  kill_process := Win32Ops.kill_process;
  get_file_info := Win32Ops.get_file_info;
  read_file_content := Win32Ops.read_file_content;
  find_windows_regex := Win32Ops.find_windows_regex;
  reg_read := Win32Ops.reg_read;
  reg_write := Win32Ops.reg_write;
  reg_delete := Win32Ops.reg_delete;
  reg_subscribe := Win32Ops.reg_subscribe;
  clipboard_read := Win32Ops.clipboard_read;
  clipboard_write := Win32Ops.clipboard_write;
  service_list := Win32Ops.service_list;
  service_status := Win32Ops.service_status;
  service_control := Win32Ops.service_control;
  env_get_all := Win32Ops.env_get_all;
  env_set := Win32Ops.env_set;
  wine_get_drives := Win32Ops.wine_get_drives;
  wine_get_overrides := Win32Ops.wine_get_overrides;
  sync_check_mutex := Win32Ops.sync_check_mutex;
  sync_create_mutex := Win32Ops.sync_create_mutex;
  mem_read := Win32Ops.mem_read;
  mem_write := Win32Ops.mem_write;
  image_match := Win32Ops.image_match;
  input_hook_enable := Win32Ops.input_hook_enable;
  inspect_ui_elements := Win32Ops.inspect_ui_elements;
  invoke_ui_element := Win32Ops.invoke_ui_element;
  get_capabilities := Win32Ops.get_capabilities;
  get_env_metadata := Win32Ops.get_env_metadata;
  check_for_update := Win32Ops.check_for_update;
  download_update := Win32Ops.download_update;
  poll_events := Win32Ops.poll_events;
|}.
