(* ===== verification/Win32Sample.v ===== *)
(** A small operating system to run the Win32 backend on: what it answers by
    default, and answers of one's own in front of them. *)

From S2P Require Import Prelude CString Types Win32Api Win32.

Local Open Scope Z_scope.

Definition default_answer {A} (now : Z) (c : Call A) : A :=
  match c with
  | GetModuleHandleW _ => 0
  | GetProcAddress _ _ => 0
  | RtlGetVersion => None
  | wine_get_version => EmptyString
  | WideCharToMultiByte _ => EmptyString
  | MultiByteToWideChar _ => None
  | EnumWindows => [11; 12]
  | EnumChildWindows _ => []
  | IsWindow _ => true
  | GetParent _ => 0
  | GetWindow h cmd => if (h =? 11) && (cmd =? Win32Ops.GW_CHILD) then 12 else 0
  | GetDesktopWindow => 0
  | GetClassNameW _ _ => []
  | GetWindowTextLengthW _ => 0
  | GetWindowTextW _ _ => []
  | GetWindowRect _ => None
  | GetClientRect _ => None
  | ClientToScreen _ _ _ => None
  | GetWindowThreadProcessId _ => (0, None)
  | GetWindowLongPtrW _ _ => 0
  | IsWindowVisible _ => true
  | IsWindowEnabled _ => true
  | IsIconic _ => true
  | IsZoomed _ => true
  | WindowFromPoint _ _ => 0
  | ChildWindowFromPointEx _ _ _ _ => 0
  | GetForegroundWindow => 0
  | GetSystemMetrics _ => 1920
  | SetWindowLongPtrW _ _ _ => 0
  | SetWindowPos _ _ _ => true
  | SetLayeredWindowAttributes _ _ _ _ => true
  | ShowWindow _ _ => true
  | SetForegroundWindow _ => true
  | PostMessageW _ _ _ _ => true
  | SendInput _ => 0
  | GetDC => 5
  | ReleaseDC _ => tt
  | GetPixel _ _ _ => 0
  | CreatePen _ _ _ => 8
  | GetStockObject _ => 0
  | SelectObject _ _ => 0
  | Rectangle _ _ => true
  | InvalidateRect _ => true
  | UpdateWindow => true
  | DeleteObject _ => true
  | CreateCompatibleDC _ => 6
  | CreateCompatibleBitmap _ _ _ => 7
  | BitBlt _ _ _ _ _ _ => true
  | GetBitmap _ => None
  | GetDIBits _ _ _ _ => []
  | DeleteDC _ => true
  | OpenProcess _ _ => 20
  | QueryFullProcessImageNameW _ => None
  | TerminateProcess _ _ => true
  | GetCurrentProcessId => 0
  | GetTempPathW => None
  | CreateFileForWriting _ => 23
  | WriteFile _ _ => true
  | CreateToolhelp32Snapshot _ => 21
  | Process32Entries _ => []
  | CloseHandle _ => true
  | GetFileAttributesExW _ => None
  | CreateFileW _ => 22
  | GetFileSize _ => 0
  | ReadFile _ _ => EmptyString
  | ReadProcessMemory _ _ _ => None
  | WriteProcessMemory _ _ _ => true
  | OpenMutexW _ _ => 24
  | CreateMutexW _ _ => 25
  | GetLastError => 0
  | RegOpenKeyExW _ _ _ => Some 60
  | RegCreateKeyExW _ _ _ => Some 61
  | RegKeys _ => []
  | RegValues _ => []
  | RegSetValueExW _ _ _ _ => true
  | RegDeleteKeyW _ _ => true
  | RegDeleteValueW _ _ => true
  | RegCloseKey _ => tt
  | OpenClipboard => true
  | EmptyClipboard => true
  | GetClipboardData => 0
  | SetClipboardData _ => true
  | CloseClipboard => true
  | GlobalAlloc _ => 30
  | GlobalLock _ => 31
  | GlobalText _ => []
  | GlobalWrite _ _ => tt
  | GlobalUnlock _ => true
  | GlobalFree _ => 0
  | OpenSCManagerW _ => 40
  | OpenServiceW _ _ _ => 41
  | EnumServicesStatusExW _ _ => (false, 0, [])
  | QueryServiceStatusEx _ => None
  | StartServiceW _ => true
  | ControlService _ _ => true
  | CloseServiceHandle _ => true
  | GetEnvironmentStringsW => None
  | FreeEnvironmentStringsW => tt
  | SetEnvironmentVariableW _ _ => true
  | GetLogicalDrives => 0
  | GetDriveTypeW _ => 0
  | QueryDosDeviceW _ => None
  | CoCreateInstance_UIA => None
  | ElementFromHandle _ _ => None
  | CreateTrueCondition _ => 0
  | FindAllChildren _ _ => None
  | CurrentProperties _ => mkUIA_PROPS None None None None None None None
  | CreatePropertyCondition _ _ => 0
  | FindFirstSubtree _ _ => 0
  | GetInvokePattern _ => None
  | Invoke _ => true
  | WinHttpOpen => 50
  | WinHttpConnect _ _ => 51
  | WinHttpOpenRequest _ _ => 52
  | WinHttpSendRequest _ => true
  | WinHttpReceiveResponse _ => true
  | WinHttpStatusCode _ => None
  | WinHttpLocation _ => None
  | WinHttpReadChunks _ _ => []
  | WinHttpCloseHandle _ => true
  | SteadyNow => now
  | SleepMs _ => tt
  end.

(** Time in nanoseconds is all that changes. *)
Definition Sample : Type := Z.

Definition tick {A} (now : Z) (c : Call A) : Z :=
  match c with SleepMs ms => now + Z.max 0 ms * 1000000 | _ => now end.

Definition sample (answers : ∀ A, Call A → option A) : Windows Sample :=
  {| api A c now := (default (default_answer now c) (answers A c), tick now c) |}.

Definition no_answers : ∀ A, Call A → option A := λ _ _, None.

Definition sample_quiet : Windows Sample := sample no_answers.

Definition sample_fuel : Fuel := {| tree_fuel := 8; redirect_fuel := 3 |}.

(** Patterns that are texts to look for. *)
Definition sample_regex : Regex :=
  {| regex := string; regex_compile := Ok; regex_search p s := bool_decide (is_Some (str_find p s)) |}.

Definition sample_state : Win32 Sample := Win32Ops.Win32_initial 0.

