(* ===== verification/Win32Live.v ===== *)
(** The Win32 backend gives back what it opens and comes to an end: every
    operation, started with some resources open, ends with exactly those open,
    whether it returns or throws and whatever the system answers. *)

From S2P Require Import Prelude StdMap CString Double Json JsonTotal Base64 Types Update Logger Backend Core.
From S2P Require Import Hoare CoreProps Win32Api Win32 Win32Sample.

Local Open Scope Z_scope.

(** * What the loops need of the system *)

(** The trees of windows are finite and not too high ([rank]), servers do not
    redirect for ever ([hops]), and sleeping takes its time ([clock]). *)
Class LiveWindows (OS : Type) `{Windows OS} `{Fuel} := {
  os_ok : OS → Prop;
  rank : Z → nat;
  hops : OS → nat;
  clock : OS → Z;
  os_ok_api {A} (c : Call A) os : os_ok os → os_ok (api c os).2;
  rank_bound h : (rank h < tree_fuel)%nat;
  rank_window h cmd os : os_ok os → cmd = Win32Ops.GW_CHILD ∨ cmd = Win32Ops.GW_HWNDNEXT →
    let h' := (api (GetWindow h cmd) os).1 in h' ≠ NULL → (rank h' < rank h)%nat;
  hops_bound os : os_ok os → (hops os ≤ redirect_fuel)%nat;
  hops_api {A} (c : Call A) os : (hops (api c os).2 ≤ hops os)%nat;
  hops_location r os :
    (api (WinHttpLocation r) os).1 ≠ None → (hops (api (WinHttpLocation r) os).2 < hops os)%nat;
  clock_api {A} (c : Call A) os : clock os ≤ clock (api c os).2;
  clock_now os : clock os ≤ (api SteadyNow os).1 ≤ clock (api SteadyNow os).2;
  clock_sleep ms os : clock os + ms * 1000000 ≤ clock (api (SleepMs ms) os).2;
}.

(** * Rules *)

Section Rules.
Context {OS : Type} `{Windows OS} `{Fuel} `{Regex}.
(** An invariant of the system, and what follows from a loop that goes on. *)
Context (inv : OS → Prop) (F : Prop).
Hypothesis Hinv : ∀ A (c : Call A) os, inv os → inv (api c os).2.
Implicit Types (s : Win32 OS) (l : list Resource) (T : Prop).

(** The system is fine and exactly [l] is open. *)
Definition fine l s : Prop := inv (w_os s) ∧ w_owned s = l.

(** With [rs] open on top of what was, [m] closes [rs] and leaves the rest as it
    was; it throws only if [T], and has closed [rs] then too. *)
Definition pays T (rs : list Resource) {A} (m : M (Win32 OS) A) : Prop :=
  ∀ l, triple True F (fine (rs ++ l)) m (λ _, fine l) (λ s, T ∧ fine l s).

(** [m] leaves open what was. *)
Abbreviation steady T := (pays T []).

Lemma steady_ret T {A} (a : A) : steady T (mret a).
Proof. intros l. by apply hoare_ret. Qed.

Lemma steady_bind T {A C} (m : M (Win32 OS) A) (f : A → M (Win32 OS) C) :
  steady T m → (∀ a, steady T (f a)) → steady T (m ≫= f).
Proof. intros Hm Hf l. eapply hoare_bind; [apply Hm|]. intros ?. apply Hf. Qed.

(** A part that closes [rs'] and does not throw, before one that closes [rs]. *)
Lemma pays_bind T rs' rs {A C} (m : M (Win32 OS) A) (f : A → M (Win32 OS) C) :
  pays False rs' m → (∀ a, pays T rs (f a)) → pays T (rs' ++ rs) (m ≫= f).
Proof.
  intros Hm Hf l. rewrite <-(assoc_L _). eapply hoare_bind; [|intros ?; apply Hf].
  eapply hoare_weaken; [apply (Hm (rs ++ l))|done|done|]. by intros s [? _].
Qed.

Lemma pays_steady_bind T rs {A C} (m : M (Win32 OS) A) (f : A → M (Win32 OS) C) :
  steady False m → (∀ a, pays T rs (f a)) → pays T rs (m ≫= f).
Proof. apply (pays_bind T []). Qed.

Lemma steady_sys T {A} (c : Call A) : steady T (sys c).
Proof.
  intros l s [Hi Hl]. unfold sys. pose proof (Hinv A c (w_os s) Hi). by destruct (api c (w_os s)).
Qed.

Lemma steady_lift T {A} (r : result A) :
  match r with Throw _ => T | OutOfFuel => F | _ => True end → steady T (lift_result r : M (Win32 OS) A).
Proof. intros Hr l. apply hoare_lift. intros s Hs. by destruct r. Qed.

Lemma steady_int T z : steady T (lift_result (int_result z)).
Proof. apply steady_lift. unfold int_result. by destruct (_ && _). Qed.

Lemma pays_undef T rs {A} : pays T rs (lift_result Undef : M (Win32 OS) A).
Proof. intros l. by apply hoare_lift. Qed.

Lemma steady_gets T {A} (f : Win32 OS → A) : steady T (gets f).
Proof. intros l. by apply hoare_gets. Qed.

Lemma steady_get T : steady T get_st.
Proof. intros l. by apply hoare_get_st. Qed.

Lemma steady_modify T f :
  (∀ s, w_os (f s) = w_os s ∧ w_owned (f s) = w_owned s) → steady T (modify f).
Proof.
  intros Hf l. apply hoare_modify. intros s [Hi Hl]. destruct (Hf s) as [E1 E2].
  split; [by rewrite E1|by rewrite E2].
Qed.

Lemma steady_weaken T {A} (m : M (Win32 OS) A) : steady False m → steady T m.
Proof. intros Hm l. eapply hoare_weaken; [apply (Hm l)|done|done|]. by intros s [? _]. Qed.

(** ** Opening and closing *)

(** What [close] does to [r] and to nothing else. *)
Definition closes r (close : M (Win32 OS) ()) : Prop :=
  ∀ l, triple False False (fine (r :: l)) close (λ _, fine l) (λ _, False).

Lemma release_closes r : closes r (release r).
Proof.
  intros l s [Hi Hl]. split; [done|]. cbn. rewrite Hl. unfold give_back.
  rewrite bool_decide_eq_true_2 by by left. cbn. by rewrite bool_decide_eq_true_2.
Qed.

Lemma closes_sys {A} r close (c : Call A) : closes r close → closes r (_ ← close; _ ← sys c; mret ()).
Proof.
  intros Hc l s Hs. specialize (Hc l s Hs). unfold mbind, M_bind.
  destruct (close s) as [[[]| | |] s1]; try done. destruct Hc as [Hi Hl]. unfold sys.
  pose proof (Hinv A c (w_os s1) Hi). by destruct (api c (w_os s1)).
Qed.

Lemma pays_close T r rs close {A} (m : M (Win32 OS) A) :
  closes r close → pays T rs m → pays T (r :: rs) (_ ← close; m).
Proof.
  intros Hc Hm l s Hs. specialize (Hc (rs ++ l) s Hs). unfold mbind, M_bind.
  destruct (close s) as [[[]| | |] s']; try done. by apply Hm.
Qed.

Lemma pays_close_last T r close : closes r close → pays T [r] close.
Proof. intros Hc l s Hs. specialize (Hc l s Hs). by destruct (close s) as [[[]| | |] s']. Qed.

Lemma pays_acquire T r rs {A} (m : M (Win32 OS) A) : pays T (r :: rs) m → pays T rs (_ ← acquire r; m).
Proof.
  intros Hm l s [Hi Hl]. apply (Hm l). split; [done|]. cbn. by rewrite Hl.
Qed.

(** A resource that a scope closes. *)
Lemma steady_scope T {A} r close (m : M (Win32 OS) A) :
  closes r close → steady T m → steady T (_ ← acquire r; scope close m).
Proof.
  intros Hc Hm. apply pays_acquire. intros l s Hs. unfold scope. pose proof (Hm (r :: l) s Hs) as Hs1.
  destruct (m s) as [[a|w| |] s1]; try done.
  - pose proof (Hc l s1 Hs1) as Hs2. by destruct (close s1) as [[[]| | |] s2].
  - destruct Hs1 as [HT Hs1]. pose proof (Hc l s1 Hs1) as Hs2.
    by destruct (close s1) as [[[]| | |] s2].
Qed.

Lemma closes_handle h : closes (AHandle h) (close_handle h).
Proof. apply closes_sys, release_closes. Qed.
Lemma closes_service h : closes (AService h) (close_service h).
Proof. apply closes_sys, release_closes. Qed.
Lemma closes_clipboard : closes AClipboard Win32Ops.close_clipboard.
Proof. apply closes_sys, release_closes. Qed.
Lemma closes_key h : closes (AKey h) (close_key h).
Proof.
  intros l s Hs. pose proof (release_closes (AKey h) l s Hs) as [Hi Hl].
  unfold close_key, mbind, M_bind, release, modify, sys in *. cbv beta iota.
  match goal with |- context [api ?c ?o] => pose proof (Hinv _ c o Hi) end. by destruct (api _ _).
Qed.
Lemma closes_closed {A} (r : Z → Resource) (c : Call A) h : h ≠ NULL → closes (r h) (closed r c h).
Proof.
  intros Hh. unfold closed. rewrite (proj2 (Z.eqb_neq _ _) Hh). apply closes_sys, release_closes.
Qed.

Lemma steady_closed_null T {A} (r : Z → Resource) (c : Call A) : steady T (closed r c NULL).
Proof.
  apply steady_bind; [apply steady_ret|]. intros ?. apply steady_bind; [apply steady_sys|]. intros ?. apply steady_ret.
Qed.

Lemma steady_SafeHandle T {A} open (body : Z → M (Win32 OS) A) :
  (∀ h, steady T (body h)) → steady T (SafeHandle open body).
Proof.
  intros Hb. unfold SafeHandle. apply steady_bind; [apply steady_sys|]. intros h.
  destruct (SafeHandle_is_valid h); [|apply Hb]. apply steady_scope; [apply closes_handle|apply Hb].
Qed.

Lemma steady_HKey T {A} open (body : option Z → M (Win32 OS) A) :
  (∀ k, steady T (body k)) → steady T (HKey open body).
Proof.
  intros Hb. unfold HKey. apply steady_bind; [apply steady_sys|]. intros [h|]; [|apply Hb].
  destruct (HKey_closes h); [|apply Hb]. apply steady_scope; [apply closes_key|apply Hb].
Qed.

Lemma steady_ScHandle T {A} open (body : Z → M (Win32 OS) A) :
  (∀ h, steady T (body h)) → steady T (ScHandle open body).
Proof.
  intros Hb. unfold ScHandle. apply steady_bind; [apply steady_sys|]. intros h.
  destruct (ScHandle_is_valid h); [|apply Hb]. apply steady_scope; [apply closes_service|apply Hb].
Qed.

(** A resource that is opened by hand. *)
Lemma pays_opened T (r : Z → Resource) rs open {A} (f : Z → M (Win32 OS) A) :
  pays T rs (f NULL) → (∀ h, h ≠ NULL → pays T (r h :: rs) (f h)) → pays T rs (opened r open ≫= f).
Proof.
  intros H0' Hf l s [Hi Hl]. unfold opened, mbind, M_bind, sys.
  pose proof (Hinv _ open (w_os s) Hi) as Hi1. destruct (api open (w_os s)) as [h os]. cbv beta iota.
  destruct (Z.eqb_spec h NULL) as [->|Hh].
  - by apply H0'.
  - apply (Hf h Hh). split; [done|]. cbn. by rewrite Hl.
Qed.
End Rules.

(** Close the branches that a test of a handle excludes. *)
Ltac excluded :=
  solve [ match goal with
          | H : (?h =? NULL) = true, H' : ?h ≠ NULL |- _ => by apply Z.eqb_eq in H
          | H : (NULL =? NULL) = false |- _ => discriminate H
          end ].

(** Follow an operation: its calls, its scopes, and what it opens and closes by
    hand. *)
Ltac steady_step :=
  lazymatch goal with
  | |- pays _ _ _ [] (mret _) => apply steady_ret
  | |- pays _ _ _ [] (sys _) => apply steady_sys; assumption
  | |- pays _ _ _ [] (gets _) => apply steady_gets
  | |- pays _ _ _ [] get_st => apply steady_get
  | |- pays _ _ _ _ (lift_result Undef) => apply pays_undef
  | |- pays _ _ _ [] (lift_result (int_result _)) => apply steady_int
  | |- pays _ _ _ [] (lift_result (match ?x with _ => _ end)) => apply steady_lift; by destruct x
  | |- pays _ _ _ _ (lift_result _) => fail
  | |- pays _ _ _ _ (modify _) => fail
  | |- pays _ _ _ [] (SafeHandle _ _) => apply steady_SafeHandle; [assumption|intros ?]
  | |- pays _ _ _ [] (HKey _ _) => apply steady_HKey; [assumption|intros ?]
  | |- pays _ _ _ [] (ScHandle _ _) => apply steady_ScHandle; [assumption|intros ?]
  | |- pays _ _ _ _ (mbind _ (opened _ _)) => apply pays_opened; [assumption| |intros ? ?]
  | |- pays _ _ _ _ (mbind _ (Win32Ops.open_http _)) => apply pays_opened; [assumption| |intros ? ?]
  | |- pays _ _ _ _ (mbind _ (acquire _)) => apply pays_acquire
  | |- pays _ _ _ (_ :: _) (mbind _ (release _)) => apply pays_close; [apply release_closes|]
  | |- pays _ _ _ (_ :: _) (mbind _ (close_handle _)) => apply pays_close; [by apply closes_handle|]
  | |- pays _ _ _ (_ :: _) (mbind _ (close_service _)) => apply pays_close; [by apply closes_service|]
  | |- pays _ _ _ (_ :: _) (mbind _ (close_key _)) => apply pays_close; [by apply closes_key|]
  | |- pays _ _ _ (_ :: _) (mbind _ Win32Ops.close_clipboard) => apply pays_close; [by apply closes_clipboard|]
  | |- pays _ _ _ _ (mbind _ (closed _ _ NULL)) => apply pays_steady_bind; [by apply steady_closed_null|intros ?]
  | |- pays _ _ _ (_ :: _) (mbind _ (closed _ _ _)) => apply pays_close; [by apply closes_closed|]
  | |- pays _ _ _ (_ :: _) (mbind _ (Win32Ops.close_http _)) => apply pays_close; [by apply closes_closed|]
  | |- pays _ _ _ _ (mbind _ (Win32Ops.give_to_clipboard _ _)) => fail
  | |- pays _ _ _ (_ :: _) (mbind _ (if ?h =? NULL then _ else _)) => destruct (h =? NULL) eqn:?; try excluded
  | |- pays _ _ _ [] (mbind _ _) => apply steady_bind; [|intros ?]
  | |- pays _ _ _ (_ :: _) (mbind _ (lift_result Undef)) => fail
  | |- pays _ _ _ (_ :: _) (mbind _ _) => apply pays_steady_bind; [|intros ?]
  | |- pays _ _ _ _ (match ?x with _ => _ end) => destruct x eqn:?; try excluded
  | |- pays _ _ _ _ ?t => unfold_head t
  end.

(** * The operations *)

Section Operations.
Context {OS : Type} `{Windows OS} `{Fuel} `{Regex}.
Context (inv : OS → Prop) (F : Prop).
Hypothesis Hinv : ∀ A (c : Call A) os, inv os → inv (api c os).2.
Abbreviation steady T := (pays inv F T []).

Create HintDb win32.

Ltac go := repeat first [solve [auto with win32] | steady_step].

Lemma w2u8_steady T ws : steady T (Win32Ops.w2u8 ws).
Proof. go. Qed.
Lemma u82w_steady T text : steady T (Win32Ops.u82w text).
Proof. go. Qed.
Lemma title_of_steady T h : steady T (Win32Ops.title_of h).
Proof. go. Qed.
Lemma class_of_steady T h : steady T (Win32Ops.class_of h).
Proof. go. Qed.
Lemma image_path_steady T pid : steady T (Win32Ops.try_process_image_path pid).
Proof. go. Qed.
#[local] Hint Resolve w2u8_steady u82w_steady title_of_steady class_of_steady image_path_steady : win32.

Lemma capture_snapshot_steady : steady False Win32Ops.capture_snapshot.
Proof. go. Qed.
Lemma list_children_steady s p : steady False (Win32Ops.list_children s p).
Proof. go. Qed.
Lemma get_info_steady s h : steady False (Win32Ops.get_info s h).
Proof. go. Qed.
Lemma pick_steady s x y f : steady False (Win32Ops.pick_at_point s x y f).
Proof. go. Qed.
Lemma ensure_visible_steady h v : steady False (Win32Ops.ensure_visible h v).
Proof. go. Qed.
Lemma ensure_foreground_steady h : steady False (Win32Ops.ensure_foreground h).
Proof. go. Qed.
Lemma set_property_steady h n v : steady True (Win32Ops.set_property h n v).
Proof. go. apply steady_lift. unfold stoi. by repeat case_match. Qed.
Lemma blink_steady T n hdc r : steady T (Win32Ops.blink n hdc r).
Proof. induction n as [|n IH]; cbn [Win32Ops.blink]; [apply steady_ret|]. go. Qed.
#[local] Hint Resolve blink_steady : win32.
Lemma highlight_steady h : steady False (Win32Ops.highlight_window h).
Proof. go. Qed.

Lemma post_chars_steady T h ws : steady T (Win32Ops.post_chars h ws).
Proof. induction ws as [|c ws IH]; cbn [Win32Ops.post_chars]; go. Qed.
#[local] Hint Resolve post_chars_steady : win32.
Lemma control_click_steady h x y b : steady False (Win32Ops.control_click h x y b).
Proof. go. Qed.
Lemma control_send_steady h t : steady False (Win32Ops.control_send h t).
Proof. go. Qed.
Lemma post_message_steady h m w l : steady False (Win32Ops.post_message h m w l).
Proof. go. Qed.
Lemma send_inputs_steady T is' : steady T (Win32Ops.send_inputs is').
Proof. go. Qed.
#[local] Hint Resolve send_inputs_steady : win32.
Lemma send_input_steady d : steady False (Win32Ops.send_input d).
Proof. go. Qed.
Lemma normalize_steady T x sw : steady T (lift_result (Win32Ops.normalize x sw)).
Proof. apply steady_lift. unfold Win32Ops.normalize, int_result. by destruct (_ && _). Qed.
#[local] Hint Resolve normalize_steady : win32.
Lemma send_mouse_click_steady x y b : steady False (Win32Ops.send_mouse_click x y b).
Proof. go. Qed.
Lemma send_key_press_steady k : steady False (Win32Ops.send_key_press k).
Proof. go. Qed.
Lemma send_text_steady t : steady False (Win32Ops.send_text t).
Proof. go. Qed.

Lemma get_pixel_steady x y : steady False (Win32Ops.get_pixel x y).
Proof. go. Qed.
Lemma search_points_steady T hdc v t ps : steady T (Win32Ops.search_points hdc v t ps).
Proof. induction ps as [|[x y] ps IH]; cbn [Win32Ops.search_points]; go. Qed.
#[local] Hint Resolve search_points_steady : win32.
Lemma pixel_search_steady r c v : steady False (Win32Ops.pixel_search r c v).
Proof. go. Qed.
Lemma capture_screen_steady r : steady False (Win32Ops.capture_screen r).
Proof. go. Qed.

Lemma process_infos_steady T l : steady T (Win32Ops.process_infos l).
Proof. induction l as [|pe l IH]; cbn [Win32Ops.process_infos]; go. Qed.
#[local] Hint Resolve process_infos_steady : win32.
Lemma list_processes_steady : steady False Win32Ops.list_processes.
Proof. go. Qed.
Lemma kill_process_steady pid : steady False (Win32Ops.kill_process pid).
Proof. go. Qed.
Lemma get_file_info_steady p : steady False (Win32Ops.get_file_info p).
Proof. go. Qed.
Lemma read_file_steady p : steady False (Win32Ops.read_file_content p).
Proof. go. Qed.
Lemma matching_windows_steady T t c hs : steady T (Win32Ops.matching_windows t c hs).
Proof. induction hs as [|h hs IH]; cbn [Win32Ops.matching_windows]; go. Qed.
#[local] Hint Resolve matching_windows_steady : win32.

Lemma key_names_steady T l : steady T (Win32Ops.key_names l).
Proof. induction l as [|n l IH]; cbn [Win32Ops.key_names]; go. Qed.
Lemma reg_text_plain data : match reg_text data with Ok _ | Undef => True | _ => False end.
Proof.
  revert data. apply list_pair_ind; [done|done|]. intros a b l IH _. cbn [reg_text].
  destruct (_ =? 0); [done|]. unfold mbind, result_bind. by destruct (reg_text l).
Qed.
Lemma read_value_steady T v : steady T (Win32Ops.read_value v).
Proof.
  go.
  - apply steady_lift. pose proof (reg_text_plain (rvData v)). by destruct (reg_text _).
  - apply steady_lift. by destruct (rvData v) as [|? [|? [|? [|]]]].
Qed.
#[local] Hint Resolve key_names_steady read_value_steady : win32.
Lemma key_values_steady T l : steady T (Win32Ops.key_values l).
Proof. induction l as [|v l IH]; cbn [Win32Ops.key_values]; go. Qed.
#[local] Hint Resolve key_values_steady : win32.
Lemma reg_read_steady p : steady False (Win32Ops.reg_read p).
Proof. go. Qed.
#[local] Hint Resolve reg_read_steady : win32.
Lemma stoul_plain s : match stoul s with Ok _ | Throw _ => True | _ => False end.
Proof. unfold stoul. by repeat case_match. Qed.
Lemma reg_write_steady p v : steady True (Win32Ops.reg_write p v).
Proof.
  go. apply steady_lift. unfold Win32Ops.encode_value. destruct (bool_decide _); [done|].
  destruct (bool_decide _); [|done]. pose proof (stoul_plain (rv_data v)). by destruct (stoul _).
Qed.
Lemma reg_delete_steady p n : steady False (Win32Ops.reg_delete p n).
Proof. go. Qed.

Lemma clipboard_read_steady : steady False Win32Ops.clipboard_read.
Proof. go. Qed.
Lemma service_infos_steady T l : steady T (Win32Ops.service_infos l).
Proof. induction l as [|e l IH]; cbn [Win32Ops.service_infos]; go. Qed.
#[local] Hint Resolve service_infos_steady : win32.
Lemma service_list_steady : steady False Win32Ops.service_list.
Proof. go. Qed.
Lemma service_status_steady n : steady False (Win32Ops.service_status n).
Proof. go. Qed.

(** Each turn of the loop takes a character. *)
Lemma env_loop_steady T fuel curr : (length curr ≤ fuel)%nat → steady T (Win32Ops.env_loop fuel curr).
Proof.
  revert curr. induction fuel as [|fuel IH]; intros [|c curr] Hl; cbn [Win32Ops.env_loop]; try apply pays_undef;
    [simpl in Hl; lia|].
  destruct (c =? 0); [apply steady_ret|].
  assert (length (drop (S (length (wcs (c :: curr)))) (c :: curr)) ≤ fuel)%nat as Hd.
  { rewrite length_drop. simpl in *. lia. }
  specialize (IH _ Hd). go.
Qed.
Lemma env_get_all_steady : steady False Win32Ops.env_get_all.
Proof. go. by apply env_loop_steady. Qed.
Lemma env_set_steady n v : steady False (Win32Ops.env_set n v).
Proof. go. Qed.
Lemma drive_infos_steady T m l : steady T (Win32Ops.drive_infos m l).
Proof. induction l as [|i l IH]; cbn [Win32Ops.drive_infos]; go. Qed.
#[local] Hint Resolve drive_infos_steady : win32.
Lemma drives_steady : steady False Win32Ops.wine_get_drives.
Proof. go. Qed.
Lemma overrides_steady : steady False Win32Ops.wine_get_overrides.
Proof. go. Qed.
Lemma check_mutex_steady n : steady False (Win32Ops.sync_check_mutex n).
Proof. go. Qed.
Lemma create_mutex_steady n o : steady False (Win32Ops.sync_create_mutex n o).
Proof. go. Qed.
Lemma mem_read_steady p a n : steady False (Win32Ops.mem_read p a n).
Proof. go. Qed.
Lemma mem_write_steady p a d : steady False (Win32Ops.mem_write p a d).
Proof. go. Qed.

Lemma clipboard_write_steady t : steady False (Win32Ops.clipboard_write t).
Proof.
  go; [apply pays_steady_bind; [apply steady_ret|intros ?]; go|].
  apply (pays_bind _ _ False [AMemory h] [AClipboard]); [|intros ?]; go.
Qed.

(** A malformed pattern throws; the search itself always ends. *)
Class RegexEnds := regex_ends p : match regex_compile p with Ok _ | Throw _ => True | _ => False end.

Lemma find_regex_steady `{!RegexEnds} t c : steady True (Win32Ops.find_windows_regex t c).
Proof.
  go; apply steady_lift; [pose proof (regex_ends t)|pose proof (regex_ends c)]; by destruct (regex_compile _).
Qed.

Lemma opt_text_steady T o : steady T (Win32Ops.opt_text o).
Proof. go. Qed.
#[local] Hint Resolve opt_text_steady : win32.
Lemma element_info_steady T el : steady T (Win32Ops.get_element_info el).
Proof. go. Qed.
#[local] Hint Resolve element_info_steady : win32.
Lemma walk_steady T n cond root : steady T (Win32Ops.walk_uia_tree n cond root).
Proof.
  revert root. induction n as [|n IH]; intros root; cbn [Win32Ops.walk_uia_tree]; [apply steady_ret|].
  apply steady_bind; [by apply steady_sys|]. intros [nodes|]; [|apply steady_ret].
  induction nodes as [|[node|] nodes IHn]; [apply steady_ret| |exact IHn].
  apply steady_bind; [apply element_info_steady|intros info]. apply steady_bind; [apply IH|intros ch].
  apply steady_bind; [exact IHn|intros out]. apply steady_ret.
Qed.
#[local] Hint Resolve walk_steady : win32.
Lemma inspect_steady h : steady False (Win32Ops.inspect_ui_elements h).
Proof. go. Qed.
Lemma invoke_steady h i : steady False (Win32Ops.invoke_ui_element h i).
Proof. go. Qed.

Lemma capabilities_steady : steady False Win32Ops.get_capabilities.
Proof. go. Qed.
#[local] Hint Resolve capabilities_steady : win32.
Lemma env_metadata_steady : steady False Win32Ops.get_env_metadata.
Proof. go. Qed.

Lemma https_get_steady h p : steady False (Win32Ops.https_get h p).
Proof. go. Qed.

Lemma update_info_plain body v : match Update.check_for_update body v with Ok _ => True | _ => False end.
Proof.
  unfold Update.check_for_update. pose proof (json_parse_consumes body) as Hp.
  destruct (is_empty body); [done|]. destruct (json_parse body) as [[]|what| |]; try done.
  destruct (get_str _ _); [|done]. by destruct (_ || _).
Qed.
Lemma check_for_update_steady : steady False Win32Ops.check_for_update.
Proof.
  unfold Win32Ops.check_for_update. apply steady_bind; [apply https_get_steady|]. intros body.
  apply steady_lift. pose proof (update_info_plain body WININSPECT_VERSION). by destruct (Update.check_for_update _ _).
Qed.
Lemma config_number_steady c k f g :
  (∀ d, match f d with OutOfFuel => False | _ => True end) →
  (∀ n (s : Win32 OS), w_os (g n s) = w_os s ∧ w_owned (g n s) = w_owned s) →
  steady True (Win32Ops.config_number c k f g).
Proof.
  intros Hf Hg. go.
  - apply steady_lift. by destruct (_ : Value).
  - apply steady_lift. pose proof (Hf a). by destruct (f a).
  - by apply steady_modify.
Qed.
Lemma cast_range_ends lo hi d : match cast_range lo hi d with OutOfFuel => False | _ => True end.
Proof. unfold cast_range. by repeat case_match. Qed.
Lemma set_config_steady c : steady True (Win32Ops.set_config c).
Proof.
  unfold Win32Ops.set_config.
  repeat (apply steady_bind; [|intros ?]); apply config_number_steady; try done; intros d; apply cast_range_ends.
Qed.

Lemma ask_parents_steady T hs : steady T (Win32Ops.ask_parents hs).
Proof. induction hs as [|h hs IH]; cbn [Win32Ops.ask_parents]; go. Qed.
Lemma flat_nodes_steady T hs : steady T (Win32Ops.flat_nodes hs).
Proof. induction hs as [|h hs IH]; cbn [Win32Ops.flat_nodes]; go. Qed.
Lemma write_pieces_steady T h l : steady T (Win32Ops.write_pieces h l).
Proof. induction l as [|p l IH]; cbn [Win32Ops.write_pieces]; go. Qed.
End Operations.

(** * The loops that the system drives *)

Section Loops.
Context {OS : Type} `{Windows OS} `{Fuel} `{Regex}.
Implicit Types (inv : OS → Prop) (F T : Prop).

Definition stable inv : Prop := ∀ A (c : Call A) os, inv os → inv (api c os).2.

(** A call, with what is known of its answer and of the system after it. *)
Lemma pays_call inv F T rs {A C} (c : Call A) (f : A → M (Win32 OS) C) :
  (∀ os, inv os → ∃ inv', inv' (api c os).2 ∧ (∀ o, inv' o → inv o) ∧ pays inv' F T rs (f (api c os).1)) →
  pays inv F T rs (sys c ≫= f).
Proof.
  intros Hc l s [Hi Hl]. unfold mbind, M_bind, sys.
  destruct (Hc (w_os s) Hi) as (inv' & Hi' & Hsub & Hf).
  destruct (api c (w_os s)) as [a os]. cbv beta iota.
  eapply hoare_weaken; [exact (Hf l)|done| | |by split].
  - intros _ s' [? ?]. split; auto.
  - intros s' [? [? ?]]. split; [done|]. split; auto.
Qed.

Lemma pays_mono inv inv' F T rs {A} (m : M (Win32 OS) A) :
  (∀ os, inv os → inv' os) → (∀ os, inv' os → inv os) → pays inv' F T rs m → pays inv F T rs m.
Proof.
  intros H1' H2' Hm l. eapply hoare_weaken; [exact (Hm l)|..].
  - intros s [? ?]. split; auto.
  - intros _ s [? ?]. split; auto.
  - intros s [? [? ?]]. split; [done|]. split; auto.
Qed.

(** ** Trees *)

Section Trees.
Context (inv : OS → Prop) (F : Prop) (Hinv : stable inv) (rk : Z → nat).
Hypothesis Hrk : ∀ h cmd os, inv os → cmd = Win32Ops.GW_CHILD ∨ cmd = Win32Ops.GW_HWNDNEXT →
  let h' := (api (GetWindow h cmd) os).1 in h' ≠ NULL → F ∨ (rk h' < rk h)%nat.

Lemma build_children_steady T fuel child :
  (child ≠ NULL → F ∨ (rk child < fuel)%nat) → pays inv F T [] (Win32Ops.build_children fuel child).
Proof.
  revert child. induction fuel as [|fuel IH]; intros child Hc; cbn [Win32Ops.build_children];
    (destruct (Z.eqb_spec child NULL) as [->|Hn]; [apply steady_ret|]).
  - apply steady_lift. destruct (Hc Hn); [done|lia].
  - assert (∀ cmd C (f : list WindowNode → M (Win32 OS) C),
      cmd = Win32Ops.GW_CHILD ∨ cmd = Win32Ops.GW_HWNDNEXT → (∀ ns, pays inv F T [] (f ns)) →
      pays inv F T [] (h ← sys (GetWindow child cmd); ns ← Win32Ops.build_children fuel h; f ns)) as Hstep.
    { intros cmd C f Hcmd Hf. apply pays_call. intros os Hos.
      exists inv. split; [by apply Hinv|]. split; [done|]. apply steady_bind; [|done]. apply IH. intros Hh'.
      destruct (Hc Hn) as [?|?]; [by left|]. destruct (Hrk child cmd os Hos Hcmd Hh'); [by left|right; lia]. }
    apply steady_bind; [by apply title_of_steady|]. intros title.
    apply steady_bind; [by apply class_of_steady|]. intros cls.
    apply Hstep; [by left|]. intros children. apply Hstep; [by right|]. intros siblings. apply steady_ret.
Qed.

Lemma get_window_tree_steady s root :
  F ∨ (∀ h, (rk h < tree_fuel)%nat) → pays inv F False [] (Win32Ops.get_window_tree s root).
Proof.
  intros Hf. unfold Win32Ops.get_window_tree. apply steady_bind.
  { destruct (root =? 0); [by apply steady_sys|apply steady_ret]. }
  intros r. apply steady_bind; [by apply steady_sys|]. intros hs.
  apply steady_bind; [by apply ask_parents_steady|]. intros ?. destruct (root =? 0).
  - apply steady_bind; [by apply steady_sys|]. intros ?. by apply flat_nodes_steady.
  - apply steady_bind; [|intros ?; apply steady_ret]. unfold Win32Ops.build_node.
    apply steady_bind; [by apply title_of_steady|]. intros title.
    apply steady_bind; [by apply class_of_steady|]. intros cls.
    apply steady_bind; [by apply steady_sys|]. intros first.
    apply steady_bind; [|intros ?; apply steady_ret]. apply build_children_steady.
    intros _. destruct Hf; [by left|by right].
Qed.
End Trees.

(** ** Redirects *)

Section Redirects.
Context (inv : OS → Prop) (F : Prop) (Hinv : stable inv) (hp : OS → nat).
Hypothesis Hhp : ∀ A (c : Call A) os, (hp (api c os).2 ≤ hp os)%nat.
Hypothesis Hlocation : ∀ r os,
  (api (WinHttpLocation r) os).1 ≠ None → F ∨ (hp (api (WinHttpLocation r) os).2 < hp os)%nat.

(** At most [n] redirects are left. *)
Definition redirects (n : nat) (os : OS) : Prop := inv os ∧ (F ∨ (hp os ≤ n)%nat).

Lemma redirects_stable n : stable (redirects n).
Proof.
  intros A c os [Hi Hn]. split; [by apply Hinv|]. pose proof (Hhp A c os). destruct Hn; [by left|right; lia].
Qed.

(** What follows the answer to a redirect. *)
Lemma redirect_steady T n r rs {A} (f : option wide → M (Win32 OS) A) :
  pays (redirects n) F T rs (f None) →
  (∀ u, F ∨ (0 < n)%nat → pays (redirects (pred n)) F T rs (f (Some u))) →
  pays (redirects n) F T rs (sys (WinHttpLocation r) ≫= f).
Proof.
  intros Hnone Hsome. apply pays_call. intros os Hos. destruct (api (WinHttpLocation r) os).1 as [u|] eqn:E.
  - pose proof (Hlocation r os) as Hlt. rewrite E in Hlt.
    exists (redirects (pred n)). destruct Hos as [Hi Hn]. split; [|split].
    + split; [by apply Hinv|]. destruct Hn as [?|?]; [by left|]. destruct (Hlt ltac:(done)) as [?|?]; [by left|right; lia].
    + intros o [? [?|?]]; (split; [done|]); [by left|right; lia].
    + apply Hsome. destruct Hn as [?|?]; [by left|]. destruct (Hlt ltac:(done)) as [?|?]; [by left|right; lia].
  - exists (redirects n). split; [by apply redirects_stable|]. by split.
Qed.

Lemma close_all_pays T n hr hc hs {A} (m : M (Win32 OS) A) :
  hr ≠ NULL → hc ≠ NULL → hs ≠ NULL → pays (redirects n) F T [] m →
  pays (redirects n) F T [AnHttp hr; AnHttp hc; AnHttp hs] (_ ← Win32Ops.close_all hr hc hs; m).
Proof.
  intros ? ? ? Hm. pose proof (redirects_stable n) as Hst.
  apply (pays_bind _ _ T [AnHttp hr; AnHttp hc; AnHttp hs] []); [|by intros ?].
  unfold Win32Ops.close_all. repeat steady_step.
Qed.

(** The response is written to a file. *)
Lemma save_steady n hr hc hs out : hr ≠ NULL → hc ≠ NULL → hs ≠ NULL →
  pays (redirects n) F False [AnHttp hr; AnHttp hc; AnHttp hs]
    (hFile ← sys (CreateFileForWriting out);
     if hFile =? INVALID_HANDLE_VALUE then _ ← Win32Ops.close_all hr hc hs; mret false else
     _ ← acquire (AHandle hFile);
     pieces ← sys (WinHttpReadChunks hr 8192);
     _ ← Win32Ops.write_pieces hFile pieces;
     _ ← close_handle hFile;
     _ ← Win32Ops.close_all hr hc hs;
     mret true).
Proof.
  intros ? ? ?. pose proof (redirects_stable n) as Hst.
  repeat first [apply close_all_pays; [done..|] | apply write_pieces_steady; assumption | steady_step].
Qed.

Lemma download_step_steady fuel again url out :
  (F ∨ (0 < fuel)%nat → ∀ u, pays (redirects (pred fuel)) F False [] (again u)) →
  pays (redirects fuel) F False [] (Win32Ops.download_step again url out).
Proof.
  intros Ha. unfold Win32Ops.download_step.
  destruct (parse_url url) as [[host path]|]; [|apply steady_ret].
  pose proof (redirects_stable fuel) as Hst.
  repeat first [ apply close_all_pays; [done..|]
               | lazymatch goal with
                 | |- pays _ _ _ _ (mbind _ (if _ then sys (WinHttpLocation _) else _)) => destruct (_ || _)
                 | |- pays _ _ _ _ (mbind _ (sys (WinHttpLocation _))) => apply redirect_steady; [|intros u Hu]
                 | |- pays _ _ _ _ (mbind _ (mret None)) => by apply save_steady
                 end
               | by apply save_steady | by apply Ha | steady_step ].
Qed.

Lemma download_steady fuel url out :
  pays (redirects fuel) F False [] (Win32Ops.download_to_file fuel url out).
Proof.
  revert url. induction fuel as [|fuel IH]; intros url; cbn [Win32Ops.download_to_file];
    apply download_step_steady; [|done].
  intros [?|?] ?; [by apply steady_lift|lia].
Qed.

Lemma download_update_steady url hint :
  (∀ os, inv os → F ∨ (hp os ≤ redirect_fuel)%nat) →
  pays inv F False [] (Win32Ops.download_update url hint).
Proof.
  intros Hb. unfold Win32Ops.download_update. destruct (is_empty url); [apply steady_ret|].
  apply steady_bind; [by apply steady_sys|]. intros [tmp|]; [|apply steady_ret].
  apply steady_bind; [|intros []; [by apply steady_sys|apply steady_ret]].
  apply (pays_mono _ (redirects redirect_fuel)); [by split; auto|by intros ? [? _]|]. apply download_steady.
Qed.
End Redirects.

(** ** Waiting for a service *)

Section Waiting.
Context (inv : OS → Prop) (F : Prop) (Hinv : stable inv) (clk : OS → Z).
Hypothesis Hclk : ∀ A (c : Call A) os, clk os ≤ clk (api c os).2.
Hypothesis Hnow : ∀ os, F ∨ clk os ≤ (api SteadyNow os).1 ≤ clk (api SteadyNow os).2.
Hypothesis Hsleep : ∀ ms os, F ∨ clk os + ms * 1000000 ≤ clk (api (SleepMs ms) os).2.

(** It is [c] or later. *)
Definition later (c : Z) (os : OS) : Prop := inv os ∧ (F ∨ c ≤ clk os).

Lemma later_stable c : stable (later c).
Proof.
  intros A x os [Hi Hc]. split; [by apply Hinv|]. pose proof (Hclk A x os). destruct Hc; [by left|right; lia].
Qed.

Lemma later_weaken c c' os : (F ∨ c ≤ c') → later c' os → later c os.
Proof. intros Hc [? Hl]. split; [done|]. destruct Hc, Hl; try (by left). right; lia. Qed.

Lemma now_steady T c rs {A} (f : Z → M (Win32 OS) A) :
  (∀ t, F ∨ c ≤ t → pays (later t) F T rs (f t)) → pays (later c) F T rs (sys SteadyNow ≫= f).
Proof.
  intros Hf. apply pays_call. intros os [Hi Hc]. pose proof (Hnow os) as Hn.
  assert (F ∨ c ≤ (api SteadyNow os).1) by (destruct Hc, Hn; try (by left); right; lia).
  exists (later (api SteadyNow os).1). split; [|split; [by intros o; apply later_weaken|by apply Hf]].
  split; [by apply Hinv|]. destruct Hn; [by left|right; lia].
Qed.

Lemma sleep_steady T c ms rs {A} (f : () → M (Win32 OS) A) :
  0 ≤ ms → (∀ u, pays (later (c + ms * 1000000)) F T rs (f u)) → pays (later c) F T rs (sys (SleepMs ms) ≫= f).
Proof.
  intros Hms Hf. apply pays_call. intros os [Hi Hc]. pose proof (Hsleep ms os) as Hs.
  exists (later (c + ms * 1000000)). split; [|split; [intros o; apply later_weaken; right; lia|apply Hf]].
  split; [by apply Hinv|]. destruct Hc, Hs; try (by left). right; lia.
Qed.

Lemma await_steady T fuel h target start timeout c :
  (F ∨ start ≤ c ∧ start + timeout * 1000000000 ≤ c + Z.of_nat fuel * 500000000) →
  pays (later c) F T [] (Win32Ops.await_state fuel h target start timeout).
Proof.
  revert c. induction fuel as [|fuel IH]; intros c Hf; cbn [Win32Ops.await_state]; apply now_steady; intros t Ht;
    (destruct (Z.leb_spec timeout (Win32Ops.seconds_since start t)) as [?|Hlt]; [apply steady_ret|]).
  - apply steady_lift. destruct Hf as [?|Hf], Ht as [?|Ht]; try done. exfalso.
    unfold Win32Ops.seconds_since in Hlt. pose proof (Z.quot_le_lower_bound (t - start) 1000000000 timeout). lia.
  - apply steady_bind; [apply steady_sys, later_stable|]. intros state.
    destruct (bool_decide _); [apply steady_ret|].
    apply sleep_steady; [lia|]. intros _. apply IH. destruct Hf, Ht; try (by left). right. lia.
Qed.

Lemma service_control_steady name action : pays inv F False [] (Win32Ops.service_control name action).
Proof.
  unfold Win32Ops.service_control. apply steady_ScHandle; [done|]. intros scm.
  destruct (negb _); [apply steady_ret|]. apply steady_ScHandle; [done|]. intros svc.
  destruct (negb _); [apply steady_ret|]. apply steady_bind.
  { destruct (bool_decide _); [by apply steady_sys|]. destruct (bool_decide _); [by apply steady_sys|apply steady_ret]. }
  intros ok. destruct (negb ok); [apply steady_ret|]. apply pays_call. intros os Hos. pose proof (Hnow os) as Hn.
  exists (later (api SteadyNow os).1). split; [|split; [by intros o [? _]|]].
  { split; [by apply Hinv|]. destruct Hn; [by left|right; lia]. }
  apply steady_bind; [apply steady_gets|]. intros timeout. apply steady_bind; [|intros ?; apply steady_ret].
  apply await_steady. right. split; [done|]. unfold Win32Ops.await_fuel. lia.
Qed.
End Waiting.
End Loops.

(** * The sample system *)

#[export] Instance sample_regex_ends : RegexEnds (H1 := sample_regex).
Proof. by intros p. Qed.

#[export, refine] Instance sample_live : LiveWindows (H := sample_quiet) (H0 := sample_fuel) Sample :=
  {| os_ok _ := True; rank h := if h =? 11 then 1%nat else 0%nat; hops _ := 0%nat; clock now := now |}.
Proof.
  all: try done.
  - intros h. cbn. destruct (h =? 11); lia.
  - intros h cmd os _ _. cbn. destruct (Z.eqb_spec h 11) as [->|]; [|done].
    destruct (_ =? _); [|done]. intros _. cbn. lia.
  - intros os _. cbn. lia.
  - intros A c os. cbn. destruct c; cbn; lia.
  - intros ms os. cbn. lia.
Defined.
