(* ===== verification/Win32Safe.v ===== *)
(** The Win32 backend as a whole: each of its operations gives back what it
    opened, they end on a system whose loops do, and with them every request and
    every connection of the server. *)

From S2P Require Import Prelude StdMap CString Double Json Base64 Types Update Logger Backend FakeBackend Core.
From S2P Require Import Hoare CoreProps Live ServerState Server ServerStateProps ServerProps.
From S2P Require Import Win32Api Win32 Win32Sample Win32Live.

Local Open Scope Z_scope.

(** * The operations of a backend *)

(** The virtual functions of [IBackend] with their arguments. *)
Inductive Operation : Type → Type :=
| Op_set_config (a : Object) : Operation ()
| Op_capture_snapshot : Operation Snapshot
| Op_list_top (a : Snapshot) : Operation (list hwnd_u64)
| Op_list_children (a : Snapshot) (b : hwnd_u64) : Operation (list hwnd_u64)
| Op_get_info (a : Snapshot) (b : hwnd_u64) : Operation (option WindowInfo)
| Op_pick_at_point (a : Snapshot) (b : Z) (c : Z) (d : PickFlags) : Operation (option hwnd_u64)
| Op_get_window_tree (a : Snapshot) (b : hwnd_u64) : Operation (list WindowNode)
| Op_ensure_visible (a : hwnd_u64) (b : bool) : Operation EnsureResult
| Op_ensure_foreground (a : hwnd_u64) : Operation EnsureResult
| Op_highlight_window (a : hwnd_u64) : Operation bool
| Op_set_property (a : hwnd_u64) (b : string) (c : string) : Operation bool
| Op_post_message (a : hwnd_u64) (b : Z) (c : Z) (d : Z) : Operation bool
| Op_send_input (a : list Z) : Operation bool
| Op_send_mouse_click (a : Z) (b : Z) (c : Z) : Operation bool
| Op_send_key_press (a : Z) : Operation bool
| Op_send_text (a : string) : Operation bool
| Op_control_click (a : hwnd_u64) (b : Z) (c : Z) (d : Z) : Operation bool
| Op_control_send (a : hwnd_u64) (b : string) : Operation bool
| Op_get_pixel (a : Z) (b : Z) : Operation (option Color)
| Op_capture_screen (a : Rect) : Operation (option ScreenCapture)
| Op_pixel_search (a : Rect) (b : Color) (c : Z) : Operation (option (Z * Z))
| Op_list_processes : Operation (list ProcessInfo)
| Op_kill_process (a : Z) : Operation bool
| Op_get_file_info (a : string) : Operation (option FileInfo)
| Op_read_file_content (a : string) : Operation (option string)
| Op_find_windows_regex (a : string) (b : string) : Operation (list hwnd_u64)
| Op_reg_read (a : string) : Operation (option RegistryKeyInfo)
| Op_reg_write (a : string) (b : RegistryValue) : Operation bool
| Op_reg_delete (a : string) (b : string) : Operation bool
| Op_reg_subscribe (a : string) : Operation bool
| Op_clipboard_read : Operation (option string)
| Op_clipboard_write (a : string) : Operation bool
| Op_service_list : Operation (list ServiceInfo)
| Op_service_status (a : string) : Operation string
| Op_service_control (a : string) (b : string) : Operation bool
| Op_env_get_all : Operation (list EnvVar)
| Op_env_set (a : string) (b : string) : Operation bool
| Op_wine_get_drives : Operation (list DriveInfo)
| Op_wine_get_overrides : Operation (list string)
| Op_sync_check_mutex (a : string) : Operation bool
| Op_sync_create_mutex (a : string) (b : bool) : Operation bool
| Op_mem_read (a : Z) (b : Z) (c : Z) : Operation (option MemoryRegion)
| Op_mem_write (a : Z) (b : Z) (c : list Z) : Operation bool
| Op_image_match (a : Rect) (b : list Z) : Operation (option ImageMatchResult)
| Op_input_hook_enable (a : bool) : Operation bool
| Op_inspect_ui_elements (a : hwnd_u64) : Operation (list UIElementInfo)
| Op_invoke_ui_element (a : hwnd_u64) (b : string) : Operation bool
| Op_get_capabilities : Operation Capabilities
| Op_get_env_metadata : Operation Object
| Op_check_for_update : Operation UpdateInfo
| Op_download_update (a : string) (b : string) : Operation string
| Op_poll_events (a : Snapshot) (b : Snapshot) : Operation (list Event).

Definition perform {B} `{IBackend B} {A} (op : Operation A) : M B A :=
  match op with
  | Op_set_config a => set_config a
  | Op_capture_snapshot => capture_snapshot
  | Op_list_top a => list_top a
  | Op_list_children a b => list_children a b
  | Op_get_info a b => get_info a b
  | Op_pick_at_point a b c d => pick_at_point a b c d
  | Op_get_window_tree a b => get_window_tree a b
  | Op_ensure_visible a b => ensure_visible a b
  | Op_ensure_foreground a => ensure_foreground a
  | Op_highlight_window a => highlight_window a
  | Op_set_property a b c => set_property a b c
  | Op_post_message a b c d => post_message a b c d
  | Op_send_input a => send_input a
  | Op_send_mouse_click a b c => send_mouse_click a b c
  | Op_send_key_press a => send_key_press a
  | Op_send_text a => send_text a
  | Op_control_click a b c d => control_click a b c d
  | Op_control_send a b => control_send a b
  | Op_get_pixel a b => get_pixel a b
  | Op_capture_screen a => capture_screen a
  | Op_pixel_search a b c => pixel_search a b c
  | Op_list_processes => list_processes
  | Op_kill_process a => kill_process a
  | Op_get_file_info a => get_file_info a
  | Op_read_file_content a => read_file_content a
  | Op_find_windows_regex a b => find_windows_regex a b
  | Op_reg_read a => reg_read a
  | Op_reg_write a b => reg_write a b
  | Op_reg_delete a b => reg_delete a b
  | Op_reg_subscribe a => reg_subscribe a
  | Op_clipboard_read => clipboard_read
  | Op_clipboard_write a => clipboard_write a
  | Op_service_list => service_list
  | Op_service_status a => service_status a
  | Op_service_control a b => service_control a b
  | Op_env_get_all => env_get_all
  | Op_env_set a b => env_set a b
  | Op_wine_get_drives => wine_get_drives
  | Op_wine_get_overrides => wine_get_overrides
  | Op_sync_check_mutex a => sync_check_mutex a
  | Op_sync_create_mutex a b => sync_create_mutex a b
  | Op_mem_read a b c => mem_read a b c
  | Op_mem_write a b c => mem_write a b c
  | Op_image_match a b => image_match a b
  | Op_input_hook_enable a => input_hook_enable a
  | Op_inspect_ui_elements a => inspect_ui_elements a
  | Op_invoke_ui_element a b => invoke_ui_element a b
  | Op_get_capabilities => get_capabilities
  | Op_get_env_metadata => get_env_metadata
  | Op_check_for_update => check_for_update
  | Op_download_update a b => download_update a b
  | Op_poll_events a b => poll_events a b
  end.

(** * Every operation *)

Section Every.
Context {OS : Type} `{Windows OS} `{Fuel} `{Regex} `{!RegexEnds}.
Context (inv : OS → Prop) (F : Prop) (Hinv : stable inv) (rk : Z → nat) (hp : OS → nat) (clk : OS → Z).

(** What the loops need, unless [F]. *)
Record loop_laws : Prop := {
  ll_rank_bound : F ∨ (∀ h, (rk h < tree_fuel)%nat);
  ll_rank h cmd os : inv os → cmd = Win32Ops.GW_CHILD ∨ cmd = Win32Ops.GW_HWNDNEXT →
    let h' := (api (GetWindow h cmd) os).1 in h' ≠ NULL → F ∨ (rk h' < rk h)%nat;
  ll_hops_bound os : inv os → F ∨ (hp os ≤ redirect_fuel)%nat;
  ll_hops A (c : Call A) os : (hp (api c os).2 ≤ hp os)%nat;
  ll_location r os :
    (api (WinHttpLocation r) os).1 ≠ None → F ∨ (hp (api (WinHttpLocation r) os).2 < hp os)%nat;
  ll_clock A (c : Call A) os : clk os ≤ clk (api c os).2;
  ll_now os : F ∨ clk os ≤ (api SteadyNow os).1 ≤ clk (api SteadyNow os).2;
  ll_sleep ms os : F ∨ clk os + ms * 1000000 ≤ clk (api (SleepMs ms) os).2 }.

Lemma may_throw {A} (m : M (Win32 OS) A) : pays inv F False [] m → pays inv F True [] m.
Proof. intros Hm l. eapply hoare_weaken; [exact (Hm l)|done|done|]. by intros s [? _]. Qed.

Create HintDb win32ops.
#[local] Hint Resolve
  capture_snapshot_steady list_children_steady get_info_steady pick_steady ensure_visible_steady
  ensure_foreground_steady set_property_steady highlight_steady control_click_steady control_send_steady
  post_message_steady send_input_steady send_mouse_click_steady send_key_press_steady send_text_steady
  get_pixel_steady pixel_search_steady capture_screen_steady list_processes_steady kill_process_steady
  get_file_info_steady read_file_steady reg_read_steady reg_write_steady reg_delete_steady
  clipboard_read_steady service_list_steady service_status_steady env_get_all_steady env_set_steady
  drives_steady overrides_steady check_mutex_steady create_mutex_steady mem_read_steady mem_write_steady
  clipboard_write_steady find_regex_steady inspect_steady invoke_steady capabilities_steady
  env_metadata_steady check_for_update_steady set_config_steady : win32ops.

Lemma perform_steady (HL : loop_laws) A (op : Operation A) : pays inv F True [] (perform (B := Win32 OS) op).
Proof.
  destruct HL. destruct op; cbv beta iota delta
    [perform Win32_IBackend
     set_config capture_snapshot list_top list_children get_info pick_at_point get_window_tree
     ensure_visible ensure_foreground highlight_window set_property post_message send_input
     send_mouse_click send_key_press send_text control_click control_send get_pixel capture_screen
     pixel_search list_processes kill_process get_file_info read_file_content find_windows_regex reg_read
     reg_write reg_delete reg_subscribe clipboard_read clipboard_write service_list service_status
     service_control env_get_all env_set wine_get_drives wine_get_overrides sync_check_mutex
     sync_create_mutex mem_read mem_write image_match input_hook_enable inspect_ui_elements
     invoke_ui_element get_capabilities get_env_metadata check_for_update download_update poll_events].
  all: try solve [apply steady_ret | auto with win32ops | apply may_throw; auto with win32ops].
  - apply may_throw. by apply (get_window_tree_steady inv F Hinv rk).
  - apply may_throw. by apply (service_control_steady inv F Hinv clk).
  - apply may_throw. by apply (download_update_steady inv F Hinv hp).
Qed.
End Every.

(** * Whatever the system answers *)

Section AnySystem.
Context {OS : Type} `{Windows OS} `{Fuel} `{Regex} `{!RegexEnds}.

Lemma any_stable : stable (λ _ : OS, True).
Proof. by intros ?. Qed.

Lemma any_loop_laws : loop_laws (λ _ : OS, True) True (λ _, 0%nat) (λ _, 0%nat) (λ _, 0).
Proof. split; intros; first [by left | done]. Qed.

End AnySystem.

(** The number cannot be read while the key is open. *)
Definition bad_write : Operation bool := Op_reg_write "HKCU\Software\X" (mkRegistryValue "n" "DWORD" "many").


(** * A system whose loops end *)

Section LiveSystem.
Context {OS : Type} `{Windows OS} `{Fuel} `{Regex} `{!RegexEnds} `{!LiveWindows OS}.

Lemma live_loop_laws : loop_laws os_ok False rank hops clock.
Proof.
  split; intros.
  - right. apply rank_bound.
  - right. by eapply rank_window.
  - right. by apply hops_bound.
  - apply hops_api.
  - right. by apply hops_location.
  - apply clock_api.
  - right. apply clock_now.
  - right. apply clock_sleep.
Qed.

(** Nothing is open between operations. *)
Definition win32_live (s : Win32 OS) : Prop := fine os_ok [] s.

Lemma perform_lives {A} (op : Operation A) : lives True win32_live (perform op).
Proof.
  intros s Hs. pose proof (perform_steady _ _ (λ A, os_ok_api) _ _ _ live_loop_laws _ op [] s Hs) as Hp.
  destruct (perform op s) as [[a| | |] s']; try done. apply Hp.
Qed.

#[export] Instance Win32_live : LiveBackend (Win32 OS) := {|
  live := win32_live;
  backend_ub := True;
  set_config_live a := perform_lives (Op_set_config a);
  capture_snapshot_live := perform_lives Op_capture_snapshot;
  list_top_live a := perform_lives (Op_list_top a);
  list_children_live a b := perform_lives (Op_list_children a b);
  get_info_live a b := perform_lives (Op_get_info a b);
  pick_at_point_live a b c d := perform_lives (Op_pick_at_point a b c d);
  get_window_tree_live a b := perform_lives (Op_get_window_tree a b);
  ensure_visible_live a b := perform_lives (Op_ensure_visible a b);
  ensure_foreground_live a := perform_lives (Op_ensure_foreground a);
  highlight_window_live a := perform_lives (Op_highlight_window a);
  set_property_live a b c := perform_lives (Op_set_property a b c);
  post_message_live a b c d := perform_lives (Op_post_message a b c d);
  send_input_live a := perform_lives (Op_send_input a);
  send_mouse_click_live a b c := perform_lives (Op_send_mouse_click a b c);
  send_key_press_live a := perform_lives (Op_send_key_press a);
  send_text_live a := perform_lives (Op_send_text a);
  control_click_live a b c d := perform_lives (Op_control_click a b c d);
  control_send_live a b := perform_lives (Op_control_send a b);
  get_pixel_live a b := perform_lives (Op_get_pixel a b);
  capture_screen_live a := perform_lives (Op_capture_screen a);
  pixel_search_live a b c := perform_lives (Op_pixel_search a b c);
  list_processes_live := perform_lives Op_list_processes;
  kill_process_live a := perform_lives (Op_kill_process a);
  get_file_info_live a := perform_lives (Op_get_file_info a);
  read_file_content_live a := perform_lives (Op_read_file_content a);
  find_windows_regex_live a b := perform_lives (Op_find_windows_regex a b);
  reg_read_live a := perform_lives (Op_reg_read a);
  reg_write_live a b := perform_lives (Op_reg_write a b);
  reg_delete_live a b := perform_lives (Op_reg_delete a b);
  reg_subscribe_live a := perform_lives (Op_reg_subscribe a);
  clipboard_read_live := perform_lives Op_clipboard_read;
  clipboard_write_live a := perform_lives (Op_clipboard_write a);
  service_list_live := perform_lives Op_service_list;
  service_status_live a := perform_lives (Op_service_status a);
  service_control_live a b := perform_lives (Op_service_control a b);
  env_get_all_live := perform_lives Op_env_get_all;
  env_set_live a b := perform_lives (Op_env_set a b);
  wine_get_drives_live := perform_lives Op_wine_get_drives;
  wine_get_overrides_live := perform_lives Op_wine_get_overrides;
  sync_check_mutex_live a := perform_lives (Op_sync_check_mutex a);
  sync_create_mutex_live a b := perform_lives (Op_sync_create_mutex a b);
  mem_read_live a b c := perform_lives (Op_mem_read a b c);
  mem_write_live a b c := perform_lives (Op_mem_write a b c);
  image_match_live a b := perform_lives (Op_image_match a b);
  input_hook_enable_live a := perform_lives (Op_input_hook_enable a);
  inspect_ui_elements_live a := perform_lives (Op_inspect_ui_elements a);
  invoke_ui_element_live a b := perform_lives (Op_invoke_ui_element a b);
  get_capabilities_live := perform_lives Op_get_capabilities;
  get_env_metadata_live := perform_lives Op_get_env_metadata;
  check_for_update_live := perform_lives Op_check_for_update;
  download_update_live a b := perform_lives (Op_download_update a b);
  poll_events_live a b := perform_lives (Op_poll_events a b);
|}.
End LiveSystem.

(** * The server *)

Section Serving.
Context {OS : Type} `{Windows OS} `{Fuel} `{Regex} `{!RegexEnds} `{!LiveWindows OS} `{Clock} `{Watchdog}.

End Serving.

Definition sample_conn : Conn (Win32 Sample) :=
  mkConn (mkWorld sample_state Logger_init 0) (ServerState_init Limits_default) ClientSession_default EmptyString
    CoreResponse_default false.

(** Two windows are listed, and a tree is built. *)
Definition sample_messages : list string :=
  [request_text "1" "window.listTop" []; request_text "2" "window.getTree" [("hwnd", JStr "0x000000000000000B")]].

#[local] Existing Instances sample_quiet sample_fuel sample_regex test_clock test_watchdog.

