(* ===== verification/Win32Props.v ===== *)
(** What single operations of the Win32 backend compute. *)

From stdpp Require Import sorting.
From S2P Require Import Prelude StdMap CString Double Json Base64 Types Update Logger Backend Core.
From S2P Require Import Hoare CoreProps Win32Api Win32 Win32Sample Win32Live.

Local Open Scope Z_scope.

(** * Running an operation *)

Section Running.
Context {OS : Type} `{Windows OS}.

(** The state after a call, and after opening and closing by hand. *)
Definition called {A} (c : Call A) (s : Win32 OS) : Win32 OS := set_os (api c (w_os s)).2 s.
Definition answer {A} (c : Call A) (s : Win32 OS) : A := (api c (w_os s)).1.
Definition opens (r : Z → Resource) (c : Call Z) (s : Win32 OS) : Win32 OS :=
  if answer c s =? NULL then called c s else set_owned (r (answer c s) :: w_owned s) (called c s).
Definition closes_by {A} (r : Z → Resource) (c : Call A) (h : Z) (s : Win32 OS) : Win32 OS :=
  called c (if h =? NULL then s else set_owned (give_back (r h) (w_owned s)) s).

Lemma run_sys {A} (c : Call A) s : sys c s = (Ok (answer c s), called c s).
Proof. unfold sys, answer, called. by destruct (api c (w_os s)). Qed.
Lemma bind_sys {A C} (c : Call A) (f : A → M (Win32 OS) C) s : (sys c ≫= f) s = f (answer c s) (called c s).
Proof. unfold mbind, M_bind. by rewrite run_sys. Qed.
Lemma bind_opened {C} r (c : Call Z) (f : Z → M (Win32 OS) C) s :
  (opened r c ≫= f) s = f (answer c s) (opens r c s).
Proof.
  unfold opened, opens, mbind, M_bind. rewrite run_sys. by destruct (answer c s =? NULL).
Qed.
Lemma bind_closed {A C} r (c : Call A) h (f : () → M (Win32 OS) C) s :
  (closed r c h ≫= f) s = f () (closes_by r c h s).
Proof.
  unfold closed, closes_by, mbind, M_bind. destruct (h =? NULL); cbv beta iota; unfold release, modify, mret, M_ret;
    cbv beta iota; by rewrite run_sys.
Qed.

Lemma called_inv (inv : OS → Prop) {A} (c : Call A) s : stable inv → inv (w_os s) → inv (w_os (called c s)).
Proof. intros Hi Hs. by apply Hi. Qed.
Lemma opens_inv (inv : OS → Prop) r c s : stable inv → inv (w_os s) → inv (w_os (opens r c s)).
Proof. intros Hi Hs. unfold opens. by case_match; apply Hi. Qed.
Lemma closes_inv (inv : OS → Prop) {A} r (c : Call A) h s : stable inv → inv (w_os s) → inv (w_os (closes_by r c h s)).
Proof. intros Hi Hs. unfold closes_by. by case_match; apply Hi. Qed.
End Running.

(** What an operation returns, if it does, has [P]. *)
Section Returns.
Context {S : Type}.

Definition returns {A} (P : A → Prop) (m : M S A) : Prop := ∀ s, match m s with (Ok a, _) => P a | _ => True end.

Lemma returns_ret {A} (P : A → Prop) a : P a → returns P (mret a).
Proof. by intros Ha s. Qed.
Lemma returns_bind {A C} (P : C → Prop) (m : M S A) f : (∀ a, returns P (f a)) → returns P (m ≫= f).
Proof. intros Hf s. unfold mbind, M_bind. destruct (m s) as [[a| | |] s']; try done. apply Hf. Qed.
Lemma returns_bind_with {A C} (Q : A → Prop) (P : C → Prop) (m : M S A) f :
  returns Q m → (∀ a, Q a → returns P (f a)) → returns P (m ≫= f).
Proof.
  intros Hm Hf s. specialize (Hm s). unfold mbind, M_bind. destruct (m s) as [[a| | |] s']; try done. by apply Hf.
Qed.
Lemma returns_lift {A C} (P : C → Prop) (r : result A) (f : A → M S C) :
  (∀ a, r = Ok a → returns P (f a)) → returns P (lift_result r ≫= f).
Proof. intros Hf s. unfold mbind, M_bind, lift_result. destruct r as [a| | |]; try done. by apply Hf. Qed.
Lemma returns_undef {A} (P : A → Prop) : returns P (lift_result Undef : M S A).
Proof. done. Qed.
End Returns.

(** * Events *)

(** One difference and the other, on the first elements. *)
Lemma set_difference_step x a y b :
  set_difference (x :: a) (y :: b) =
    if x <? y then x :: set_difference a (y :: b)
    else if y <? x then set_difference (x :: a) b else set_difference a b.
Proof. done. Qed.

Lemma set_difference_nil_r a : set_difference a [] = a.
Proof. by destruct a. Qed.

(** Induction on two lists that are merged. *)
Lemma merge_ind (P : list Z → list Z → Prop) :
  (∀ b, P [] b) → (∀ a, P a []) →
  (∀ x a y b, x < y → P a (y :: b) → P (x :: a) (y :: b)) →
  (∀ x a y b, y < x → P (x :: a) b → P (x :: a) (y :: b)) →
  (∀ x a b, P a b → P (x :: a) (x :: b)) → ∀ a b, P a b.
Proof.
  intros Hl Hr Hlt Hgt Heq a. induction a as [|x a IHa]; [done|].
  intros b. induction b as [|y b IHb]; [done|].
  destruct (Z.lt_trichotomy x y) as [?|[<-|?]]; auto.
Qed.

(** The differences on the first elements, either way round. *)
Lemma set_difference_lt x a y b : x < y →
  set_difference (x :: a) (y :: b) = x :: set_difference a (y :: b) ∧
  set_difference (y :: b) (x :: a) = set_difference (y :: b) a.
Proof.
  intros ?. rewrite !set_difference_step.
  destruct (Z.ltb_spec x y), (Z.ltb_spec y x); try lia. done.
Qed.
Lemma set_difference_eq x a b : set_difference (x :: a) (x :: b) = set_difference a b.
Proof. rewrite set_difference_step. by rewrite Z.ltb_irrefl. Qed.

Lemma set_difference_balance a b : set_difference a b ++ b ≡ₚ set_difference b a ++ a.
Proof.
  revert a b. apply merge_ind.
  - intros b. by rewrite set_difference_nil_r, app_nil_r.
  - intros a. by rewrite set_difference_nil_r, app_nil_r.
  - intros x a y b [-> ->]%(set_difference_lt x a y b) IH. etrans; [apply perm_skip, IH|apply Permutation_middle].
  - intros x a y b [-> ->]%(set_difference_lt y b x a) IH. symmetry. etrans; [apply perm_skip; symmetry; apply IH|apply Permutation_middle].
  - intros x a b IH. by rewrite !set_difference_eq, <-!Permutation_middle, IH.
Qed.

Lemma set_difference_sub a b h : h ∈ set_difference a b → h ∈ a.
Proof.
  revert a b. refine (merge_ind _ _ _ _ _ _).
  - by intros b ?%elem_of_nil.
  - intros a. by rewrite set_difference_nil_r.
  - intros x a y b [-> _]%(set_difference_lt x a y b) IH. rewrite !elem_of_cons. tauto.
  - intros x a y b [_ ->]%(set_difference_lt y b x a) IH. done.
  - intros x a b IH. rewrite set_difference_eq, elem_of_cons. auto.
Qed.

Lemma set_difference_disjoint a b h :
  StronglySorted Z.le a → StronglySorted Z.le b → h ∈ set_difference a b → h ∉ set_difference b a.
Proof.
  revert a b. refine (merge_ind _ _ _ _ _ _).
  - by intros b _ _ ?%elem_of_nil.
  - intros a _ _ _ ?%elem_of_nil. done.
  - intros x a y b Hxy IH [Ha Hx]%StronglySorted_inv Hb. destruct (set_difference_lt x a y b Hxy) as [-> ->].
    intros [->|?]%elem_of_cons; [|by apply IH].
    intros [->|Hy]%set_difference_sub%elem_of_cons; [lia|].
    apply StronglySorted_inv in Hb as [_ Hb]. rewrite list.Forall_forall in Hb. specialize (Hb _ Hy). lia.
  - intros x a y b Hyx IH Ha [Hb Hy]%StronglySorted_inv. destruct (set_difference_lt y b x a Hyx) as [-> ->].
    intros Hh [->|?]%elem_of_cons; [|by eapply IH].
    apply set_difference_sub, elem_of_cons in Hh as [->|Hh]; [lia|].
    apply StronglySorted_inv in Ha as [_ Ha]. rewrite list.Forall_forall in Ha. specialize (Ha _ Hh). lia.
  - intros x a b IH [Ha _]%StronglySorted_inv [Hb _]%StronglySorted_inv. rewrite !set_difference_eq. auto.
Qed.

Lemma sorted_perm v : sorted v ≡ₚ v.
Proof. apply merge_sort_Permutation. Qed.
Lemma sorted_sorted v : StronglySorted Z.le (sorted v).
Proof. apply StronglySorted_merge_sort; apply _. Qed.

Definition created_event (h : hwnd_u64) : Event := mkEvent 0 "window.created" h EmptyString.
Definition destroyed_event (h : hwnd_u64) : Event := mkEvent 0 "window.destroyed" h EmptyString.

Section Polling.
Context {OS : Type} `{Windows OS} `{Fuel} `{Regex}.

(** C18: The events of a poll are exactly the difference of the two snapshots,
    for any order of the windows and with repetitions counted: the windows
    reported as created, added to the old snapshot, and those reported as
    destroyed, added to the new one, give the same windows, and no window is
    reported both ways.  Polling asks the system nothing and changes nothing. *)
Theorem poll_events_replay old_snap new_snap (s : Win32 OS) :
  ∃ created destroyed,
    Win32Ops.poll_events old_snap new_snap s
    = (Ok ((created_event <$> created) ++ (destroyed_event <$> destroyed)), s)
    ∧ snap_top old_snap ++ created ≡ₚ snap_top new_snap ++ destroyed
    ∧ (∀ h, h ∈ created → h ∉ destroyed).
Proof.
  exists (set_difference (sorted (snap_top new_snap)) (sorted (snap_top old_snap))),
    (set_difference (sorted (snap_top old_snap)) (sorted (snap_top new_snap))).
  split; [done|]. split.
  - rewrite <-(sorted_perm (snap_top old_snap)) at 1. rewrite <-(sorted_perm (snap_top new_snap)) at 2.
    by rewrite (comm (++)), set_difference_balance, (comm (++)).
  - intros h. apply set_difference_disjoint; apply sorted_sorted.
Qed.
End Polling.

(** * Window styles *)

(** Whether some entry of a table of names has this name and is selected. *)
Lemma elem_of_names (p : Z * string → bool) flags name :
  name ∈ (List.filter p flags).*2 ↔ existsb (λ f, String.eqb f.2 name && p f) flags = true.
Proof.
  induction flags as [|f flags IH]; [by rewrite elem_of_nil|]. cbn [List.filter existsb].
  rewrite orb_true_iff, andb_true_iff, String.eqb_eq, <-IH.
  destruct (p f); rewrite ?fmap_cons, ?elem_of_cons; naive_solver.
Qed.

Lemma has_bits_zero style : has_bits style 0 = true.
Proof. unfold has_bits. by rewrite Z.land_0_r. Qed.

(** The names of a window's styles leave out and add what they should not.
    No style at all is reported as [WS_HSCROLL]: a window with only a
    horizontal scroll bar is said to have a vertical one, since [WS_VSCROLL] is
    reported for either bit.  The three extended styles whose value is zero,
    [WS_EX_LEFT], [WS_EX_LTRREADING] and [WS_EX_RIGHTSCROLLBAR], are reported for
    every window, also together with the [WS_EX_RIGHT], [WS_EX_RTLREADING] and
    [WS_EX_LEFTSCROLLBAR] that they exclude. *)
Theorem style_names_wrong style exstyle :
  ("WS_HSCROLL" ∉ parse_ws style)
  ∧ ("WS_VSCROLL" ∈ parse_ws style ↔ has_bits style 0x00200000 = true ∨ has_bits style 0x00100000 = true)
  ∧ (Forall (λ n, n ∈ parse_ws_ex exstyle) ["WS_EX_LEFT"; "WS_EX_LTRREADING"; "WS_EX_RIGHTSCROLLBAR"])
  ∧ ("WS_EX_RIGHT" ∈ parse_ws_ex exstyle ↔ has_bits exstyle 0x00001000 = true).
Proof.
  unfold parse_ws, parse_ws_ex. rewrite !elem_of_app, !elem_of_names.
  assert (∀ n, n ≠ "WS_OVERLAPPED" → n ∉ (if style =? 0 then ["WS_OVERLAPPED"] else ([] : list string))) as Hov.
  { intros n Hn. destruct (style =? 0); [by intros ->%list_elem_of_singleton|by intros ?%elem_of_nil]. }
  pose proof (Hov "WS_HSCROLL" ltac:(done)). pose proof (Hov "WS_VSCROLL" ltac:(done)).
  rewrite !Forall_cons, !elem_of_names. unfold ws_flags, ws_ex_flags.
  cbn [existsb String.eqb Ascii.eqb Bool.eqb fst snd andb orb].
  rewrite !has_bits_zero.
  cbn [Z.eqb Pos.eqb negb]. rewrite !andb_true_r, !orb_false_r, orb_true_iff.
  split; [naive_solver|]. split; [naive_solver|]. split; [|done]. repeat (split; [done|]). constructor.
Qed.

(** * Clicking *)

(** [int_result] in its two cases. *)
Lemma int_result_ok z : - 2 ^ 31 ≤ z < 2 ^ 31 → int_result z = Ok z.
Proof. intros [? ?]. unfold int_result. by rewrite (proj2 (Z.leb_le _ _)), (proj2 (Z.ltb_lt _ _)). Qed.
Lemma int_result_undef z : 2 ^ 31 ≤ z → int_result z = Undef.
Proof. intros ?. unfold int_result. by rewrite (proj2 (Z.ltb_ge z _)), andb_false_r. Qed.

(** [nx] of 65535 parts is at the pixel [x] of [sw], less than a pixel before
    its start. *)
Definition at_pixel (nx x sw : Z) : Prop := 0 ≤ nx < 65535 ∧ x * 65535 - sw < nx * sw ≤ x * 65535.

Lemma normalize_ok x sw : 0 ≤ x < sw → x ≤ 32768 → ∃ nx, Win32Ops.normalize x sw = Ok nx ∧ at_pixel nx x sw.
Proof.
  intros Hx Hlt. unfold Win32Ops.normalize. rewrite int_result_ok by lia. eexists. split; [done|].
  rewrite Z.quot_div_nonneg by lia. unfold at_pixel. pose proof (Z.div_mod (x * 65535) sw ltac:(lia)).
  pose proof (Z.mod_pos_bound (x * 65535) sw ltac:(lia)).
  assert (0 ≤ x * 65535 / sw) by (apply Z.div_pos; lia).
  assert (x * 65535 / sw < 65535) by (apply Z.div_lt_upper_bound; lia). lia.
Qed.

Lemma normalize_undef x sw : 32768 < x → Win32Ops.normalize x sw = Undef.
Proof. intros ?. unfold Win32Ops.normalize. by rewrite int_result_undef by lia. Qed.

Section Clicking.
Context {OS : Type} `{Windows OS} `{Fuel} `{Regex}.

(** What is sent for a click at a normalized point. *)
Definition click_inputs (nx ny down up : Z) : list INPUT :=
  [MouseInput nx ny (Z.lor Win32Ops.ME_ABSOLUTE_MOVE down); MouseInput nx ny (Z.lor Win32Ops.ME_ABSOLUTE up)].

(** A click at a pixel of the screen sends a press and a release of the
    button at one point, in 65535ths of the screen, less than a pixel from the
    pixel's start, and nothing for an unknown button; that is so up to the
    pixel 32768 of either axis.  Beyond it, on a wider or higher screen, the
    product in [int] overflows: the behaviour is undefined. *)
Theorem mouse_click_point x y button (s : Win32 OS) sw os1 sh os2 :
  api (GetSystemMetrics Win32Ops.SM_CXSCREEN) (w_os s) = (sw, os1) →
  api (GetSystemMetrics Win32Ops.SM_CYSCREEN) os1 = (sh, os2) →
  0 ≤ x < sw → 0 ≤ y < sh →
  if (x <=? 32768) && (y <=? 32768) then
    ∃ nx ny, at_pixel nx x sw ∧ at_pixel ny y sh ∧
      Win32Ops.send_mouse_click x y button s =
      match Win32Ops.button_flags button with
      | Some (down, up) => Win32Ops.send_inputs (click_inputs nx ny down up) (set_os os2 s)
      | None => (Ok false, set_os os2 s)
      end
  else (Win32Ops.send_mouse_click x y button s).1 = Undef.
Proof.
  intros E1 E2 Hx Hy. unfold Win32Ops.send_mouse_click. rewrite !bind_sys. unfold answer, called. rewrite E1.
  cbn [w_os set_os fst snd]. rewrite E2. cbn [fst snd]. rewrite (proj2 (Z.eqb_neq sw 0)), (proj2 (Z.eqb_neq sh 0)) by lia.
  unfold mbind, M_bind, lift_result. destruct (Z.leb_spec x 32768) as [Hx'|Hx']; [|by rewrite normalize_undef].
  destruct (normalize_ok x sw Hx Hx') as (nx & -> & Hnx). cbv beta iota.
  destruct (Z.leb_spec y 32768) as [Hy'|Hy']; [|by rewrite normalize_undef].
  destruct (normalize_ok y sh Hy Hy') as (ny & -> & Hny). cbv beta iota.
  exists nx, ny. split; [done|]. split; [done|]. by destruct (Win32Ops.button_flags button) as [[down up]|].
Qed.
End Clicking.

Lemma mouse_click_point_witness :
  ∃ nx ny, at_pixel nx 960 1920 ∧ at_pixel ny 10 1920 ∧
    Win32Ops.send_mouse_click (H := sample_quiet) 960 10 1 sample_state
    = Win32Ops.send_inputs (H := sample_quiet) (click_inputs nx ny 8 16) sample_state.
Proof.
  exact (mouse_click_point (H := sample_quiet) 960 10 1 sample_state 1920 0 1920 0 eq_refl eq_refl
           ltac:(lia) ltac:(lia)).
Defined.

(** * Looking for a colour *)

(** Row by row, from left to right. *)
Definition before (p q : Z * Z) : Prop := p.2 < q.2 ∨ p.2 = q.2 ∧ p.1 < q.1.

Lemma seqZ_ascending m n : StronglySorted Z.lt (seqZ m n).
Proof.
  destruct (Z.lt_ge_cases n 0) as [?|Hn]; [rewrite seqZ_nil by lia; constructor|].
  revert m. pattern n. apply natlike_ind; [intros m; rewrite seqZ_nil by lia; constructor| |done].
  intros k Hk IH m. rewrite seqZ_cons by lia. constructor; rewrite Z.pred_succ; [done|].
  apply list.Forall_forall. intros z ?%elem_of_seqZ. lia.
Qed.

Lemma elem_of_points p r : p ∈ points r ↔ left r ≤ p.1 < right r ∧ top r ≤ p.2 < bottom r.
Proof.
  unfold points. rewrite list_elem_of_bind. destruct p as [x y]. split.
  - intros (y' & (x' & [= -> ->] & ?%elem_of_seqZ)%list_elem_of_fmap & ?%elem_of_seqZ). cbn. lia.
  - cbn. intros ?. exists y. split; [apply list_elem_of_fmap; exists x; split; [done|]|]; apply elem_of_seqZ; lia.
Qed.

Lemma points_ordered r : StronglySorted before (points r).
Proof.
  unfold points. pose proof (seqZ_ascending (top r) (bottom r - top r)) as Hy.
  induction (seqZ (top r) (bottom r - top r)) as [|y ys IH]; [constructor|].
  apply StronglySorted_inv in Hy as [Hys Hy]. cbn. apply StronglySorted_app_2; [|..|by apply IH].
  - intros p q (x & -> & _)%list_elem_of_fmap (y' & (x' & -> & _)%list_elem_of_fmap & Hy')%list_elem_of_bind.
    rewrite list.Forall_forall in Hy. left. by apply Hy.
  - eapply StronglySorted_fmap; [|apply seqZ_ascending]. intros x x' ?. by right.
Qed.

(** [find] on a list in order is the first of what it looks for. *)
Lemma find_first {A} (R : relation A) (f : A → bool) l : StronglySorted R l →
  match List.find f l with
  | Some a => a ∈ l ∧ f a = true ∧ ∀ a', a' ∈ l → f a' = true → a' = a ∨ R a a'
  | None => ∀ a', a' ∈ l → f a' = false
  end.
Proof.
  induction l as [|x l IH]; [by intros _ a' ?%elem_of_nil|].
  intros [Hl Hx]%StronglySorted_inv. cbn. destruct (f x) eqn:E.
  - rewrite list.Forall_forall in Hx. split; [by left|]. split; [done|].
    intros a' [->|?]%elem_of_cons _; [by left|right; by apply Hx].
  - specialize (IH Hl). destruct (List.find f l) as [a|].
    + destruct IH as (? & ? & Hm). split; [by right|]. split; [done|].
      intros a' [->|?]%elem_of_cons Ha'; [by rewrite E in Ha'|by apply Hm].
    + intros a' [->|?]%elem_of_cons; auto.
Qed.

Section Searching.
Context {OS : Type} `{Windows OS} `{Fuel} `{Regex}.
(** The screen does not change during the search, and can be read. *)
Context (inv : OS → Prop) (Hinv : stable inv) (screen : Z → Z → Z).
Hypothesis Hdc : ∀ os, inv os → (api GetDC os).1 ≠ NULL.
Hypothesis Hscreen : ∀ dc x y os, inv os → (api (GetPixel dc x y) os).1 = screen x y.

Definition matches (target : Color) (variation : Z) (p : Z * Z) : bool :=
  negb (screen p.1 p.2 =? CLR_INVALID) && close_to variation target (color_of (screen p.1 p.2)).

Lemma search_points_found hdc variation target ps (s : Win32 OS) : inv (w_os s) →
  ∃ s', Win32Ops.search_points hdc variation target ps s = (Ok (List.find (matches target variation) ps), s')
        ∧ inv (w_os s').
Proof.
  revert s. induction ps as [|[x y] ps IH]; intros s Hs; [by exists s|].
  cbn [Win32Ops.search_points List.find]. rewrite bind_sys. unfold answer. rewrite (Hscreen hdc x y _ Hs).
  change (negb _ && _) with (matches target variation (x, y)).
  destruct (matches target variation (x, y)); [eexists; split; [done|]|apply IH]; by apply (called_inv inv).
Qed.

End Searching.

(** One red pixel. *)
Definition one_pixel : ∀ A, Call A → option A :=
  λ A c, match c with GetPixel _ x y => Some (if (x =? 3) && (y =? 2) then 255 else 0) | _ => None end.

