(* ===== verification/Win32Codecs.v ===== *)
(** The formats that the Win32 backend reads and writes: registry values, the
    environment block, bitmap files. *)

From S2P Require Import Prelude StdMap CString Double Json JsonRoundtrip Base64 Types Update Logger Backend Core.
From S2P Require Import Win32Api Win32 Win32Sample Win32Live Win32Props.

Local Open Scope Z_scope.

(** * Text *)

(** Characters that UTF-16 text can hold besides its terminator. *)
Definition no_nul (ws : wide) : Prop := Forall (λ w, 0 < w < 2 ^ 16) ws.

Lemma wcs_all ws : no_nul ws → wcs ws = ws.
Proof.
  induction 1 as [|w ws Hw _ IH]; [done|]. cbn [wcs]. by rewrite (proj2 (Z.eqb_neq w 0)), IH by lia.
Qed.

Lemma wcs_app ws rest : no_nul ws → wcs (ws ++ 0 :: rest) = ws.
Proof.
  induction 1 as [|w ws Hw _ IH]; [done|]. cbn [app wcs]. by rewrite (proj2 (Z.eqb_neq w 0)), IH by lia.
Qed.

(** ASCII text without a zero byte. *)
Fixpoint plain_text (t : string) : bool :=
  match t with
  | EmptyString => true
  | String c t => (0 <? code c) && (code c <? 128) && plain_text t
  end.

Lemma widen_no_nul t : plain_text t = true → no_nul (widen t).
Proof.
  induction t as [|c t IH]; [constructor|]. cbn. intros [Hc Ht]%andb_true_iff.
  apply andb_true_iff in Hc as [?%Z.ltb_lt ?%Z.ltb_lt]. constructor; [|by apply IH].
  unfold widen_char. rewrite (proj2 (Z.ltb_lt _ _)) by done. lia.
Qed.

Lemma le_bytes_4 d : le_bytes 4 d = [d mod 256; d / 256 mod 256; d / 65536 mod 256; d / 16777216 mod 256].
Proof. unfold le_bytes. cbn. by rewrite Z.div_1_r. Qed.

(** * Registry values *)

Lemma reg_text_wide_bytes ws : no_nul ws → reg_text (wide_bytes ws) = Ok ws.
Proof.
  induction 1 as [|w ws Hw _ IH]; [done|]. unfold wide_bytes in *. cbn [app mbind list_bind reg_text] in *.
  rewrite (Z.mod_small (w / 256)) by (split; [apply Z.div_pos|apply Z.div_lt_upper_bound]; lia).
  replace (w mod 256 + 256 * (w / 256)) with w by (pose proof (Z.div_mod w 256); lia).
  rewrite (proj2 (Z.eqb_neq w 0)) by lia. by rewrite IH.
Qed.

Lemma reg_dword_le d : 0 ≤ d < 2 ^ 32 → reg_dword (le_bytes 4 d) = Ok d.
Proof.
  intros Hd. rewrite le_bytes_4. cbn [reg_dword]. f_equal.
  pose proof (Z.div_mod d 256). pose proof (Z.div_mod (d / 256) 256). pose proof (Z.div_mod (d / 256 / 256) 256).
  change 65536 with (256 * 256). change 16777216 with (256 * 256 * 256).
  rewrite <-!Z.div_div by lia.
  assert (0 ≤ d / 256 / 256 / 256 < 256) as Hs.
  { rewrite !Z.div_div by lia. split; [apply Z.div_pos|apply Z.div_lt_upper_bound]; lia. }
  rewrite (Z.mod_small _ _ Hs). lia.
Qed.

Lemma stoul_print d : 0 ≤ d < 2 ^ 32 → stoul (Z_to_string d) = Ok d.
Proof.
  intros Hd. unfold stoul. rewrite read_sign_Z, (proj2 (Z.ltb_ge d 0)) by lia. rewrite Z.abs_eq by lia.
  assert (head_is isdigit (print_base 10 d) = true) as ->.
  { destruct (print_base_head 10 d) as (x & r & Hx & ->); [lia..|].
    apply isdigit_dec_digit. rewrite dec_digit_char by lia. eauto. }
  pose proof (read_print_dec d "" ltac:(lia) eq_refl) as Hr. rewrite str_app_nil_r in Hr. rewrite Hr. cbn [fst].
  rewrite (proj2 (Z.ltb_lt _ _)) by lia. by rewrite Z.mod_small.
Qed.

(** A value that can be written and read back as it is. *)
Definition representable (val : RegistryValue) : Prop :=
  plain_text (rv_name val) = true
  ∧ (rv_type val = "SZ" ∧ plain_text (rv_data val) = true
     ∨ ∃ d, 0 ≤ d < 2 ^ 32 ∧ rv_type val = "DWORD" ∧ rv_data val = Z_to_string d).

Section Converting.
Context {OS : Type} `{Windows OS} `{Fuel} `{Regex}.
(** The conversion to UTF-8 is a function of the text. *)
Context (u8 : wide → string).
Hypothesis Hu8 : ∀ ws os, (api (WideCharToMultiByte ws) os).1 = u8 ws.

Definition converted (ws : wide) : string := if bool_decide (ws = []) then EmptyString else u8 ws.

Lemma bind_w2u8 {C} ws (f : string → M (Win32 OS) C) s :
  ∃ s', (Win32Ops.w2u8 ws ≫= f) s = f (converted ws) s'.
Proof.
  unfold Win32Ops.w2u8, converted. destruct (bool_decide _); [by exists s|].
  rewrite bind_sys. unfold answer. rewrite Hu8. by eexists.
Qed.

Section Registry.
(** ASCII text is converted to itself. *)
Hypothesis Hascii : ∀ t, plain_text t = true → u8 (widen t) = t.

Lemma converted_plain t : plain_text t = true → converted (widen t) = t.
Proof. intros Ht. unfold converted. destruct t as [|c t]; [done|]. by apply Hascii. Qed.

Lemma bind_plain {C} t (f : string → M (Win32 OS) C) s :
  plain_text t = true → ∃ s', (Win32Ops.w2u8 (wcs (widen t)) ≫= f) s = f t s'.
Proof.
  intros Ht. rewrite wcs_all by by apply widen_no_nul. destruct (bind_w2u8 (widen t) f s) as [s' ->].
  exists s'. by rewrite converted_plain.
Qed.

Lemma read_value_text name text (s : Win32 OS) : plain_text name = true → plain_text text = true →
  ∃ s', Win32Ops.read_value (mkREG_VALUE (widen name) Win32Ops.REG_SZ (wide_bytes (widen text))) s
        = (Ok (mkRegistryValue name "SZ" text), s').
Proof.
  intros Hn Ht. unfold Win32Ops.read_value. cbn [rvName rvType rvData].
  rewrite (reg_text_wide_bytes (widen text)) by by apply widen_no_nul.
  match goal with |- context [Win32Ops.w2u8 _ ≫= ?f] => destruct (bind_plain name f s Hn) as [s1 ->] end.
  destruct (bind_plain text (λ data, mret (mkRegistryValue name "SZ" data)) s1 Ht) as [s2 E].
  rewrite wcs_all in E by by apply widen_no_nul. by exists s2.
Qed.

Lemma read_value_number name d (s : Win32 OS) : plain_text name = true → 0 ≤ d < 2 ^ 32 →
  ∃ s', Win32Ops.read_value (mkREG_VALUE (widen name) Win32Ops.REG_DWORD (le_bytes 4 d)) s
        = (Ok (mkRegistryValue name "DWORD" (Z_to_string d)), s').
Proof.
  intros Hn Hd. unfold Win32Ops.read_value. cbn [rvName rvType rvData]. rewrite (reg_dword_le d Hd).
  match goal with |- context [Win32Ops.w2u8 _ ≫= ?f] => destruct (bind_plain name f s Hn) as [s1 ->] end.
  by exists s1.
Qed.

End Registry.

(** * The environment *)

(** An entry of the environment block, and the block. *)
Definition env_entry (e : wide * wide) : wide := e.1 ++ 61 :: e.2 ++ [0].
Definition env_block (es : list (wide * wide)) : wide := (es ≫= env_entry) ++ [0].

Definition entry_ok (e : wide * wide) : Prop := no_nul e.1 ∧ no_nul e.2 ∧ 61 ∉ e.1.

(** The entries that have a name: the others hold the current directories of
    drives. *)
Definition named (es : list (wide * wide)) : list EnvVar :=
  (λ e, mkEnvVar (converted e.1) (converted e.2)) <$> filter (λ e, e.1 ≠ []) es.

Lemma split_eq_entry name value : 61 ∉ name → Win32Ops.split_eq (name ++ 61 :: value) = Some (name, value).
Proof.
  induction name as [|w name IH]; [done|]. intros [Hw Hn]%not_elem_of_cons. cbn.
  by rewrite (proj2 (Z.eqb_neq w 61)), IH by done.
Qed.

Lemma entry_text e rest : entry_ok e → wcs (env_entry e ++ rest) = e.1 ++ 61 :: e.2.
Proof.
  intros (H1' & H2' & _). unfold env_entry. rewrite <-!app_assoc. cbn. rewrite <-app_assoc. cbn.
  rewrite app_comm_cons, app_assoc. apply wcs_app.
  apply Forall_app. split; [done|]. constructor; [lia|done].
Qed.

Lemma entry_head e rest : entry_ok e → ∃ c t, env_entry e ++ rest = c :: t ∧ c ≠ 0.
Proof.
  intros (Hn & _). destruct e as [[|w name] value]; [by eexists _, _|].
  apply Forall_cons in Hn as [? _]. eexists _, _. split; [done|lia].
Qed.

(** A turn of the loop. *)
Lemma env_loop_entry fuel e rest : entry_ok e →
  Win32Ops.env_loop (S fuel) (env_entry e ++ rest) =
    if bool_decide (e.1 = []) then Win32Ops.env_loop fuel rest else
    n ← Win32Ops.w2u8 e.1; v ← Win32Ops.w2u8 e.2; out ← Win32Ops.env_loop fuel rest;
    (mret (mkEnvVar n v :: out) : M (Win32 OS) _).
Proof.
  intros He. pose proof (entry_text e rest He) as Hw. destruct (entry_head e rest He) as (c & t & Ec & Hc).
  assert (drop (S (length (e.1 ++ 61 :: e.2))) (env_entry e ++ rest) = rest) as Hd.
  { apply drop_app_length'. unfold env_entry. rewrite !length_app. cbn. rewrite length_app. cbn. lia. }
  rewrite Ec in *. cbn [Win32Ops.env_loop]. rewrite (proj2 (Z.eqb_neq c 0) Hc), Hw, Hd.
  rewrite split_eq_entry by apply He. by destruct (e.1).
Qed.

Lemma env_loop_block es fuel (s : Win32 OS) :
  Forall entry_ok es → (length (env_block es) ≤ fuel)%nat →
  ∃ s', Win32Ops.env_loop fuel (env_block es) s = (Ok (named es), s').
Proof.
  revert fuel s. induction es as [|e es IH]; intros fuel s Hes Hf.
  { destruct fuel as [|fuel]; [cbn in Hf; lia|]. by exists s. }
  apply Forall_cons in Hes as [He Hes]. unfold env_block in *. cbn [mbind list_bind] in *.
  rewrite <-app_assoc in *. fold (env_block es) in *.
  destruct fuel as [|fuel]; [destruct (entry_head e (env_block es) He) as (c & t & Ec & _); rewrite Ec in Hf; cbn in Hf; lia|].
  rewrite env_loop_entry by done. unfold named. cbn [filter list_filter].
  assert (length (env_block es) ≤ fuel)%nat as Hl.
  { rewrite length_app in Hf. assert (1 ≤ length (env_entry e))%nat by (unfold env_entry; rewrite length_app; cbn; lia). lia. }
  destruct (decide (e.1 = [])) as [E|E].
  - rewrite bool_decide_eq_true_2, decide_False by first [done | intros Hne; by apply Hne]. by apply IH.
  - rewrite bool_decide_eq_false_2, decide_True by done.
    match goal with |- context [Win32Ops.w2u8 e.1 ≫= ?f] => destruct (bind_w2u8 e.1 f s) as [s1 ->] end.
    match goal with |- context [Win32Ops.w2u8 e.2 ≫= ?f] => destruct (bind_w2u8 e.2 f s1) as [s2 ->] end.
    unfold mbind, M_bind. destruct (IH fuel s2 Hes Hl) as [s3 ->]. by exists s3.
Qed.

(** The environment is read in full: from a block of entries, each a name,
    an equals sign and a value that may hold more of them, [env_get_all] returns
    exactly the variables with their values, in order, leaving out the entries
    without a name (the current directories of drives), and its loop ends with
    the block. *)
Theorem env_block_read es (s : Win32 OS) :
  answer GetEnvironmentStringsW s = Some (env_block es) → Forall entry_ok es →
  ∃ s', Win32Ops.env_get_all s = (Ok (named es), s').
Proof.
  intros Ha Hes. unfold Win32Ops.env_get_all. rewrite (bind_sys (A := option wide)), Ha. unfold mbind, M_bind.
  destruct (env_loop_block es (length (env_block es)) (called GetEnvironmentStringsW s) Hes ltac:(done)) as [s1 ->].
  rewrite run_sys. by eexists.
Qed.
End Converting.

(** UTF-8 of ASCII text. *)
Definition ascii_u8 (ws : wide) : string := Win32Ops.narrow ws.
Definition ascii_answers : ∀ A, Call A → option A :=
  λ A c, match c with WideCharToMultiByte ws => Some (ascii_u8 ws) | _ => None end.

Lemma ascii_u8_widen t : plain_text t = true → ascii_u8 (widen t) = t.
Proof.
  unfold ascii_u8. induction t as [|c t IH]; [done|]. cbn. intros [Hc Ht]%andb_true_iff.
  apply andb_true_iff in Hc as [?%Z.ltb_lt Hc]. rewrite IH by done. f_equal. unfold widen_char. rewrite Hc.
  apply Z.ltb_lt in Hc. rewrite Z.mod_small by lia. apply chr_code.
Qed.


(** A variable, a drive's directory and a value with equals signs. *)
Definition sample_env : list (wide * wide) :=
  [(widen "A", widen "1"); ([], widen "C:=C:\"); (widen "OPTS", widen "x=1;y=2")].

Definition env_answers : ∀ A, Call A → option A :=
  λ A c, match c with
         | WideCharToMultiByte ws => Some (ascii_u8 ws)
         | GetEnvironmentStringsW => Some (Some (env_block sample_env))
         | _ => None
         end.

Lemma env_block_read_witness :
  ∃ s', Win32Ops.env_get_all (H := sample env_answers) sample_state
        = (Ok [mkEnvVar "A" "1"; mkEnvVar "OPTS" "x=1;y=2"], s').
Proof.
  apply (env_block_read (H := sample env_answers) ascii_u8 ltac:(intros ws os; reflexivity) sample_env sample_state);
    [reflexivity|].
  repeat constructor; cbn; try lia; rewrite ?elem_of_cons, ?elem_of_nil; intros ?; naive_solver lia.
Defined.

(** * Bitmap files *)

(** A little-endian number, and the number in a field of a file. *)
Definition le_value (l : list Z) : Z := foldr (λ b v, b + 256 * v) 0 l.
Definition field_at (offset size : nat) (file : list Z) : Z := le_value (take size (drop offset file)).

Lemma le_bytes_S n z : le_bytes (S n) z = z mod 256 :: le_bytes n (z / 256).
Proof.
  unfold le_bytes. cbn [seq fmap list_fmap]. rewrite Z.div_1_r. f_equal.
  rewrite <-fmap_S_seq, <-list_fmap_compose. apply list_fmap_ext. intros _ i _. cbn [compose].
  rewrite Nat2Z.inj_succ, Z.pow_succ_r, Z.div_div by lia. done.
Qed.

Lemma le_value_bytes n z : le_value (le_bytes n z) = z mod 256 ^ Z.of_nat n.
Proof.
  revert z. induction n as [|n IH]; intros z; [by rewrite Z.mod_1_r|].
  rewrite le_bytes_S. cbn [le_value foldr]. change (foldr _ 0 ?l) with (le_value l). rewrite IH.
  rewrite Nat2Z.inj_succ, Z.pow_succ_r by lia. rewrite Z.rem_mul_r by lia. done.
Qed.

(** A bitmap file of [w] by [h] pixels of 24 bits. *)
Record bmp_file (w h : Z) (file : list Z) : Prop := {
  bmp_magic : take 2 file = [66; 77];
  bmp_size : field_at 2 4 file = Z.of_nat (length file);
  bmp_offset : field_at 10 4 file = 54;
  bmp_header : field_at 14 4 file = 40;
  bmp_width : field_at 18 4 file = w;
  bmp_height : field_at 22 4 file = h;
  bmp_planes : field_at 26 2 file = 1;
  bmp_bits : field_at 28 2 file = 24;
  bmp_pixels : 54 + dib_size w h ≤ Z.of_nat (length file) }.

Lemma bmp_file_ok w h size pixels :
  0 ≤ w < 2 ^ 32 → 0 ≤ h < 2 ^ 32 → 0 ≤ size < 2 ^ 32 → size = 54 + Z.of_nat (length pixels) →
  dib_size w h ≤ size - 54 → bmp_file w h (bmp_headers size w h ++ pixels).
Proof.
  intros Hw Hh Hs Hl Hd.
  assert (Z.of_nat (length (bmp_headers size w h ++ pixels)) = size) as Hlen by (rewrite length_app; cbn; lia).
  assert (∀ z, 0 ≤ z < 2 ^ 32 → le_value (le_bytes 4 z) = z) as H4.
  { intros z Hz. rewrite le_value_bytes. by apply Z.mod_small. }
  split; rewrite ?Hlen; try lia; try done.
  - exact (H4 size Hs).
  - exact (H4 w Hw).
  - exact (H4 h Hh).
Qed.

Section Capturing.
Context {OS : Type} `{Windows OS} `{Fuel} `{Regex}.
(** A bitmap has the size it was made with; [wb] bytes are one of its lines. *)
Context (region : Rect) (wb : Z).
Abbreviation w := (right region - left region).
Abbreviation h := (bottom region - top region).
Hypothesis Hbitmap : ∀ hbm os, (api (GetBitmap hbm) os).1 = Some (w, h, wb).
Hypothesis Hw : 0 < w < 2 ^ 31.
Hypothesis Hh : 0 < h < 2 ^ 31.
Hypothesis Hroom : 0 ≤ wb * h < 2 ^ 31.

Lemma answer_bitmap hbm s : answer (GetBitmap hbm) s = Some (w, h, wb).
Proof. apply Hbitmap. Qed.

End Capturing.

(** A screen of 32 bits per pixel. *)
Definition screen_answers : ∀ A, Call A → option A :=
  λ A c, match c with GetBitmap _ => Some (Some (3, 2, 12)) | _ => None end.

