(* ===== verification/Win32Effects.v ===== *)
(** What the Win32 backend makes the system do: desired-state actions, starting
    services, downloads. *)

From S2P Require Import Prelude StdMap CString Double Json Base64 Types Update Logger Backend Core.
From S2P Require Import Hoare Win32Api Win32 Win32Sample Win32Live Win32Props.

Local Open Scope Z_scope.

(** * Desired-state actions *)

(** A system that does what it is asked: looking at a window changes nothing,
    showing or hiding a window takes effect, and so does bringing it to the
    foreground. *)
Class ObedientWindows (OS : Type) `{Windows OS} := {
  is_window_quiet h os : (api (IsWindow h) os).2 = os;
  is_visible_quiet h os : (api (IsWindowVisible h) os).2 = os;
  get_foreground_quiet os : (api GetForegroundWindow os).2 = os;
  show_keeps h cmd os : (api (IsWindow h) (api (ShowWindow h cmd) os).2).1 = (api (IsWindow h) os).1;
  show_obeyed h (v : bool) os :
    (api (IsWindow h) os).1 = true →
    (api (IsWindowVisible h) (api (ShowWindow h (if v then Win32Ops.SW_SHOW else Win32Ops.SW_HIDE)) os).2).1 = v;
  foreground_keeps h os : (api (IsWindow h) (api (SetForegroundWindow h) os).2).1 = (api (IsWindow h) os).1;
  foreground_obeyed h os :
    (api (IsWindow h) os).1 = true → (api GetForegroundWindow (api (SetForegroundWindow h) os).2).1 = h;
}.

Section Obedient.
Context {OS : Type} `{Windows OS} `{Fuel} `{Regex} `{!ObedientWindows OS}.
Implicit Types (s : Win32 OS).

Lemma set_os_same s : set_os (w_os s) s = s.
Proof. by destruct s. Qed.

Lemma called_quiet {A} (c : Call A) s : (api c (w_os s)).2 = w_os s → called c s = s.
Proof. intros E. unfold called. by rewrite E, set_os_same. Qed.

(** The actions in closed form. *)
Lemma ensure_visible_run h v s :
  Win32Ops.ensure_visible h v s =
    if negb (answer (IsWindow h) s) || Bool.eqb (answer (IsWindowVisible h) s) v then (Ok (mkEnsureResult false), s)
    else (Ok (mkEnsureResult true), called (ShowWindow h (if v then Win32Ops.SW_SHOW else Win32Ops.SW_HIDE)) s).
Proof.
  unfold Win32Ops.ensure_visible. rewrite bind_sys, called_quiet by apply is_window_quiet.
  destruct (negb _); [done|]. rewrite bind_sys, called_quiet by apply is_visible_quiet.
  cbn [orb]. destruct (Bool.eqb _ _); [done|]. by rewrite bind_sys.
Qed.

Lemma ensure_foreground_run h s :
  Win32Ops.ensure_foreground h s =
    if negb (answer (IsWindow h) s) || (answer GetForegroundWindow s =? h) then (Ok (mkEnsureResult false), s)
    else (Ok (mkEnsureResult true), called (SetForegroundWindow h) s).
Proof.
  unfold Win32Ops.ensure_foreground. rewrite bind_sys, called_quiet by apply is_window_quiet.
  destruct (negb _); [done|]. rewrite bind_sys, called_quiet by apply get_foreground_quiet.
  cbn [orb]. destruct (_ =? _); [done|]. by rewrite bind_sys.
Qed.

Lemma shown h (v : bool) s : answer (IsWindow h) s = true →
  let s' := called (ShowWindow h (if v then Win32Ops.SW_SHOW else Win32Ops.SW_HIDE)) s in
  answer (IsWindow h) s' = true ∧ answer (IsWindowVisible h) s' = v.
Proof. intros Hw. split; [|by apply show_obeyed]. cbn. rewrite <-Hw. apply show_keeps. Qed.

Lemma in_front h s : answer (IsWindow h) s = true →
  let s' := called (SetForegroundWindow h) s in answer (IsWindow h) s' = true ∧ answer GetForegroundWindow s' = h.
Proof. intros Hw. split; [|by apply foreground_obeyed]. cbn. rewrite <-Hw. apply foreground_keeps. Qed.

(** The law of the interface that the engine's idempotence rests on. *)
#[export] Instance Win32_desired_state : DesiredStateLaws (Win32 OS).
Proof.
  split.
  - intros h v s r s'. change (ensure_visible h v) with (Win32Ops.ensure_visible (OS := OS) h v).
    rewrite ensure_visible_run. destruct (answer (IsWindow h) s) eqn:Ew.
    + destruct (Bool.eqb _ v) eqn:Ev; cbn [negb orb]; intros [= <- <-]; rewrite ensure_visible_run.
      * by rewrite Ew, Ev.
      * destruct (shown h v s Ew) as [-> ->]. by rewrite eqb_reflx.
    + intros [= <- <-]. by rewrite ensure_visible_run, Ew.
  - intros h s r s'. change (ensure_foreground h) with (Win32Ops.ensure_foreground (OS := OS) h).
    rewrite ensure_foreground_run. destruct (answer (IsWindow h) s) eqn:Ew.
    + destruct (_ =? h) eqn:Ef; cbn [negb orb]; intros [= <- <-]; rewrite ensure_foreground_run.
      * by rewrite Ew, Ef.
      * destruct (in_front h s Ew) as [-> ->]. by rewrite Z.eqb_refl.
    + intros [= <- <-]. by rewrite ensure_foreground_run, Ew.
Qed.

(** C32: On a system that does what it is asked, making a window visible or
    hidden and bringing it to the foreground reach the wanted state, report a
    change exactly when the window was not in it, and made again change nothing
    and say so. *)
Theorem win32_desired_state h v s :
  answer (IsWindow h) s = true →
  (∃ s', Win32Ops.ensure_visible h v s = (Ok (mkEnsureResult (negb (Bool.eqb (answer (IsWindowVisible h) s) v))), s')
         ∧ answer (IsWindowVisible h) s' = v ∧ Win32Ops.ensure_visible h v s' = (Ok (mkEnsureResult false), s'))
  ∧ (∃ s', Win32Ops.ensure_foreground h s = (Ok (mkEnsureResult (negb (answer GetForegroundWindow s =? h))), s')
           ∧ answer GetForegroundWindow s' = h ∧ Win32Ops.ensure_foreground h s' = (Ok (mkEnsureResult false), s')).
Proof.
  intros Ew. rewrite ensure_visible_run, ensure_foreground_run, Ew. cbn [negb orb]. split.
  - destruct (Bool.eqb _ v) eqn:Ev; (eexists; split; [done|]; rewrite ensure_visible_run).
    + rewrite Ew, Ev. by apply eqb_prop in Ev.
    + destruct (shown h v s Ew) as [-> ->]. by rewrite eqb_reflx.
  - destruct (_ =? h) eqn:Ef; (eexists; split; [done|]; rewrite ensure_foreground_run).
    + rewrite Ew, Ef. by apply Z.eqb_eq in Ef.
    + destruct (in_front h s Ew) as [-> ->]. by rewrite Z.eqb_refl.
Qed.
End Obedient.

(** A system with one window: whether it is visible, and the foreground window. *)
Definition Desk : Type := bool * Z.

Definition desk : Windows Desk :=
  {| api A c os :=
       match c in Call A return A * Desk with
       | IsWindow h => (h =? 7, os)
       | IsWindowVisible _ => (os.1, os)
       | GetForegroundWindow => (os.2, os)
       | ShowWindow _ cmd => (os.1, (negb (cmd =? 0), os.2))
       | SetForegroundWindow h => (true, (os.1, h))
       | c => (default_answer 0 c, os)
       end |}.

#[export] Instance desk_obedient : ObedientWindows (H := desk) Desk.
Proof. split; try done. intros h [] os; done. Qed.

Lemma win32_desired_state_witness :
  ∃ s', Win32Ops.ensure_visible (H := desk) 7 true (Win32Ops.Win32_initial (false, 3)) = (Ok (mkEnsureResult true), s')
        ∧ answer (H := desk) (IsWindowVisible 7) s' = true.
Proof.
  destruct (win32_desired_state (H := desk) 7 true (Win32Ops.Win32_initial (false, 3)) eq_refl)
    as [(s' & E & Hv & _) _].
  exists s'. split; [exact E|exact Hv].
Defined.

(** Whatever the system answers to the request, the change is reported. *)
Lemma foreground_unchecked {OS} `{Windows OS} h (s : Win32 OS) :
  answer (IsWindow h) s = true → answer GetForegroundWindow (called (IsWindow h) s) ≠ h →
  (Win32Ops.ensure_foreground h s).1 = Ok (mkEnsureResult true).
Proof.
  intros Ew Ef. unfold Win32Ops.ensure_foreground, from_u64. rewrite bind_sys, Ew. cbn [negb].
  rewrite bind_sys, (proj2 (Z.eqb_neq _ _) Ef). by rewrite bind_sys.
Qed.

(** * Starting a service *)

Section Starting.
Context {OS : Type} `{Windows OS} `{Fuel} `{Regex} `{!LiveWindows OS}.
Implicit Types (s : Win32 OS).

(** A handle that was opened to start a service cannot be asked for its state. *)
Definition start_only (svc : Z) : Prop :=
  ∃ scm name os, (api (OpenServiceW scm name Win32Ops.SERVICE_START) os).1 = svc.
Hypothesis Hblind : ∀ svc os, start_only svc → (api (QueryServiceStatusEx svc) os).1 = None.

Abbreviation now s := (clock (w_os s)).

Lemma now_called {A} (c : Call A) s : now s ≤ now (called c s).
Proof. apply clock_api. Qed.

Lemma now_asked s : now s ≤ answer SteadyNow s ≤ now (called SteadyNow s).
Proof. apply clock_now. Qed.

Lemma slept ms s : now s + ms * 1000000 ≤ now (called (SleepMs ms) s).
Proof. apply clock_sleep. Qed.
Lemma asked_blind svc s : start_only svc → answer (QueryServiceStatusEx svc) s = None.
Proof. apply Hblind. Qed.

(** The wait lasts to its end. *)
Lemma await_blind svc target start timeout fuel s :
  start_only svc → start ≤ now s → start + timeout * 1000000000 ≤ now s + Z.of_nat fuel * 500000000 →
  ∃ s', Win32Ops.await_state fuel svc target start timeout s = (Ok false, s')
        ∧ start + timeout * 1000000000 ≤ now s'.
Proof.
  intros Hsvc. revert s. induction fuel as [|fuel IH]; intros s Hs Hf; cbn [Win32Ops.await_state]; rewrite bind_sys;
    pose proof (now_asked s) as Hn;
    destruct (Z.leb_spec timeout (Win32Ops.seconds_since start (answer SteadyNow s))) as [Ht|Ht].
  1, 3: eexists; split; [done|]; unfold Win32Ops.seconds_since in Ht;
    pose proof (Z.quot_rem' (answer SteadyNow s - start) 1000000000);
    pose proof (Z.rem_bound_pos (answer SteadyNow s - start) 1000000000); lia.
  - exfalso. unfold Win32Ops.seconds_since in Ht.
    pose proof (Z.quot_le_lower_bound (answer SteadyNow s - start) 1000000000 timeout). lia.
  - rewrite bind_sys, (asked_blind svc _ Hsvc), bool_decide_eq_false_2 by done.
    rewrite bind_sys. set (s1 := called (QueryServiceStatusEx svc) (called SteadyNow s)).
    pose proof (slept 500 s1). pose proof (now_called (QueryServiceStatusEx svc) (called SteadyNow s)).
    unfold s1 in *. apply IH; lia.
Qed.

(** A scope over a service handle, from what its body returns. *)
Lemma run_ScHandle {A} (open : Call Z) (body : Z → M (Win32 OS) A) s (P : A → Win32 OS → Prop) :
  (∀ a s1 s2, P a s1 → now s1 ≤ now s2 → P a s2) →
  (∀ s0, now s ≤ now s0 → service_timeout_sec_ s0 = service_timeout_sec_ s →
     ∃ a s1, body (answer open s) s0 = (Ok a, s1) ∧ P a s1) →
  ∃ a s', ScHandle open body s = (Ok a, s') ∧ P a s'.
Proof.
  intros HP Hb. unfold ScHandle. rewrite bind_sys. destruct (ScHandle_is_valid (answer open s)); [|apply Hb; [apply clock_api|done]].
  unfold mbind, M_bind, acquire, modify, scope.
  match goal with |- context [body ?h ?s0] => destruct (Hb s0) as (a & s1 & E & Ha); [apply clock_api|done|] end.
  rewrite E. cbv beta iota.
  unfold close_service, release, modify, mbind, M_bind. rewrite run_sys. eexists a, _. split; [done|].
  apply (HP a s1); [done|]. apply clock_api.
Qed.

(** Starting a service takes the whole timeout: the handle is opened with the
    right to start the service and without the right to ask for its state, so
    that no poll ever sees it running.  [service_control] always returns, and
    when it reports that the service was started, the timeout has passed, even
    if the service was running at once; it reports so whether it is running or
    not. *)
Theorem service_start_waits name s :
  ∃ b s', Win32Ops.service_control name "start" s = (Ok b, s')
          ∧ (b = true → now s + service_timeout_sec_ s * 1000000000 ≤ now s').
Proof.
  unfold Win32Ops.service_control. rewrite bool_decide_eq_true_2 by done.
  assert (∀ (b : bool) (s1 s2 : Win32 OS) T, (b = true → T ≤ now s1) → now s1 ≤ now s2 → b = true → T ≤ now s2) as Hlater.
  { intros b s1 s2 T Hs1 Hle Hb. specialize (Hs1 Hb). lia. }
  apply run_ScHandle; [by intros b s1 s2; apply Hlater|]. intros s0 Hc0 Ht0. destruct (negb _); [by eexists _, _|].
  apply run_ScHandle; [by intros b s1 s2; apply Hlater|]. intros s1 Hc1 Ht1. destruct (negb _); [by eexists _, _|].
  rewrite bind_sys. destruct (negb _); [by eexists _, _|]. rewrite bind_sys.
  match goal with |- context [StartServiceW ?h] => set (svc := h); set (s2 := called (StartServiceW svc) s1) end.
  unfold gets, mbind, M_bind. cbv beta iota. pose proof (now_asked s2) as Hn. pose proof (now_called (StartServiceW svc) s1).
  destruct (await_blind svc Win32Ops.SERVICE_RUNNING (answer SteadyNow s2) (service_timeout_sec_ (called SteadyNow s2))
    (Win32Ops.await_fuel (service_timeout_sec_ (called SteadyNow s2))) (called SteadyNow s2)) as (s3 & -> & Hs3).
  - by eexists _, _, _.
  - lia.
  - unfold Win32Ops.await_fuel. lia.
  - eexists _, _. split; [done|]. intros _. change (service_timeout_sec_ (called SteadyNow s2)) with (service_timeout_sec_ s1) in Hs3.
    rewrite Ht1, Ht0 in Hs3. unfold s2 in *. lia.
Qed.
End Starting.

(** Thirty seconds on the sample system. *)
Lemma service_start_waits_witness :
  ∃ b s', Win32Ops.service_control (H := sample_quiet) "Spooler" "start" sample_state = (Ok b, s')
          ∧ b = true ∧ 30000000000 ≤ w_os s'.
Proof.
  destruct (service_start_waits (H := sample_quiet) (H0 := sample_fuel) ltac:(intros svc os _; reflexivity)
              "Spooler" sample_state) as (b & s' & E & Hb).
  exists b, s'. split; [exact E|]. vm_compute in E. injection E as <- <-. split; [reflexivity|exact (Hb eq_refl)].
Defined.

(** * Downloads *)

Section Downloading.
Context {OS : Type} `{Windows OS} `{Fuel} `{Regex}.
Implicit Types (s : Win32 OS).

(** The server answers every request with [status], and the file can be made. *)
Record serves (status : Z) : Prop := {
  sv_open s : answer WinHttpOpen s ≠ NULL;
  sv_connect h host s : answer (WinHttpConnect h host) s ≠ NULL;
  sv_request h path s : answer (WinHttpOpenRequest h path) s ≠ NULL;
  sv_send h s : answer (WinHttpSendRequest h) s = true;
  sv_receive h s : answer (WinHttpReceiveResponse h) s = true;
  sv_status h s : answer (WinHttpStatusCode h) s = Some status;
  sv_file path s : answer (CreateFileForWriting path) s ≠ INVALID_HANDLE_VALUE }.

Lemma run_write_pieces h pieces s : ∃ s', Win32Ops.write_pieces h pieces s = (Ok (), s').
Proof.
  revert s. induction pieces as [|p pieces IH]; intros s; [by exists s|].
  cbn [Win32Ops.write_pieces]. rewrite bind_sys. apply IH.
Qed.

Lemma run_close_all hr hc hs s : ∃ s', Win32Ops.close_all hr hc hs s = (Ok (), s').
Proof.
  unfold Win32Ops.close_all, Win32Ops.close_http. rewrite !bind_closed. by eexists.
Qed.

Lemma run_download status fuel url out s :
  serves status → status ≠ 301 → status ≠ 302 → parse_url url ≠ None →
  ∃ s', Win32Ops.download_to_file fuel url out s = (Ok true, s').
Proof.
  intros Hs H1' H2' Hu. assert (∀ again, ∃ s', Win32Ops.download_step again url out s = (Ok true, s')) as Hd.
  2: { destruct fuel; apply Hd. }
  intros again. unfold Win32Ops.download_step. destruct (parse_url url) as [[host path]|]; [|done].
  unfold Win32Ops.open_http.
  rewrite bind_opened, (proj2 (Z.eqb_neq _ _) (sv_open _ Hs _)).
  rewrite bind_opened, (proj2 (Z.eqb_neq _ _) (sv_connect _ Hs _ _ _)).
  rewrite bind_opened, (proj2 (Z.eqb_neq _ _) (sv_request _ Hs _ _ _)).
  rewrite bind_sys, (sv_send _ Hs), bind_sys, (sv_receive _ Hs). cbn [negb].
  rewrite bind_sys, (sv_status _ Hs). cbn [from_option id].
  rewrite (proj2 (Z.eqb_neq status 302)), (proj2 (Z.eqb_neq status 301)) by done. cbn [orb].
  unfold mbind at 1, M_bind at 1. cbn [mret M_ret].
  rewrite bind_sys, (proj2 (Z.eqb_neq _ _) (sv_file _ Hs _ _)).
  unfold mbind at 1, M_bind at 1, acquire, modify. rewrite bind_sys.
  unfold mbind at 1, M_bind at 1. match goal with |- context [Win32Ops.write_pieces ?h ?p ?s0] =>
    destruct (run_write_pieces h p s0) as [s1 ->] end.
  unfold close_handle, release, modify, mbind, M_bind. rewrite run_sys. cbn [mret M_ret].
  match goal with |- context [Win32Ops.close_all ?a ?b ?c ?s0] =>
    destruct (run_close_all a b c s0) as [s2 ->] end. by exists s2.
Qed.

(** A download succeeds whatever the server answers: the status of a response
    is looked at only for redirects, so that the page of an error, a missing
    file for instance, is saved under the name of the update and its path is
    returned, as for the update itself. *)
Theorem download_any_status status url hint tmp s :
  serves status → status ≠ 301 → status ≠ 302 → parse_url url ≠ None → answer GetTempPathW s = Some tmp →
  ∃ s1 s2, Win32Ops.download_update url hint s
           = (Ok (answer (WideCharToMultiByte (Win32Ops.out_file tmp WININSPECT_VERSION hint)) s1), s2).
Proof.
  intros Hs H1' H2' Hp Ht. unfold Win32Ops.download_update.
  assert (is_empty url = false) as -> by by destruct url.
  rewrite (bind_sys (A := option wide)), Ht.
  unfold mbind, M_bind. edestruct (run_download status redirect_fuel url) as [s1 ->]; [done..|]. cbn [negb].
  rewrite run_sys. by eexists _, _.
Qed.
End Downloading.

(** The file is not there. *)
Definition missing_answers : ∀ A, Call A → option A :=
  λ A c, match c with
         | WinHttpStatusCode _ => Some (Some 404)
         | GetTempPathW => Some (Some (widen "C:\T\"))
         | WideCharToMultiByte ws => Some (Win32Ops.narrow ws)
         | _ => None
         end.

Lemma download_any_status_witness :
  ∃ s2, Win32Ops.download_update (H := sample missing_answers) (H0 := sample_fuel) "https://example.org/a.zip" "portable"
          sample_state = (Ok "C:\T\WinInspectPortable-v0.1.1.zip", s2).
Proof.
  destruct (download_any_status (H := sample missing_answers) (H0 := sample_fuel) 404 "https://example.org/a.zip"
    "portable" (widen "C:\T\") sample_state) as (s1 & s2 & E).
  - split; intros; reflexivity || discriminate.
  - discriminate.
  - discriminate.
  - discriminate.
  - reflexivity.
  - exists s2. exact E.
Defined.
