(* ===== verification/Win32Types.v ===== *)
(** What the operations of the Win32 backend may return, on any system. *)

From S2P Require Import Prelude StdMap CString Double Json Base64 Types Update Logger Backend Core.
From S2P Require Import Win32Api Win32 Win32Sample Win32Live Win32Safe Win32Props.

Local Open Scope Z_scope.

(** * Well-formed results *)

(** A handle as [hwnd_u64], a byte. *)
Definition u64 (z : Z) : Prop := 0 ≤ z < 2 ^ 64.
Definition byte (z : Z) : Prop := 0 ≤ z < 2 ^ 8.

Definition color_ok (c : Color) : Prop := byte (c_r c) ∧ byte (c_g c) ∧ byte (c_b c).

#[local] Unset Elimination Schemes.
Inductive node_ok : WindowNode → Prop :=
| node_ok_intro n : u64 (wn_hwnd n) → Forall node_ok (wn_children n) → node_ok n.
#[local] Set Elimination Schemes.

Record info_ok (h : hwnd_u64) (i : WindowInfo) : Prop := {
  io_hwnd : wi_hwnd i = h;
  io_parent : u64 (wi_parent i);
  io_owner : u64 (wi_owner i);
  io_style : u64 (wi_style i) ∧ wi_style_flags i = parse_ws (wi_style i);
  io_exstyle : u64 (wi_exstyle i) ∧ wi_ex_style_flags i = parse_ws_ex (wi_exstyle i) }.

Definition value_types : list string := ["SZ"; "DWORD"; "BINARY"].
Definition service_states : list string := ["RUNNING"; "STOPPED"; "STARTING"; "STOPPING"; "PAUSED"; "OTHER"; "UNKNOWN"; "NOT_FOUND"].
Definition drive_types : list string := ["Fixed"; "Remote"; "CDROM"; "RamDisk"; "Unknown"].
Definition event_types : list string := ["window.created"; "window.destroyed"].
Definition os_names : list string := ["windows (wine)"; "windows 11"; "windows 10"; "windows"].

(** [P] of what an optional result holds. *)
Definition opt {A} (P : A → Prop) (o : option A) : Prop := match o with Some a => P a | None => True end.

(** What each operation promises of its result. *)
Definition result_ok {A} (op : Operation A) : A → Prop :=
  match op in Operation A return A → Prop with
  | Op_capture_snapshot => λ s, Forall u64 (snap_top s) ∧ (length (snap_top s) ≤ 5000)%nat
  | Op_list_top s => λ hs, hs = snap_top s
  | Op_list_children _ _ => Forall u64
  | Op_find_windows_regex _ _ => Forall u64
  | Op_get_info _ h => opt (info_ok h)
  | Op_pick_at_point _ _ _ _ => opt u64
  | Op_get_window_tree _ _ => Forall node_ok
  | Op_get_pixel _ _ => opt color_ok
  | Op_pixel_search r _ _ => opt (λ p, p ∈ points r)
  | Op_capture_screen r => opt (λ c, sc_width c = right r - left r ∧ 0 < sc_width c
                                     ∧ sc_height c = bottom r - top r ∧ 0 < sc_height c)
  | Op_get_file_info path => opt (λ f, fi_path f = path)
  | Op_reg_read path => opt (λ k, rk_path k = path ∧ Forall (λ v, rv_type v ∈ value_types) (rk_values k))
  | Op_service_list => Forall (λ i, sv_state i ∈ ["RUNNING"; "STOPPED"])
  | Op_service_status _ => λ st, st ∈ service_states
  | Op_wine_get_drives => λ ds, (length ds ≤ 26)%nat ∧ Forall (λ d, dr_type d ∈ drive_types) ds
  | Op_mem_read _ address _ => opt (λ r, mr_address r = address)
  | Op_image_match _ _ => λ r, r = None
  | Op_get_capabilities => λ c, caps_arch c = "x64" ∧ caps_os c ∈ os_names
  | Op_poll_events _ _ => Forall (λ e, e_type e ∈ event_types)
  | _ => λ _, True
  end.

(** * The operations *)

Section Results.
Context {OS : Type} `{Windows OS} `{Fuel} `{Regex}.

Lemma to_u64_ok h : u64 (to_u64 h).
Proof. by apply Z.mod_pos_bound. Qed.
Lemma to_u64_all hs : Forall u64 (to_u64 <$> hs).
Proof. apply Forall_fmap, Forall_true. intros h. apply to_u64_ok. Qed.

Lemma color_of_ok c : color_ok (color_of c).
Proof.
  assert (∀ z, byte (Z.land z 255)) as Hb.
  { intros z. change 255 with (Z.ones 8). rewrite Z.land_ones by done. by apply Z.mod_pos_bound. }
  by repeat split; apply Hb.
Qed.

(** Follow an operation to what it returns. *)
Ltac follow :=
  repeat lazymatch goal with
  | |- returns _ (mret _) => apply returns_ret
  | |- returns _ (lift_result Undef) => apply returns_undef
  | |- returns _ (mbind _ (lift_result _)) => apply returns_lift; intros ? ?
  | |- returns _ (mbind _ _) => apply returns_bind; intros ?
  | |- returns _ (match ?x with _ => _ end) => destruct x eqn:?
  end.

Lemma returns_scope {A} (P : A → Prop) close (m : M (Win32 OS) A) : returns P m → returns P (scope close m).
Proof.
  intros Hm s. specialize (Hm s). unfold scope. destruct (m s) as [[a| | |] s1]; try done; by destruct (close s1).
Qed.
Lemma returns_ScHandle {A} (P : A → Prop) o (body : Z → M (Win32 OS) A) :
  (∀ h, returns P (body h)) → returns P (ScHandle o body).
Proof. intros Hb. unfold ScHandle. follow; [apply returns_scope|]; apply Hb. Qed.
Lemma returns_SafeHandle {A} (P : A → Prop) o (body : Z → M (Win32 OS) A) :
  (∀ h, returns P (body h)) → returns P (SafeHandle o body).
Proof. intros Hb. unfold SafeHandle. follow; [apply returns_scope|]; apply Hb. Qed.
Lemma returns_HKey {A} (P : A → Prop) o (body : option Z → M (Win32 OS) A) :
  (∀ h, returns P (body h)) → returns P (HKey o body).
Proof. intros Hb. unfold HKey. follow; [apply returns_scope| |]; apply Hb. Qed.

Lemma matching_ok t c hs : returns (Forall u64) (Win32Ops.matching_windows t c hs : M (Win32 OS) _).
Proof.
  induction hs as [|h hs IH]; [by apply returns_ret|]. cbn [Win32Ops.matching_windows].
  do 2 (apply returns_bind; intros ?). apply (returns_bind_with _ _ _ _ IH). intros out Hout. follow.
  destruct (_ && _); [|done]. constructor; [apply to_u64_ok|done].
Qed.

Lemma flat_ok hs : returns (Forall node_ok) (Win32Ops.flat_nodes hs : M (Win32 OS) _).
Proof.
  induction hs as [|h hs IH]; [by apply returns_ret|]. cbn [Win32Ops.flat_nodes].
  do 2 (apply returns_bind; intros ?). apply (returns_bind_with _ _ _ _ IH). intros out Hout. follow.
  constructor; [|done]. constructor; [apply to_u64_ok|constructor].
Qed.

Lemma children_ok fuel child : returns (Forall node_ok) (Win32Ops.build_children fuel child : M (Win32 OS) _).
Proof.
  revert child. induction fuel as [|fuel IH]; intros child; cbn [Win32Ops.build_children];
    (destruct (_ =? _); [by apply returns_ret|]); [done|].
  do 3 (apply returns_bind; intros ?). apply (returns_bind_with _ _ _ _ (IH _)). intros ch Hch.
  apply returns_bind. intros next. apply (returns_bind_with _ _ _ _ (IH _)). intros sib Hsib. follow.
  constructor; [|done]. constructor; [apply to_u64_ok|done].
Qed.

Lemma tree_ok s root : returns (Forall node_ok) (Win32Ops.get_window_tree s root : M (Win32 OS) _).
Proof.
  unfold Win32Ops.get_window_tree. do 3 (apply returns_bind; intros ?).
  destruct (root =? 0); [apply returns_bind; intros ?; apply flat_ok|].
  apply (returns_bind_with node_ok); [|intros n Hn; follow; by constructor].
  unfold Win32Ops.build_node. do 3 (apply returns_bind; intros ?).
  apply (returns_bind_with _ _ _ _ (children_ok _ _)). intros ch Hch. follow. constructor; [apply to_u64_ok|done].
Qed.

Lemma search_in hdc v t r ps : ps ⊆ points r →
  returns (opt (λ p, p ∈ points r)) (Win32Ops.search_points hdc v t ps : M (Win32 OS) _).
Proof.
  induction ps as [|[x y] ps IH]; intros Hps; [by apply returns_ret|]. cbn [Win32Ops.search_points].
  apply returns_bind. intros c. destruct (_ && _); [apply returns_ret|apply IH]; set_solver.
Qed.

Lemma values_ok vs :
  returns (Forall (λ v, rv_type v ∈ value_types)) (Win32Ops.key_values vs : M (Win32 OS) _).
Proof.
  induction vs as [|v vs IH]; [by apply returns_ret|]. cbn [Win32Ops.key_values].
  destruct (value_fits v); [|by apply returns_ret].
  apply (returns_bind_with (λ v, rv_type v ∈ value_types)).
  - unfold Win32Ops.read_value, value_types. follow; cbn; set_solver.
  - intros rv Hrv. apply (returns_bind_with _ _ _ _ IH). intros out Hout. follow. by constructor.
Qed.

Lemma services_ok es :
  returns (Forall (λ i, sv_state i ∈ ["RUNNING"; "STOPPED"])) (Win32Ops.service_infos es : M (Win32 OS) _).
Proof.
  induction es as [|e es IH]; [by apply returns_ret|]. cbn [Win32Ops.service_infos].
  do 2 (apply returns_bind; intros ?). apply (returns_bind_with _ _ _ _ IH). intros out Hout. follow.
  constructor; [|done]. cbn. destruct (_ =? _); set_solver.
Qed.

Lemma drives_ok mask ds :
  returns (λ out, (length out ≤ length ds)%nat ∧ Forall (λ d, dr_type d ∈ drive_types) out)
    (Win32Ops.drive_infos mask ds : M (Win32 OS) _).
Proof.
  induction ds as [|i ds IH]; [by apply returns_ret|]. cbn [Win32Ops.drive_infos].
  destruct (Z.testbit mask i).
  - do 3 (apply returns_bind; intros ?). apply (returns_bind_with _ _ _ _ IH). intros out [Hl Ho]. follow.
    split; [cbn; lia|]. constructor; [|done]. cbn. unfold Win32Ops.drive_type, drive_types. repeat case_match; set_solver.
  - intros s. specialize (IH s). destruct (Win32Ops.drive_infos mask ds s) as [[out| | |] s']; try done.
    destruct IH. split; [cbn; lia|done].
Qed.

Lemma info_typed s h : returns (opt (info_ok h)) (Win32Ops.get_info s h : M (Win32 OS) _).
Proof.
  unfold Win32Ops.get_info. follow; [done|]. split; cbn [wi_hwnd wi_parent wi_owner wi_style wi_exstyle wi_style_flags wi_ex_style_flags].
  - done.
  - apply to_u64_ok.
  - apply to_u64_ok.
  - split; [by apply Z.mod_pos_bound|reflexivity].
  - split; [by apply Z.mod_pos_bound|reflexivity].
Qed.

Lemma int_result_value z n : int_result z = Ok n → n = z.
Proof. unfold int_result. destruct (_ && _); by intros [= ->]. Qed.

Lemma capture_typed r : returns (result_ok (Op_capture_screen r)) (Win32Ops.capture_screen r : M (Win32 OS) _).
Proof.
  unfold Win32Ops.capture_screen.
  apply returns_lift. intros w ->%int_result_value. apply returns_lift. intros h ->%int_result_value.
  destruct (_ || _) eqn:E; [by apply returns_ret|]. apply orb_false_iff in E as [?%Z.leb_gt ?%Z.leb_gt].
  follow. cbn. lia.
Qed.

Lemma state_name_known st : Win32Ops.state_name st ∈ service_states.
Proof. unfold Win32Ops.state_name, service_states. repeat case_match; set_solver. Qed.

Lemma capabilities_typed : returns (result_ok Op_get_capabilities) (Win32Ops.get_capabilities : M (Win32 OS) _).
Proof.
  unfold Win32Ops.get_capabilities. follow. apply returns_SafeHandle. intros h. follow.
  cbn. split; [done|]. unfold Win32Ops.os_name, os_names. repeat case_match; set_solver.
Qed.

Lemma snapshot_typed : returns (result_ok Op_capture_snapshot) (Win32Ops.capture_snapshot : M (Win32 OS) _).
Proof.
  unfold Win32Ops.capture_snapshot. follow. cbn [result_ok snap_top].
  split; [apply to_u64_all|]. rewrite length_fmap, length_take. lia.
Qed.

Lemma children_typed s p : returns (Forall u64) (Win32Ops.list_children s p : M (Win32 OS) _).
Proof. unfold Win32Ops.list_children. follow. apply to_u64_all. Qed.

Lemma pick_typed s x y f : returns (opt u64) (Win32Ops.pick_at_point s x y f : M (Win32 OS) _).
Proof. unfold Win32Ops.pick_at_point. follow; cbn; (done || apply to_u64_ok). Qed.

Lemma pixel_typed x y : returns (opt color_ok) (Win32Ops.get_pixel x y : M (Win32 OS) _).
Proof. unfold Win32Ops.get_pixel. follow; [done|]. case_match; [done|apply color_of_ok]. Qed.

Lemma search_typed r c v : returns (opt (λ p, p ∈ points r)) (Win32Ops.pixel_search r c v : M (Win32 OS) _).
Proof.
  unfold Win32Ops.pixel_search. apply returns_bind. intros hdc. destruct (_ =? _); [by apply returns_ret|].
  apply (returns_bind_with _ _ _ _ (search_in hdc v c r (points r) ltac:(done))). intros p Hp. by follow.
Qed.

Lemma reg_read_typed path : returns (result_ok (Op_reg_read path)) (Win32Ops.reg_read path : M (Win32 OS) _).
Proof.
  unfold Win32Ops.reg_read. destruct (parse_hkey path) as [root subpath]. destruct (_ =? _); [by apply returns_ret|].
  apply returns_HKey. intros [k|]; [|by apply returns_ret]. do 3 (apply returns_bind; intros ?).
  apply (returns_bind_with _ _ _ _ (values_ok _)). intros vs Hvs. by follow.
Qed.

Lemma service_list_typed : returns (result_ok Op_service_list) (Win32Ops.service_list : M (Win32 OS) _).
Proof.
  unfold Win32Ops.service_list. apply returns_ScHandle. intros h. follow; try constructor. apply services_ok.
Qed.

Lemma service_status_typed n : returns (result_ok (Op_service_status n)) (Win32Ops.service_status n : M (Win32 OS) _).
Proof.
  assert ("UNKNOWN" ∈ service_states ∧ "NOT_FOUND" ∈ service_states) as [? ?] by (unfold service_states; set_solver).
  unfold Win32Ops.service_status. apply returns_ScHandle. intros scm. follow; [done|].
  apply returns_ScHandle. intros svc. follow; cbn; [done|]. case_match; [apply state_name_known|done].
Qed.

Lemma file_info_typed path : returns (result_ok (Op_get_file_info path)) (Win32Ops.get_file_info path : M (Win32 OS) _).
Proof. unfold Win32Ops.get_file_info. follow. by case_match. Qed.

Lemma find_typed t c : returns (Forall u64) (Win32Ops.find_windows_regex t c : M (Win32 OS) _).
Proof. unfold Win32Ops.find_windows_regex. follow. apply matching_ok. Qed.

Lemma drives_typed : returns (result_ok Op_wine_get_drives) (Win32Ops.wine_get_drives : M (Win32 OS) _).
Proof. unfold Win32Ops.wine_get_drives. apply returns_bind. intros mask. apply (drives_ok mask (seqZ 0 26)). Qed.

Lemma mem_read_typed p a n : returns (result_ok (Op_mem_read p a n)) (Win32Ops.mem_read p a n : M (Win32 OS) _).
Proof.
  unfold Win32Ops.mem_read. apply returns_bind. intros max. apply returns_SafeHandle. intros h. follow; cbn; try done.
  by case_match.
Qed.

Lemma events_typed o n : returns (result_ok (Op_poll_events o n)) (Win32Ops.poll_events o n : M (Win32 OS) _).
Proof.
  unfold Win32Ops.poll_events. follow. cbn [result_ok]. unfold event_types.
  apply Forall_app. split; apply Forall_fmap, Forall_true; intros h; cbn; set_solver.
Qed.

End Results.
