(* ===== verification/Extension.v ===== *)
(** [tools/wine-uia-extension/extension.cpp]: an in-process COM server with its
    reference counts, class factory and registration, and a client that keeps
    the rules of COM. *)

From S2P Require Import Prelude CString Types Win32Api Win32.

Local Open Scope Z_scope.

(** * Data *)

(** [long], 32 bits wide, whose atomic increments wrap around. *)
Definition to_long (n : Z) : Z := (n + 2 ^ 31) mod 2 ^ 32 - 2 ^ 31.
(** And its conversion to [ULONG]. *)
Definition to_ULONG (n : Z) : Z := n mod 2 ^ 32.

Record GUID := mkGUID { Data1 : Z; Data2 : Z; Data3 : Z; Data4 : list Z }.
#[export] Instance GUID_eq_dec : EqDecision GUID.
Proof. solve_decision. Defined.

Definition CLSID_WineUIAExtension : GUID :=
  mkGUID 0x12345678 0x1234 0x1234 [0x12; 0x34; 0x12; 0x34; 0x56; 0x78; 0x9A; 0xBC].
Definition IID_IUnknown : GUID := mkGUID 0 0 0 [0xC0; 0; 0; 0; 0; 0; 0; 0x46].
Definition IID_IClassFactory : GUID := mkGUID 1 0 0 [0xC0; 0; 0; 0; 0; 0; 0; 0x46].

Inductive HRESULT :=
  | S_OK | S_FALSE | E_POINTER | E_NOINTERFACE | E_FAIL | CLASS_E_NOAGGREGATION | CLASS_E_CLASSNOTAVAILABLE.
#[export] Instance HRESULT_eq_dec : EqDecision HRESULT.
Proof. solve_decision. Defined.

(** [CMyUIAProxy] and [CClassFactory], with [m_refCount]. *)
Inductive ComClass := MyUIAProxy | ClassFactory.
#[export] Instance ComClass_eq_dec : EqDecision ComClass.
Proof. solve_decision. Defined.
Record ComObject := mkComObject { o_class : ComClass; m_refCount : Z }.

(** What the library asks the system for; a call that fails returns [None] or
    [false]. *)
Inductive ExtCall : Type → Type :=
  | DisableThreadLibraryCalls (hInst : Z) : ExtCall ()
  | GetModuleFileNameW (hInst : Z) : ExtCall (option wide)
  | StringFromGUID2 (guid : GUID) : ExtCall wide
  | CreateKey (root : Z) (subKey : wide) : ExtCall (option Z)
  | SetValue (hKey : Z) (valueName : option wide) (type : Z) (data : list Z) : ExtCall bool
  | CloseKey (hKey : Z) : ExtCall ()
  | RegDeleteTreeW (root : Z) (subKey : wide) : ExtCall bool.

(** The globals of the library; the objects that have been made and not
    deleted, by address; the next address; the registry keys it holds open; and
    the system. *)
Record Dll (OS : Type) := mkDll {
  g_refCount : Z;
  g_hInst : Z;
  heap : gmap Z ComObject;
  next : Z;
  open_keys : list Z;
  dll_os : OS }.
Arguments mkDll {OS} _ _ _ _ _ _.
Arguments g_refCount {OS} _.
Arguments g_hInst {OS} _.
Arguments heap {OS} _.
Arguments next {OS} _.
Arguments open_keys {OS} _.
Arguments dll_os {OS} _.

Section Server.
Context {OS : Type} `{System ExtCall OS}.

Abbreviation Com := (M (Dll OS)).

Definition with_count (f : Z → Z) (d : Dll OS) : Dll OS :=
  mkDll (to_long (f (g_refCount d))) (g_hInst d) (heap d) (next d) (open_keys d) (dll_os d).
Definition with_heap (h : gmap Z ComObject) (n : Z) (d : Dll OS) : Dll OS :=
  mkDll (g_refCount d) (g_hInst d) h n (open_keys d) (dll_os d).
Definition with_keys (l : list Z) (d : Dll OS) : Dll OS :=
  mkDll (g_refCount d) (g_hInst d) (heap d) (next d) l (dll_os d).

Definition call {A} (c : ExtCall A) : Com A := λ d,
  let '(a, os) := answer c (dll_os d) in
  (Ok a, mkDll (g_refCount d) (g_hInst d) (heap d) (next d) (open_keys d) os).

(** * Objects *)

(** [new C()]: the constructor counts the object. *)
Definition new_object (c : ComClass) : Com Z := λ d,
  (Ok (next d), with_count (λ n, n + 1) (with_heap (<[next d := mkComObject c 1]> (heap d)) (next d + 1) d)).

(** A method of the object at [p]; there is none when it has been deleted. *)
Definition this (p : Z) : Com ComObject := λ d,
  match heap d !! p with Some o => (Ok o, d) | None => (Undef, d) end.

Definition set_refCount (p : Z) (o : ComObject) (n : Z) : Com () :=
  modify (λ d, with_heap (<[p := mkComObject (o_class o) n]> (heap d)) (next d) d).

(** [delete this]: the destructor uncounts it. *)
Definition delete_this (p : Z) : Com () :=
  modify (λ d, with_count (λ n, n - 1) (with_heap (delete p (heap d)) (next d) d)).

Definition AddRef (p : Z) : Com Z :=
  o ← this p;
  let n := to_long (m_refCount o + 1) in
  _ ← set_refCount p o n;
  mret (to_ULONG n).

Definition Release (p : Z) : Com Z :=
  o ← this p;
  let val := to_long (m_refCount o - 1) in
  _ ← set_refCount p o val;
  _ ← (if val =? 0 then delete_this p else mret ());
  mret (to_ULONG val).

(** The interfaces that an object answers to. *)
Definition supports (c : ComClass) (riid : GUID) : bool :=
  bool_decide (riid = IID_IUnknown)
  || match c with ClassFactory => bool_decide (riid = IID_IClassFactory) | MyUIAProxy => false end.

(** With [ppvObject] null or not; also what is stored there, if anything. *)
Definition QueryInterface (p : Z) (riid : GUID) (ppvObject : bool) : Com (HRESULT * option Z) :=
  o ← this p;
  if negb ppvObject then mret (E_POINTER, None)
  else if supports (o_class o) riid then _ ← AddRef p; mret (S_OK, Some p)
  else mret (E_NOINTERFACE, Some NULL).

(** A new object for a caller: asked for the interface, then let go. *)
Definition make (c : ComClass) (riid : GUID) (ppvObject : bool) : Com (HRESULT * option Z) :=
  p ← new_object c;
  hr ← QueryInterface p riid ppvObject;
  _ ← Release p;
  mret hr.

Definition CreateInstance (p : Z) (pUnkOuter : Z) (riid : GUID) (ppvObject : bool) : Com (HRESULT * option Z) :=
  _ ← this p;
  if negb (pUnkOuter =? NULL) then mret (CLASS_E_NOAGGREGATION, None) else make MyUIAProxy riid ppvObject.

Definition LockServer (p : Z) (fLock : bool) : Com HRESULT :=
  _ ← this p;
  _ ← modify (with_count (λ n, if fLock then n + 1 else n - 1));
  mret S_OK.

(** * Exports *)

Definition DLL_PROCESS_ATTACH : Z := 1.

Definition DllMain (hInst reason : Z) : Com bool :=
  _ ← (if reason =? DLL_PROCESS_ATTACH then
         _ ← modify (λ d, mkDll (g_refCount d) hInst (heap d) (next d) (open_keys d) (dll_os d));
         call (DisableThreadLibraryCalls hInst)
       else mret ());
  mret true.

Definition DllGetClassObject (rclsid riid : GUID) (ppv : bool) : Com (HRESULT * option Z) :=
  if bool_decide (rclsid = CLSID_WineUIAExtension) then make ClassFactory riid ppv
  else mret (CLASS_E_CLASSNOTAVAILABLE, None).

Definition DllCanUnloadNow : Com HRESULT := gets (λ d, if g_refCount d =? 0 then S_OK else S_FALSE).

(** * Registration *)

Definition SetRegistryKey (hKeyRoot : Z) (subKey valueName data : wide) : Com bool :=
  key ← call (CreateKey hKeyRoot subKey);
  match key with
  | None => mret false
  | Some hKey =>
      _ ← modify (λ d, with_keys (hKey :: open_keys d) d);
      ok ← call (SetValue hKey (match valueName with [] => None | _ => Some valueName end) Win32Ops.REG_SZ (wide_bytes data));
      _ ← modify (λ d, with_keys (remove_one hKey (open_keys d)) d);
      _ ← call (CloseKey hKey);
      mret ok
  end.

Definition DeleteRegistryKey (hKeyRoot : Z) (subKey : wide) : Com bool := call (RegDeleteTreeW hKeyRoot subKey).

(** The key of the class. *)
Definition class_key : Com wide :=
  clsidStr ← call (StringFromGUID2 CLSID_WineUIAExtension);
  mret (widen "CLSID\" ++ clsidStr).

Definition DllRegisterServer : Com HRESULT :=
  modulePath ← (hInst ← gets g_hInst; call (GetModuleFileNameW hInst));
  match modulePath with
  | None => mret E_FAIL
  | Some modulePath =>
      key ← class_key;
      ok ← SetRegistryKey HKEY_CLASSES_ROOT key [] (widen "Wine UIA Extension");
      if negb ok then mret E_FAIL else
      ok ← SetRegistryKey HKEY_CLASSES_ROOT (key ++ widen "\InProcServer32") [] (wcs modulePath);
      if negb ok then mret E_FAIL else
      ok ← SetRegistryKey HKEY_CLASSES_ROOT (key ++ widen "\InProcServer32") (widen "ThreadingModel") (widen "Both");
      if negb ok then mret E_FAIL else mret S_OK
  end.

Definition DllUnregisterServer : Com HRESULT :=
  key ← class_key;
  _ ← DeleteRegistryKey HKEY_CLASSES_ROOT key;
  mret S_OK.
End Server.
