(* ===== verification/ExtensionProps.v ===== *)
(** Properties of the COM server: under every client that keeps the rules of
    COM its counts are exact, nothing deleted is used and nothing leaks; what it
    writes to the registry and takes away again. *)

From S2P Require Import Prelude CString Types Win32Api Win32 Extension.

Local Open Scope Z_scope.

(** * Clients *)

(** The references that the clients own, one entry each, and their locks. *)
Record Client := mkClient { cl_refs : list Z; cl_locks : Z }.

Inductive ComEvent :=
  | GetClassObject (rclsid riid : GUID) (ppv : bool)
  | Query (p : Z) (riid : GUID) (ppv : bool)
  | Add (p : Z)
  | Drop (p : Z)
  | Create (p pUnkOuter : Z) (riid : GUID) (ppv : bool)
  | Lock (p : Z) (fLock : bool).

Section Clients.
Context {OS : Type} `{System ExtCall OS}.
Implicit Types (d : Dll OS) (cl : Client) (p : Z) (refs : list Z).

(** The rules: methods are called on references that are owned, those of a class
    factory on a class factory, and only a lock that was taken is given up. *)
Definition allowed (ev : ComEvent) cl d : Prop :=
  match ev with
  | GetClassObject _ _ _ => True
  | Query p _ _ | Add p | Drop p => p ∈ cl_refs cl
  | Create p _ _ _ => p ∈ cl_refs cl ∧ o_class <$> heap d !! p = Some ClassFactory
  | Lock p fLock => p ∈ cl_refs cl ∧ o_class <$> heap d !! p = Some ClassFactory
                    ∧ (fLock = false → 0 < cl_locks cl)
  end.

(** A pointer that was returned is owned. *)
Definition gains (r : HRESULT * option Z) cl : Client :=
  match r with (S_OK, Some p) => mkClient (p :: cl_refs cl) (cl_locks cl) | _ => cl end.

Definition com_step (ev : ComEvent) cl : M (Dll OS) Client :=
  match ev with
  | GetClassObject rclsid riid ppv => r ← DllGetClassObject rclsid riid ppv; mret (gains r cl)
  | Query p riid ppv => r ← QueryInterface p riid ppv; mret (gains r cl)
  | Add p => _ ← AddRef p; mret (mkClient (p :: cl_refs cl) (cl_locks cl))
  | Drop p => _ ← Release p; mret (mkClient (remove_one p (cl_refs cl)) (cl_locks cl))
  | Create p outer riid ppv => r ← CreateInstance p outer riid ppv; mret (gains r cl)
  | Lock p fLock =>
      _ ← LockServer p fLock;
      mret (mkClient (cl_refs cl) (if fLock then cl_locks cl + 1 else cl_locks cl - 1))
  end.

(** Room in the counters. *)
Definition small cl : Prop := Z.of_nat (length (cl_refs cl)) + cl_locks cl + 2 < 2 ^ 31.

(** The library before the system tells it that it has been loaded. *)
Definition dll_image (os : OS) : Dll OS := mkDll 0 NULL ∅ 1 [] os.

(** What clients and the library come to. *)
Inductive com_reach (hInst : Z) (os : OS) : Client → Dll OS → Prop :=
  | com_start d : DllMain hInst DLL_PROCESS_ATTACH (dll_image os) = (Ok true, d) → com_reach hInst os (mkClient [] 0) d
  | com_next cl d ev cl' d' : com_reach hInst os cl d → allowed ev cl d → small cl →
      com_step ev cl d = (Ok cl', d') → com_reach hInst os cl' d'.

(** * The invariant *)

(** Each object counts the references to it, and the library its objects and
    the locks. *)
Record com_ok refs (locks : Z) d : Prop := {
  ck_objects : ∀ p, match heap d !! p with
                    | Some o => m_refCount o = copies p refs ∧ 0 < copies p refs
                    | None => copies p refs = 0
                    end;
  ck_count : g_refCount d = Z.of_nat (size (heap d)) + locks;
  ck_locks : 0 ≤ locks;
  ck_fresh : ∀ p, is_Some (heap d !! p) → p < next d;
  ck_next : 0 < next d }.

Lemma to_long_small n : - 2 ^ 31 ≤ n < 2 ^ 31 → to_long n = n.
Proof. intros Hn. unfold to_long. rewrite Z.mod_small; lia. Qed.

(** There are no more objects than references. *)
Lemma heap_size refs locks d : com_ok refs locks d → Z.of_nat (size (heap d)) ≤ Z.of_nat (length refs).
Proof.
  intros Hok. rewrite <-size_dom. unfold size, set_size. cbn. apply inj_le, submseteq_length, NoDup_submseteq;
    [apply NoDup_elements|]. intros p Hp%elem_of_elements%elem_of_dom.
  pose proof (ck_objects _ _ _ Hok p) as Ho. apply copies_elem. destruct Hp as [o Ho']. rewrite Ho' in Ho. lia.
Qed.

Lemma owned_object refs locks d p :
  com_ok refs locks d → p ∈ refs → ∃ o, heap d !! p = Some o ∧ m_refCount o = copies p refs.
Proof.
  intros Hok Hp%copies_elem. pose proof (ck_objects _ _ _ Hok p) as Ho. destruct (heap d !! p) as [o|]; [|lia].
  exists o. tauto.
Qed.

Lemma this_owned p o d : heap d !! p = Some o → this p d = (Ok o, d).
Proof. intros E. unfold this. by rewrite E. Qed.

(** A count that is set to what the references come to. *)
Lemma set_count_ok refs refs' locks d p o :
  com_ok refs locks d → heap d !! p = Some o → 0 < copies p refs' →
  (∀ q, q ≠ p → copies q refs' = copies q refs) →
  com_ok refs' locks (with_heap (<[p := mkComObject (o_class o) (copies p refs')]> (heap d)) (next d) d).
Proof.
  intros [Ho Hc Hl Hf Hn] Hp Hpos Hq. split; cbn; try done.
  - intros q. destruct (decide (q = p)) as [->|Hne].
    + by rewrite lookup_insert_eq.
    + rewrite lookup_insert_ne, (Hq q Hne) by done. apply Ho.
  - by rewrite map_size_insert_Some by eauto.
  - intros q [o' Hq']. destruct (decide (q = p)) as [->|Hne]; [by apply Hf; eauto|].
    rewrite lookup_insert_ne in Hq' by done. eauto.
Qed.

Lemma AddRef_ok refs locks d p :
  com_ok refs locks d → p ∈ refs → Z.of_nat (length refs) + 1 < 2 ^ 31 →
  ∃ n d', AddRef p d = (Ok n, d') ∧ com_ok (p :: refs) locks d' ∧ (o_class <$> heap d') = (o_class <$> heap d).
Proof.
  intros Hok Hp Hs. destruct (owned_object _ _ _ _ Hok Hp) as (o & Eo & Ec). pose proof (copies_length p refs).
  pose proof (copies_nonneg p refs).
  unfold AddRef, mbind, M_bind. rewrite (this_owned p o d Eo). cbv beta iota. rewrite to_long_small by lia.
  do 2 eexists. split; [done|]. assert (m_refCount o + 1 = copies p (p :: refs)) as ->.
  { rewrite copies_cons, bool_decide_eq_true_2 by done. lia. }
  split; [apply (set_count_ok refs); [done|done| |]|].
  - rewrite copies_cons. case_bool_decide; [lia|done].
  - intros q Hq. by rewrite copies_cons, bool_decide_eq_false_2 by done.
  - cbn. rewrite fmap_insert. cbn. apply insert_id. by rewrite lookup_fmap, Eo.
Qed.

(** The last reference goes. *)
Lemma delete_ok refs refs' locks d p o n :
  com_ok refs locks d → heap d !! p = Some o → Z.of_nat (size (heap d)) + locks < 2 ^ 31 →
  copies p refs' = 0 → (∀ q, q ≠ p → copies q refs' = copies q refs) →
  com_ok refs' locks
    (with_count (λ n, n - 1)
       (with_heap (delete p (<[p := mkComObject (o_class o) n]> (heap d))) (next d)
          (with_heap (<[p := mkComObject (o_class o) n]> (heap d)) (next d) d))).
Proof.
  intros [Ho Hc Hl Hf Hn] Hp Hs H0 Hq. pose proof (map_size_ne_0_lookup_2 (heap d) p ltac:(eauto)) as Hne.
  split; cbn; try done; rewrite delete_insert_eq.
  - intros q. destruct (decide (q = p)) as [->|Hqp]; [by rewrite lookup_delete_eq|].
    rewrite lookup_delete_ne, (Hq q Hqp) by done. apply Ho.
  - rewrite to_long_small by lia. rewrite map_size_delete_Some by eauto. lia.
  - intros q [o' Hq']. apply lookup_delete_Some in Hq' as [_ Hq']. eauto.
Qed.

Lemma Release_ok refs locks d p :
  com_ok refs locks d → p ∈ refs → Z.of_nat (length refs) + locks < 2 ^ 31 →
  ∃ n d', Release p d = (Ok n, d') ∧ com_ok (remove_one p refs) locks d'.
Proof.
  intros Hok Hp Hs. destruct (owned_object _ _ _ _ Hok Hp) as (o & Eo & Ec). pose proof (copies_length p refs).
  pose proof (heap_size _ _ _ Hok) as Hsize. pose proof (ck_locks _ _ _ Hok).
  pose proof (proj1 (copies_elem p refs) Hp) as Hpos.
  assert (∀ q, copies q refs = (if bool_decide (p = q) then 1 else 0) + copies q (remove_one p refs)) as Hrem.
  { intros q. rewrite (remove_one_perm p refs Hp) at 1. by rewrite copies_cons. }
  unfold Release, mbind, M_bind. rewrite (this_owned p o d Eo). cbv beta iota. rewrite to_long_small by lia.
  assert (m_refCount o - 1 = copies p (remove_one p refs)) as ->.
  { specialize (Hrem p). rewrite bool_decide_eq_true_2 in Hrem by done. lia. }
  assert (∀ q, q ≠ p → copies q (remove_one p refs) = copies q refs) as Hother.
  { intros q Hq. rewrite (Hrem q), bool_decide_eq_false_2 by congruence. lia. }
  unfold set_refCount, modify. cbv beta iota. destruct (copies p (remove_one p refs) =? 0) eqn:E0.
  - apply Z.eqb_eq in E0. do 2 eexists. split; [done|].
    apply (delete_ok refs (remove_one p refs) locks d p o); [done|done|lia|done|done].
  - apply Z.eqb_neq in E0. do 2 eexists. split; [done|]. eapply (set_count_ok refs); [done|done| |done].
    pose proof (copies_nonneg p (remove_one p refs)). lia.
Qed.

(** Asking for an interface gives a reference to the same object or none. *)
Lemma QueryInterface_ok refs locks d p riid ppv :
  com_ok refs locks d → p ∈ refs → Z.of_nat (length refs) + 1 < 2 ^ 31 →
  ∃ hr out d', QueryInterface p riid ppv d = (Ok (hr, out), d')
    ∧ ((hr = S_OK ∧ out = Some p ∧ com_ok (p :: refs) locks d') ∨ (hr ≠ S_OK ∧ com_ok refs locks d')).
Proof.
  intros Hok Hp Hs. destruct (owned_object _ _ _ _ Hok Hp) as (o & Eo & _).
  unfold QueryInterface, mbind, M_bind. rewrite (this_owned p o d Eo). cbv beta iota.
  destruct ppv; cbn [negb]; [|by do 3 eexists; split; [done|right]].
  destruct (supports (o_class o) riid); [|by do 3 eexists; split; [done|right]].
  destruct (AddRef_ok _ _ _ _ Hok Hp Hs) as (n & d' & -> & Hok' & _). do 3 eexists. split; [done|]. by left.
Qed.

(** A new object, owned by whoever made it. *)
Lemma new_object_ok refs locks d c :
  com_ok refs locks d → Z.of_nat (length refs) + locks + 1 < 2 ^ 31 →
  ∃ d', new_object c d = (Ok (next d), d') ∧ com_ok (next d :: refs) locks d'.
Proof.
  intros Hok Hs. pose proof (heap_size _ _ _ Hok) as Hsize. destruct Hok as [Ho Hc Hl Hf Hn].
  assert (heap d !! next d = None) as Hnone.
  { destruct (heap d !! next d) eqn:E; [|done]. assert (next d < next d) by (apply Hf; eauto). lia. }
  eexists. split; [done|]. split; cbn.
  - intros q. rewrite copies_cons. destruct (decide (q = next d)) as [->|Hne].
    + rewrite lookup_insert_eq, bool_decide_eq_true_2 by done. cbn. specialize (Ho (next d)). rewrite Hnone in Ho. lia.
    + rewrite lookup_insert_ne, bool_decide_eq_false_2 by done. rewrite Z.add_0_l. apply Ho.
  - rewrite to_long_small by lia. rewrite map_size_insert_None by done. lia.
  - done.
  - intros q [o' Hq]. destruct (decide (q = next d)) as [->|Hne]; [lia|].
    rewrite lookup_insert_ne in Hq by done. assert (q < next d) by (apply Hf; eauto). lia.
  - lia.
Qed.

Lemma remove_one_cons p refs : remove_one p (p :: refs) = refs.
Proof. cbn. by rewrite bool_decide_eq_true_2. Qed.

Lemma make_ok refs locks d c riid ppv :
  com_ok refs locks d → Z.of_nat (length refs) + locks + 2 < 2 ^ 31 →
  ∃ hr out d', make c riid ppv d = (Ok (hr, out), d')
    ∧ ((∃ p, hr = S_OK ∧ out = Some p ∧ com_ok (p :: refs) locks d') ∨ (hr ≠ S_OK ∧ com_ok refs locks d')).
Proof.
  intros Hok Hs. pose proof (ck_locks _ _ _ Hok) as Hl.
  destruct (new_object_ok _ _ _ c Hok ltac:(lia)) as (d1 & E1 & Hok1). set (p := next d) in *.
  unfold make, mbind, M_bind. rewrite E1. cbv beta iota.
  destruct (QueryInterface_ok _ _ _ p riid ppv Hok1) as (hr & out & d2 & -> & Hq);
    [apply elem_of_cons; by left|cbn [length]; lia|]. cbv beta iota.
  destruct Hq as [(-> & -> & Hok2)|[Hne Hok2]].
  - destruct (Release_ok _ _ _ p Hok2) as (n & d3 & -> & Hok3); [apply elem_of_cons; by left|cbn [length]; lia|].
    rewrite remove_one_cons in Hok3. do 3 eexists. split; [done|]. left. by exists p.
  - destruct (Release_ok _ _ _ p Hok2) as (n & d3 & -> & Hok3); [apply elem_of_cons; by left|cbn [length]; lia|].
    rewrite remove_one_cons in Hok3. do 3 eexists. split; [done|]. by right.
Qed.

(** What the client gains is what the call gave. *)
Lemma gains_ok cl d hr out :
  ((∃ p, hr = S_OK ∧ out = Some p ∧ com_ok (p :: cl_refs cl) (cl_locks cl) d)
   ∨ (hr ≠ S_OK ∧ com_ok (cl_refs cl) (cl_locks cl) d)) →
  com_ok (cl_refs (gains (hr, out) cl)) (cl_locks (gains (hr, out) cl)) d.
Proof. intros [(p & -> & -> & Hok)|[Hne Hok]]; [done|]. by destruct hr. Qed.

(** Every call that the rules allow returns and keeps the counts. *)
Lemma com_step_ok ev cl d :
  com_ok (cl_refs cl) (cl_locks cl) d → allowed ev cl d → small cl →
  ∃ cl' d', com_step ev cl d = (Ok cl', d') ∧ com_ok (cl_refs cl') (cl_locks cl') d'.
Proof.
  intros Hok Ha Hs. unfold small in Hs. pose proof (ck_locks _ _ _ Hok) as Hl.
  destruct ev as [rclsid riid ppv|p riid ppv|p|p|p outer riid ppv|p fLock]; cbn [com_step allowed] in *; unfold mbind, M_bind.
  - unfold DllGetClassObject. case_bool_decide; [|by do 2 eexists].
    destruct (make_ok _ _ _ ClassFactory riid ppv Hok Hs) as (hr & out & d' & -> & Hm).
    do 2 eexists. split; [done|]. by apply gains_ok.
  - destruct (QueryInterface_ok _ _ _ p riid ppv Hok Ha ltac:(lia)) as (hr & out & d' & -> & Hm).
    do 2 eexists. split; [done|]. apply gains_ok. destruct Hm as [?|?]; [left; by exists p|by right].
  - destruct (AddRef_ok _ _ _ p Hok Ha ltac:(lia)) as (n & d' & -> & Hm & _). by do 2 eexists.
  - destruct (Release_ok _ _ _ p Hok Ha ltac:(lia)) as (n & d' & -> & Hm). by do 2 eexists.
  - destruct Ha as [Hp _]. destruct (owned_object _ _ _ _ Hok Hp) as (o & Eo & _).
    unfold CreateInstance, mbind, M_bind. rewrite (this_owned p o d Eo). cbv beta iota.
    destruct (negb _); [by do 2 eexists|].
    destruct (make_ok _ _ _ MyUIAProxy riid ppv Hok Hs) as (hr & out & d' & -> & Hm).
    do 2 eexists. split; [done|]. by apply gains_ok.
  - destruct Ha as (Hp & _ & Hlock). destruct (owned_object _ _ _ _ Hok Hp) as (o & Eo & _).
    unfold LockServer, mbind, M_bind. rewrite (this_owned p o d Eo). cbv beta iota. do 2 eexists. split; [done|].
    pose proof (heap_size _ _ _ Hok) as Hsize. destruct Hok as [Ho Hc _ Hf Hn].
    destruct fLock; split; cbn; try done; try (rewrite to_long_small; lia); specialize (Hlock eq_refl) || idtac; lia.
Qed.

Lemma reach_ok hInst os cl d : com_reach hInst os cl d → com_ok (cl_refs cl) (cl_locks cl) d.
Proof.
  induction 1 as [d E|cl d ev cl' d' _ IH Ha Hs E].
  - unfold DllMain, mbind, M_bind, modify, call in E. cbn in E. destruct (answer _ os) as [[] os']. injection E as <-.
    split; cbn; try done. by intros p [? Hp].
  - destruct (com_step_ok ev cl d IH Ha Hs) as (cl1 & d1 & E1 & Hok). rewrite E1 in E. by injection E as <- <-.
Qed.

(** C14: Whatever clients that keep the rules of COM do, in any order, no method
    ever runs on an object that has been deleted and no count is off: every call
    that the rules allow returns, an object lives exactly as long as somebody
    owns a reference to it, and the library says that it can be unloaded exactly
    when all references and locks have been given back; then no object is left.
    The counters have room for fewer than 2^31 references and locks. *)
Theorem com_counts_exact hInst os cl d :
  com_reach hInst os cl d →
  (∀ ev, allowed ev cl d → small cl → ∃ cl' d', com_step ev cl d = (Ok cl', d'))
  ∧ (∀ p, is_Some (heap d !! p) ↔ p ∈ cl_refs cl)
  ∧ (DllCanUnloadNow d = (Ok S_OK, d) ↔ cl_refs cl = [] ∧ cl_locks cl = 0)
  ∧ (DllCanUnloadNow d = (Ok S_OK, d) → heap d = ∅).
Proof.
  intros Hr. pose proof (reach_ok _ _ _ _ Hr) as Hok.
  assert (∀ p, is_Some (heap d !! p) ↔ p ∈ cl_refs cl) as Hlive.
  { intros p. rewrite copies_elem. pose proof (ck_objects _ _ _ Hok p) as Ho.
    destruct (heap d !! p) as [o|]; split; intros Hp; [lia|eauto|by destruct Hp|lia]. }
  assert (DllCanUnloadNow d = (Ok S_OK, d) → heap d = ∅ ∧ cl_locks cl = 0) as Hun.
  { unfold DllCanUnloadNow, gets. rewrite (ck_count _ _ _ Hok). pose proof (ck_locks _ _ _ Hok).
    destruct (_ =? 0) eqn:E; [|done]. apply Z.eqb_eq in E. intros _.
    split; [apply map_size_empty_inv|]; lia. }
  split_and!; [|done| |intros Hc; by apply Hun].
  - intros ev Ha Hs. destruct (com_step_ok ev cl d Hok Ha Hs) as (cl' & d' & E & _). eauto.
  - split; intros Hc.
    + destruct (Hun Hc) as [Hh Hl]. split; [|done]. apply elem_of_nil_inv. intros p Hp%Hlive.
      rewrite Hh, lookup_empty in Hp. by destruct Hp.
    + destruct Hc as [Hc Hl]. unfold DllCanUnloadNow, gets. rewrite (ck_count _ _ _ Hok), Hl.
      pose proof (heap_size _ _ _ Hok) as Hs. rewrite Hc in Hs. cbn in Hs.
      replace (Z.of_nat (size (heap d)) + 0) with 0 by lia. done.
Qed.
End Clients.

(** * The registry *)

(** A key is another one or below it. *)
Definition below (key k : wide) : bool :=
  bool_decide (k = key) || bool_decide (take (length key + 1) k = key ++ [92]).

(** A value is found by the root, the key and its name; the default value of a
    key has none. *)
Abbreviation RegValues := (gmap (Z * wide * option wide) (Z * list Z)).

Definition outside (root : Z) (key : wide) (v : RegValues) : RegValues :=
  filter (λ e : (Z * wide * option wide) * (Z * list Z), ¬ (e.1.1.1 = root ∧ below key e.1.1.2 = true)) v.

(** What the documentation says of the registry: names do not depend on case; a
    key that has been opened can be written to until it is closed; a tree that
    has been deleted is gone, and one whose deletion failed may be gone in
    part. *)
Class Registry (OS : Type) `{System ExtCall OS} := {
  fold_case : wide → wide;
  fold_case_app a b : fold_case (a ++ b) = fold_case a ++ fold_case b;
  fold_case_sep : fold_case [92] = [92];
  values : OS → RegValues;
  opened : OS → gmap Z (Z * wide);
  guid_text : GUID → wide;
  disable_law h (os os' : OS) : answer (DisableThreadLibraryCalls h) os = ((), os') →
    values os' = values os ∧ opened os' = opened os;
  module_law h a (os os' : OS) : answer (GetModuleFileNameW h) os = (a, os') →
    values os' = values os ∧ opened os' = opened os;
  guid_law g a (os os' : OS) : answer (StringFromGUID2 g) os = (a, os') →
    a = guid_text g ∧ values os' = values os ∧ opened os' = opened os;
  create_law root k a (os os' : OS) : answer (CreateKey root k) os = (a, os') →
    values os' = values os
    ∧ match a with
      | Some h => opened os !! h = None ∧ opened os' = <[h := (root, fold_case k)]> (opened os)
      | None => opened os' = opened os
      end;
  set_law h root k n t data (b : bool) (os os' : OS) : opened os !! h = Some (root, k) →
    answer (SetValue h n t data) os = (b, os') →
    opened os' = opened os
    ∧ values os' = (if b then <[(root, k, fold_case <$> n) := (t, data)]> (values os) else values os);
  close_law h (os os' : OS) : answer (CloseKey h) os = ((), os') →
    values os' = values os ∧ opened os' = delete h (opened os);
  delete_law root k b (os os' : OS) : answer (RegDeleteTreeW root k) os = (b, os') →
    opened os' = opened os
    ∧ outside root (fold_case k) (values os') = outside root (fold_case k) (values os)
    ∧ (b = true → values os' = outside root (fold_case k) (values os)) }.

Section Registration.
Context {OS : Type} `{Registry OS}.
Implicit Types (d : Dll OS) (os : OS) (k : wide).

Lemma below_refl k : below k k = true.
Proof. unfold below. by rewrite bool_decide_eq_true_2. Qed.

Lemma below_sep k x : below k (k ++ [92] ++ x) = true.
Proof.
  unfold below. rewrite (bool_decide_eq_true_2 (take _ _ = _)); [apply orb_true_r|].
  by rewrite app_assoc, take_app_length' by (rewrite length_app; cbn; lia).
Qed.

Lemma outside_insert (root : Z) (key k : wide) (n : option wide) (x : Z * list Z) (v : RegValues) :
  below key k = true → outside root key (<[(root, k, n) := x]> v) = outside root key v.
Proof.
  intros Hb. unfold outside. apply map_eq. intros i. apply option_eq. intros y.
  rewrite !map_lookup_filter_Some. split; intros [Hi Hn]; (split; [|done]);
    (destruct (decide (i = (root, k, n))) as [->|Hne]; [by contradict Hn|]).
  - by rewrite lookup_insert_ne in Hi.
  - by rewrite lookup_insert_ne.
Qed.

Lemma outside_none (root : Z) (key : wide) (v : RegValues) :
  (∀ k n, below key k = true → v !! (root, k, n) = None) → outside root key v = v.
Proof.
  intros Hn. apply map_filter_id. intros [[r k] n] x Hi [Hr Hk]. cbn in Hr, Hk. subst r. by rewrite Hn in Hi.
Qed.

(** The library, with the system in another state. *)
Definition dll_at d (os : OS) : Dll OS := mkDll (g_refCount d) (g_hInst d) (heap d) (next d) (open_keys d) os.

(** Setting a value: it is there when that worked, nothing else has changed and
    the key has been closed. *)
Lemma SetRegistryKey_ok (root : Z) k (n data : wide) d :
  ∃ b os', SetRegistryKey root k n data d
           = (Ok b, dll_at d os')
    ∧ opened os' = opened (dll_os d)
    ∧ values os' = (if b then <[(root, fold_case k, match n with [] => None | _ => Some (fold_case n) end)
                                := (Win32Ops.REG_SZ, wide_bytes data)]> (values (dll_os d))
                    else values (dll_os d)).
Proof.
  unfold SetRegistryKey, mbind, M_bind, call, modify. destruct (answer (CreateKey root k) (dll_os d)) as [a os1] eqn:E1.
  destruct (create_law _ _ _ _ _ E1) as [Hv1 Ho1]. cbn [dll_os]. destruct a as [h|].
  - destruct Ho1 as [Hno Ho1].
    unfold with_keys. cbn [dll_os].
    destruct (answer (SetValue h _ _ _) os1) as [b os2] eqn:E2.
    destruct (set_law h root (fold_case k) _ _ _ b os1 os2 ltac:(by rewrite Ho1, lookup_insert_eq) E2) as [Ho2 Hv2].
    cbn [dll_os open_keys g_refCount g_hInst heap next]. destruct (answer (CloseKey h) os2) as [[] os3] eqn:E3.
    destruct (close_law _ _ _ E3) as [Hv3 Ho3]. exists b, os3. rewrite remove_one_cons. split_and!.
    + done.
    + by rewrite Ho3, Ho2, Ho1, delete_insert_id.
    + rewrite Hv3, Hv2, Hv1. by destruct b, n.
  - by exists false, os1.
Qed.

Definition clsid_key : wide := widen "CLSID\" ++ guid_text CLSID_WineUIAExtension.

Lemma class_key_ok d : ∃ os', class_key d = (Ok clsid_key, dll_at d os')
  ∧ opened os' = opened (dll_os d) ∧ values os' = values (dll_os d).
Proof.
  unfold class_key, mbind, M_bind, call. destruct (answer _ _) as [a os'] eqn:E.
  destruct (guid_law _ _ _ _ E) as (-> & Hv & Ho). by exists os'.
Qed.

(** What the library registers. *)
Definition registered (path : wide) (v : RegValues) : RegValues :=
  let key := fold_case clsid_key in
  let server := key ++ [92] ++ fold_case (widen "InProcServer32") in
  <[(HKEY_CLASSES_ROOT, server, Some (fold_case (widen "ThreadingModel"))) := (Win32Ops.REG_SZ, wide_bytes (widen "Both"))]>
  (<[(HKEY_CLASSES_ROOT, server, None) := (Win32Ops.REG_SZ, wide_bytes (wcs path))]>
   (<[(HKEY_CLASSES_ROOT, key, None) := (Win32Ops.REG_SZ, wide_bytes (widen "Wine UIA Extension"))]> v)).

Lemma outside_registered (path : wide) (v : RegValues) :
  outside HKEY_CLASSES_ROOT (fold_case clsid_key) (registered path v)
  = outside HKEY_CLASSES_ROOT (fold_case clsid_key) v.
Proof. unfold registered. rewrite !outside_insert by (apply below_sep || apply below_refl). done. Qed.

Lemma server_key : fold_case (clsid_key ++ widen "\InProcServer32")
  = fold_case clsid_key ++ [92] ++ fold_case (widen "InProcServer32").
Proof.
  rewrite fold_case_app. f_equal. change (widen "\InProcServer32") with ([92] ++ widen "InProcServer32").
  by rewrite fold_case_app, fold_case_sep.
Qed.

(** Nothing under the key of the class has been written. *)
Definition not_registered os : Prop :=
  ∀ k n, below (fold_case clsid_key) k = true → values os !! (HKEY_CLASSES_ROOT, k, n) = None.

Lemma bind_ok {A B} (m : M (Dll OS) A) (f : A → M (Dll OS) B) d a d' : m d = (Ok a, d') → (m ≫= f) d = f a d'.
Proof. intros E. unfold mbind, M_bind. by rewrite E. Qed.

(** One of the steps of the registration: it goes on, or it fails. *)
Lemma set_then root k (n data : wide) (rest : M (Dll OS) HRESULT) d os :
  let step := (ok ← SetRegistryKey root k n data; if negb ok then mret E_FAIL else rest) (dll_at d os) in
  ∃ os', opened os' = opened os
    ∧ ((step = (Ok E_FAIL, dll_at d os') ∧ values os' = values os)
       ∨ (step = rest (dll_at d os')
          ∧ values os' = <[(root, fold_case k, match n with [] => None | _ => Some (fold_case n) end)
                           := (Win32Ops.REG_SZ, wide_bytes data)]> (values os))).
Proof.
  cbv zeta. unfold mbind, M_bind. destruct (SetRegistryKey_ok root k n data (dll_at d os)) as (b & os' & -> & Ho & Hv).
  exists os'. split; [done|]. destruct b; [by right|by left].
Qed.

(** Registering returns, leaves no key open, and writes all of its values or
    fails; either way it touches nothing else. *)
Lemma register_ok d :
  ∃ hr os', DllRegisterServer d = (Ok hr, dll_at d os')
    ∧ opened os' = opened (dll_os d)
    ∧ outside HKEY_CLASSES_ROOT (fold_case clsid_key) (values os')
      = outside HKEY_CLASSES_ROOT (fold_case clsid_key) (values (dll_os d))
    ∧ (hr = S_OK → ∃ path os1, answer (GetModuleFileNameW (g_hInst d)) (dll_os d) = (Some path, os1)
                               ∧ values os' = registered path (values (dll_os d))).
Proof.
  destruct (answer (GetModuleFileNameW (g_hInst d)) (dll_os d)) as [path os1] eqn:E1.
  destruct (module_law _ _ _ _ E1) as [Hv1 Ho1]. rewrite <-Ho1, <-Hv1. clear Ho1 Hv1.
  unfold DllRegisterServer. rewrite (bind_ok _ _ d path (dll_at d os1)).
  2:{ unfold mbind, M_bind, gets, call. by rewrite E1. }
  destruct path as [path|]; [|by exists E_FAIL, os1].
  destruct (class_key_ok (dll_at d os1)) as (os2 & E2 & Ho2 & Hv2). rewrite (bind_ok _ _ _ _ _ E2).
  cbn [dll_os dll_at g_refCount g_hInst heap next open_keys] in *. rewrite <-Ho2, <-Hv2. clear E2 Ho2 Hv2.
  destruct (set_then HKEY_CLASSES_ROOT clsid_key [] (widen "Wine UIA Extension")
    (ok ← SetRegistryKey HKEY_CLASSES_ROOT (clsid_key ++ widen "\InProcServer32") [] (wcs path);
     if negb ok then mret E_FAIL else
     ok ← SetRegistryKey HKEY_CLASSES_ROOT (clsid_key ++ widen "\InProcServer32") (widen "ThreadingModel") (widen "Both");
     if negb ok then mret E_FAIL else mret S_OK) d os2) as (os3 & Ho3 & [[E3 Hv3]|[E3 Hv3]]);
    setoid_rewrite E3; rewrite <-Ho3; [by exists E_FAIL, os3; rewrite Hv3|].
  destruct (set_then HKEY_CLASSES_ROOT (clsid_key ++ widen "\InProcServer32") [] (wcs path)
    (ok ← SetRegistryKey HKEY_CLASSES_ROOT (clsid_key ++ widen "\InProcServer32") (widen "ThreadingModel") (widen "Both");
     if negb ok then mret E_FAIL else mret S_OK) d os3) as (os4 & Ho4 & [[E4 Hv4]|[E4 Hv4]]);
    setoid_rewrite E4; rewrite <-Ho4.
  { exists E_FAIL, os4. split_and!; try done. by rewrite Hv4, Hv3, outside_insert by apply below_refl. }
  destruct (set_then HKEY_CLASSES_ROOT (clsid_key ++ widen "\InProcServer32") (widen "ThreadingModel") (widen "Both")
    (mret S_OK) d os4) as (os5 & Ho5 & [[E5 Hv5]|[E5 Hv5]]);
    setoid_rewrite E5; rewrite <-Ho5; rewrite ?server_key in *.
  { exists E_FAIL, os5. split_and!; try done.
    by rewrite Hv5, Hv4, Hv3, !outside_insert by (apply below_sep || apply below_refl). }
  exists S_OK, os5. assert (values os5 = registered path (values os2)) as Hv by by rewrite Hv5, Hv4, Hv3.
  split_and!; [done|done|by rewrite Hv, outside_registered|eauto].
Qed.

Lemma unregister_ok d :
  ∃ os1, DllUnregisterServer d
         = (Ok S_OK, dll_at d (answer (RegDeleteTreeW HKEY_CLASSES_ROOT clsid_key) os1).2)
    ∧ opened os1 = opened (dll_os d) ∧ values os1 = values (dll_os d).
Proof.
  unfold DllUnregisterServer. destruct (class_key_ok d) as (os1 & E & Ho & Hv). rewrite (bind_ok _ _ _ _ _ E).
  exists os1. split; [|done]. unfold DeleteRegistryKey, mbind, M_bind, call. cbn [dll_os dll_at].
  by destruct (answer _ os1).
Qed.

(** C23: Registering the library always comes to an end with no key left open.
    When it reports success exactly three values have been written: the name of
    the class, the path of the library and its threading model. When it reports
    failure, what it may have written lies under the key of the class.
    Unregistering then reports success in any case and, where the system did
    delete the key, the registry is what it was before, provided that there was
    nothing under that key. *)
Theorem registration_roundtrip d :
  not_registered (dll_os d) →
  ∃ hr os1, DllRegisterServer d = (Ok hr, dll_at d os1)
    ∧ opened os1 = opened (dll_os d)
    ∧ (hr = S_OK → ∃ path, (answer (GetModuleFileNameW (g_hInst d)) (dll_os d)).1 = Some path
                           ∧ values os1 = registered path (values (dll_os d)))
    ∧ outside HKEY_CLASSES_ROOT (fold_case clsid_key) (values os1) = values (dll_os d)
    ∧ ∃ os2, let '(deleted, os3) := answer (RegDeleteTreeW HKEY_CLASSES_ROOT clsid_key) os2 in
        DllUnregisterServer (dll_at d os1) = (Ok S_OK, dll_at d os3)
        ∧ opened os3 = opened (dll_os d)
        ∧ outside HKEY_CLASSES_ROOT (fold_case clsid_key) (values os3) = values (dll_os d)
        ∧ (deleted = true → values os3 = values (dll_os d)).
Proof.
  intros Hno. pose proof (outside_none _ _ _ Hno) as Hout.
  destruct (register_ok d) as (hr & os1 & E1 & Ho1 & Hv1 & Hs). rewrite Hout in Hv1. exists hr, os1.
  split_and!; [done|done| |done|].
  { intros Hhr. destruct (Hs Hhr) as (path & os' & Ea & Hv). exists path. by rewrite Ea. }
  destruct (unregister_ok (dll_at d os1)) as (os2 & E2 & Ho2 & Hv2). exists os2.
  destruct (answer _ os2) as [deleted os3] eqn:E3. destruct (delete_law _ _ _ _ _ E3) as (Ho3 & Hv3 & Hd).
  cbn [snd dll_os dll_at] in *. rewrite Hv2, Hv1 in Hv3. split_and!; [done|congruence|done|].
  intros Hdel. by rewrite (Hd Hdel), Hv2, Hv1.
Qed.
End Registration.

(** * A system *)

Record Sys := mkSys { sys_values : RegValues; sys_open : gmap Z (Z * wide) }.

Definition sys_answer {A} (c : ExtCall A) (os : Sys) : A * Sys :=
  match c in ExtCall A return A * Sys with
  | DisableThreadLibraryCalls _ => ((), os)
  | GetModuleFileNameW _ => (Some (widen "C:\wine\uia.dll"), os)
  | StringFromGUID2 _ => (widen "{12345678-1234-1234-1234-123456789ABC}", os)
  | CreateKey root k =>
      let h := fresh (dom (sys_open os)) in (Some h, mkSys (sys_values os) (<[h := (root, k)]> (sys_open os)))
  | SetValue h n t data =>
      match sys_open os !! h with
      | Some (root, k) => (true, mkSys (<[(root, k, n) := (t, data)]> (sys_values os)) (sys_open os))
      | None => (false, os)
      end
  | CloseKey h => ((), mkSys (sys_values os) (delete h (sys_open os)))
  | RegDeleteTreeW root k => (true, mkSys (outside root k (sys_values os)) (sys_open os))
  end.

#[export] Instance sys_system : System ExtCall Sys := { answer := @sys_answer }.

Lemma outside_twice (root : Z) (key : wide) (v : RegValues) :
  outside root key (outside root key v) = outside root key v.
Proof. apply map_filter_id. by intros i x [_ Hx]%map_lookup_filter_Some. Qed.

#[export] Instance sys_registry : Registry Sys.
Proof.
  refine {| fold_case := λ k, k; values := sys_values; opened := sys_open;
            guid_text := λ _, widen "{12345678-1234-1234-1234-123456789ABC}" |}; try done;
    try by (intros; simplify_eq/=).
  - intros root k a os os' [= <- <-]. cbn. split; [done|]. split; [|done].
    apply not_elem_of_dom, is_fresh.
  - intros h root k n t data b os os' Hh. cbn. rewrite Hh. intros [= <- <-]. by destruct n.
  - intros root k b os os' [= <- <-]. cbn. by rewrite outside_twice.
Defined.

Definition sys_start : Dll Sys := (DllMain 4096 DLL_PROCESS_ATTACH (dll_image (mkSys ∅ ∅))).2.

Lemma sys_not_registered : not_registered (dll_os sys_start).
Proof. intros k n _. apply lookup_empty. Qed.

Lemma sys_registers : (DllRegisterServer sys_start).1 = Ok S_OK.
Proof. vm_compute. reflexivity. Qed.

Lemma sys_registered : size (registered (widen "C:\wine\uia.dll") (values (dll_os sys_start))) = 3%nat.
Proof. vm_compute. reflexivity. Qed.

Example registration_roundtrip_witness :
  ∃ d1 d2, DllRegisterServer sys_start = (Ok S_OK, d1) ∧ size (values (dll_os d1)) = 3%nat
    ∧ DllUnregisterServer d1 = (Ok S_OK, d2) ∧ values (dll_os d2) = values (dll_os sys_start).
Proof.
  destruct (registration_roundtrip sys_start sys_not_registered) as (hr & os1 & E1 & _ & Hs & _ & os2 & Hu).
  pose proof sys_registers as Ehr. rewrite E1 in Ehr. injection Ehr as ->.
  destruct (Hs eq_refl) as (path & Hp & Hv). injection Hp as <-.
  destruct (answer (RegDeleteTreeW HKEY_CLASSES_ROOT clsid_key) os2) as [deleted os3] eqn:E3.
  injection E3 as <- _. destruct Hu as (Eu & _ & _ & Hd). exists (dll_at sys_start os1), (dll_at sys_start os3).
  split_and!; [exact E1| |exact Eu|exact (Hd eq_refl)].
  cbn [dll_os dll_at]. rewrite Hv. exact sys_registered.
Defined.

(** A client takes the class factory, makes an object with it, and lets go of
    the factory and then of the object. *)
Definition run1 : Dll Sys :=
  (com_step (GetClassObject CLSID_WineUIAExtension IID_IClassFactory true) (mkClient [] 0) sys_start).2.
Definition run2 : Dll Sys := (com_step (Create 1 NULL IID_IUnknown true) (mkClient [1] 0) run1).2.
Definition run3 : Dll Sys := (com_step (Drop 1) (mkClient [2; 1] 0) run2).2.
Definition run4 : Dll Sys := (com_step (Drop 2) (mkClient [2] 0) run3).2.

Lemma reach_step {OS} `{System ExtCall OS} hInst (os : OS) cl d ev cl' :
  com_reach hInst os cl d → allowed ev cl d → small cl → (com_step ev cl d).1 = Ok cl' →
  com_reach hInst os cl' (com_step ev cl d).2.
Proof. intros Hr Ha Hs E. eapply com_next; [done..|]. destruct (com_step ev cl d). by cbn in *; subst. Qed.

Example com_counts_exact_witness :
  (∃ o, heap run3 !! 2 = Some o) ∧ DllCanUnloadNow run4 = (Ok S_OK, run4) ∧ heap run4 = ∅.
Proof.
  assert (com_reach 4096 (mkSys ∅ ∅) (mkClient [2] 0) run3) as Hr3.
  { apply reach_step; [|apply copies_elem; vm_compute; reflexivity|unfold small; cbn; lia|vm_compute; reflexivity].
    apply reach_step; [| |unfold small; cbn; lia|vm_compute; reflexivity].
    - apply reach_step; [by apply com_start|done|unfold small; cbn; lia|vm_compute; reflexivity].
    - split; [apply copies_elem|]; vm_compute; reflexivity. }
  assert (com_reach 4096 (mkSys ∅ ∅) (mkClient [] 0) run4) as Hr4.
  { apply reach_step; [done|apply copies_elem; vm_compute; reflexivity|unfold small; cbn; lia|vm_compute; reflexivity]. }
  destruct (com_counts_exact _ _ _ _ Hr3) as (_ & Hlive & _). destruct (com_counts_exact _ _ _ _ Hr4) as (_ & _ & Hu & Hh).
  split_and!; [apply Hlive, copies_elem; vm_compute; reflexivity|by apply Hu|by apply Hh, Hu].
Defined.
