(* ===== verification/GuiWindow.v ===== *)
(** [clients/gui/src/gui_main.cpp]: the transport of the GUI over the named
    pipe, its window with the tree of windows and the list of properties, and
    its main function. *)

From S2P Require Import Prelude CString Json Types Win32Api Win32 Framing ViewModel.

Local Open Scope Z_scope.

(** * The system *)

Definition WS_OVERLAPPEDWINDOW : Z := 0x00CF0000.
Definition WS_CHILD_VISIBLE_BORDER : Z := 0x50800000.
Definition TVS_STYLE : Z := 0x7.
Definition LVS_REPORT : Z := 0x1.
Definition LVS_EX_STYLE : Z := 0x21.
Definition ICC_CLASSES : Z := 0x3.
Definition CW_USEDEFAULT : Z := - 2 ^ 31.
(** The parent of the items at the top. *)
Definition TVI_ROOT : Z := 2 ^ 64 - 0x10000.
Definition TVN_SELCHANGEDW : Z := 2 ^ 32 - 451.

(** What the window is told; [WM_NOTIFY] with the code and, for the tree, the
    parameter of the item that is selected now. *)
Inductive Message :=
  | WM_NCCREATE
  | WM_SIZE
  | WM_NOTIFY (code : Z) (itemNew_lParam : Z)
  | WM_DESTROY
  | WM_other (uMsg : Z).

(** The calls; some of them return the messages that the system sends to the
    window in the course of the call. *)
Inductive GuiCall : Type → Type :=
  | InitCommonControlsEx (classes : Z) : GuiCall ()
  | RegisterClassExW (name : wide) : GuiCall bool
  | CreateWindowExW (cls title : wide) (style x y w h parent menu : Z) : GuiCall Z
  | ListView_SetExtendedListViewStyle (hwnd style : Z) : GuiCall ()
  | ListView_InsertColumn (hwnd i cx : Z) (text : wide) : GuiCall ()
  | ShowWindow (hwnd nCmdShow : Z) : GuiCall (list Message)
  | UpdateWindow (hwnd : Z) : GuiCall (list Message)
  | GetClientRect (hwnd : Z) : GuiCall (option Rect)
  | MoveWindow (hwnd x y w h : Z) : GuiCall ()
  | TreeView_DeleteAllItems (hwnd : Z) : GuiCall ()
  | TreeView_InsertItem (hwnd parent : Z) (text : wide) (lParam : Z) : GuiCall Z
  | ListView_DeleteAllItems (hwnd : Z) : GuiCall ()
  | ListView_InsertItem (hwnd i : Z) (text : wide) : GuiCall ()
  | ListView_SetItemText (hwnd i sub : Z) (text : wide) : GuiCall ()
  | PostQuitMessage (code : Z) : GuiCall ()
  | DefWindowProcW (hwnd : Z) (msg : Message) : GuiCall (list Message)
  | ControlProc (hwnd : Z) (msg : Message) : GuiCall (list Message)
  | GetMessage : GuiCall (option (Z * Message))
  | OpenPipe (name : wide) : GuiCall (option Z)
  | WriteFile (h : Z) (bytes : string) : GuiCall ()
  | ReadFile (h : Z) (n : Z) : GuiCall (option string)
  | CloseHandle (h : Z) : GuiCall ().

Section Gui.
Context {OS : Type} `{System GuiCall OS}.

Definition os_call {A} (c : GuiCall A) : M OS A := λ os, let '(a, os') := answer c os in (Ok a, os').

(** * PipeTransport *)

(** [n] bytes of memory that were zero, after a read that filled its first
    ones. *)
Fixpoint filled (n : nat) (got : string) : string :=
  match n, got with
  | O, _ => EmptyString
  | S n, EmptyString => String (chr 0) (filled n EmptyString)
  | S n, String c got => String c (filled n got)
  end.

(** [PipeTransport::request]: one connection per request, one read for the
    length and one for the text. *)
Definition PipeTransport_request (json : string) : M OS string :=
  h ← os_call (OpenPipe (widen "\\.\pipe\wininspectd"));
  match h with
  | None => mret (quoted "{'ok':false,'error':'no daemon'}")
  | Some h =>
      let len := Z.of_nat (String.length json) mod 2 ^ 32 in
      _ ← os_call (WriteFile h (le32 len));
      _ ← os_call (WriteFile h (str_take (Z.to_nat len) json));
      hdr ← os_call (ReadFile h 4);
      match hdr with
      | None => _ ← os_call (CloseHandle h); mret (quoted "{'ok':false}")
      | Some hdr =>
          let rlen := un_le32 (filled 4 hdr) in
          body ← os_call (ReadFile h rlen);
          _ ← os_call (CloseHandle h);
          mret (filled (Z.to_nat rlen) (default EmptyString body))
      end
  end.

#[export] Instance PipeTransport : ITransport OS := PipeTransport_request.
End Gui.

(** * The window *)

(** [WinInspectWindow]: its fields, with the model that [vm_] points to and
    whose transport is the system; the windows whose user data points to it; and
    the system. *)
Record WinInspectWindow (OS : Type) := mkWindow {
  hwnd_ : Z;
  hTree_ : Z;
  hList_ : Z;
  hInst_ : Z;
  vm_ : option (list Node * list Property);
  hwnd_storage_ : list string;
  user_data : list Z;
  gui_os : OS }.
Arguments mkWindow {OS} _ _ _ _ _ _ _ _.
Arguments hwnd_ {OS} _.
Arguments hTree_ {OS} _.
Arguments hList_ {OS} _.
Arguments hInst_ {OS} _.
Arguments vm_ {OS} _.
Arguments hwnd_storage_ {OS} _.
Arguments user_data {OS} _.
Arguments gui_os {OS} _.

Module Window.
Section Window.
Context {OS : Type} `{System GuiCall OS}.

Abbreviation Win := (M (WinInspectWindow OS)).

Definition set_hInst (x : Z) (g : WinInspectWindow OS) := mkWindow (hwnd_ g) (hTree_ g) (hList_ g) x (vm_ g) (hwnd_storage_ g) (user_data g) (gui_os g).
Definition set_hwnd (x : Z) (g : WinInspectWindow OS) := mkWindow x (hTree_ g) (hList_ g) (hInst_ g) (vm_ g) (hwnd_storage_ g) (user_data g) (gui_os g).
Definition set_controls (t l : Z) (g : WinInspectWindow OS) := mkWindow (hwnd_ g) t l (hInst_ g) (vm_ g) (hwnd_storage_ g) (user_data g) (gui_os g).
Definition set_vm (x : option (list Node * list Property)) (g : WinInspectWindow OS) := mkWindow (hwnd_ g) (hTree_ g) (hList_ g) (hInst_ g) x (hwnd_storage_ g) (user_data g) (gui_os g).
Definition set_storage (x : list string) (g : WinInspectWindow OS) := mkWindow (hwnd_ g) (hTree_ g) (hList_ g) (hInst_ g) (vm_ g) x (user_data g) (gui_os g).
Definition set_user_data (x : list Z) (g : WinInspectWindow OS) := mkWindow (hwnd_ g) (hTree_ g) (hList_ g) (hInst_ g) (vm_ g) (hwnd_storage_ g) x (gui_os g).
Definition set_os (x : OS) (g : WinInspectWindow OS) := mkWindow (hwnd_ g) (hTree_ g) (hList_ g) (hInst_ g) (vm_ g) (hwnd_storage_ g) (user_data g) x.

Definition sys {A} (c : GuiCall A) : Win A := zoom gui_os set_os (os_call c).

(** An operation of [*vm_]. *)
Definition on_vm {A} (m : M (ViewModel OS) A) : Win A := λ g,
  match vm_ g with
  | None => (Undef, g)
  | Some (tree, props) =>
      let '(r, vm) := m (mkViewModel (gui_os g) tree props) in
      (r, set_os (t_ vm) (set_vm (Some (tree_ vm, props_ vm)) g))
  end.
Definition tree : Win (list Node) := on_vm (gets tree_).
Definition props : Win (list Property) := on_vm (gets props_).

Definition WC_TREEVIEWW : wide := widen "SysTreeView32".
Definition WC_LISTVIEWW : wide := widen "SysListView32".

Definition createControls : Win () :=
  parent ← gets hwnd_;
  hTree ← sys (CreateWindowExW WC_TREEVIEWW [] (Z.lor WS_CHILD_VISIBLE_BORDER TVS_STYLE) 0 0 200 600 parent 101);
  _ ← modify (λ g, set_controls hTree (hList_ g) g);
  hList ← sys (CreateWindowExW WC_LISTVIEWW [] (Z.lor WS_CHILD_VISIBLE_BORDER LVS_REPORT) 200 0 600 600 parent 102);
  _ ← modify (λ g, set_controls (hTree_ g) hList g);
  _ ← sys (ListView_SetExtendedListViewStyle hList LVS_EX_STYLE);
  _ ← sys (ListView_InsertColumn hList 0 150 (widen "Property"));
  sys (ListView_InsertColumn hList 1 400 (widen "Value")).

(** The corners are not set when the call fails. *)
Definition onSize : Win () :=
  r ← (h ← gets hwnd_; sys (GetClientRect h));
  match r with
  | None => λ g, (Undef, g)
  | Some r =>
      let w := right r - left r in
      let h := bottom r - top r in
      let split := 250 in
      hTree ← gets hTree_;
      _ ← sys (MoveWindow hTree 0 0 split h);
      hList ← gets hList_;
      sys (MoveWindow hList split 0 (w - split) h)
  end.

(** A text for a control: each byte is made a character, up to the first that is
    zero. *)
Definition shown_text (s : string) : wide := wcs (widen s).

Fixpoint addNode (parent : Z) (n : Node) : Win () :=
  _ ← modify (λ g, set_storage (hwnd_storage_ g ++ [n_hwnd n]) g);
  lParam ← gets (λ g, Z.of_nat (length (hwnd_storage_ g)) - 1);
  hTree ← gets hTree_;
  hItem ← sys (TreeView_InsertItem hTree parent (shown_text (n_label n)) lParam);
  (fix children (l : list Node) : Win () :=
     match l with [] => mret () | child :: l => _ ← addNode hItem child; children l end) (n_children n).

Fixpoint addNodes (parent : Z) (l : list Node) : Win () :=
  match l with [] => mret () | n :: l => _ ← addNode parent n; addNodes parent l end.

Definition refresh : Win () :=
  _ ← on_vm refresh;
  hTree ← gets hTree_;
  _ ← sys (TreeView_DeleteAllItems hTree);
  _ ← modify (set_storage []);
  l ← tree;
  addNodes TVI_ROOT l.

Fixpoint add_rows (hList i : Z) (l : list Property) : Win () :=
  match l with
  | [] => mret ()
  | p :: l =>
      _ ← sys (ListView_InsertItem hList i (shown_text (p_key p)));
      _ ← sys (ListView_SetItemText hList i 1 (shown_text (p_value p)));
      add_rows hList (i + 1) l
  end.

Definition updateProps : Win () :=
  hList ← gets hList_;
  _ ← sys (ListView_DeleteAllItems hList);
  l ← props;
  add_rows hList 0 l.

(** The parameter as an index, [size_t]. *)
Definition onNotify (code lParam : Z) : Win () :=
  if code =? TVN_SELCHANGEDW then
    let idx := lParam mod 2 ^ 64 in
    storage ← gets hwnd_storage_;
    match storage !! Z.to_nat idx with
    | Some hwnd => _ ← on_vm (select_hwnd hwnd); updateProps
    | None => mret ()
    end
  else mret ().

(** [wndProc]: [self] is this window when the user data says so. Also the
    messages that are sent on the way out. *)
Definition wndProc (hwnd : Z) (msg : Message) : Win (list Message) :=
  match msg with
  | WM_NCCREATE => _ ← modify (λ g, set_user_data (hwnd :: user_data g) g); sys (DefWindowProcW hwnd msg)
  | _ =>
      self ← gets (λ g, bool_decide (hwnd ∈ user_data g));
      if self : bool then
        match msg with
        | WM_SIZE => _ ← onSize; mret []
        | WM_NOTIFY code lParam => _ ← onNotify code lParam; mret []
        | WM_DESTROY => _ ← sys (PostQuitMessage 0); mret []
        | _ => sys (DefWindowProcW hwnd msg)
        end
      else sys (DefWindowProcW hwnd msg)
  end.

(** Messages that are sent to the window, and those that they lead to. *)
Fixpoint deliver (fuel : nat) (hwnd : Z) (msgs : list Message) : Win () :=
  match msgs, fuel with
  | [], _ => mret ()
  | _, O => λ g, (OutOfFuel, g)
  | msg :: msgs, S fuel => sent ← wndProc hwnd msg; deliver fuel hwnd (sent ++ msgs)
  end.

(** [init]; the system tells the window of its creation while it creates it,
    and of nothing else that it listens to. *)
Definition init (hInst : Z) : Win bool :=
  _ ← modify (set_hInst hInst);
  ok ← sys (RegisterClassExW (widen "WinInspectGUI"));
  if negb ok then mret false else
  h ← sys (CreateWindowExW (widen "WinInspectGUI") (widen "WinInspect") WS_OVERLAPPEDWINDOW
             CW_USEDEFAULT CW_USEDEFAULT 800 600 NULL 0);
  _ ← (if h =? NULL then mret [] else wndProc h WM_NCCREATE);
  _ ← modify (set_hwnd h);
  if h =? NULL then mret false else
  _ ← modify (set_vm (Some ([], [])));
  _ ← createControls;
  _ ← refresh;
  mret true.

Definition show (fuel : nat) (nCmdShow : Z) : Win () :=
  h ← gets hwnd_;
  sent ← sys (ShowWindow h nCmdShow);
  _ ← deliver fuel h sent;
  sent ← sys (UpdateWindow h);
  deliver fuel h sent.

(** [DispatchMessage]: a message of the window, or of one of its controls, which
    may tell the window. *)
Definition DispatchMessage (fuel : nat) (hwnd : Z) (msg : Message) : Win () :=
  h ← gets hwnd_;
  if hwnd =? h then deliver fuel h [msg] else sent ← sys (ControlProc hwnd msg); deliver fuel h sent.

(** The loop of [WinMain], for as many messages as [fuel]. *)
Fixpoint message_loop (fuel : nat) : Win () :=
  match fuel with
  | O => λ g, (OutOfFuel, g)
  | S fuel' =>
      msg ← sys GetMessage;
      match msg with
      | None => mret ()
      | Some (hwnd, msg) => _ ← DispatchMessage fuel hwnd msg; message_loop fuel'
      end
  end.

Definition WinMain (hInst nCmdShow : Z) (fuel : nat) : Win Z :=
  _ ← sys (InitCommonControlsEx ICC_CLASSES);
  ok ← init hInst;
  if negb ok then mret 1 else
  _ ← show fuel nCmdShow;
  _ ← message_loop fuel;
  mret 0.
End Window.
End Window.

(** The object before [init]. *)
Definition new_window {OS} (os : OS) : WinInspectWindow OS := mkWindow NULL NULL NULL NULL None [] [] os.
