(* ===== verification/GuiWindowProps.v ===== *)
(** Properties of the GUI's window: its tree shows the view model's, and
    selecting an item, whatever has happened in between, selects the window that
    the item was made for. *)

From S2P Require Import Prelude StdMap CString Json Types Backend Win32Api Win32 Framing ViewModel GuiWindow.

Local Open Scope Z_scope.

(** * The controls *)

(** An item of a tree view. *)
Record TreeItem := mkTreeItem { ti_handle : Z; ti_parent : Z; ti_text : wide; ti_param : Z }.

(** What the documentation says of tree and list views, while there is memory
    for their items: an item that is inserted last comes last, with a handle of
    its own, and a row that is inserted at the end comes there. *)
Class CommonControls (OS : Type) `{System GuiCall OS} := {
  tree_items : OS → Z → list TreeItem;
  list_rows : OS → Z → list (wide * wide);
  clear_tree_law h (os os' : OS) : answer (TreeView_DeleteAllItems h) os = ((), os') → tree_items os' h = [];
  insert_item_law h p t i x (os os' : OS) : answer (TreeView_InsertItem h p t i) os = (x, os') →
    (x ∉ ti_handle <$> tree_items os h) ∧ tree_items os' h = tree_items os h ++ [mkTreeItem x p t i];
  clear_list_law h (os os' : OS) : answer (ListView_DeleteAllItems h) os = ((), os') → list_rows os' h = [];
  insert_row_law h t (os os' : OS) :
    answer (ListView_InsertItem h (Z.of_nat (length (list_rows os h))) t) os = ((), os') →
    list_rows os' h = list_rows os h ++ [(t, [])];
  set_text_law h l k v t (os os' : OS) : list_rows os h = l ++ [(k, v)] →
    answer (ListView_SetItemText h (Z.of_nat (length l)) 1 t) os = ((), os') → list_rows os' h = l ++ [(k, t)] }.

(** * What a tree view shows *)

(** Items that show a node and what is below it, each with the place of its
    node's handle in [st]. *)
Inductive shown (st : list string) : Z → Node → list TreeItem → Prop :=
  | shown_node p n h i items :
      st !! i = Some (n_hwnd n) → shown_forest st h (n_children n) items →
      shown st p n (mkTreeItem h p (Window.shown_text (n_label n)) (Z.of_nat i) :: items)
with shown_forest (st : list string) : Z → list Node → list TreeItem → Prop :=
  | shown_nil p : shown_forest st p [] []
  | shown_cons p n l a b : shown st p n a → shown_forest st p l b → shown_forest st p (n :: l) (a ++ b).

(** The nodes of a tree, from the top, and of several. *)
Fixpoint preorder (n : Node) : list Node :=
  n :: (fix go (l : list Node) : list Node := match l with [] => [] | c :: l => preorder c ++ go l end) (n_children n).
Definition preorders (l : list Node) : list Node := l ≫= preorder.

Lemma preorder_unfold n : preorder n = n :: preorders (n_children n).
Proof. by destruct n. Qed.

Lemma Node_nested_ind (P : Node → Prop) :
  (∀ n, Forall P (n_children n) → P n) → ∀ n, P n.
Proof.
  intros Hn. fix IH 1. intros [h t cs]. apply Hn. cbn. induction cs as [|c cs IHl]; constructor; [apply IH|apply IHl].
Qed.

Scheme shown_mut := Induction for shown Sort Prop
  with shown_forest_mut := Induction for shown_forest Sort Prop.
Combined Scheme shown_both from shown_mut, shown_forest_mut.

(** Every item shows a node, with its label. *)
Lemma shown_item st :
  (∀ p n items, shown st p n items → ∀ it, it ∈ items →
     ∃ m, m ∈ preorder n ∧ ti_text it = Window.shown_text (n_label m) ∧ ∃ i, ti_param it = Z.of_nat i ∧ st !! i = Some (n_hwnd m))
  ∧ (∀ p l items, shown_forest st p l items → ∀ it, it ∈ items →
     ∃ m, m ∈ preorders l ∧ ti_text it = Window.shown_text (n_label m) ∧ ∃ i, ti_param it = Z.of_nat i ∧ st !! i = Some (n_hwnd m)).
Proof.
  apply (shown_both st
    (λ p n items _, ∀ it, it ∈ items → ∃ m, m ∈ preorder n ∧ ti_text it = Window.shown_text (n_label m)
                      ∧ ∃ i, ti_param it = Z.of_nat i ∧ st !! i = Some (n_hwnd m))
    (λ p l items _, ∀ it, it ∈ items → ∃ m, m ∈ preorders l ∧ ti_text it = Window.shown_text (n_label m)
                      ∧ ∃ i, ti_param it = Z.of_nat i ∧ st !! i = Some (n_hwnd m))).
  - intros p n h i items Hi _ IH it [->|Hit]%elem_of_cons; [exists n|destruct (IH it Hit) as (m & Hm & Hr); exists m];
      rewrite preorder_unfold; (split; [apply elem_of_cons; eauto|eauto]).
  - by intros p it ?%elem_of_nil.
  - intros p n l a b _ IHa _ IHb it [Ha|Hb]%elem_of_app; [destruct (IHa it Ha) as (m & Hm & Hr)|destruct (IHb it Hb) as (m & Hm & Hr)];
      exists m; (split; [cbn; apply elem_of_app; eauto|done]).
Qed.

(** More strings do no harm. *)
Lemma shown_app st st' :
  (∀ p n items, shown st p n items → shown (st ++ st') p n items)
  ∧ (∀ p l items, shown_forest st p l items → shown_forest (st ++ st') p l items).
Proof.
  apply (shown_both st (λ p n items _, shown (st ++ st') p n items) (λ p l items _, shown_forest (st ++ st') p l items)).
  - intros. constructor; [by apply lookup_app_l_Some|done].
  - constructor.
  - by constructor.
Qed.

(** * Filling the tree *)

Section Props.
Context {OS : Type} `{CommonControls OS}.
Implicit Types (g : WinInspectWindow OS) (os : OS).

(** The window after items have been added: more strings, and another state of
    the system. *)
Definition grown g (more : list string) os : WinInspectWindow OS :=
  Window.set_os os (Window.set_storage (hwnd_storage_ g ++ more) g).

Lemma grown_twice g a b os os' : grown (grown g a os) b os' = grown g (a ++ b) os'.
Proof. unfold grown. cbn. by rewrite app_assoc. Qed.

Lemma grown_nil g : grown g [] (gui_os g) = g.
Proof. unfold grown. cbn. rewrite app_nil_r. by destruct g. Qed.

Definition handles (os : OS) (h : Z) : list Z := ti_handle <$> tree_items os h.

(** What an operation adds: the strings of some nodes, in order, and items that
    show them. *)
Definition adds (m : M (WinInspectWindow OS) ()) (nodes : list Node) (P : list string → list TreeItem → Prop) : Prop :=
  ∀ g, NoDup (handles (gui_os g) (hTree_ g)) →
  ∃ os' items, m g = (Ok (), grown g (n_hwnd <$> nodes) os')
    ∧ tree_items os' (hTree_ g) = tree_items (gui_os g) (hTree_ g) ++ items
    ∧ NoDup (handles os' (hTree_ g))
    ∧ P (hwnd_storage_ g ++ (n_hwnd <$> nodes)) items.

Lemma sys_eq {A} (c : GuiCall A) g a os' :
  answer c (gui_os g) = (a, os') → Window.sys c g = (Ok a, Window.set_os os' g).
Proof. intros E. unfold Window.sys, zoom, os_call. by rewrite E. Qed.

Lemma win_bind {A B} (m : M (WinInspectWindow OS) A) (f : A → M (WinInspectWindow OS) B) g a g' :
  m g = (Ok a, g') → (m ≫= f) g = f a g'.
Proof. intros E. unfold mbind, M_bind. by rewrite E. Qed.

(** A row of operations that each add. *)
Lemma addNodes_of p l :
  Forall (λ n, ∀ p, adds (Window.addNode p n) (preorder n) (λ st, shown st p n)) l →
  adds (Window.addNodes p l) (preorders l) (λ st, shown_forest st p l).
Proof.
  induction 1 as [|n l Hn _ IH]; intros g Hg.
  - exists (gui_os g), []. rewrite app_nil_r. cbn [preorders mbind list_bind fmap list_fmap].
    rewrite grown_nil, app_nil_r. split_and!; [done|done|done|constructor].
  - destruct (Hn p g Hg) as (os1 & a & E1 & T1 & N1 & S1).
    destruct (IH (grown g (n_hwnd <$> preorder n) os1) N1) as (os2 & b & E2 & T2 & N2 & S2).
    exists os2, (a ++ b). cbn [Window.addNodes]. rewrite (win_bind _ _ _ _ _ E1), E2, grown_twice.
    change (preorders (n :: l)) with (preorder n ++ preorders l). rewrite fmap_app.
    cbn in T2, S2, N2. rewrite T2, T1, <-!app_assoc in *. split_and!; [done|done|done|].
    constructor; [|done]. rewrite app_assoc. by apply (proj1 (shown_app _ _)).
Qed.

Lemma addNode_eq p n g :
  Window.addNode p n g
  = (_ ← modify (λ g, Window.set_storage (hwnd_storage_ g ++ [n_hwnd n]) g);
     lParam ← gets (λ g, Z.of_nat (length (hwnd_storage_ g)) - 1);
     hTree ← gets hTree_;
     hItem ← Window.sys (TreeView_InsertItem hTree p (Window.shown_text (n_label n)) lParam);
     Window.addNodes hItem (n_children n)) g.
Proof.
  destruct n as [h t cs]. cbn [Window.addNode n_hwnd n_label n_children]. unfold mbind, M_bind, modify, gets.
  cbv beta iota. destruct (Window.sys _ _) as [[x| | |] g']; try done. clear h t. revert g'.
  induction cs as [|c cs IH]; intros g'; [done|]. cbn [Window.addNodes]. unfold mbind, M_bind.
  by destruct (Window.addNode x c g') as [[[]| | |] g''].
Qed.

Lemma addNode_adds p n : adds (Window.addNode p n) (preorder n) (λ st, shown st p n).
Proof.
  revert p. induction n as [n IH] using Node_nested_ind. intros p g Hg. rewrite addNode_eq.
  do 3 (erewrite win_bind by reflexivity; cbv beta).
  cbn [hwnd_storage_ Window.set_storage hTree_].
  match goal with |- context [Window.sys ?c] => destruct (answer c (gui_os g)) as [x os1] eqn:E end.
  destruct (insert_item_law _ _ _ _ _ _ _ E) as [Hx Ht].
  rewrite (win_bind _ _ _ x (grown g [n_hwnd n] os1)) by by apply sys_eq.
  assert (NoDup (handles os1 (hTree_ g))) as Hn1.
  { unfold handles. rewrite Ht, fmap_app. apply NoDup_app. split_and!; [done| |apply NoDup_singleton].
    cbn. intros y Hy ->%list_elem_of_singleton. by apply Hx. }
  destruct (addNodes_of x (n_children n) IH (grown g [n_hwnd n] os1) Hn1) as (os2 & b & E2 & T2 & N2 & S2).
  eexists os2, (_ :: b). rewrite E2, grown_twice, preorder_unfold. cbn in T2, N2, S2. rewrite T2, Ht, <-app_assoc.
  split_and!; [done|done|done|]. rewrite <-app_assoc in S2. rewrite length_app. cbn [length].
  replace (Z.of_nat (length (hwnd_storage_ g) + 1) - 1) with (Z.of_nat (length (hwnd_storage_ g))) by lia.
  constructor; [|exact S2]. cbn. by rewrite lookup_app_r, Nat.sub_diag by lia.
Qed.

(** What [refresh] comes to when the view model's did. *)
Lemma refresh_shows g tree props vm :
  vm_ g = Some (tree, props) →
  ViewModel.refresh (mkViewModel (gui_os g) tree props) = (Ok (), vm) →
  ∃ os', Window.refresh g
         = (Ok (), Window.set_os os' (Window.set_storage (n_hwnd <$> preorders (tree_ vm))
                     (Window.set_vm (Some (tree_ vm, props_ vm)) g)))
    ∧ NoDup (handles os' (hTree_ g))
    ∧ shown_forest (n_hwnd <$> preorders (tree_ vm)) TVI_ROOT (tree_ vm) (tree_items os' (hTree_ g)).
Proof.
  intros Hv E. unfold Window.refresh.
  rewrite (win_bind _ _ g () (Window.set_os (t_ vm) (Window.set_vm (Some (tree_ vm, props_ vm)) g)))
    by (unfold Window.on_vm; by rewrite Hv, E).
  rewrite (win_bind (gets hTree_) _ _ _ _ eq_refl). cbn [hTree_ Window.set_os Window.set_vm].
  destruct (answer (TreeView_DeleteAllItems (hTree_ g)) (t_ vm)) as [[] os1] eqn:Ed.
  pose proof (clear_tree_law _ _ _ Ed) as Hc. erewrite win_bind by by apply sys_eq.
  do 2 (erewrite win_bind by reflexivity; cbv beta).
  match goal with |- context [Window.addNodes _ _ ?g1] =>
    destruct (addNodes_of TVI_ROOT (tree_ vm) ltac:(apply Forall_forall; intros; apply addNode_adds) g1)
      as (os2 & items & E2 & T2 & N2 & S2)
  end.
  { unfold handles. cbn. rewrite Hc. constructor. }
  exists os2. cbn in T2, N2, S2. rewrite Hc in T2. cbn in T2. rewrite T2. split_and!; [|done|done].
  etransitivity; [exact E2|]. done.
Qed.

(** * Messages *)

(** The window goes on: it handles messages, and the system changes. *)
Inductive gui_run g : WinInspectWindow OS → Prop :=
  | run_here : gui_run g g
  | run_system g1 os : gui_run g g1 → gui_run g (Window.set_os os g1)
  | run_message g1 hwnd msg sent g2 : gui_run g g1 → msg ≠ WM_NCCREATE →
      Window.wndProc hwnd msg g1 = (Ok sent, g2) → gui_run g g2.

(** What stays. *)
Record same_window g g1 : Prop := {
  sw_hwnd : hwnd_ g1 = hwnd_ g;
  sw_tree : hTree_ g1 = hTree_ g;
  sw_list : hList_ g1 = hList_ g;
  sw_storage : hwnd_storage_ g1 = hwnd_storage_ g;
  sw_user : user_data g1 = user_data g;
  sw_vm : is_Some (vm_ g) → is_Some (vm_ g1) }.

#[export] Instance same_window_preorder : PreOrder same_window.
Proof. split; [by intros g|]. intros g1 g2 g3 [] []. split; congruence || auto. Qed.

Lemma system_same g os : same_window g (Window.set_os os g).
Proof. done. Qed.

(** Operations that leave the window as it is. *)
Lemma keeps_sys {A} (c : GuiCall A) : keeps same_window (Window.sys c).
Proof. intros g. destruct (answer c (gui_os g)) eqn:E. by rewrite (sys_eq _ _ _ _ E). Qed.
Lemma keeps_vm {A} (m : M (ViewModel OS) A) : keeps same_window (Window.on_vm m).
Proof.
  intros g. unfold Window.on_vm. destruct (vm_ g) as [[t p]|] eqn:E; [|done].
  destruct (m _) as [r vm]. by split.
Qed.
Lemma keeps_rows h i l : keeps same_window (Window.add_rows h i l).
Proof.
  revert i. induction l as [|p l IH]; intros i; cbn [Window.add_rows]; [refine (keeps_ret _ _)|].
  do 2 (refine (keeps_bind _ _ _ _ _); [apply keeps_sys|intros _]). apply IH.
Qed.
Lemma keeps_updateProps : keeps same_window Window.updateProps.
Proof.
  refine (keeps_bind _ _ _ _ _); [refine (keeps_gets _ _)|intros h]. refine (keeps_bind _ _ _ _ _); [apply keeps_sys|intros _].
  refine (keeps_bind _ _ _ _ _); [apply keeps_vm|intros l]. apply keeps_rows.
Qed.

Lemma keeps_onSize : keeps same_window Window.onSize.
Proof.
  unfold Window.onSize. refine (keeps_bind _ _ _ _ _).
  { refine (keeps_bind _ _ _ _ _); [refine (keeps_gets _ _)|intros h; apply keeps_sys]. }
  intros [r|]; [|by intros g]. cbv zeta.
  refine (keeps_bind _ _ _ _ _); [refine (keeps_gets _ _)|intros t].
  refine (keeps_bind _ _ _ _ _); [apply keeps_sys|intros _].
  refine (keeps_bind _ _ _ _ _); [refine (keeps_gets _ _)|intros l]. apply keeps_sys.
Qed.
Lemma keeps_onNotify code i : keeps same_window (Window.onNotify code i).
Proof.
  unfold Window.onNotify. destruct (_ =? _); [|refine (keeps_ret _ _)]. refine (keeps_bind _ _ _ _ _); [refine (keeps_gets _ _)|intros st].
  destruct (st !! _); [|refine (keeps_ret _ _)]. refine (keeps_bind _ _ _ _ _); [apply keeps_vm|intros _; apply keeps_updateProps].
Qed.
Lemma keeps_wndProc hwnd msg : msg ≠ WM_NCCREATE → keeps same_window (Window.wndProc hwnd msg).
Proof.
  intros Hm. unfold Window.wndProc. destruct msg; [done|..]; (refine (keeps_bind _ _ _ _ _); [refine (keeps_gets _ _)|intros [|]; [|apply keeps_sys]]);
    try apply keeps_sys; (refine (keeps_bind _ _ _ _ _); [|intros _; refine (keeps_ret _ _)]);
    [apply keeps_onSize|apply keeps_onNotify|apply keeps_sys].
Qed.

Lemma gui_run_same g g' : gui_run g g' → same_window g g'.
Proof.
  induction 1 as [|g1 os _ IH|g1 hwnd msg sent g2 _ IH Hm E]; [done|..]; (etransitivity; [exact IH|]); [apply system_same|].
  pose proof (keeps_wndProc hwnd msg Hm g1) as Hk. by rewrite E in Hk.
Qed.

(** * Rows *)

Definition row_of (p : Property) : wide * wide := (Window.shown_text (p_key p), Window.shown_text (p_value p)).

Lemma add_rows_shows h l g :
  ∃ os', Window.add_rows h (Z.of_nat (length (list_rows (gui_os g) h))) l g = (Ok (), Window.set_os os' g)
    ∧ list_rows os' h = list_rows (gui_os g) h ++ (row_of <$> l).
Proof.
  revert g. induction l as [|p l IH]; intros g.
  - exists (gui_os g). rewrite app_nil_r. split; [by destruct g|done].
  - cbn [Window.add_rows].
    destruct (answer (ListView_InsertItem h (Z.of_nat (length (list_rows (gui_os g) h))) (Window.shown_text (p_key p))) (gui_os g))
      as [[] os1] eqn:E1. pose proof (insert_row_law _ _ _ _ E1) as R1. rewrite (win_bind _ _ _ _ _ (sys_eq _ _ _ _ E1)).
    destruct (answer (ListView_SetItemText h (Z.of_nat (length (list_rows (gui_os g) h))) 1 (Window.shown_text (p_value p))) os1)
      as [[] os2] eqn:E2. pose proof (set_text_law _ _ _ _ _ _ _ R1 E2) as R2.
    rewrite (win_bind _ _ _ () (Window.set_os os2 g)) by by apply (sys_eq _ (Window.set_os os1 g)).
    destruct (IH (Window.set_os os2 g)) as (os3 & E3 & R3). cbn [gui_os Window.set_os] in E3, R3.
    exists os3. rewrite R2, length_app in E3. cbn [length] in E3.
    replace (Z.of_nat (length (list_rows (gui_os g) h)) + 1) with (Z.of_nat (length (list_rows (gui_os g) h) + 1)) by lia.
    rewrite E3, R3, R2, <-app_assoc. done.
Qed.

(** The list shows the properties. *)
Lemma updateProps_shows g tree props :
  vm_ g = Some (tree, props) →
  ∃ os', Window.updateProps g = (Ok (), Window.set_os os' g) ∧ list_rows os' (hList_ g) = row_of <$> props.
Proof.
  intros Hv. unfold Window.updateProps. erewrite win_bind by reflexivity.
  destruct (answer (ListView_DeleteAllItems (hList_ g)) (gui_os g)) as [[] os1] eqn:E1.
  pose proof (clear_list_law _ _ _ E1) as R1. rewrite (win_bind _ _ _ _ _ (sys_eq _ _ _ _ E1)).
  rewrite (win_bind _ _ _ props (Window.set_os os1 g)).
  - destruct (add_rows_shows (hList_ g) props (Window.set_os os1 g)) as (os2 & E2 & R2).
    cbn [gui_os Window.set_os] in E2, R2. rewrite R1 in E2, R2. by exists os2.
  - unfold Window.props, Window.on_vm. cbn. rewrite Hv. cbn. by destruct g; cbn in *; subst.
Qed.

(** * Selecting *)

(** An item's parameter leads to its node's handle. *)
Lemma select_message g i hwnd :
  hwnd_ g ∈ user_data g → hwnd_storage_ g !! i = Some hwnd → Z.of_nat (length (hwnd_storage_ g)) < 2 ^ 64 →
  Window.wndProc (hwnd_ g) (WM_NOTIFY TVN_SELCHANGEDW (Z.of_nat i)) g
  = (_ ← Window.on_vm (select_hwnd hwnd); _ ← Window.updateProps; mret []) g.
Proof.
  intros Hu Hi Hl. pose proof (lookup_lt_Some _ _ _ Hi). unfold Window.wndProc. erewrite win_bind by reflexivity. cbv beta.
  rewrite bool_decide_eq_true_2 by done. unfold Window.onNotify. rewrite Z.eqb_refl. cbv zeta.
  rewrite Z.mod_small by lia. rewrite Nat2Z.id. unfold mbind, M_bind, gets. cbv beta iota. rewrite Hi.
  by destruct (Window.on_vm _ g) as [[]].
Qed.

Lemma select_rows g hwnd tree props vm :
  vm_ g = Some (tree, props) →
  select_hwnd hwnd (mkViewModel (gui_os g) tree props) = (Ok (), vm) →
  ∃ g', (_ ← Window.on_vm (select_hwnd hwnd); _ ← Window.updateProps; mret (@nil Message)) g = (Ok [], g')
    ∧ vm_ g' = Some (tree_ vm, props_ vm) ∧ list_rows (gui_os g') (hList_ g) = row_of <$> props_ vm.
Proof.
  intros Hv E. rewrite (win_bind _ _ g () (Window.set_os (t_ vm) (Window.set_vm (Some (tree_ vm, props_ vm)) g)))
    by (unfold Window.on_vm; by rewrite Hv, E).
  destruct (updateProps_shows (Window.set_os (t_ vm) (Window.set_vm (Some (tree_ vm, props_ vm)) g)) (tree_ vm) (props_ vm) eq_refl)
    as (os' & E' & R). rewrite (win_bind _ _ _ _ _ E'). by eexists.
Qed.

Lemma win_bind_inv {A B} (m : M (WinInspectWindow OS) A) (f : A → M (WinInspectWindow OS) B) g b g' :
  (m ≫= f) g = (Ok b, g') → ∃ a g1, m g = (Ok a, g1) ∧ f a g1 = (Ok b, g').
Proof. unfold mbind, M_bind. destruct (m g) as [[a| | |] g1]; try done. by exists a, g1. Qed.

Lemma createControls_keeps g g' :
  Window.createControls g = (Ok (), g') →
  hwnd_ g' = hwnd_ g ∧ user_data g' = user_data g ∧ vm_ g' = vm_ g.
Proof.
  unfold Window.createControls, mbind, M_bind, modify, gets, Window.sys, zoom, os_call. cbn.
  repeat (destruct (answer _ _); cbn). by intros [= _ <-].
Qed.

(** A window that has been made listens to its messages. *)
Lemma init_made hInst os g0 :
  Window.init hInst (new_window os) = (Ok true, g0) →
  ∃ g1, vm_ g1 = Some ([], []) ∧ hwnd_ g1 ∈ user_data g1 ∧ Window.refresh g1 = (Ok (), g0).
Proof.
  unfold Window.init. intros E.
  erewrite win_bind in E by reflexivity. apply win_bind_inv in E as (ok & g2 & E2 & E).
  destruct ok; [|done]. cbn [negb] in E. apply win_bind_inv in E as (h & g3 & E3 & E).
  destruct (h =? NULL) eqn:Eh.
  { apply win_bind_inv in E as (? & ? & _ & E). by apply win_bind_inv in E as (? & ? & _ & E). }
  apply win_bind_inv in E as (sent & g4 & E4 & E). erewrite win_bind in E by reflexivity.
  erewrite win_bind in E by reflexivity. apply win_bind_inv in E as ([] & g7 & E7 & E).
  apply win_bind_inv in E as ([] & g8 & E8 & E). injection E as <-. exists g7.
  apply createControls_keeps in E7 as (Hh & Hu & Hv). cbn in Hh, Hu, Hv. rewrite Hh, Hu, Hv. split_and!; [done| |done].
  unfold Window.wndProc, mbind, M_bind, modify, Window.sys, zoom, os_call in E4. cbn in E4.
  destruct (answer _ _). injection E4 as _ <-. cbn. apply elem_of_cons. by left.
Qed.

Lemma refresh_inv g tree props g' :
  vm_ g = Some (tree, props) → Window.refresh g = (Ok (), g') →
  ∃ vm, ViewModel.refresh (mkViewModel (gui_os g) tree props) = (Ok (), vm).
Proof.
  intros Hv E. apply win_bind_inv in E as ([] & g1 & E & _). unfold Window.on_vm in E. rewrite Hv in E.
  destruct (ViewModel.refresh _) as [r vm]. injection E as -> _. by exists vm.
Qed.

(** C13: The tree and the list of the GUI agree with its view model. Once the
    window has been made, its tree view has an item with a handle of its own for
    every node of the view model's tree and none besides, under the item of its
    parent, in order, with its label. Whatever messages the window has handled
    since then and whatever the system did in between, selecting any item asks
    the view model for the window that the item was made for; nothing is read
    outside the list of handles and no null pointer is followed. When the view
    model gets an answer, the list shows exactly its properties. *)
Theorem gui_selects hInst os g0 g :
  Window.init hInst (new_window os) = (Ok true, g0) → gui_run g0 g → Z.of_nat (length (hwnd_storage_ g0)) < 2 ^ 64 →
  let items := tree_items (gui_os g0) (hTree_ g0) in
  ∃ forest props0, vm_ g0 = Some (forest, props0)
    ∧ shown_forest (hwnd_storage_ g0) TVI_ROOT forest items ∧ NoDup (ti_handle <$> items)
    ∧ ∀ it, it ∈ items → ∃ node tree props,
        node ∈ preorders forest ∧ ti_text it = Window.shown_text (n_label node) ∧ vm_ g = Some (tree, props)
        ∧ Window.wndProc (hwnd_ g) (WM_NOTIFY TVN_SELCHANGEDW (ti_param it)) g
          = (_ ← Window.on_vm (select_hwnd (n_hwnd node)); _ ← Window.updateProps; mret []) g
        ∧ ∀ vm, select_hwnd (n_hwnd node) (mkViewModel (gui_os g) tree props) = (Ok (), vm) →
            ∃ g', Window.wndProc (hwnd_ g) (WM_NOTIFY TVN_SELCHANGEDW (ti_param it)) g = (Ok [], g')
              ∧ vm_ g' = Some (tree_ vm, props_ vm) ∧ list_rows (gui_os g') (hList_ g) = row_of <$> props_ vm.
Proof.
  intros Hi Hr Hl. destruct (init_made _ _ _ Hi) as (g1 & Hv & Hu & Er).
  destruct (refresh_inv _ _ _ _ Hv Er) as [vm Evm].
  destruct (refresh_shows _ _ _ _ Hv Evm) as (os' & Er' & Hnd & Hsh). rewrite Er' in Er. injection Er as <-.
  destruct (gui_run_same _ _ Hr) as [Eh _ _ Est Eu Ev]. cbn in Eh, Est, Eu, Ev, Hl. cbv zeta.
  do 2 eexists. split_and!; [done|exact Hsh|exact Hnd|]. intros it Hit.
  destruct (proj2 (shown_item _) _ _ _ Hsh it Hit) as (node & Hn & Ht & i & Ep & Hsi).
  destruct Ev as [[tree props] Ev]; [done|]. exists node, tree, props.
  assert (Window.wndProc (hwnd_ g) (WM_NOTIFY TVN_SELCHANGEDW (ti_param it)) g
          = (_ ← Window.on_vm (select_hwnd (n_hwnd node)); _ ← Window.updateProps; mret []) g) as Ew.
  { rewrite Ep. apply select_message; [by rewrite Eh, Eu|by rewrite Est|by rewrite Est]. }
  split_and!; [done|done|done|done|]. intros vm' Es. rewrite Ew. by apply (select_rows g _ tree props).
Qed.

(** * No daemon *)

(** A window can be made, and there is no pipe. *)
Record no_daemon : Prop := {
  nd_class name os : (answer (RegisterClassExW name) os).1 = true;
  nd_window cls t st x y w h p m os : (answer (CreateWindowExW cls t st x y w h p m) os).1 ≠ NULL;
  nd_pipe name os : (answer (OpenPipe name) os).1 = None }.

Lemma refresh_throws g tree props :
  no_daemon → vm_ g = Some (tree, props) → ∃ g', Window.refresh g = (Throw "invalid map<K, T> key", g').
Proof.
  intros Hno Hv. unfold Window.refresh. unfold mbind at 1, M_bind at 1. unfold Window.on_vm at 1. rewrite Hv.
  pose proof (nd_pipe Hno (widen "\\.\pipe\wininspectd") (gui_os g)) as Ep.
  destruct (answer (OpenPipe (widen "\\.\pipe\wininspectd")) (gui_os g)) as [a o'] eqn:Eo. cbn in Ep. subst a.
  assert (take_snapshot "gui-1" (mkViewModel (gui_os g) tree props)
          = (Throw "invalid map<K, T> key", mkViewModel o' tree props)) as Et.
  { unfold take_snapshot, mbind, M_bind.
    rewrite (ask_answer _ _ (quoted "{'ok':false,'error':'no daemon'}") o'
               (map_of [("ok", JBool false); ("error", JStr "no daemon")])); [done| |by vm_compute].
    unfold request, PipeTransport, PipeTransport_request, mbind, M_bind, os_call. cbn [t_]. by rewrite Eo. }
  unfold ViewModel.refresh, mbind, M_bind. rewrite Et. by eexists.
Qed.

Lemma createControls_returns g : ∃ g', Window.createControls g = (Ok (), g').
Proof.
  unfold Window.createControls, mbind, M_bind, modify, gets, Window.sys, zoom, os_call. cbn.
  repeat (destruct (answer _ _) as [? ?]; cbn). destruct u1. by eexists.
Qed.

(** The GUI does not start without a daemon: the text that its transport makes
    up for an answer has no result, and the exception that the view model throws
    leaves [WinMain]. *)
Theorem gui_without_daemon hInst nCmdShow fuel os :
  no_daemon → ∃ g', Window.WinMain hInst nCmdShow fuel (new_window os) = (Throw "invalid map<K, T> key", g').
Proof.
  intros Hno. unfold Window.WinMain. destruct (answer (InitCommonControlsEx ICC_CLASSES) os) as [[] os1] eqn:E1.
  erewrite win_bind by by apply sys_eq. unfold mbind at 1, M_bind at 1.
  assert (∃ g', Window.init hInst (Window.set_os os1 (new_window os)) = (Throw "invalid map<K, T> key", g')) as [g' ->];
    [|by eexists].
  unfold Window.init. erewrite win_bind by reflexivity.
  pose proof (nd_class Hno (widen "WinInspectGUI") os1) as Hc.
  destruct (answer (RegisterClassExW (widen "WinInspectGUI")) os1) as [ok os2] eqn:E2. cbn in Hc. subst ok.
  erewrite win_bind by by apply sys_eq. cbn [negb].
  match goal with |- context [Window.sys ?c] =>
    pose proof (nd_window Hno _ _ _ _ _ _ _ _ _ os2 : (answer c os2).1 ≠ NULL) as Hw;
    destruct (answer c os2) as [h os3] eqn:E3
  end.
  cbn in Hw. erewrite win_bind by by apply sys_eq. rewrite (proj2 (Z.eqb_neq h NULL) Hw).
  destruct (answer (DefWindowProcW h WM_NCCREATE) os3) as [sent os4] eqn:E4.
  erewrite win_bind. 2:{ unfold Window.wndProc. erewrite win_bind by reflexivity. by apply sys_eq. }
  do 2 (erewrite win_bind by reflexivity; cbv beta).
  match goal with |- context [(Window.createControls ≫= _) ?g] => destruct (createControls_returns g) as [g5 E5] end.
  rewrite (win_bind _ _ _ _ _ E5). apply createControls_keeps in E5 as (_ & _ & Hv). cbn in Hv.
  destruct (refresh_throws g5 [] [] Hno Hv) as [g6 E6]. unfold mbind, M_bind. rewrite E6. by eexists.
Qed.
End Props.
