(* ===== verification/GuiDaemon.v ===== *)
(** The GUI and the daemon together: a desktop whose named pipe is served by the
    model of the daemon, one connection per request, with the controls that the
    window fills. *)

From S2P Require Import Prelude StdMap CString Double Json JsonTotal JsonRoundtrip Types Logger Backend.
From S2P Require Import FakeBackend Core CoreProps CoreMethods Hoare Live ServerState ServerStateProps Server.
From S2P Require Import ServerProps ServerGates Threads Main Daemon DaemonLogic DaemonSafe ViewModel GuiServer Win32Api Win32 Framing GuiWindow GuiWindowProps.

Local Open Scope Z_scope.

(** * The desktop *)

(** The daemon; what the GUI has written to the pipe, and what the daemon has
    written back and has not been read; the contents of the controls; the number
    of windows; and the messages that wait. *)
Record Desktop (B : Type) := mkDesktop {
  dk_conn : Conn B;
  dk_in : string;
  dk_out : option stream;
  dk_items : Z → list TreeItem;
  dk_rows : Z → list (wide * wide);
  dk_windows : Z;
  dk_msgs : list (Z * Message) }.
Arguments mkDesktop {B} _ _ _ _ _ _ _.
Arguments dk_conn {B} _.
Arguments dk_in {B} _.
Arguments dk_out {B} _.
Arguments dk_items {B} _ _.
Arguments dk_rows {B} _ _.
Arguments dk_windows {B} _.
Arguments dk_msgs {B} _.

Section Desktop.
Context {B : Type} `{IBackend B} `{Clock} `{Watchdog} (sw : Switches).
Implicit Types (d : Desktop B) (c : Conn B).

Definition dk_pipe c (i : string) (o : option stream) d : Desktop B :=
  mkDesktop c i o (dk_items d) (dk_rows d) (dk_windows d) (dk_msgs d).
Definition dk_set_items h (l : list TreeItem) d : Desktop B :=
  mkDesktop (dk_conn d) (dk_in d) (dk_out d) (λ h', if h' =? h then l else dk_items d h') (dk_rows d) (dk_windows d) (dk_msgs d).
Definition dk_set_rows h (l : list (wide * wide)) d : Desktop B :=
  mkDesktop (dk_conn d) (dk_in d) (dk_out d) (dk_items d) (λ h', if h' =? h then l else dk_rows d h') (dk_windows d) (dk_msgs d).
Definition dk_set_windows n (m : list (Z * Message)) d : Desktop B :=
  mkDesktop (dk_conn d) (dk_in d) (dk_out d) (dk_items d) (dk_rows d) n m.

(** An action of the daemon; one that does not end normally closes the pipe. *)
Definition daemon {A} (m : M (Conn B) A) (k : A → Conn B → Desktop B) d : Desktop B :=
  match m (dk_conn d) with
  | (Ok a, c) => k a c
  | (_, c) => dk_pipe c EmptyString (Some []) d
  end.

(** The daemon accepts, unless there are too many connections. *)
Definition dk_open d : Desktop B :=
  if accepts (c_st (dk_conn d)) then daemon (pipe_connect sw) (λ _ c, dk_pipe c EmptyString None d) d
  else dk_pipe (dk_conn d) EmptyString (Some []) d.

(** Before a read, the daemon answers the message that it has got, if it has not
    answered yet: the length and the text, in two writes. *)
Definition dk_answer d : Desktop B :=
  match dk_out d, pipe_read_message [dk_in d] with
  | None, Some (json, _) =>
      daemon (pipe_message sw json)
        (λ out c, let len := Z.of_nat (String.length out) mod 2 ^ 32 in
                  dk_pipe c (dk_in d) (Some [le32 len; str_take (Z.to_nat len) out]) d) d
  | None, None => dk_pipe (dk_conn d) (dk_in d) (Some []) d
  | Some _, _ => d
  end.

Definition dk_read (n : nat) d : option string * Desktop B :=
  match default [] (dk_out (dk_answer d)) with
  | [] => (None, dk_answer d)
  | s => let '(piece, s') := recv n s in (Some piece, dk_pipe (dk_conn (dk_answer d)) (dk_in d) (Some s') (dk_answer d))
  end.

Definition dk_close d : Desktop B := daemon pipe_disconnect (λ _ c, dk_pipe c EmptyString None d) d.

Definition fresh_handle (l : list TreeItem) : Z := foldr Z.max 0 (ti_handle <$> l) + 1.

Definition dk_call {A} (q : GuiCall A) (d : Desktop B) : A * Desktop B :=
  match q in GuiCall A return A * Desktop B with
  | InitCommonControlsEx _ => ((), d)
  | RegisterClassExW _ => (true, d)
  | CreateWindowExW _ _ _ _ _ _ _ _ _ => (Z.abs (dk_windows d) + 1, dk_set_windows (Z.abs (dk_windows d) + 1) (dk_msgs d) d)
  | ListView_SetExtendedListViewStyle _ _ => ((), d)
  | ListView_InsertColumn _ _ _ _ => ((), d)
  | ShowWindow _ _ => ([WM_SIZE], d)
  | UpdateWindow _ => ([], d)
  | GetClientRect _ => (Some (mkRect 0 0 800 600), d)
  | MoveWindow _ _ _ _ _ => ((), d)
  | TreeView_DeleteAllItems h => ((), dk_set_items h [] d)
  | TreeView_InsertItem h p t i =>
      (fresh_handle (dk_items d h), dk_set_items h (dk_items d h ++ [mkTreeItem (fresh_handle (dk_items d h)) p t i]) d)
  | ListView_DeleteAllItems h => ((), dk_set_rows h [] d)
  | ListView_InsertItem h i t =>
      ((), dk_set_rows h (take (Z.to_nat i) (dk_rows d h) ++ (t, []) :: drop (Z.to_nat i) (dk_rows d h)) d)
  | ListView_SetItemText h i sub t =>
      ((), dk_set_rows h (alter (λ r : wide * wide, (r.1, t)) (Z.to_nat i) (dk_rows d h)) d)
  | PostQuitMessage _ => ((), dk_set_windows (dk_windows d) [] d)
  | DefWindowProcW _ _ => ([], d)
  | ControlProc _ msg => ([msg], d)
  | GetMessage =>
      match dk_msgs d with
      | [] => (None, d)
      | m :: ms => (Some m, dk_set_windows (dk_windows d) ms d)
      end
  | OpenPipe _ => (Some 4, dk_open d)
  | WriteFile _ bytes => ((), dk_pipe (dk_conn d) (dk_in d +:+ bytes) (dk_out d) d)
  | ReadFile _ n => dk_read (Z.to_nat n) d
  | CloseHandle _ => ((), dk_close d)
  end.

#[export] Instance desktop_system : System GuiCall (Desktop B) := { answer := @dk_call }.

Lemma fresh_handle_new (l : list TreeItem) : fresh_handle l ∉ ti_handle <$> l.
Proof.
  intros Hin. assert (∀ x, x ∈ ti_handle <$> l → x ≤ foldr Z.max 0 (ti_handle <$> l)) as Hle.
  { clear. induction (ti_handle <$> l) as [|y ys IH]; intros x; [by intros ?%elem_of_nil|].
    intros [->|Hx]%elem_of_cons; cbn; [lia|]. specialize (IH x Hx). lia. }
  apply Hle in Hin. unfold fresh_handle in Hin. lia.
Qed.

(** The controls of the desktop do what is documented. *)
#[export] Instance desktop_controls : CommonControls (Desktop B).
Proof.
  refine {| tree_items := dk_items; list_rows := dk_rows |}.
  - intros h os os' [= <-]. cbn. by rewrite Z.eqb_refl.
  - intros h p t i x os os' [= <- <-]. split; [apply fresh_handle_new|]. cbn. by rewrite Z.eqb_refl.
  - intros h os os' [= <-]. cbn. by rewrite Z.eqb_refl.
  - intros h t os os' [= <-]. cbn. by rewrite Z.eqb_refl, Nat2Z.id, firstn_all, drop_all.
  - intros h l k v t os os' E [= <-]. cbn. rewrite Z.eqb_refl, Nat2Z.id, E. by rewrite alter_app_r_alt, Nat.sub_diag by lia.
Defined.

(** * One request *)

(** A text that the length of a message can count. *)
Definition fits (text : string) : Prop := Z.of_nat (String.length text) < 2 ^ 32.

Lemma handle_client_one json c outs c' :
  handle_client sw [json] c = (Ok outs, c') →
  ∃ out c1 c2, outs = [out] ∧ pipe_connect sw c = (Ok (), c1) ∧ pipe_message sw json c1 = (Ok out, c2)
    ∧ pipe_disconnect c2 = (Ok (), c').
Proof.
  unfold handle_client, mbind, M_bind. destruct (pipe_connect sw c) as [[[]| | |] c1] eqn:E1; try done. cbn [pipe_loop].
  unfold mbind, M_bind. destruct (pipe_message sw json c1) as [[out| | |] c2] eqn:E2; try done. cbn.
  destruct (pipe_disconnect c2) as [[[]| | |] c3] eqn:E; try done. intros [= <- <-]. by exists out, c1, c2.
Qed.

Lemma filled_all s : filled (String.length s) s = s.
Proof. induction s as [|a s IH]; [done|]. cbn. by rewrite IH. Qed.

Lemma recv_whole s rest : recv (String.length s) (s :: rest) = (s, rest).
Proof. unfold recv. by rewrite Nat.leb_refl. Qed.

Lemma written_read json : fits json → pipe_read_message [EmptyString +:+ le32 (Z.of_nat (String.length json)) +:+ json] = Some (json, []).
Proof.
  intros Hj. unfold fits in Hj.
  destruct (pipe_read_bytes [EmptyString +:+ le32 (Z.of_nat (String.length json)) +:+ json] json EmptyString) as (s' & E & Eb & Hs).
  - constructor; [done|constructor].
  - done.
  - cbn [bytes foldr]. by rewrite write_message_small by done.
  - rewrite E. destruct s' as [|p s']; [done|]. inversion_clear Hs. cbn in Eb. destruct p; done.
Qed.

Lemma os_bind {A C} (q : GuiCall A) (f : A → M (Desktop B) C) d a d' :
  dk_call q d = (a, d') → (os_call q ≫= f) d = f a d'.
Proof. intros E. unfold mbind, M_bind, os_call. cbn [answer desktop_system]. by rewrite E. Qed.

(** The daemon answers what it has got. *)
Lemma dk_answer_written json c1 c2 out d :
  fits json → fits out → pipe_message sw json c1 = (Ok out, c2) →
  let sent := EmptyString +:+ le32 (Z.of_nat (String.length json)) +:+ json in
  dk_answer (dk_pipe c1 sent None d) = dk_pipe c2 sent (Some [le32 (Z.of_nat (String.length out)); out]) d.
Proof.
  intros Hj Ho E. cbv zeta. unfold dk_answer. cbn [dk_out dk_in dk_pipe]. rewrite written_read by done.
  unfold daemon. cbn [dk_conn dk_pipe]. rewrite E. unfold fits in Ho.
  by rewrite Z.mod_small, Nat2Z.id, str_take_all by lia.
Qed.

(** The transport and the daemon exchange a message over a connection of its
    own: the GUI gets the text that the daemon's handler of the connection
    wrote for the one message that it sent. *)
Lemma request_exchange json d out c' :
  accepts (c_st (dk_conn d)) = true → fits json → fits out →
  handle_client sw [json] (dk_conn d) = (Ok [out], c') →
  PipeTransport_request json d = (Ok out, dk_pipe c' EmptyString None d).
Proof.
  intros Ha Hj Ho E. destruct (handle_client_one _ _ _ _ E) as (out' & c1 & c2 & [= <-] & E1 & E2 & E3).
  unfold PipeTransport_request. erewrite (os_bind _ _ d (Some 4) (dk_pipe c1 EmptyString None d)).
  2:{ cbn [dk_call]. unfold dk_open, daemon. by rewrite Ha, E1. }
  pose proof Hj as Hj'. unfold fits in Hj'. rewrite (Z.mod_small (Z.of_nat (String.length json))) by lia.
  rewrite Nat2Z.id, (str_take_all json) by done. cbv zeta.
  set (hdr := le32 (Z.of_nat (String.length json))).
  rewrite (os_bind _ _ _ () (dk_pipe c1 (EmptyString +:+ hdr) None d)) by done.
  rewrite (os_bind _ _ _ () (dk_pipe c1 (EmptyString +:+ hdr +:+ json) None d)) by (by cbn; rewrite str_app_assoc).
  pose proof (dk_answer_written json c1 c2 out d Hj Ho E2) as Ea. cbv zeta in Ea. fold hdr in Ea.
  set (sent := EmptyString +:+ hdr +:+ json) in *. unfold fits in Ho.
  rewrite (os_bind _ _ _ (Some (le32 (Z.of_nat (String.length out)))) (dk_pipe c2 sent (Some [out]) d)).
  2:{ cbn [dk_call]. unfold dk_read. by rewrite Ea. }
  change 4%nat with (String.length (le32 (Z.of_nat (String.length out)))). rewrite filled_all, un_le32_le32 by lia.
  rewrite (os_bind _ _ _ (Some out) (dk_pipe c2 sent (Some []) d)).
  2:{ cbn [dk_call]. unfold dk_read, dk_answer. cbn [dk_out dk_pipe default]. rewrite Nat2Z.id. cbn [id from_option].
      by rewrite recv_whole. }
  rewrite (os_bind _ _ _ () (dk_pipe c' EmptyString None d)).
  2:{ cbn [dk_call]. unfold dk_close, daemon. cbn [dk_conn dk_pipe]. by rewrite E3. }
  rewrite Nat2Z.id. cbn [default from_option id]. by rewrite filled_all.
Qed.

(** A daemon with too many connections: the GUI makes up an answer. *)
Lemma request_refused json d :
  accepts (c_st (dk_conn d)) = false →
  ∃ d', PipeTransport_request json d = (Ok (quoted "{'ok':false}"), d').
Proof.
  intros Ha. unfold PipeTransport_request.
  rewrite (os_bind _ _ d (Some 4) (dk_pipe (dk_conn d) EmptyString (Some []) d)).
  2:{ cbn [dk_call]. unfold dk_open. by rewrite Ha. }
  cbv zeta. do 2 (erewrite os_bind by done).
  erewrite (os_bind (ReadFile _ _) _ _ None) by done. cbv iota beta. erewrite os_bind by done. by eexists.
Qed.
End Desktop.

(** * The daemon that the GUI asks *)

Section Refresh.
Context {B : Type} `{SnapshotLaws B} `{Prompt} (sw : Switches).
Implicit Types (d : Desktop B) (c : Conn B).

Lemma pipe_message_quiet json : keeps quiet (pipe_message (B := B) sw json).
Proof.
  conn_walk;
    first [apply quiet_world | apply quiet_store | apply quiet_advance | apply quiet_subscribe
          | apply quiet_session; by auto | intros c; unfold quiet; cbn; by repeat case_match].
Qed.

(** A daemon that lets local users in and has room for a connection and a
    snapshot, and whose backend would list [hs]. *)
Record daemon_ready c (hs : list hwnd_u64) : Prop := {
  dr_open : require_auth sw = false ∧ auth_keys_data sw = EmptyString;
  dr_accepts : accepts (c_st c) = true;
  dr_state : state_ok (c_st c);
  dr_count : snap_counter (c_st c) + 1 < 2 ^ 64;
  dr_room : Z.of_nat (n_pinned (c_st c)) < max_snapshots (limits (c_st c));
  dr_windows : ∃ b', capture_snapshot (w_backend (c_world c)) = (Ok (mkSnapshot hs), b') }.

Lemma in_world_log level msg c :
  ∃ w, in_world (LOG level msg) c = (Ok (), set_world w c) ∧ w_backend w = w_backend (c_world c).
Proof. unfold in_world, zoom. destruct (LOG_eq level msg (c_world c)) as (w & -> & E). exists w. by split. Qed.

(** A connection that has been made. *)
Lemma connected c :
  require_auth sw = false → auth_keys_data sw = EmptyString →
  ∃ c1, pipe_connect sw c = (Ok (), c1) ∧ cs_authenticated (c_session c1) = true
    ∧ c_st c1 = with_connections (active_connections (c_st c) + 1) (c_st c)
    ∧ w_backend (c_world c1) = w_backend (c_world c).
Proof.
  intros Ea Ek. unfold pipe_connect, mbind, M_bind, modify. cbv beta iota. rewrite Ea, Ek. cbn [negb is_empty andb].
  match goal with |- context [in_world (LOG INFO ?m) ?x] => destruct (in_world_log INFO m x) as (w1 & -> & E1) end.
  match goal with |- context [in_world (LOG DEBUG ?m) ?x] => destruct (in_world_log DEBUG m x) as (w2 & -> & E2) end.
  eexists. split; [done|]. split_and!; [done|done|]. cbn in *. congruence.
Qed.

(** One that has ended: the snapshots are still there. *)
Lemma disconnected c :
  ∃ c', pipe_disconnect c = (Ok (), c') ∧ snaps (c_st c') = snaps (c_st c)
    ∧ active_connections (c_st c') = active_connections (c_st c) - 1 ∧ limits (c_st c') = limits (c_st c).
Proof.
  unfold pipe_disconnect, unpin_phase, on_st, mbind, M_bind, modify. cbv beta iota.
  match goal with |- context [in_world (LOG INFO ?m) ?x] => destruct (in_world_log INFO m x) as (w1 & -> & _) end.
  eexists. split; [done|]. cbn. by destruct (negb _).
Qed.

(** A message over a connection of its own, from what the message itself does. *)
Lemma exchange json c c1 c2 out :
  pipe_connect sw c = (Ok (), c1) → c_st c1 = with_connections (active_connections (c_st c) + 1) (c_st c) →
  pipe_message sw json c1 = (Ok out, c2) →
  ∃ c', handle_client sw [json] c = (Ok [out], c') ∧ snaps (c_st c') = snaps (c_st c2)
    ∧ accepts (c_st c') = accepts (c_st c).
Proof.
  intros E1 Est E2. destruct (disconnected c2) as (c' & E3 & Hs & Hc & Hl). exists c'.
  split; [|split; [done|]].
  - unfold handle_client, mbind, M_bind. rewrite E1. cbn [pipe_loop]. unfold mbind, M_bind. rewrite E2. cbn. by rewrite E3.
  - pose proof (pipe_message_quiet json c1) as [Hq1 Hq2]. rewrite E2 in Hq1, Hq2. cbn in Hq1, Hq2.
    unfold accepts. rewrite Hc, Hl, Hq1, Hq2, Est. cbn.
    by replace (active_connections (c_st c) + 1 - 1) with (active_connections (c_st c)) by lia.
Qed.

Lemma exchange_capture c hs id :
  daemon_ready c hs →
  ∃ out c' sid o r, handle_client sw [dumps (capture_request id)] c = (Ok [out], c') ∧ accepts (c_st c') = true
    ∧ snaps (c_st c') !! sid = Some (mkSnapshot hs)
    ∧ reads_as out o ∧ map_find "result" o = Some (JObj r) ∧ map_find "snapshot_id" r = Some (JStr sid).
Proof.
  intros [[Ha Hk] Hacc Hst Hc Hr Hw]. destruct (connected c Ha Hk) as (c1 & E1 & Hau & Est & Ew).
  destruct (capture_answer (WindowService := pipe_service sw) c1 hs id) as (out & c2 & o & r & sid & E2 & Ho & Hres & Hsid & _ & Hh).
  { split; rewrite ?Est, ?Ew; [done|by apply with_connections_ok|done|done|done]. }
  destruct (exchange _ _ _ _ _ E1 Est E2) as (c' & E & Hs & Hacc').
  exists out, c', sid, o, r. split_and!; try done; congruence.
Qed.

Lemma exchange_list c hs id sid :
  require_auth sw = false → auth_keys_data sw = EmptyString → snaps (c_st c) !! sid = Some (mkSnapshot hs) →
  ∃ out c' o, handle_client sw [dumps (list_request id sid)] c = (Ok [out], c')
    ∧ reads_as out o ∧ map_find "result" o = Some (hwnd_array hs).
Proof.
  intros Ha Hk Hs. destruct (connected c Ha Hk) as (c1 & E1 & Hau & Est & Ew).
  destruct (list_answer (WindowService := pipe_service sw) c1 sid hs id) as (out & c2 & o & E2 & Ho & Hres).
  { split; [done|]. by rewrite Est. }
  destruct (exchange _ _ _ _ _ E1 Est E2) as (c' & E & _). by exists out, c', o.
Qed.

(** The view model, over connections of its own. *)
Lemma refresh_exchanges (vm : ViewModel (Desktop B)) hs :
  daemon_ready (dk_conn (t_ vm)) hs →
  ∃ sid out1 c1 out2 c2,
    handle_client sw [dumps (capture_request "gui-1")] (dk_conn (t_ vm)) = (Ok [out1], c1)
    ∧ handle_client sw [dumps (list_request "gui-2" sid)] c1 = (Ok [out2], c2)
    ∧ (Forall fits [out1; dumps (list_request "gui-2" sid); out2] →
       ViewModel.refresh (H := PipeTransport (H := desktop_system sw)) vm
       = (Ok (), mkViewModel (dk_pipe c2 EmptyString None (t_ vm)) (window_node <$> hs) (props_ vm))).
Proof.
  intros Hd. pose proof (dr_open _ _ Hd) as [Ha Hk].
  destruct (exchange_capture _ _ "gui-1" Hd) as (out1 & c1 & sid & o & r & E1 & Hacc & Hs & R1 & F1 & F2).
  destruct (exchange_list c1 hs "gui-2" sid Ha Hk Hs) as (out2 & c2 & o2 & E2 & R2 & F3).
  exists sid, out1, c1, out2, c2. split_and!; [done|done|]. rewrite !Forall_cons. intros (Hf1 & Hf2 & Hf3 & _).
  pose proof (request_exchange sw _ (t_ vm) _ _ (dr_accepts _ _ Hd) (eq_refl : fits (dumps (capture_request "gui-1"))) Hf1 E1) as Q1.
  pose proof (request_exchange sw _ (dk_pipe c1 EmptyString None (t_ vm)) _ _ Hacc Hf2 Hf3 E2) as Q2.
  unfold ViewModel.refresh, take_snapshot. unfold mbind, M_bind.
  rewrite (ask_answer (H := PipeTransport (H := desktop_system sw)) _ _ _ _ _ Q1 R1). unfold lift_result, at_obj, at_str, at_arr, obj_at. cbv beta iota.
  rewrite F1. cbn [or_throw as_obj mbind result_bind]. rewrite F2. cbn [or_throw as_str mbind result_bind].
  rewrite (ask_answer (H := PipeTransport (H := desktop_system sw)) _
             (set_transport (dk_pipe c1 EmptyString None (t_ vm)) vm) _ _ _ Q2 R2). cbv beta iota.
  unfold set_tree, modify. cbv beta iota.
  rewrite F3. cbn [or_throw as_arr hwnd_array mbind result_bind]. by rewrite add_nodes_windows.
Qed.

(** Items that show windows one below the other. *)
Lemma shown_windows st p hs items :
  shown_forest st p (window_node <$> hs) items →
  Forall2 (λ h it, ti_parent it = p ∧ ti_text it = Window.shown_text (Hwnd_to_string (mkHwnd h))
                   ∧ ∃ i, ti_param it = Z.of_nat i ∧ st !! i = Some (Hwnd_to_string (mkHwnd h))) hs items.
Proof.
  revert items. induction hs as [|h hs IH]; intros items Hs; inversion Hs as [|? ? ? a b Ha Hb]; subst; [constructor|].
  inversion Ha as [? ? x i ch Hi Hch]; subst. inversion Hch; subst. constructor; [eauto|by apply IH].
Qed.

(** C8: The GUI against the daemon, from the window down to the backend: on a
    desktop whose daemon lets local users in and has room for a connection and a
    snapshot, the window is made and its tree has one item per window that the
    daemon's backend lists, in its order, with the text of the handle, and the
    parameter of each leads to that text. Between the two lie two connections
    with a framed request and a framed answer each, the snapshot that outlives
    the first of them, and the daemon's own parsing, dispatch and printing; the
    only condition is that the texts are shorter than the 4 GiB that the length
    of a message can count. *)
Theorem gui_end_to_end hInst d hs :
  daemon_ready (dk_conn d) hs →
  ∃ sid out1 c1 out2 c2,
    handle_client sw [dumps (capture_request "gui-1")] (dk_conn d) = (Ok [out1], c1)
    ∧ handle_client sw [dumps (list_request "gui-2" sid)] c1 = (Ok [out2], c2)
    ∧ (Forall fits [out1; dumps (list_request "gui-2" sid); out2] →
       ∃ g0, Window.init (H := desktop_system sw) hInst (new_window d) = (Ok true, g0)
         ∧ hwnd_storage_ g0 = (λ h, Hwnd_to_string (mkHwnd h)) <$> hs
         ∧ Forall2 (λ h it, ti_parent it = TVI_ROOT ∧ ti_text it = Window.shown_text (Hwnd_to_string (mkHwnd h))
                      ∧ ∃ i, ti_param it = Z.of_nat i ∧ hwnd_storage_ g0 !! i = Some (Hwnd_to_string (mkHwnd h)))
             hs (dk_items (gui_os g0) (hTree_ g0))).
Proof.
  intros Hd. set (n := Z.abs (dk_windows d) + 1).
  set (d3 := dk_set_windows (Z.abs (Z.abs n + 1) + 1) (dk_msgs d) d).
  set (g1 := mkWindow n (Z.abs n + 1) (Z.abs (Z.abs n + 1) + 1) hInst (Some ([], [])) [] [n] d3).
  destruct (refresh_exchanges (mkViewModel d3 [] []) hs Hd) as (sid & out1 & c1 & out2 & c2 & E1 & E2 & Er).
  exists sid, out1, c1, out2, c2. split_and!; [done|done|]. intros Hf.
  destruct (refresh_shows (H0 := desktop_controls sw) g1 [] [] _ eq_refl (Er Hf)) as (os' & Ew & _ & Hsh).
  assert (preorders (window_node <$> hs) = window_node <$> hs) as Hp.
  { clear. unfold preorders. induction hs as [|h hs IH]; [done|]. cbn in *. by rewrite IH. }
  cbn [tree_] in Ew, Hsh. rewrite Hp, <-list_fmap_compose in Ew, Hsh.
  assert (Window.init (H := desktop_system sw) hInst (new_window d)
          = (_ ← Window.refresh (H := desktop_system sw); mret true) g1) as ->.
  { unfold Window.init. do 2 (erewrite win_bind by done). cbn [negb].
    rewrite (win_bind _ _ _ n (Window.set_os (dk_set_windows n (dk_msgs d) d) (Window.set_hInst hInst (new_window d)))) by done.
    rewrite (proj2 (Z.eqb_neq n NULL)) by (unfold n, NULL; lia). do 4 (erewrite win_bind by done). done. }
  rewrite (win_bind _ _ _ _ _ Ew). eexists. split; [done|]. split; [done|]. by apply shown_windows in Hsh.
Qed.
End Refresh.

(** * A run *)

Definition test_desktop (msgs : list (Z * Message)) : Desktop FakeBackend :=
  mkDesktop (auth_conn (ServerState_init Limits_default)) EmptyString None (λ _, []) (λ _, []) 0 msgs.

#[local] Existing Instances still_clock test_watchdog test_prompt.

Lemma test_ready : daemon_ready open_switches (dk_conn (test_desktop [])) [1].
Proof. split; [done|done|apply init_ok|by vm_compute|by vm_compute|by eexists]. Qed.

Example gui_end_to_end_witness :
  ∃ sid out1 c1 out2 c2,
    handle_client open_switches [dumps (capture_request "gui-1")] (dk_conn (test_desktop [])) = (Ok [out1], c1)
    ∧ handle_client open_switches [dumps (list_request "gui-2" sid)] c1 = (Ok [out2], c2)
    ∧ (Forall fits [out1; dumps (list_request "gui-2" sid); out2] →
       ∃ g0, Window.init (H := desktop_system open_switches) 7 (new_window (test_desktop [])) = (Ok true, g0)
         ∧ hwnd_storage_ g0 = ["0x1"]
         ∧ Forall2 (λ h it, ti_parent it = TVI_ROOT ∧ ti_text it = Window.shown_text (Hwnd_to_string (mkHwnd h))
                      ∧ ∃ i, ti_param it = Z.of_nat i ∧ hwnd_storage_ g0 !! i = Some (Hwnd_to_string (mkHwnd h)))
             [1] (dk_items (gui_os g0) (hTree_ g0))).
Proof. exact (gui_end_to_end open_switches 7 (test_desktop []) [1] test_ready). Defined.

(** The user looks at the window's properties, and closes the window. *)
Definition test_gui : result Z * WinInspectWindow (Desktop FakeBackend) :=
  Window.WinMain (H := desktop_system open_switches) 7 1 10
    (new_window (test_desktop [(2, WM_NOTIFY TVN_SELCHANGEDW 0); (1, WM_DESTROY)])).

Example test_gui_runs : test_gui.1 = Ok 0 ∧ hwnd_storage_ test_gui.2 = ["0x1"]
  ∧ (0 < length (dk_rows (gui_os test_gui.2) 3))%nat.
Proof. vm_compute. repeat split; lia. Qed.

#[local] Instance test_controls : CommonControls (Desktop FakeBackend) (H := desktop_system open_switches) :=
  desktop_controls open_switches.

Definition test_made : WinInspectWindow (Desktop FakeBackend) :=
  (Window.init (H := desktop_system open_switches) 7 (new_window (test_desktop []))).2.

Lemma test_init_ok : Window.init (H := desktop_system open_switches) 7 (new_window (test_desktop [])) = (Ok true, test_made).
Proof.
  assert ((Window.init (H := desktop_system open_switches) 7 (new_window (test_desktop []))).1 = Ok true) as E
    by (vm_compute; reflexivity).
  unfold test_made. destruct (Window.init _ _). cbn in *. by subst.
Qed.

Lemma test_storage : Z.of_nat (length (hwnd_storage_ test_made)) < 2 ^ 64.
Proof. vm_compute. reflexivity. Qed.

Lemma test_items : ∃ it, it ∈ tree_items (CommonControls := test_controls) (gui_os test_made) (hTree_ test_made) ∧ ti_param it = 0.
Proof. vm_compute. eexists. split; [apply elem_of_cons; by left|reflexivity]. Qed.

Example gui_selects_witness :
  ∃ it hwnd, it ∈ tree_items (CommonControls := test_controls) (gui_os test_made) (hTree_ test_made) ∧ ti_param it = 0
    ∧ Window.wndProc (H := desktop_system open_switches) (hwnd_ test_made) (WM_NOTIFY TVN_SELCHANGEDW (ti_param it)) test_made
      = (_ ← Window.on_vm (select_hwnd (H := PipeTransport (H := desktop_system open_switches)) hwnd);
         _ ← Window.updateProps (H := desktop_system open_switches); mret []) test_made.
Proof.
  destruct test_items as (it & Hit & Ep).
  destruct (gui_selects (H0 := test_controls) 7 (test_desktop []) test_made test_made test_init_ok
              (run_here _) test_storage) as (forest & props0 & _ & _ & _ & Hsel).
  destruct (Hsel it Hit) as (node & tree & props & _ & _ & _ & Hw & _).
  exact (ex_intro _ it (ex_intro _ (n_hwnd node) (conj Hit (conj Ep Hw)))).
Defined.
