(* ===== verification/Tray.v ===== *)
(** [daemon/src/tray.cpp], [TcpServer::stop] and the end of [main] in
    [daemon/src/server.cpp]: the icon in the notification area, and how its
    menu ends the daemon. *)

From S2P Require Import Prelude Types.

Local Open Scope Z_scope.

(** * Computations that may end the process *)

(** [exit] runs no destructor of the stack that it leaves. *)
Inductive flow (A : Type) := Goes (a : A) | Exits (code : Z).
Arguments Goes {A} _.
Arguments Exits {A} _.

Definition Proc (S A : Type) : Type := S → flow A * S.
#[export] Instance Proc_ret S : MRet (Proc S) := λ A a s, (Goes a, s).
#[export] Instance Proc_bind S : MBind (Proc S) := λ A B f m s,
  match m s with (Goes a, s') => f a s' | (Exits code, s') => (Exits code, s') end.

Definition upd {S} (f : S → S) : Proc S () := λ s, (Goes (), f s).
Definition look {S A} (f : S → A) : Proc S A := λ s, (Goes (f s), s).
Definition exit_process {S A} (code : Z) : Proc S A := λ s, (Exits code, s).

(** * The system *)

Definition WM_RBUTTONUP : Z := 0x0205.
Definition WM_LBUTTONUP : Z := 0x0202.
Definition ID_TRAY_EXIT : Z := 1001.
Definition ID_TRAY_ABOUT : Z := 1002.
(** The null handle, and [INVALID_SOCKET]. *)
Definition NO_HANDLE : Z := 0.
Definition INVALID_SOCKET : Z := 2 ^ 64 - 1.

Inductive TrayMessage :=
  | WM_NCCREATE
  | WM_TRAYICON (lParam : Z)
  | WM_COMMAND (wParam : Z)
  | WM_other (uMsg : Z).

Inductive TrayCall : Type → Type :=
  | RegisterClassExW : TrayCall bool
  | CreateWindowExW : TrayCall Z
  | DestroyWindow (hwnd : Z) : TrayCall ()
  | NIM_ADD (hwnd uID : Z) : TrayCall bool
  | NIM_DELETE (hwnd uID : Z) : TrayCall ()
  | DefWindowProcW (hwnd : Z) (msg : TrayMessage) : TrayCall ()
  | MessageBoxW (hwnd : Z) : TrayCall ()
  | CreatePopupMenu : TrayCall Z
  | InsertMenuW (hMenu pos id : Z) : TrayCall ()
  | GetCursorPos : TrayCall (Z * Z)
  | SetForegroundWindow (hwnd : Z) : TrayCall ()
  | TrackPopupMenu (hMenu x y hwnd : Z) : TrayCall ()
  | DestroyMenu (hMenu : Z) : TrayCall ()
  | closesocket (s : Z) : TrayCall ()
  | StartTcpThread : TrayCall ()
  | StartTcp : TrayCall ().

(** What the process holds on the system. *)
Inductive TrayRes := RWindow (hwnd : Z) | RIcon (hwnd : Z) | RMenu (hMenu : Z).
#[export] Instance TrayRes_eq_dec : EqDecision TrayRes.
Proof. solve_decision. Defined.

(** [TrayManager], the window's user data, the flag [running] of [main] and the
    listening socket of the TCP server, what is held, and the system. *)
Record Tray (OS : Type) := mkTray {
  hwnd_ : Z;
  hInst_ : Z;
  running_ : bool;
  user_data : list Z;
  daemon_running : bool;
  listen_sock_ : Z;
  held : list TrayRes;
  tray_os : OS }.
Arguments mkTray {OS} _ _ _ _ _ _ _ _.
Arguments hwnd_ {OS} _.
Arguments hInst_ {OS} _.
Arguments running_ {OS} _.
Arguments user_data {OS} _.
Arguments daemon_running {OS} _.
Arguments listen_sock_ {OS} _.
Arguments held {OS} _.
Arguments tray_os {OS} _.

Section Tray.
Context {OS : Type} `{System TrayCall OS}.
Implicit Types (t : Tray OS).

Abbreviation Act := (Proc (Tray OS)).

Definition call {A} (c : TrayCall A) : Act A := λ t,
  let '(a, os) := answer c (tray_os t) in
  (Goes a, mkTray (hwnd_ t) (hInst_ t) (running_ t) (user_data t) (daemon_running t) (listen_sock_ t) (held t) os).

Definition set_hwnd h t := mkTray h (hInst_ t) (running_ t) (user_data t) (daemon_running t) (listen_sock_ t) (held t) (tray_os t).
Definition set_hInst i t := mkTray (hwnd_ t) i (running_ t) (user_data t) (daemon_running t) (listen_sock_ t) (held t) (tray_os t).
Definition set_running b t := mkTray (hwnd_ t) (hInst_ t) b (user_data t) (daemon_running t) (listen_sock_ t) (held t) (tray_os t).
Definition set_user_data u t := mkTray (hwnd_ t) (hInst_ t) (running_ t) u (daemon_running t) (listen_sock_ t) (held t) (tray_os t).
Definition set_daemon_running b t := mkTray (hwnd_ t) (hInst_ t) (running_ t) (user_data t) b (listen_sock_ t) (held t) (tray_os t).
Definition set_listen_sock s t := mkTray (hwnd_ t) (hInst_ t) (running_ t) (user_data t) (daemon_running t) s (held t) (tray_os t).
Definition set_held l t := mkTray (hwnd_ t) (hInst_ t) (running_ t) (user_data t) (daemon_running t) (listen_sock_ t) l (tray_os t).

Definition acquire (r : TrayRes) : Act () := upd (λ t, set_held (r :: held t) t).
Definition release (r : TrayRes) : Act () := upd (λ t, set_held (remove_one r (held t)) t).

(** * TrayManager *)

Definition showContextMenu : Act () :=
  hMenu ← call CreatePopupMenu;
  if hMenu =? NO_HANDLE then mret () else
  _ ← acquire (RMenu hMenu);
  _ ← call (InsertMenuW hMenu 0 ID_TRAY_ABOUT);
  _ ← call (InsertMenuW hMenu 1 0);
  _ ← call (InsertMenuW hMenu 2 ID_TRAY_EXIT);
  pt ← call GetCursorPos;
  h ← look hwnd_;
  _ ← call (SetForegroundWindow h);
  _ ← call (TrackPopupMenu hMenu pt.1 pt.2 h);
  _ ← release (RMenu hMenu);
  call (DestroyMenu hMenu).

Definition handleTrayMessage (lParam : Z) : Act () :=
  if (lParam =? WM_RBUTTONUP) || (lParam =? WM_LBUTTONUP) then showContextMenu else mret ().

Definition stop : Act () :=
  h ← look hwnd_;
  _ ← (if h =? NO_HANDLE then mret () else
       _ ← release (RIcon h);
       _ ← call (NIM_DELETE h 1);
       _ ← release (RWindow h);
       _ ← call (DestroyWindow h);
       upd (set_hwnd NO_HANDLE));
  upd (set_running false).

(** [LOWORD]. *)
Definition loword (w : Z) : Z := w mod 2 ^ 16.

(** [windowProc], with the callback that the object was made with. *)
Definition windowProc (onExit : option (Act ())) (hwnd : Z) (msg : TrayMessage) : Act () :=
  match msg with
  | WM_NCCREATE => _ ← upd (λ t, set_user_data (hwnd :: user_data t) t); call (DefWindowProcW hwnd msg)
  | _ =>
      self ← look (λ t, bool_decide (hwnd ∈ user_data t));
      if negb self then call (DefWindowProcW hwnd msg) else
      match msg with
      | WM_TRAYICON lParam => handleTrayMessage lParam
      | WM_COMMAND wParam =>
          if loword wParam =? ID_TRAY_EXIT then
            _ ← match onExit with Some f => f | None => mret () end;
            stop
          else if loword wParam =? ID_TRAY_ABOUT then call (MessageBoxW hwnd)
          else mret ()
      | _ => call (DefWindowProcW hwnd msg)
      end
  end.

(** [init]; the system tells the window of its creation while it creates it. *)
Definition init (onExit : option (Act ())) (hInstance : Z) : Act bool :=
  _ ← upd (set_hInst hInstance);
  ok ← call RegisterClassExW;
  if negb ok then mret false else
  h ← call CreateWindowExW;
  _ ← (if h =? NO_HANDLE then mret () else _ ← acquire (RWindow h); windowProc onExit h WM_NCCREATE);
  _ ← upd (set_hwnd h);
  if h =? NO_HANDLE then mret false else
  ok ← call (NIM_ADD h 1);
  if negb ok then mret false else
  _ ← acquire (RIcon h);
  mret true.

(** The loop of [run], over the messages that the queue delivers to the window
    before [WM_QUIT]. *)
Fixpoint run_loop (onExit : option (Act ())) (msgs : list TrayMessage) : Act () :=
  running ← look running_;
  if negb running then mret () else
  match msgs with
  | [] => mret ()
  | msg :: msgs => h ← look hwnd_; _ ← windowProc onExit h msg; run_loop onExit msgs
  end.

Definition run (onExit : option (Act ())) (msgs : list TrayMessage) : Act () :=
  _ ← upd (set_running true);
  run_loop onExit msgs.

(** [~TrayManager]. *)
Definition destroy : Act () := stop.

(** * The daemon *)

Definition TcpServer_stop : Act () :=
  s ← look listen_sock_;
  if (s =? 0) || (s =? INVALID_SOCKET) then mret () else
  _ ← call (closesocket s);
  upd (set_listen_sock 0).

(** The callback of [main]. *)
Definition on_exit : Act () :=
  _ ← upd (set_daemon_running false);
  _ ← TcpServer_stop;
  exit_process 0.

(** The end of [main], on the messages that the tray gets. *)
Definition main_end (headless : bool) (hInstance : Z) (onExit : option (Act ())) (msgs : list TrayMessage) : Act Z :=
  _ ← (if headless then mret () else
       ok ← init onExit hInstance;
       _ ← (if ok : bool then _ ← call StartTcpThread; run onExit msgs else mret ());
       destroy);
  _ ← call StartTcp;
  mret 0.
End Tray.

(** The process when [main] gets there, with the listening socket, if any. *)
Definition tray_start {OS} (sock : Z) (os : OS) : Tray OS := mkTray NO_HANDLE NO_HANDLE false [] true sock [] os.
