(* ===== verification/TrayProps.v ===== *)
(** Properties of the tray icon: what it takes from the system it gives back,
    unless its menu ends the daemon. *)

From S2P Require Import Prelude Types Tray.

Local Open Scope Z_scope.

Section Tray.
Context {OS : Type} `{System TrayCall OS}.
Implicit Types (t : Tray OS).

Definition set_os (os : OS) t : Tray OS :=
  mkTray (hwnd_ t) (hInst_ t) (running_ t) (user_data t) (daemon_running t) (listen_sock_ t) (held t) os.

(** Updates of different fields commute, and the last of a field counts. *)
Lemma os_os a b t : set_os a (set_os b t) = set_os a t.
Proof. done. Qed.
Lemma held_os l a t : set_held l (set_os a t) = set_os a (set_held l t).
Proof. done. Qed.
Lemma held_held l l' t : set_held l (set_held l' t) = set_held l t.
Proof. done. Qed.
Lemma held_same t : set_held (held t) t = t.
Proof. by destruct t. Qed.
Lemma get_held_os a t : held (set_os a t) = held t.
Proof. done. Qed.
Lemma get_held_held l t : held (set_held l t) = l.
Proof. done. Qed.
Lemma get_hwnd_os a t : hwnd_ (set_os a t) = hwnd_ t.
Proof. done. Qed.
Lemma get_hwnd_held l t : hwnd_ (set_held l t) = hwnd_ t.
Proof. done. Qed.

#[local] Create Rewrite HintDb tray.
#[local] Hint Rewrite os_os held_os held_held held_same get_held_os get_held_held get_hwnd_os get_hwnd_held : tray.

(** [m] goes on, in a state that [Q] holds of. *)
Definition goes {A} (m : Proc (Tray OS) A) t (Q : A → Tray OS → Prop) : Prop :=
  ∃ a t', m t = (Goes a, t') ∧ Q a t'.

Lemma goes_bind {A B} (m : Proc (Tray OS) A) (f : A → Proc (Tray OS) B) t Q :
  goes m t (λ a t', goes (f a) t' Q) → goes (m ≫= f) t Q.
Proof. intros (a & t' & E & b & t2 & E2 & HQ). exists b, t2. split; [|done]. unfold mbind, Proc_bind. by rewrite E. Qed.

Lemma goes_call {A} (c : TrayCall A) t (Q : A → Tray OS → Prop) :
  (∀ a os, Q a (set_os os t)) → goes (call c) t Q.
Proof. intros HQ. unfold goes, call. destruct (answer c (tray_os t)) as [a os]. exists a, (set_os os t). by split. Qed.

Lemma goes_ret {A} (a : A) t (Q : A → Tray OS → Prop) : Q a t → goes (mret a) t Q.
Proof. intros HQ. by exists a, t. Qed.
Lemma goes_upd f t (Q : () → Tray OS → Prop) : Q () (f t) → goes (upd f) t Q.
Proof. intros HQ. by exists (), (f t). Qed.
Lemma goes_look {A} (f : Tray OS → A) t (Q : A → Tray OS → Prop) : Q (f t) t → goes (look f) t Q.
Proof. intros HQ. by exists (f t), t. Qed.

(** A step of a computation that goes on. *)
Ltac goes_step :=
  lazymatch goal with
  | |- goes (mbind _ _) _ _ => apply goes_bind
  | |- goes (call _) _ _ => apply goes_call; intros
  | |- goes (mret _) _ _ => apply goes_ret
  | |- goes (upd _) _ _ => apply goes_upd
  | |- goes (acquire _) _ _ => apply goes_upd
  | |- goes (release _) _ _ => apply goes_upd
  | |- goes (look _) _ _ => apply goes_look
  end.

(** * The invariant *)

(** The window of the icon, and the icon if it was added. *)
Record tray_ok t : Prop := {
  to_held : held t = (if hwnd_ t =? NO_HANDLE then [] else [RWindow (hwnd_ t)])
            ∨ (hwnd_ t ≠ NO_HANDLE ∧ held t = [RIcon (hwnd_ t); RWindow (hwnd_ t)]);
  to_user : hwnd_ t ≠ NO_HANDLE → hwnd_ t ∈ user_data t }.

(** What the daemon keeps. *)
Definition same_daemon t t' : Prop :=
  daemon_running t' = daemon_running t ∧ listen_sock_ t' = listen_sock_ t.

(** Nothing is held any more. *)
Definition gone t : Prop := hwnd_ t = NO_HANDLE ∧ held t = [] ∧ running_ t = false.

Lemma remove_one_here {A} `{EqDecision A} (x : A) l : remove_one x (x :: l) = l.
Proof. cbn. by rewrite bool_decide_eq_true_2. Qed.

Lemma stop_cleans t : tray_ok t → goes stop t (λ _ t', gone t' ∧ same_daemon t t').
Proof.
  intros [Hh _]. unfold stop, gone, same_daemon. repeat goes_step. destruct (hwnd_ t =? NO_HANDLE) eqn:E.
  - apply Z.eqb_eq in E. repeat goes_step. cbn. split_and!; try done. by destruct Hh as [->|[? _]].
  - apply Z.eqb_neq in E. repeat goes_step. cbn. split_and!; try done.
    destruct Hh as [->|[_ ->]]; cbn; repeat (case_bool_decide; simplify_eq/=); done.
Qed.

(** The menu is destroyed again. *)
Lemma menu_returns t : goes showContextMenu t (λ _ t', ∃ os, t' = set_os os t).
Proof.
  unfold showContextMenu. repeat goes_step. destruct (a =? NO_HANDLE); repeat goes_step; [by eexists|]. cbv beta.
  autorewrite with tray. rewrite remove_one_here, held_same. by eexists.
Qed.

(** The menu's Exit. *)
Definition is_exit (msg : TrayMessage) : bool := match msg with WM_COMMAND w => loword w =? ID_TRAY_EXIT | _ => false end.

(** Any other message leaves everything as it is. *)
Lemma windowProc_other onExit msg t :
  msg ≠ WM_NCCREATE → is_exit msg = false → goes (windowProc onExit (hwnd_ t) msg) t (λ _ t', ∃ os, t' = set_os os t).
Proof.
  intros Hn He. destruct msg as [|lParam|wParam|n]; [done|..]; cbn [windowProc]; repeat goes_step;
    destruct (bool_decide _); cbn [negb]; try (repeat goes_step; by eexists).
  - unfold handleTrayMessage. destruct (_ || _); [apply menu_returns|]. repeat goes_step. by exists (tray_os t); destruct t.
  - cbn in He. rewrite He. destruct (loword wParam =? ID_TRAY_ABOUT); repeat goes_step; [by eexists|].
    by exists (tray_os t); destruct t.
Qed.

Lemma init_takes onExit i t :
  hwnd_ t = NO_HANDLE → held t = [] →
  goes (init onExit i) t (λ ok t', tray_ok t' ∧ same_daemon t t' ∧
    (ok = true → hwnd_ t' ≠ NO_HANDLE ∧ held t' = [RIcon (hwnd_ t'); RWindow (hwnd_ t')])).
Proof.
  intros Hw Hh. unfold init, same_daemon. repeat goes_step.
  destruct a; cbn [negb]; [|repeat goes_step; split_and!; try done; split; cbn; [left; by rewrite Hw, Hh|done]].
  repeat goes_step. destruct (a =? NO_HANDLE) eqn:E.
  { repeat goes_step. apply Z.eqb_eq in E as ->. split_and!; try done. split; cbn; [left; by rewrite Hh|done]. }
  repeat goes_step. cbn [windowProc]. repeat goes_step. pose proof (proj1 (Z.eqb_neq _ _) E) as Hne.
  destruct a1; cbn [negb]; repeat goes_step;
    (split_and!; [split; cbn; [rewrite Hh, ?E; auto|intros _; apply elem_of_cons; by left]|done|done|]); [|done].
  intros _. cbn. by rewrite Hh.
Qed.

(** * A run of the daemon *)

(** A computation that goes on, or ends the process. *)
Definition ends {A} (m : Proc (Tray OS) A) t (Q : A → Tray OS → Prop) (E : Z → Tray OS → Prop) : Prop :=
  match m t with (Goes a, t') => Q a t' | (Exits code, t') => E code t' end.

Lemma ends_bind {A B} (m : Proc (Tray OS) A) (f : A → Proc (Tray OS) B) t Q E :
  ends m t (λ a t', ends (f a) t' Q E) E → ends (m ≫= f) t Q E.
Proof. unfold ends, mbind, Proc_bind. by destruct (m t) as [[a|code] t']. Qed.

Lemma ends_goes {A} (m : Proc (Tray OS) A) t Q E : goes m t Q → ends m t Q E.
Proof. intros (a & t' & Em & HQ). unfold ends. by rewrite Em. Qed.

Lemma goes_mono {A} (m : Proc (Tray OS) A) t (P Q : A → Tray OS → Prop) :
  (∀ a t', P a t' → Q a t') → goes m t P → goes m t Q.
Proof. intros HPQ (a & t' & E & HP). exists a, t'. auto. Qed.

(** The icon as it is while it works. *)
Definition shown t : Prop := hwnd_ t ≠ NO_HANDLE ∧ hwnd_ t ∈ user_data t ∧ held t = [RIcon (hwnd_ t); RWindow (hwnd_ t)].

Lemma shown_ok t : shown t → tray_ok t.
Proof. intros (Hn & Hu & Hh). split; [by right|done]. Qed.

(** The listening socket has been closed, if there was one. *)
Definition sock_closed (sock : Z) t : Prop :=
  listen_sock_ t = (if (sock =? 0) || (sock =? INVALID_SOCKET) then sock else 0).

(** The process has been ended by the menu: nothing is given back. *)
Definition ended_by_menu (sock code : Z) t : Prop := code = 0 ∧ shown t ∧ daemon_running t = false ∧ sock_closed sock t.

Lemma exit_command hwnd w t :
  hwnd = hwnd_ t → shown t → loword w = ID_TRAY_EXIT →
  ends (windowProc (Some on_exit) hwnd (WM_COMMAND w)) t (λ _ _, False) (ended_by_menu (listen_sock_ t)).
Proof.
  intros -> (Hn & Hu & Hh) Hw. unfold windowProc, ends, mbind, Proc_bind, look. rewrite bool_decide_eq_true_2 by done.
  cbn [negb]. rewrite Hw, Z.eqb_refl. unfold on_exit, TcpServer_stop, exit_process, mbind, Proc_bind, look, upd.
  cbn [listen_sock_ set_daemon_running]. unfold ended_by_menu, sock_closed.
  destruct ((listen_sock_ t =? 0) || (listen_sock_ t =? INVALID_SOCKET)); [done|].
  unfold mbind, Proc_bind, call. by destruct (answer _ _).
Qed.

Lemma run_loop_ends msgs t :
  shown t → running_ t = true → Forall (λ m, m ≠ WM_NCCREATE) msgs →
  ends (run_loop (Some on_exit) msgs) t
    (λ _ t', shown t' ∧ same_daemon t t' ∧ forallb (λ m, negb (is_exit m)) msgs = true)
    (λ code t', ended_by_menu (listen_sock_ t) code t' ∧ existsb is_exit msgs = true).
Proof.
  intros Ht Hr Hm. revert t Ht Hr. induction Hm as [|msg msgs Hmsg _ IH]; intros t Ht Hr; cbn [run_loop];
    apply ends_bind, ends_goes, goes_look; rewrite Hr; cbn [negb]; [by apply ends_goes, goes_ret|].
  apply ends_bind, ends_goes, goes_look, ends_bind. destruct (is_exit msg) eqn:E.
  - destruct msg as [| |w|]; try done. apply Z.eqb_eq in E.
    pose proof (exit_command _ w t eq_refl Ht E) as He. unfold ends in *.
    destruct (windowProc _ _ _ t) as [[a|code] t']; [done|]. split; [done|]. cbn. by rewrite E.
  - apply ends_goes. eapply goes_mono; [|by apply windowProc_other]. cbv beta. intros _ t' [os ->].
    specialize (IH (set_os os t) Ht Hr). unfold ends in *. destruct (run_loop _ msgs _) as [[a|code] t'']; cbn; by rewrite E.
Qed.

(** With the tray, whether or not it could be made. *)
Lemma tray_ends i msgs t :
  hwnd_ t = NO_HANDLE → held t = [] → Forall (λ m, m ≠ WM_NCCREATE) msgs →
  ends (ok ← init (Some on_exit) i;
        _ ← (if ok : bool then _ ← call StartTcpThread; run (Some on_exit) msgs else mret ());
        destroy) t
    (λ _ t', held t' = [] ∧ same_daemon t t'
             ∧ ((init (Some on_exit) i t).1 = Goes false ∨ forallb (λ m, negb (is_exit m)) msgs = true))
    (λ code t', ended_by_menu (listen_sock_ t) code t' ∧ existsb is_exit msgs = true).
Proof.
  intros Hw Hh Hm. destruct (init_takes (Some on_exit) i t Hw Hh) as (ok & t1 & E1 & Hok & [Hd1 Hd2] & Hshown).
  apply ends_bind, ends_goes. exists ok, t1. split; [done|]. rewrite E1. cbn [fst]. apply ends_bind. destruct ok.
  - destruct (Hshown eq_refl) as [Hn Hheld]. apply ends_bind, ends_goes, goes_call. intros _ os.
    unfold run. apply ends_bind, ends_goes, goes_upd.
    pose proof (run_loop_ends msgs (set_running true (set_os os t1)) (conj Hn (conj (to_user _ Hok Hn) Hheld)) eq_refl Hm) as Hl.
    cbn [listen_sock_ set_running set_os] in Hl. rewrite Hd2 in Hl. unfold ends in Hl |- *.
    destruct (run_loop _ msgs _) as [[a|code] t2]; [|done]. destruct Hl as (Hs & [He1 He2] & Hx). cbn in He1, He2.
    destruct (stop_cleans t2 (shown_ok _ Hs)) as (a' & t3 & E3 & (_ & Hg & _) & Hs3 & Hs4). unfold destroy. rewrite E3.
    split_and!; [done|split; congruence|by right].
  - apply ends_goes, goes_ret. destruct (stop_cleans t1 Hok) as (a' & t3 & E3 & (_ & Hg & _) & Hs3 & Hs4).
    unfold destroy, ends. rewrite E3. split_and!; [done|split; congruence|by left].
Qed.

(** C21: The end of [main], whatever the system answers and whatever messages the
    tray gets. Either [main] goes on to its TCP server: then nothing is held of
    the system any more, neither icon nor window nor menu, also when making the
    tray failed half way, and the daemon has not been told to stop; this is so
    exactly without a tray, or when none could be made, or when the user never
    chose Exit. Or the user did: then the process exits with 0, the daemon's
    flag is down and its listening socket closed; but the callback ends the
    process before the tray takes its icon back, so the icon and its window are
    still there. *)
Theorem tray_life headless i msgs sock os :
  Forall (λ m, m ≠ WM_NCCREATE) msgs →
  match main_end headless i (Some on_exit) msgs (tray_start sock os) with
  | (Goes code, t) => code = 0 ∧ held t = [] ∧ daemon_running t = true ∧ listen_sock_ t = sock
      ∧ (headless = true ∨ (init (Some on_exit) i (tray_start sock os)).1 = Goes false
         ∨ forallb (λ m, negb (is_exit m)) msgs = true)
  | (Exits code, t) => ended_by_menu sock code t ∧ headless = false ∧ existsb is_exit msgs = true
  end.
Proof.
  intros Hm. change (ends (main_end headless i (Some on_exit) msgs) (tray_start sock os)
    (λ code t, code = 0 ∧ held t = [] ∧ daemon_running t = true ∧ listen_sock_ t = sock
      ∧ (headless = true ∨ (init (Some on_exit) i (tray_start sock os)).1 = Goes false
         ∨ forallb (λ m, negb (is_exit m)) msgs = true))
    (λ code t, ended_by_menu sock code t ∧ headless = false ∧ existsb is_exit msgs = true)).
  unfold main_end. apply ends_bind. destruct headless.
  - apply ends_goes, goes_ret, ends_bind, ends_goes, goes_call. intros _ os1. apply ends_goes, goes_ret. split_and!; auto.
  - pose proof (tray_ends i msgs (tray_start sock os) eq_refl eq_refl Hm) as He. unfold ends in He |- *.
    match type of He with match ?m with _ => _ end => destruct m as [[a|code] t1] end; [|by destruct He; split_and!].
    destruct He as (Hh & [Hr Hs] & Hx). unfold mbind, Proc_bind, call. destruct (answer StartTcp _). split_and!; auto.
Qed.
End Tray.

(** * A system *)

(** It makes what it is asked for. *)
Definition tray_system : System TrayCall () := {| answer A c os :=
  match c in TrayCall A return A * () with
  | RegisterClassExW => (true, os)
  | CreateWindowExW => (5, os)
  | DestroyWindow _ => ((), os)
  | NIM_ADD _ _ => (true, os)
  | NIM_DELETE _ _ => ((), os)
  | DefWindowProcW _ _ => ((), os)
  | MessageBoxW _ => ((), os)
  | CreatePopupMenu => (6, os)
  | InsertMenuW _ _ _ => ((), os)
  | GetCursorPos => ((10, 20), os)
  | SetForegroundWindow _ => ((), os)
  | TrackPopupMenu _ _ _ _ => ((), os)
  | DestroyMenu _ => ((), os)
  | closesocket _ => ((), os)
  | StartTcpThread => ((), os)
  | StartTcp => ((), os)
  end |}.
#[local] Existing Instance tray_system.

(** The user opens the menu and chooses Exit; the icon stays. *)
Definition exit_msgs : list TrayMessage := [WM_TRAYICON WM_RBUTTONUP; WM_COMMAND ID_TRAY_EXIT].

Lemma test_exit :
  ∃ t, main_end false 7 (Some on_exit) exit_msgs (tray_start 99 ()) = (Exits 0, t) ∧ held t = [RIcon 5; RWindow 5].
Proof. vm_compute. by eexists. Qed.

Lemma exit_msgs_ok : Forall (λ m, m ≠ WM_NCCREATE) exit_msgs.
Proof. constructor; [done|constructor; [done|constructor]]. Qed.

Example tray_life_witness :
  ∃ t, main_end false 7 (Some on_exit) exit_msgs (tray_start 99 ()) = (Exits 0, t) ∧ ended_by_menu 99 0 t
       ∧ held t = [RIcon 5; RWindow 5].
Proof.
  destruct test_exit as (t & E & Hh). pose proof (tray_life false 7 exit_msgs 99 () exit_msgs_ok) as Hl.
  rewrite E in Hl. destruct Hl as [Hl _]. exact (ex_intro _ t (conj E (conj Hl Hh))).
Defined.
