(* ===== verification/Survey.v ===== *)
(** [tools/survey-uia/survey_uia.cpp]: a tool that tries out UI Automation and
    prints what it found as JSON. *)

From S2P Require Import Prelude CString Json Types Win32Api.

Local Open Scope Z_scope.

(** * The system *)

(** A string that the system has made: its address and its text. *)
Definition BSTR : Type := option (Z * wide).

(** Calls that make an interface also return their [HRESULT]. *)
Inductive SurveyCall : Type → Type :=
  | CoInitializeEx : SurveyCall ()
  | CoCreateInstance : SurveyCall (Z * Z)
  | GetRootElement (pAutomation : Z) : SurveyCall (Z * Z)
  | get_CurrentName (pElement : Z) : SurveyCall BSTR
  | SysFreeString (bstr : Z) : SurveyCall ()
  | CreateTrueCondition (pAutomation : Z) : SurveyCall Z
  | FindAll (pElement pCondition : Z) : SurveyCall (Z * Z)
  | get_Length (pArray : Z) : SurveyCall Z
  | GetElement (pArray : Z) (i : Z) : SurveyCall Z
  | GetCurrentPattern (pElement : Z) : SurveyCall (Z * Z)
  | GetDesktopWindow : SurveyCall Z
  | ElementFromHandle (pAutomation hwnd : Z) : SurveyCall (Z * Z)
  | WideCharToMultiByte (ws : wide) : SurveyCall string
  | Release (p : Z) : SurveyCall ()
  | CoUninitialize : SurveyCall ().

Definition SUCCEEDED (hr : Z) : bool := 0 <=? hr.

(** * Data *)

Record CheckResult := mkCheckResult { name : string; passed : bool; details : string }.

(** What the tool has to give back: interfaces and strings. *)
Inductive Owned := Iface (p : Z) | Bstr (p : Z).
#[export] Instance Owned_eq_dec : EqDecision Owned.
Proof. solve_decision. Defined.

Record Survey (OS : Type) := mkSurvey { results : list CheckResult; owned : list Owned; survey_os : OS }.
Arguments mkSurvey {OS} _ _ _.
Arguments results {OS} _.
Arguments owned {OS} _.
Arguments survey_os {OS} _.

(** * JSON *)

(** [sprintf] with [\u%04x]. *)
Definition json_escape_char (c : ascii) : string :=
  if ascii_eqb c dquote then String backslash (String dquote EmptyString)
  else if ascii_eqb c backslash then String backslash (String backslash EmptyString)
  else if code c =? 8 then "\b"
  else if code c =? 12 then "\f"
  else if code c =? 10 then "\n"
  else if code c =? 13 then "\r"
  else if code c =? 9 then "\t"
  else if code c <? 0x20 then
    "\u00" +:+ String (lower_hex (code c / 16)) (String (lower_hex (code c mod 16)) EmptyString)
  else String c EmptyString.

Fixpoint json_escape (s : string) : string :=
  match s with EmptyString => EmptyString | String c s => json_escape_char c +:+ json_escape s end.

Definition endl : string := String (chr 10) EmptyString.

Definition print_result (r : CheckResult) (last : bool) : string :=
  "    {" +:+ endl +:+
  quoted "      'name': '" +:+ json_escape (name r) +:+ quoted "'," +:+ endl +:+
  quoted "      'passed': " +:+ (if passed r then "true" else "false") +:+ "," +:+ endl +:+
  quoted "      'details': '" +:+ json_escape (details r) +:+ quoted "'" +:+ endl +:+
  "    }" +:+ (if last then EmptyString else ",") +:+ endl.

Fixpoint print_all (l : list CheckResult) : string :=
  match l with
  | [] => EmptyString
  | r :: l => print_result r (match l with [] => true | _ => false end) +:+ print_all l
  end.

Definition print_results (l : list CheckResult) : string :=
  "{" +:+ endl +:+ quoted "  'results': [" +:+ endl +:+ print_all l +:+ "  ]" +:+ endl +:+ "}" +:+ endl.

(** * The survey *)

Section Survey.
Context {OS : Type} `{System SurveyCall OS}.

Abbreviation Sv := (M (Survey OS)).

Definition call {A} (c : SurveyCall A) : Sv A := λ s,
  let '(a, os) := answer c (survey_os s) in (Ok a, mkSurvey (results s) (owned s) os).

Definition add_result (n : string) (ok : bool) (d : string) : Sv () :=
  modify (λ s, mkSurvey (results s ++ [mkCheckResult n ok d]) (owned s) (survey_os s)).

Definition own (x : Owned) : Sv () := modify (λ s, mkSurvey (results s) (x :: owned s) (survey_os s)).
Definition disown (x : Owned) : Sv () := modify (λ s, mkSurvey (results s) (remove_one x (owned s)) (survey_os s)).

(** An interface that was asked for; a null pointer is nothing to own. *)
Definition own_new (p : Z) : Sv () := if p =? NULL then mret () else own (Iface p).

(** A method of an interface that has not been given back. *)
Definition on {A} (p : Z) (c : SurveyCall A) : Sv A := λ s,
  if bool_decide (Iface p ∈ owned s) then call c s else (Undef, s).

(** A method that makes another one. *)
Definition on_new (p : Z) (c : SurveyCall (Z * Z)) : Sv (Z * Z) :=
  r ← on p c; _ ← own_new r.2; mret r.

Definition release (p : Z) : Sv () :=
  _ ← on p (Release p);
  disown (Iface p).

(** [get_CurrentName] and [SysFreeString]. *)
Definition current_name (p : Z) : Sv BSTR :=
  b ← on p (get_CurrentName p);
  _ ← match b with Some (q, _) => own (Bstr q) | None => mret () end;
  mret b.
Definition free_string (b : BSTR) : Sv () :=
  match b with
  | None => mret ()
  | Some (q, _) =>
      _ ← call (SysFreeString q);
      disown (Bstr q)
  end.

Definition w2u8 (ws : wide) : Sv string :=
  match ws with [] => mret EmptyString | _ => call (WideCharToMultiByte ws) end.
Definition bstr_to_utf8 (b : BSTR) : Sv string :=
  match b with None => mret EmptyString | Some (_, ws) => w2u8 ws end.

(** What a check that may fail says. *)
Definition hr_text (hr : Z) : string := if SUCCEEDED hr then EmptyString else "HRESULT: " +:+ Z_to_string hr.

(** The first child. *)
Definition survey_child (pChild : Z) : Sv () :=
  childName ← current_name pChild;
  text ← match childName with Some _ => bstr_to_utf8 childName | None => mret "(null)" end;
  _ ← add_result "Child[0].CurrentName" true text;
  _ ← free_string childName;
  r ← on_new pChild (GetCurrentPattern pChild);
  _ ← add_result "Child[0].LegacyIAccessiblePattern" (SUCCEEDED r.1 && negb (r.2 =? NULL)) EmptyString;
  _ ← (if r.2 =? NULL then mret () else release r.2);
  release pChild.

Definition survey_children (pChildren : Z) : Sv () :=
  count ← on pChildren (get_Length pChildren);
  _ ← add_result "Root.Children.Count" true (Z_to_string count);
  _ ← (if 0 <? count then
         pChild ← on pChildren (GetElement pChildren 0);
         _ ← own_new pChild;
         if pChild =? NULL then mret () else survey_child pChild
       else mret ());
  release pChildren.

Definition survey_condition (pRoot pTrueCondition : Z) : Sv () :=
  r ← on_new pRoot (FindAll pRoot pTrueCondition);
  _ ← add_result "Root.FindAll(Children)" (SUCCEEDED r.1) (hr_text r.1);
  _ ← (if SUCCEEDED r.1 && negb (r.2 =? NULL) then survey_children r.2 else mret ());
  release pTrueCondition.

Definition survey_root (pAutomation pRoot : Z) : Sv () :=
  n ← current_name pRoot;
  text ← match n with Some _ => bstr_to_utf8 n | None => mret "NULL" end;
  _ ← add_result "Root.CurrentName" (bool_decide (is_Some n)) text;
  _ ← free_string n;
  pTrueCondition ← on pAutomation (CreateTrueCondition pAutomation);
  _ ← own_new pTrueCondition;
  _ ← (if pTrueCondition =? NULL then mret () else survey_condition pRoot pTrueCondition);
  release pRoot.

Definition survey_automation (pAutomation : Z) : Sv () :=
  r ← on_new pAutomation (GetRootElement pAutomation);
  _ ← add_result "GetRootElement" (SUCCEEDED r.1 && negb (r.2 =? NULL)) (hr_text r.1);
  _ ← (if r.2 =? NULL then mret () else survey_root pAutomation r.2);
  hDesktop ← call GetDesktopWindow;
  r ← on_new pAutomation (ElementFromHandle pAutomation hDesktop);
  _ ← add_result "ElementFromHandle(Desktop)" (SUCCEEDED r.1 && negb (r.2 =? NULL)) EmptyString;
  _ ← (if r.2 =? NULL then mret () else release r.2);
  release pAutomation.

(** [main]: what it prints. *)
Definition survey_main : Sv string :=
  _ ← call CoInitializeEx;
  r ← call CoCreateInstance;
  _ ← own_new r.2;
  _ ← add_result "CoCreateInstance(CLSID_CUIAutomation)" (SUCCEEDED r.1) (hr_text r.1);
  _ ← (if SUCCEEDED r.1 && negb (r.2 =? NULL) then survey_automation r.2 else mret ());
  _ ← call CoUninitialize;
  gets (λ s, print_results (results s)).
End Survey.

Definition survey_start {OS} (os : OS) : Survey OS := mkSurvey [] [] os.
