(* ===== verification/SurveyProps.v ===== *)
(** Properties of the survey: what it prints reads back as its results, and what
    it takes from the system it gives back. *)

From S2P Require Import Prelude StdMap CString Double Json JsonTotal JsonRoundtrip Types Win32Api Survey.

Local Open Scope Z_scope.

(** * What is printed reads back *)

Definition result_json (r : CheckResult) : Value :=
  JObj (map_of [("name", JStr (name r)); ("passed", JBool (passed r)); ("details", JStr (details r))]).
Definition results_json (l : list CheckResult) : Value := JObj (map_of [("results", JArr (result_json <$> l))]).

Lemma json_escape_dump s : json_escape s = dump_chars s.
Proof. induction s as [|c s IH]; [done|]. cbn. by rewrite IH. Qed.

Lemma peek_string s rest : peek (dump_string s +:+ rest) = (Ok dquote, dump_string s +:+ rest).
Proof. by rewrite dump_string_app. Qed.

(** A member of an object, with space around it. *)
Lemma object_member pv sf f o s k t v s2 :
  (len (dump_string k) ≤ S sf)%nat → skip_while isspace s = dump_string k +:+ String ":" t →
  pv (skip_while isspace t) = (Ok v, s2) →
  object_loop pv sf (S f) o s
  = match skip_while isspace s2 with
    | String c rest =>
        if ascii_eqb c "}" then (Ok (JObj (map_emplace k v o)), rest)
        else if negb (ascii_eqb c ",") then (Throw "expected ',' or '}'", rest)
        else object_loop pv sf f (map_emplace k v o) (skip_while isspace rest)
    | EmptyString => (Throw "unexpected end", EmptyString)
    end.
Proof.
  intros Hk Hs Hv. cbn [object_loop]. unfold mbind, M_bind, skip_ws, modify. rewrite Hs, peek_string. cbv beta iota. change (negb (ascii_eqb dquote dquote)) with false. cbv beta iota.
  rewrite parse_string_dump by done. cbn [skip_while]. change (isspace ":") with false. cbn [get].
  change (negb (ascii_eqb ":" ":")) with false. cbv beta iota. rewrite Hv.
  destruct (skip_while isspace s2) as [|c rest]; [done|]. cbn [get]. by destruct (ascii_eqb c "}"), (ascii_eqb c ",").
Qed.

Lemma parse_value_string f s rest :
  (len (dump_string s) ≤ S f)%nat → parse_value (S f) (dump_string s +:+ rest) = (Ok (JStr s), rest).
Proof.
  intros Hf. cbn [parse_value]. unfold mbind, M_bind. rewrite peek_string. cbv beta iota.
  change (ascii_eqb dquote "{") with false. change (ascii_eqb dquote "[") with false.
  change (ascii_eqb dquote dquote) with true. cbv beta iota. by rewrite parse_string_dump.
Qed.

Lemma parse_value_bool f (b : bool) rest :
  parse_value (S f) ((if b then "true" else "false") +:+ rest) = (Ok (JBool b), rest).
Proof.
  cbn [parse_value]. unfold mbind, M_bind, peek, gets.
  destruct b; unfold parse_true, parse_false, parse_word, mbind, M_bind, get_st; cbn; by destruct rest.
Qed.

(** An entry as the parser sees it. *)
Lemma print_result_text r (last : bool) rest :
  skip_while isspace (print_result r last +:+ rest)
  = String "{" (endl +:+ "      " +:+ dump_string "name" +:+ String ":" (" " +:+ dump_string (name r) +:+
    String "," (endl +:+ "      " +:+ dump_string "passed" +:+ String ":" (" " +:+ (if passed r then "true" else "false") +:+
    String "," (endl +:+ "      " +:+ dump_string "details" +:+ String ":" (" " +:+ dump_string (details r) +:+
    endl +:+ "    }" +:+ (if last then EmptyString else ",") +:+ endl +:+ rest)))))).
Proof.
  unfold print_result. rewrite !json_escape_dump, !str_app_assoc, !dump_string_app. reflexivity.
Qed.

Lemma parse_value_object f s k t :
  skip_while isspace s = dump_string k +:+ t →
  parse_value (S f) (String "{" s) = object_loop (parse_value f) f f [] (dump_string k +:+ t).
Proof.
  intros Hs. change (parse_value (S f) (String "{" s)) with (parse_object (parse_value f) f f (String "{" s)).
  unfold parse_object, mbind, M_bind, skip_ws, modify. cbn [get]. rewrite Hs, peek_string.
  change (ascii_eqb dquote "}") with false. done.
Qed.

Lemma skip_string s rest : skip_while isspace (dump_string s +:+ rest) = dump_string s +:+ rest.
Proof. by rewrite dump_string_app. Qed.

(** An entry is read whole, up to its comma or the end of the line. *)
Lemma parse_result f r last rest :
  (len (dump_string (name r)) ≤ S f)%nat → (len (dump_string (details r)) ≤ S f)%nat → (8 ≤ f)%nat →
  parse_value (S (S f)) (skip_while isspace (print_result r last +:+ rest))
  = (Ok (result_json r), (if last then EmptyString else ",") +:+ endl +:+ rest).
Proof.
  intros Hn Hd Hf. rewrite print_result_text. erewrite parse_value_object by reflexivity.
  erewrite (object_member _ _ _ _ _ "name"); [|change (len (dump_string "name")) with 6%nat; lia|apply skip_string|].
  2:{ change (skip_while isspace (" " +:+ dump_string (name r) +:+ ?x)) with (skip_while isspace (dump_string (name r) +:+ x)).
      rewrite skip_string. by apply parse_value_string. }
  change (skip_while isspace (String "," ?x)) with (String "," x).
  change (ascii_eqb "," "}") with false. change (negb (ascii_eqb "," ",")) with false. cbv beta iota.
  destruct f as [|f]; [lia|].
  erewrite (object_member _ _ _ _ _ "passed"); [|change (len (dump_string "passed")) with 8%nat; lia|reflexivity|].
  2:{ etransitivity; [|apply (parse_value_bool (S f) (passed r))]. by destruct (passed r). }
  change (skip_while isspace (String "," ?x)) with (String "," x).
  change (ascii_eqb "," "}") with false. change (negb (ascii_eqb "," ",")) with false. cbv beta iota.
  destruct f as [|f]; [lia|].
  erewrite (object_member _ _ _ _ _ "details"); [|change (len (dump_string "details")) with 9%nat; lia|reflexivity|].
  2:{ change (skip_while isspace (" " +:+ dump_string (details r) +:+ ?x)) with (skip_while isspace (dump_string (details r) +:+ x)).
      rewrite skip_string. by apply parse_value_string. }
  reflexivity.
Qed.

(** Strings of the results are shorter than the text. *)
Lemma print_result_length r (last : bool) :
  (len (dump_string (name r)) + len (dump_string (details r)) + 10 ≤ len (print_result r last))%nat.
Proof.
  unfold print_result. rewrite (json_escape_dump (name r)), (json_escape_dump (details r)). unfold dump_string.
  rewrite !str_length_app.
  change (len (quoted "      'name': '")) with 15%nat. change (len "    {") with 5%nat. change (len endl) with 1%nat.
  cbn [String.length]. rewrite !str_length_app. cbn [String.length]. lia.
Qed.

Lemma skip_while_twice p s : skip_while p (skip_while p s) = skip_while p s.
Proof. induction s as [|c s IH]; [done|]. cbn. destruct (p c) eqn:E; [done|]. cbn. by rewrite E. Qed.

Lemma array_loop_skip pv n acc s : array_loop pv (S n) acc (skip_while isspace s) = array_loop pv (S n) acc s.
Proof. cbn [array_loop]. unfold mbind, M_bind, skip_ws, modify. by rewrite skip_while_twice. Qed.

(** The entries, up to the bracket. *)
Lemma parse_results f n l acc rest :
  l ≠ [] → (length l ≤ n)%nat → (len (print_all l) ≤ f)%nat →
  array_loop (parse_value (S (S f))) n acc (print_all l +:+ "  ]" +:+ rest) = (Ok (JArr (acc ++ (result_json <$> l))), rest).
Proof.
  revert n acc. induction l as [|r l IH]; intros n acc Hne Hn Hf; [done|]. destruct n as [|n]; [cbn in Hn; lia|].
  cbn [print_all] in *. rewrite str_length_app in Hf. pose proof (print_result_length r (match l with [] => true | _ => false end)).
  rewrite str_app_assoc. cbn [array_loop]. unfold mbind, M_bind, skip_ws, modify. rewrite parse_result by lia.
  destruct l as [|r' l].
  - cbn. by rewrite app_assoc || done.
  - change (skip_while isspace ("," +:+ ?x)) with (String "," x). cbn [get].
    change (ascii_eqb "," "]") with false. change (negb (ascii_eqb "," ",")) with false. cbv beta iota.
    change (skip_while isspace (endl +:+ ?x)) with (skip_while isspace x).
    destruct n as [|n]; [cbn in Hn; lia|]. rewrite array_loop_skip, IH by (done || cbn in *; lia).
    by rewrite <-app_assoc.
Qed.

Lemma print_all_length l : (10 * length l ≤ len (print_all l))%nat.
Proof.
  induction l as [|r l IH]; [done|]. cbn [print_all length]. rewrite str_length_app.
  pose proof (print_result_length r (match l with [] => true | _ => false end)). lia.
Qed.

Lemma parse_value_results f l rest :
  l ≠ [] → (len (print_all l) ≤ f)%nat →
  parse_value (S (S (S f))) (String "[" (endl +:+ print_all l +:+ "  ]" +:+ rest)) = (Ok (JArr (result_json <$> l)), rest).
Proof.
  intros Hne Hf. change (parse_value (S ?f) (String "[" ?x)) with (parse_array (parse_value f) f (String "[" x)).
  unfold parse_array, mbind, M_bind, skip_ws, modify. cbn [get].
  change (skip_while isspace (endl +:+ ?x)) with (skip_while isspace x).
  pose proof (print_all_length l). assert (array_loop (parse_value (S (S f))) (S (S f)) [] (skip_while isspace (print_all l +:+ "  ]" +:+ rest))
    = (Ok (JArr (result_json <$> l)), rest)) as E by (by rewrite array_loop_skip, parse_results by (done || lia)).
  destruct l as [|r l]; [done|]. cbn [print_all] in E |- *. rewrite str_app_assoc in E |- *.
  rewrite print_result_text in E |- *. cbn [peek gets]. exact E.
Qed.

(** What is printed reads back as the results. *)
Lemma print_results_parse l : l ≠ [] → json_parse (print_results l) = Ok (results_json l).
Proof.
  intros Hne. unfold json_parse, parse_all, mbind, M_bind, skip_ws, modify.
  assert (skip_while isspace (print_results l)
          = String "{" (endl +:+ "  " +:+ dump_string "results" +:+ String ":" (" " +:+ String "["
              (endl +:+ print_all l +:+ "  ]" +:+ endl +:+ "}" +:+ endl)))) as -> by reflexivity.
  assert (len (print_results l) = 23 + len (print_all l))%nat as ->.
  { unfold print_results. rewrite !str_length_app. change (len (quoted "  'results': [")) with 14%nat. cbn. lia. }
  pose proof (print_all_length l). erewrite parse_value_object by reflexivity.
  change (23 + len (print_all l))%nat with (S (S (S (20 + len (print_all l))))).
  erewrite (object_member _ _ _ _ _ "results"); [|change (len (dump_string "results")) with 9%nat; lia|apply skip_string|].
  2:{ change (skip_while isspace (" " +:+ String "[" ?x)) with (String "[" x). apply parse_value_results; [done|lia]. }
  reflexivity.
Qed.

(** * What is taken is given back *)

(** A call that fails makes nothing. *)
Class ComCalls (OS : Type) `{System SurveyCall OS} := {
  create_fails hr p (os os' : OS) : answer CoCreateInstance os = ((hr, p), os') → SUCCEEDED hr = false → p = NULL;
  find_fails e c hr p (os os' : OS) : answer (FindAll e c) os = ((hr, p), os') → SUCCEEDED hr = false → p = NULL }.

Section Owned.
Context {OS : Type} `{ComCalls OS}.
Implicit Types (s : Survey OS) (L : list Owned) (p : Z).

(** [m] ends normally and turns what is owned from [L] into what [Q] says of it;
    results are only added. *)
Definition turns {A} L (m : M (Survey OS) A) (Q : A → list Owned → Prop) : Prop :=
  ∀ s, owned s = L → ∃ a s', m s = (Ok a, s') ∧ Q a (owned s') ∧ ∃ more, results s' = results s ++ more.

Lemma turns_bind {A B} L (m : M (Survey OS) A) (f : A → M (Survey OS) B) R Q :
  turns L m R → (∀ a L', R a L' → turns L' (f a) Q) → turns L (m ≫= f) Q.
Proof.
  intros Hm Hf s Hs. destruct (Hm s Hs) as (a & s1 & E1 & HR & m1 & Er1).
  destruct (Hf a _ HR s1 eq_refl) as (b & s2 & E2 & HQ & m2 & Er2). exists b, s2.
  split; [unfold mbind, M_bind; by rewrite E1|]. split; [done|]. exists (m1 ++ m2). by rewrite Er2, Er1, app_assoc.
Qed.

Lemma turns_ret {A} L (a : A) (Q : A → list Owned → Prop) : Q a L → turns L (mret a) Q.
Proof. intros HQ s <-. exists a, s. split_and!; [done|done|]. exists []. by rewrite app_nil_r. Qed.

Lemma turns_call {A} L (c : SurveyCall A) (Q : A → list Owned → Prop) :
  (∀ os a os', answer c os = (a, os') → Q a L) → turns L (call c) Q.
Proof.
  intros HQ s <-. unfold call. destruct (answer c (survey_os s)) as [a os'] eqn:E. do 2 eexists. split; [done|].
  split; [by eapply HQ|]. exists []. cbn. by rewrite app_nil_r.
Qed.

Lemma turns_on {A} L p (c : SurveyCall A) (Q : A → list Owned → Prop) :
  Iface p ∈ L → (∀ os a os', answer c os = (a, os') → Q a L) → turns L (on p c) Q.
Proof.
  intros Hp HQ s Hs. unfold on. rewrite bool_decide_eq_true_2 by by rewrite Hs. by apply (turns_call L c Q).
Qed.

Lemma turns_own L x Q : Q () (x :: L) → turns L (own x) Q.
Proof. intros HQ s <-. do 2 eexists. split; [done|]. split; [done|]. exists []. cbn. by rewrite app_nil_r. Qed.

(** What is owned after an interface was asked for. *)
Definition new_in p L : list Owned := if p =? NULL then L else Iface p :: L.

Lemma turns_own_new L p Q : Q () (new_in p L) → turns L (own_new p) Q.
Proof. intros HQ. unfold own_new, new_in in *. destruct (p =? NULL); [by apply turns_ret|by apply turns_own]. Qed.

Lemma new_in_old p L x : x ∈ L → x ∈ new_in p L.
Proof. intros Hx. unfold new_in. destruct (p =? NULL); [done|by apply elem_of_cons; right]. Qed.

Lemma turns_on_new L p c :
  Iface p ∈ L → turns L (on_new p c) (λ r L', L' = new_in r.2 L).
Proof.
  intros Hp. unfold on_new. eapply (turns_bind _ _ _ (λ _ L', L' = L)); [by apply turns_on|]. intros r L' ->.
  eapply (turns_bind _ _ _ (λ _ L', L' = new_in r.2 L)); [by apply turns_own_new|]. by intros _ L' ->; apply turns_ret.
Qed.

(** One that is used only if it is there. *)
Lemma turns_checked L p (body : M (Survey OS) ()) :
  (p ≠ NULL → turns (Iface p :: L) body (λ _ L', L' = L)) →
  turns (new_in p L) (if p =? NULL then mret () else body) (λ _ L', L' = L).
Proof.
  intros Hb. unfold new_in. destruct (p =? NULL) eqn:E; [by apply turns_ret|]. by apply Hb, Z.eqb_neq.
Qed.

(** One that is used only if the call succeeded, too. *)
Lemma turns_succeeded L hr p (body : M (Survey OS) ()) :
  (SUCCEEDED hr = false → p = NULL) → (p ≠ NULL → turns (Iface p :: L) body (λ _ L', L' = L)) →
  turns (new_in p L) (if SUCCEEDED hr && negb (p =? NULL) then body else mret ()) (λ _ L', L' = L).
Proof.
  intros Hf Hb. unfold new_in. destruct (p =? NULL) eqn:E; [rewrite andb_false_r; by apply turns_ret|].
  apply Z.eqb_neq in E. destruct (SUCCEEDED hr); [by apply Hb|]. by destruct E; apply Hf.
Qed.

Lemma turns_disown L x Q : Q () L → turns (x :: L) (disown x) Q.
Proof.
  intros HQ s Hs. do 2 eexists. split; [done|]. cbn. rewrite Hs. cbn. rewrite bool_decide_eq_true_2 by done.
  split; [done|]. exists []. by rewrite app_nil_r.
Qed.

Lemma turns_add L n ok d Q : Q () L → turns L (add_result n ok d) Q.
Proof. intros HQ s <-. do 2 eexists. split; [done|]. split; [done|]. by eexists. Qed.

Lemma turns_release L p Q : Q () L → turns (Iface p :: L) (release p) Q.
Proof.
  intros HQ. unfold release. eapply turns_bind; [apply (turns_on _ _ _ (λ _ L', L' = Iface p :: L))|].
  - apply elem_of_cons. by left.
  - done.
  - intros _ L' ->. by apply turns_disown.
Qed.

(** Asking for a name, and freeing it. *)
Definition with_name (b : BSTR) L : list Owned := match b with Some (q, _) => Bstr q :: L | None => L end.

Lemma turns_name L p : Iface p ∈ L → turns L (current_name p) (λ b L', L' = with_name b L).
Proof.
  intros Hp. unfold current_name. eapply turns_bind; [by apply (turns_on L p _ (λ _ L', L' = L))|]. intros b L' ->.
  eapply (turns_bind _ _ _ (λ _ L', L' = with_name b L)); [|by intros _ L' ->; apply turns_ret].
  destruct b as [[q ws]|]; [by apply turns_own|by apply turns_ret].
Qed.

Lemma turns_free b L Q : Q () L → turns (with_name b L) (free_string b) Q.
Proof.
  intros HQ. destruct b as [[q ws]|]; [|by apply turns_ret].
  eapply turns_bind; [by apply (turns_call _ _ (λ _ L', L' = Bstr q :: L))|]. intros _ L' ->. by apply turns_disown.
Qed.

Lemma turns_text b L t Q :
  (∀ text, Q text L) → turns L (match b with Some _ => bstr_to_utf8 b | None => mret t end) Q.
Proof.
  intros HQ. destruct b as [[q ws]|]; [|by apply turns_ret]. unfold bstr_to_utf8, w2u8.
  destruct ws; [by apply turns_ret|by apply turns_call].
Qed.

(** A step of a computation whose first action is known. *)
Ltac turns_step :=
  lazymatch goal with
  | |- turns ?L (add_result _ _ _ ≫= _) _ => eapply (turns_bind L _ _ (λ _ L', L' = L)); [by apply turns_add|intros _ ? ->]
  | |- turns ?L (call _ ≫= _) _ => eapply (turns_bind L _ _ (λ _ L', L' = L)); [by apply turns_call|intros ? ? ->]
  | |- turns ?L (on _ _ ≫= _) _ => eapply (turns_bind L _ _ (λ _ L', L' = L)); [apply turns_on; [set_solver|done]|intros ? ? ->]
  | |- turns ?L (own_new ?p ≫= _) _ =>
      eapply (turns_bind L _ _ (λ _ L', L' = new_in p L)); [by apply turns_own_new|intros _ ? ->]
  | |- turns ?L (current_name _ ≫= _) _ => eapply turns_bind; [apply turns_name; set_solver|intros ? ? ->]
  | |- turns (with_name _ ?L) (free_string _ ≫= _) _ => eapply (turns_bind _ _ _ (λ _ L', L' = L)); [by apply turns_free|intros _ ? ->]
  | |- turns ?L (on_new _ _ ≫= _) _ => eapply turns_bind; [apply turns_on_new; set_solver|intros ? ? ->]
  | |- turns (new_in ?p ?L) ((if ?p =? NULL then _ else _) ≫= _) _ =>
      eapply (turns_bind _ _ _ (λ _ L', L' = L)); [apply turns_checked; intros ?|intros _ ? ->]
  | |- turns (Iface ?p :: _) (release ?p) _ => by apply turns_release
  | |- turns ?L ((match _ with Some _ => bstr_to_utf8 _ | None => _ end) ≫= _) _ =>
      eapply (turns_bind L _ _ (λ _ L', L' = L)); [by apply turns_text|intros ? ? ->]
  end.

Lemma survey_child_turns L p : turns (Iface p :: L) (survey_child p) (λ _ L', L' = L).
Proof. unfold survey_child. repeat turns_step. Qed.

Lemma survey_children_turns L p : turns (Iface p :: L) (survey_children p) (λ _ L', L' = L).
Proof.
  unfold survey_children. do 2 turns_step. eapply (turns_bind _ _ _ (λ _ L', L' = Iface p :: L)); [|by intros _ ? ->; turns_step].
  destruct (_ <? _); [|by apply turns_ret]. do 2 turns_step. apply turns_checked. intros _. apply survey_child_turns.
Qed.

Lemma survey_condition_turns L r c : Iface r ∈ L → turns (Iface c :: L) (survey_condition r c) (λ _ L', L' = L).
Proof.
  intros Hr. unfold survey_condition, on_new.
  eapply (turns_bind _ _ _ (λ a L', L' = new_in a.2 (Iface c :: L) ∧ (SUCCEEDED a.1 = false → a.2 = NULL))).
  { eapply (turns_bind _ _ _ (λ a L', L' = Iface c :: L ∧ (SUCCEEDED a.1 = false → a.2 = NULL))).
    - apply turns_on; [set_solver|]. intros os [hr p] os' E. split; [done|by eapply find_fails].
    - intros a L' [-> Ha]. turns_step. by apply turns_ret. }
  intros a L' [-> Ha]. turns_step. eapply (turns_bind _ _ _ (λ _ L', L' = Iface c :: L)); [|by intros _ ? ->; turns_step].
  apply turns_succeeded; [done|]. intros _. apply survey_children_turns.
Qed.

Lemma survey_root_turns L a r : Iface a ∈ L → turns (Iface r :: L) (survey_root a r) (λ _ L', L' = L).
Proof.
  intros Ha. unfold survey_root. do 6 turns_step. turns_step; [|turns_step]. apply survey_condition_turns. set_solver.
Qed.

Lemma survey_automation_turns L a : turns (Iface a :: L) (survey_automation a) (λ _ L', L' = L).
Proof.
  unfold survey_automation. do 2 turns_step. turns_step; [apply survey_root_turns; set_solver|].
  do 3 turns_step. turns_step; turns_step.
Qed.

End Owned.

(** * A system *)

(** Everything works, and the desktop has a child without a name. *)
#[export] Instance survey_system : System SurveyCall () := {| answer A c os :=
  match c in SurveyCall A return A * () with
  | CoInitializeEx => ((), os)
  | CoCreateInstance => ((0, 1), os)
  | GetRootElement _ => ((0, 2), os)
  | get_CurrentName p => (if p =? 2 then Some (8, [68; 34; 10]) else None, os)
  | SysFreeString _ => ((), os)
  | CreateTrueCondition _ => (3, os)
  | FindAll _ _ => ((0, 4), os)
  | get_Length _ => (1, os)
  | GetElement _ _ => (5, os)
  | GetCurrentPattern _ => ((0x80004002 - 2 ^ 32, NULL), os)
  | GetDesktopWindow => (9, os)
  | ElementFromHandle _ _ => ((0, 2), os)
  | WideCharToMultiByte ws => (foldr (λ w s, String (chr w) s) EmptyString ws, os)
  | Release _ => ((), os)
  | CoUninitialize => ((), os)
  end |}.

#[export] Instance survey_calls : ComCalls ().
Proof. by split; intros; simplify_eq/=. Qed.

Lemma survey_run : length (results (survey_main (survey_start ())).2) = 8%nat.
Proof. vm_compute. reflexivity. Qed.

