(* ===== verification/CliLocal.v ===== *)
(** The commands of the command-line client that it carries out without a
    connection: [discover], over UDP and together with the daemon's answer;
    [config]; the usage text; and how connections are closed. *)

From S2P Require Import Prelude StdMap CString Double Json JsonTotal JsonRoundtrip Types Logger Update Backend.
From S2P Require Import FakeBackend Core CoreProps ServerState Server Main Crypto Threads Daemon Cli.

Local Open Scope Z_scope.

(** * Usage *)

(** [usage]: the lines that it prints; its exit code. *)
Definition usage_lines : list string :=
  ["Usage: wininspect <command> [args] [--tcp host:port] [--pipe name]";
   "Commands:";
   "  discover";
   "  capture";
   "  top [--snapshot s-..]";
   "  info <hwnd> [--snapshot s-..]";
   "  children <hwnd> [--snapshot s-..]";
   "  tree [hwnd] [--snapshot s-..]";
   "  pick <x> <y> [--snapshot s-..]";
   "  highlight <hwnd>";
   "  set-prop <hwnd> <name> <value>";
   "  control-click <hwnd> <x> <y> [button]";
   "  control-send <hwnd> <text>";
   "  get-pixel <x> <y>";
   "  pixel-search <left> <top> <right> <bottom> <r> <g> <b> [variation]";
   "  capture <left> <top> <right> <bottom>";
   "  ps";
   "  kill <pid>";
   "  file-info <path>";
   "  file-read <path>";
   "  find-regex [title_regex] [class_regex]";
   "  reg-read <path>";
   "  reg-write <path> <name> <type> <data>";
   "  reg-delete <path> [name]";
   "  clip-read";
   "  clip-write <text>";
   "  svc-list";
   "  svc-status <name>";
   "  svc-control <name> <start|stop>";
   "  env-get";
   "  env-set <name> <value>";
   "  wine-drives";
   "  wine-overrides";
   "  mutex-check <name>";
   "  mutex-create <name> [own]";
   "  mem-read <pid> <address> <size>";
   "  mem-write <pid> <address> <base64_data>";
   "  image-match <left> <top> <right> <bottom> <base64_bmp>";
   "  input-hook <true|false>";
   "  events-poll <new_snap_id> [old_snap_id] [--wait-ms ms]";
   "  events-subscribe";
   "  events-unsubscribe";
   "  watch";
   "  status";
   "  ensure-visible <hwnd> <true|false>";
   "  ensure-foreground <hwnd>";
   "  post-message <hwnd> <msg> [wparam] [lparam]";
   "  send-input <base64_data>";
   "  ui-inspect <hwnd>";
   "  ui-invoke <hwnd> <automation_id>";
   "  health";
   "  capabilities";
   "  check-update";
   "  update [--type portable|installer]";
   "  config --key <path>"].

Definition usage_code : Z := 2.

(** The commands that the text lists: the first word of each line that is
    indented. *)
Definition first_word (s : string) : string := str_take (String.length s - String.length (skip_while (λ c, negb (isspace c)) s)) s.
Definition usage_names : list string :=
  omap (λ l, if starts_with "  " l then Some (first_word (str_drop 2 l)) else None) usage_lines.

(** * Configuration *)

(** [save_key_path]: what the file holds afterwards. *)
Definition save_key_path (path : string) : option string := Some path.

(** * Connections *)

(** The handles of [Conn]; none stands for the invalid ones. *)
Record Handles := mkHandles { hPipe : option Z; s_socket : option Z; is_tcp : bool }.

(** [Conn::close], with what it closes. *)
Definition close (c : Handles) : list Z * Handles :=
  if is_tcp c then (option_list (s_socket c), mkHandles (hPipe c) None (is_tcp c))
  else (option_list (hPipe c), mkHandles None (s_socket c) (is_tcp c)).

(** * Discovery *)

(** A packet that is sent: address, port and text. *)
Record Datagram := mkDatagram { dg_address : string; dg_port : Z; dg_text : string }.

(** The port is a [u_short]. *)
Definition discover_packets (disc_port : Z) : list Datagram :=
  (λ ip, mkDatagram ip (disc_port mod 2 ^ 16) "WININSPECT_DISCOVER") <$> ["255.255.255.255"; "127.0.0.1"; "0.0.0.0"].

(** What is printed for a packet that arrives: nothing when it is empty or does
    not fit the buffer, and else its bytes up to the first that is zero. *)
Definition discover_line (ip text : string) : string :=
  let n := Z.of_nat (String.length text) in
  if (0 <? n) && (n <=? 1023) then "[" +:+ ip +:+ "] " +:+ take_while (λ c, negb (ascii_eqb c nul)) text +:+ String (chr 10) EmptyString
  else EmptyString.

(** The output, for the packets that arrive before [select] has waited in
    vain. *)
Definition discover_output (disc_port : Z) (arrivals : list (string * string)) : string :=
  "Scanning for WinInspect daemons on port " +:+ Z_to_string disc_port +:+ "..." +:+ String (chr 10) EmptyString
  +:+ foldr (λ a r, discover_line a.1 a.2 +:+ r) EmptyString arrivals.

(** * Properties *)

Lemma find_command_names name l : is_Some (find_command name l) ↔ name ∈ l.*1.
Proof.
  induction l as [|[n c] l IH]; cbn [find_command fmap list_fmap]; [by split; [intros [? ?]|intros ?%elem_of_nil]|].
  rewrite elem_of_cons. case_bool_decide; [by split; eauto|]. rewrite IH. naive_solver.
Qed.

(** The usage text lists exactly the commands that the client carries out. *)
Theorem usage_complete name : is_Some (find_command name commands) ↔ name ∈ usage_names.
Proof.
  rewrite find_command_names. assert (Forall (λ n, n ∈ usage_names) commands.*1) as H1 by (apply (bool_decide_eq_true_1 _); by vm_compute).
  assert (Forall (λ n, n ∈ commands.*1) usage_names) as H2 by (apply (bool_decide_eq_true_1 _); by vm_compute).
  rewrite list.Forall_forall in H1, H2. split; auto.
Qed.

(** The path that [config --key] saves is the one that the next command loads,
    if it is one line. *)
Theorem key_path_roundtrip path : lacks (chr 10) path → load_key_path (save_key_path path) = path.
Proof.
  intros Hp. unfold load_key_path, save_key_path, getlines. rewrite split_on_lacks by done. by destruct path.
Qed.

(** Closing twice closes once. *)
Theorem close_once c : (close (close c).2).1 = [].
Proof. by destruct c as [? ? []]. Qed.

(** ** No text has a zero byte *)

Lemma lacks_app d s t : lacks d (s +:+ t) ↔ lacks d s ∧ lacks d t.
Proof. induction s as [|c s IH]; [naive_solver|]. rewrite str_app_cons. cbn [lacks]. rewrite IH. tauto. Qed.

Lemma dump_char_lacks c : lacks nul (dump_char c).
Proof. by destruct c as [[] [] [] [] [] [] [] []]; vm_compute. Qed.

Lemma dump_string_lacks s : lacks nul (dump_string s).
Proof.
  unfold dump_string. cbn [lacks]. split; [done|]. rewrite lacks_app. split; [|done].
  induction s as [|c s IH]; [done|]. cbn [dump_chars]. rewrite lacks_app. split; [apply dump_char_lacks|done].
Qed.

Lemma print_go_lacks f n acc : 0 ≤ n → lacks nul acc → lacks nul (print_base_go f 10 n acc).
Proof.
  revert n acc. induction f as [|f IH]; intros n acc Hn Ha; [done|]. cbn [print_base_go].
  assert (lacks nul (String (digit_char (n mod 10)) acc)) as Ha'.
  { split; [|done]. pose proof (Z.mod_pos_bound n 10 ltac:(lia)) as Hd. revert Hd. generalize (n mod 10) as d. intros d Hd.
    enum_lt 10 d; done. }
  destruct (n <? 10); [done|]. apply IH; [apply Z.div_pos; lia|done].
Qed.

Lemma dump_lacks v : nums_exact v → lacks nul (dump v).
Proof.
  induction v as [|b|d|s|a IH|o IH] using Value_ind'; intros Hv; cbn [dump].
  - by vm_compute.
  - by destruct b; vm_compute.
  - destruct Hv as (z & Hz & ->). rewrite dump_number_Z, Z_to_string_abs, lacks_app by done. split; [by destruct (z <? 0); vm_compute|].
    apply print_go_lacks; [lia|done].
  - apply dump_string_lacks.
  - apply nums_exact_arr in Hv. split; [done|]. generalize true as first.
    induction a as [|v a IHa]; intros first; [done|]. inversion_clear IH as [|? ? Hd IH']. inversion_clear Hv as [|? ? Hn Hv'].
    cbn [dump_arr_go]. rewrite !lacks_app. split_and!; [by destruct first|auto|auto].
  - apply nums_exact_obj in Hv. split; [done|]. generalize true as first.
    induction o as [|[k v] o IHo]; intros first; [done|]. inversion_clear IH as [|? ? Hd IH']. inversion_clear Hv as [|? ? Hn Hv'].
    cbn [dump_obj_go fst snd] in *. rewrite !lacks_app. split_and!; [by destruct first|apply dump_string_lacks|done|auto|auto].
Qed.

Lemma until_zero s : lacks nul s → take_while (λ c, negb (ascii_eqb c nul)) s = s.
Proof.
  induction s as [|c s IH]; [done|]. intros [Hc Hs]. cbn [take_while]. rewrite ascii_eqb_ne by done. cbn. by rewrite IH.
Qed.

Lemma discover_output_in disc_port before a after :
  ∃ l r, discover_output disc_port (before ++ a :: after) = l +:+ discover_line a.1 a.2 +:+ r.
Proof.
  unfold discover_output. rewrite foldr_app. cbn [foldr]. set (r := foldr _ EmptyString after).
  assert (∀ rest, ∃ l, foldr (λ a r, discover_line a.1 a.2 +:+ r) rest before = l +:+ rest) as Hb.
  { intros rest. induction before as [|b before [l IH]]; [by exists EmptyString|]. cbn [foldr]. rewrite IH.
    exists (discover_line b.1 b.2 +:+ l). by rewrite str_app_assoc. }
  destruct (Hb (discover_line a.1 a.2 +:+ r)) as [l ->].
  exists ("Scanning for WinInspect daemons on port " +:+ Z_to_string disc_port +:+ "..." +:+ String (chr 10) EmptyString +:+ l), r.
  by rewrite !str_app_assoc.
Qed.

(** ** The daemon answers *)

Section Discovery.
Context {B : Type} `{IBackend B} `{Clock} `{Watchdog} (o : Options).

(** C24: [discover] and the daemon agree. Every packet that the client sends
    carries the text that the daemon answers to; the daemon's answer is an
    announcement with its TCP port, the name of its pipe and its system, which
    reads back as JSON; and unless it is longer than the 1023 bytes that the
    client has room for, the client prints exactly that text after the address
    that it came from, however many other packets arrive. *)
Theorem discover_finds_daemon disc_port hostname (w : World B) env b' os is_wine ip before after :
  get_env_metadata (w_backend w) = (Ok env, b') → map_find "os" env = Some (JStr os) →
  map_find "is_wine" env = Some (JBool is_wine) → Z.abs (o_int o tcp_port) < 2 ^ 53 →
  Forall (λ p, dg_port p = disc_port mod 2 ^ 16 ∧
    ∃ out w' a, discovery_reply o hostname (dg_text p) w = (Ok (Some out), w')
      ∧ json_parse out = Ok (JObj a)
      ∧ map_find "type" a = Some (JStr "announcement") ∧ map_find "port" a = Some (num (o_int o tcp_port))
      ∧ map_find "pipe_name" a = Some (JStr (after_backslash (o_pipe_name o))) ∧ map_find "os" a = Some (JStr os)
      ∧ (Z.of_nat (String.length out) ≤ 1023 →
         ∃ l r, discover_output disc_port (before ++ (ip, out) :: after)
                = l +:+ ("[" +:+ ip +:+ "] " +:+ out +:+ String (chr 10) EmptyString) +:+ r))
    (discover_packets disc_port).
Proof.
  intros Ee Eo Ew Hp. apply list.Forall_forall. intros p (i & -> & _)%list_elem_of_fmap. cbn [dg_port dg_text]. split; [done|].
  unfold discovery_reply, mbind, M_bind.
  destruct (LOG_eq DEBUG ("Discovery packet received: WININSPECT_DISCOVER") w) as (w1 & E1 & Hb).
  change ("Discovery packet received: " +:+ "WININSPECT_DISCOVER") with "Discovery packet received: WININSPECT_DISCOVER".
  rewrite E1. change (bool_decide ("WININSPECT_DISCOVER" = "WININSPECT_DISCOVER")) with true. cbv iota.
  unfold backend, zoom. unfold same_backend in Hb. rewrite <-Hb, Ee.
  unfold announcement, lift_result, obj_at. change (negb (bool_decide ("WININSPECT_DISCOVER" = "WININSPECT_DISCOVER"))) with false.
  cbv iota. rewrite Eo, Ew. cbn [or_throw mbind result_bind as_str as_bool].
  match goal with |- context [dumps (obj ?l)] => set (fields := l) end.
  assert (value_ok (obj fields) ∧ nums_exact (obj fields)) as [Hv Hn].
  { unfold fields. destruct (o_include_hostname o); (split; [split; [apply map_of_ok|]|]);
      repeat first [exact I | split]; by exists (o_int o tcp_port). }
  exists (dumps (obj fields)), (set_backend b' w1), (map_of fields). split; [done|].
  split; [by apply json_parse_dumps|]. do 4 (split; [by unfold fields; destruct (o_include_hostname o)|]).
  intros Hlen. destruct (discover_output_in disc_port before (ip, dumps (obj fields)) after) as (l & r & ->).
  exists l, r. do 2 f_equal. unfold discover_line. cbn [fst snd]. rewrite (proj2 (Z.leb_le _ _) Hlen).
  rewrite (proj2 (Z.ltb_lt 0 _)) by (change (dumps (obj fields)) with (String "{" (dump_obj_go dump true (map_of fields))); cbn; lia).
  cbn [andb]. by rewrite until_zero by by apply dump_lacks.
Qed.
End Discovery.

(** A daemon with the fake backend answers, and its answer is printed among
    others. *)
Example discover_finds_daemon_witness :
  ∃ out w' a, discovery_reply (H0 := test_clock) Options_default "host" "WININSPECT_DISCOVER" test_world = (Ok (Some out), w')
    ∧ json_parse out = Ok (JObj a) ∧ map_find "port" a = Some (num 1985)
    ∧ (Z.of_nat (String.length out) ≤ 1023 →
         ∃ l r, discover_output 1986 ([] ++ ("10.0.0.7", out) :: [("10.0.0.8", "x")])
                = l +:+ ("[" +:+ "10.0.0.7" +:+ "] " +:+ out +:+ String (chr 10) EmptyString) +:+ r).
Proof.
  pose proof (discover_finds_daemon (H0 := test_clock) Options_default 1986 "host" test_world _ _ _ _ "10.0.0.7" [] [("10.0.0.8", "x")]
                eq_refl eq_refl eq_refl ltac:(done)) as Hd.
  apply Forall_inv in Hd. destruct Hd as (_ & out & w' & a & E & Hp & _ & Hport & _ & _ & Hl).
  exists out, w', a. split_and!; [exact E|exact Hp|exact Hport|exact Hl].
Defined.
