(* ===== verification/Sending.v ===== *)
(** The other half of [daemon/src/pipe_win32.cpp] and of the socket helpers of
    [daemon/src/tcp_server.cpp]: writing a message to a peer that takes bytes in
    pieces of any size, and may stop taking them. *)

From S2P Require Import Prelude CString Framing.

Local Open Scope Z_scope.

(** * Model *)

(** [write_all], given how many bytes each call takes of those that are offered;
    a call that takes none, or that fails, ends the loop. Also what has been
    written. *)
Fixpoint write_all (takes : list Z) (buf : string) : bool * string * list Z :=
  match buf, takes with
  | EmptyString, _ => (true, EmptyString, takes)
  | _, [] => (false, EmptyString, [])
  | _, k :: takes =>
      if k <=? 0 then (false, EmptyString, takes) else
      let n := Z.to_nat (Z.min k (Z.of_nat (String.length buf))) in
      let '(ok, written, rest) := write_all takes (str_drop n buf) in
      (ok, str_take n buf +:+ written, rest)
  end.

(** The socket helpers are the same loops, over [recv] and [send]. *)
Definition socket_read_all : nat → stream → option (string * stream) := read_all.
Definition socket_write_all : list Z → string → bool * string * list Z := write_all.

(** [pipe_write_message]: the length, and then the text if that worked. *)
Definition pipe_write_message (takes : list Z) (json : string) : bool * string :=
  let len := Z.of_nat (String.length json) mod 2 ^ 32 in
  let '(ok, written, takes) := write_all takes (le32 len) in
  if negb ok then (false, written) else
  let '(ok, written', _) := write_all takes (str_take (Z.to_nat len) json) in
  (ok, written +:+ written').

(** * Properties *)

(** What has been written is the start of what was to be written, and all of it
    when the loop says so. *)
Lemma write_all_prefix takes buf :
  let '(ok, written, _) := write_all takes buf in
  ∃ rest, buf = written +:+ rest ∧ (ok = true ↔ rest = EmptyString).
Proof.
  revert buf. induction takes as [|k takes IH]; intros buf; destruct buf as [|c buf]; cbn [write_all].
  - by exists EmptyString.
  - by exists (String c buf).
  - by exists EmptyString.
  - destruct (k <=? 0); [by exists (String c buf)|].
    set (n := Z.to_nat (Z.min k (Z.of_nat (String.length (String c buf))))).
    specialize (IH (str_drop n (String c buf))). destruct (write_all takes _) as [[ok written] rest'].
    destruct IH as (rest & E & Hok). exists rest. split; [|done].
    by rewrite str_app_assoc, <-E, str_take_drop.
Qed.

(** A peer that goes on taking bytes gets all of them. *)
Lemma write_all_complete takes buf :
  Forall (λ k, 0 < k) takes → (String.length buf ≤ length takes)%nat → (write_all takes buf).1.1 = true.
Proof.
  intros Hk. revert buf. induction Hk as [|k takes Hk _ IH]; intros buf Hl; destruct buf as [|c buf]; cbn [write_all]; try done.
  - cbn in Hl. lia.
  - rewrite (proj2 (Z.leb_gt k 0)) by lia.
    set (n := Z.to_nat (Z.min k (Z.of_nat (String.length (String c buf))))).
    specialize (IH (str_drop n (String c buf))). destruct (write_all takes _) as [[ok written] rest'].
    apply IH. rewrite str_drop_length. assert (1 ≤ n)%nat by (unfold n; cbn [String.length]; lia). cbn [length String.length] in *. lia.
Qed.

Lemma pipe_write_prefix takes json :
  ∃ rest, write_message json = (pipe_write_message takes json).2 +:+ rest
          ∧ ((pipe_write_message takes json).1 = true ↔ rest = EmptyString).
Proof.
  unfold pipe_write_message, write_message. cbv zeta. set (len := Z.of_nat (String.length json) mod 2 ^ 32).
  pose proof (write_all_prefix takes (le32 len)) as H1. destruct (write_all takes (le32 len)) as [[ok w] takes'].
  destruct H1 as (r1 & E1 & Hok). rewrite E1. destruct ok; cbn [negb].
  - rewrite (proj1 Hok eq_refl), str_app_nil_r in *.
    pose proof (write_all_prefix takes' (str_take (Z.to_nat len) json)) as H2.
    destruct (write_all takes' _) as [[ok' w'] takes'']. destruct H2 as (r2 & -> & Hok'). exists r2. cbn [fst snd]. by rewrite str_app_assoc.
  - exists (r1 +:+ str_take (Z.to_nat len) json). cbn [fst snd]. rewrite str_app_assoc. split; [done|]. split; [done|].
    intros E. apply Hok. by destruct r1.
Qed.

(** What a reader that gets a message has read. *)
Lemma pipe_read_inv s got s' :
  stream_ok s → pipe_read_message s = Some (got, s') →
  ∃ hdr, String.length hdr = 4%nat ∧ bytes s = hdr +:+ got +:+ bytes s' ∧ String.length got = Z.to_nat (un_le32 hdr).
Proof.
  intros Hs. unfold pipe_read_message, read_all. pose proof (read_all_loop_spec 4 4 EmptyString s Hs ltac:(lia)) as H1.
  destruct (read_all_loop 4 4 EmptyString s) as [[hdr s1]|]; [|done]. destruct H1 as (g1 & -> & Hl1 & Hb1 & Hs1).
  cbn [mbind option_bind]. rewrite str_app_nil_l. set (n := Z.to_nat (un_le32 g1)).
  pose proof (read_all_loop_spec n n EmptyString s1 Hs1 ltac:(lia)) as H2.
  destruct (read_all_loop n n EmptyString s1) as [[out s2]|]; [|done]. destruct H2 as (g2 & -> & Hl2 & Hb2 & Hs2).
  rewrite str_app_nil_l. intros [= <- <-]. exists g1. split_and!; [done|by rewrite Hb1, Hb2|done].
Qed.

(** C16: Writing a message and reading it at the other end, over a connection that
    takes and delivers bytes in pieces of any size and may break at any point.
    What the writer has put on the wire is always the start of the message's
    frame, and all of it exactly when the writer reports success; so the reader
    gets the very message in that case, and in the other either it or, as the
    frame is cut short, nothing: never another text. *)
Theorem message_whole_or_nothing takes json s :
  Z.of_nat (String.length json) < 2 ^ 32 → stream_ok s → bytes s = (pipe_write_message takes json).2 →
  ((pipe_write_message takes json).1 = true → ∃ s', pipe_read_message s = Some (json, s'))
  ∧ (∀ got s', pipe_read_message s = Some (got, s') → got = json ∧ (pipe_write_message takes json).1 = true).
Proof.
  intros Hl Hs Hb. destruct (pipe_write_prefix takes json) as (rest & E & Hok). rewrite <-Hb in E. split.
  - intros Ht. rewrite (proj1 Hok Ht) in E.
    destruct (pipe_read_bytes s json EmptyString Hs Hl) as (s' & Er & _); [by rewrite E, !str_app_nil_r|]. by exists s'.
  - intros got s' Er. destruct (pipe_read_inv s got s' Hs Er) as (hdr & Hh & Hbytes & Hgot).
    rewrite write_message_small in E by done. rewrite Hbytes, !str_app_assoc in E.
    apply str_app_inj in E as [<- E]; [|by rewrite Hh]. rewrite un_le32_le32, Nat2Z.id in Hgot by lia.
    assert (bytes s' +:+ rest = EmptyString) as Hnil.
    { apply str_length_zero. apply (f_equal String.length) in E. rewrite !str_length_app in E. rewrite str_length_app. lia. }
    rewrite Hnil, str_app_nil_r in E. split; [done|]. apply Hok. by destruct (bytes s').
Qed.

(** The peer takes three bytes at a time and the reader gets them in two
    pieces; a peer that stops after five bytes leaves the reader without a
    message. *)
Example message_whole_or_nothing_witness :
  (∃ s', pipe_read_message [str_take 5 (write_message "hello"); str_drop 5 (write_message "hello")] = Some ("hello", s'))
  ∧ (∀ got s', pipe_read_message [str_take 5 (write_message "hello")] = Some (got, s') →
       got = "hello" ∧ (pipe_write_message [5; 1; 0] "hello").1 = true).
Proof.
  split.
  - apply (message_whole_or_nothing [3; 3; 3; 3] "hello"); [by vm_compute|repeat constructor; by vm_compute|by vm_compute|by vm_compute].
  - apply (message_whole_or_nothing [5; 1; 0] "hello"); [by vm_compute|repeat constructor; by vm_compute|by vm_compute].
Defined.
