(* ===== verification/CryptoHandles.v ===== *)
(** [CryptoSession] of [core/src/crypto.cpp] as an owner of handles: what it
    opens while it agrees on a key, and what its destructor closes. *)

From S2P Require Import Prelude Types.

Local Open Scope Z_scope.

(** * Model *)

(** A null handle. *)
Definition null : Z := 0.

(** The calls that make a handle. *)
Inductive CngMake :=
  | OpenECDH
  | GenerateKeyPair (hAlg : Z)
  | ImportKeyPair (hAlg : Z) (blob : list Z)
  | SecretAgreement (hLocal hRemote : Z)
  | OpenAES
  | GenerateSymmetricKey (hAlg : Z) (key : list Z).

(** Those return it, or nothing when they fail; and the other calls. *)
Inductive CngCall : Type → Type :=
  | Make (m : CngMake) : CngCall (option Z)
  | FinalizeKeyPair (hKey : Z) : CngCall bool
  | ExportKey (hKey : Z) : CngCall (list Z)
  | DeriveKey (hSecret : Z) : CngCall (option (list Z))
  | SetGCM (hAlg : Z) : CngCall bool
  | Destroy (h : Z) : CngCall ().

(** [BCryptState], [initialized_], the handles that are open, and the system. *)
Record Cng (OS : Type) := mkCng {
  hAlgECDH : Z; hLocalKey : Z; hAlgAES : Z; hSessionKey : Z;
  initialized : bool; open_handles : list Z; cng_os : OS }.
Arguments mkCng {OS} _ _ _ _ _ _ _.
Arguments hAlgECDH {OS} _.
Arguments hLocalKey {OS} _.
Arguments hAlgAES {OS} _.
Arguments hSessionKey {OS} _.
Arguments initialized {OS} _.
Arguments open_handles {OS} _.
Arguments cng_os {OS} _.

Section Cng.
Context {OS : Type} `{System CngCall OS}.
Implicit Types (s : Cng OS).

Abbreviation Act := (M (Cng OS)).

Definition call {A} (c : CngCall A) : Act A := λ s,
  let '(a, os) := answer c (cng_os s) in
  (Ok a, mkCng (hAlgECDH s) (hLocalKey s) (hAlgAES s) (hSessionKey s) (initialized s) (open_handles s) os).

Definition set_open (l : list Z) s : Cng OS :=
  mkCng (hAlgECDH s) (hLocalKey s) (hAlgAES s) (hSessionKey s) (initialized s) l (cng_os s).

(** A call that makes a handle. *)
Definition make (c : CngMake) : Act (option Z) :=
  r ← call (Make c);
  _ ← match r with Some h => modify (λ s, set_open (h :: open_handles s) s) | None => mret () end;
  mret r.

(** Closing a handle; closing one that is not open has no defined result. *)
Definition close (h : Z) : Act () := λ s,
  if bool_decide (h ∈ open_handles s) then
    (_ ← modify (λ s, set_open (remove_one h (open_handles s)) s); call (Destroy h)) s
  else (Undef, s).

(** [if (h) BCryptDestroyKey(h)]. *)
Definition close_if (h : Z) : Act () := if h =? null then mret () else close h.

(** The constructor. *)
Definition CryptoSession_handles (os : OS) : Cng OS := mkCng null null null null false [] os.

(** The destructor; the state itself is deleted. *)
Definition destroy : Act () :=
  h ← gets hSessionKey; _ ← close_if h;
  h ← gets hAlgAES; _ ← close_if h;
  h ← gets hLocalKey; _ ← close_if h;
  h ← gets hAlgECDH; close_if h.

Definition generate_local_key : Act (list Z) :=
  r ← make OpenECDH;
  match r with
  | None => mret []
  | Some alg =>
      _ ← modify (λ s, mkCng alg (hLocalKey s) (hAlgAES s) (hSessionKey s) (initialized s) (open_handles s) (cng_os s));
      r ← make (GenerateKeyPair alg);
      match r with
      | None => mret []
      | Some key =>
          _ ← modify (λ s, mkCng (hAlgECDH s) key (hAlgAES s) (hSessionKey s) (initialized s) (open_handles s) (cng_os s));
          ok ← call (FinalizeKeyPair key);
          if negb ok then mret [] else call (ExportKey key)
      end
  end.

Definition compute_shared_secret (remote_pubkey : list Z) : Act bool :=
  alg ← gets hAlgECDH;
  r ← make (ImportKeyPair alg remote_pubkey);
  match r with
  | None => mret false
  | Some hRemoteKey =>
      local ← gets hLocalKey;
      r ← make (SecretAgreement local hRemoteKey);
      match r with
      | None => _ ← close hRemoteKey; mret false
      | Some hSecret =>
          r ← call (DeriveKey hSecret);
          match r with
          | None => _ ← close hSecret; _ ← close hRemoteKey; mret false
          | Some derived =>
              _ ← close hSecret; _ ← close hRemoteKey;
              r ← make OpenAES;
              match r with
              | None => mret false
              | Some aes =>
                  _ ← modify (λ s, mkCng (hAlgECDH s) (hLocalKey s) aes (hSessionKey s) (initialized s) (open_handles s) (cng_os s));
                  ok ← call (SetGCM aes);
                  if negb ok then mret false else
                  r ← make (GenerateSymmetricKey aes derived);
                  match r with
                  | None => mret false
                  | Some key =>
                      _ ← modify (λ s, mkCng (hAlgECDH s) (hLocalKey s) (hAlgAES s) key true (open_handles s) (cng_os s));
                      mret true
                  end
              end
          end
      end
  end.

(** The life of a session of the TCP server: a key of its own, the peer's key
    unless it sent none, and the end. *)
Definition session_life (remote_pubkey : option (list Z)) : Act (option bool) :=
  _ ← generate_local_key;
  r ← match remote_pubkey with Some pk => ok ← compute_shared_secret pk; mret (Some ok) | None => mret None end;
  _ ← destroy;
  mret r.

(** * Properties *)

(** Handles that are made are not null. *)
Definition handles_valid : Prop :=
  ∀ c os h os', answer (Make c) os = (Some h, os') → h ≠ null.

(** The fields that hold a handle. *)
Definition held (h : Z) : list Z := if h =? null then [] else [h].
Definition fields s : list Z := held (hSessionKey s) ++ held (hAlgAES s) ++ held (hLocalKey s) ++ held (hAlgECDH s).

Lemma held_made h : h ≠ null → held h = [h].
Proof. intros Hh. unfold held. by rewrite (proj2 (Z.eqb_neq h null) Hh). Qed.

(** [m] ends normally, in a state that [Q] holds of. *)
Definition ends_in {A} (m : Act A) s (Q : A → Cng OS → Prop) : Prop := ∃ a s', m s = (Ok a, s') ∧ Q a s'.

Lemma ends_in_bind {A B} (m : Act A) (f : A → Act B) s Q :
  ends_in m s (λ a s', ends_in (f a) s' Q) → ends_in (m ≫= f) s Q.
Proof. intros (a & s1 & E & b & s2 & E2 & HQ). exists b, s2. split; [|done]. unfold mbind, M_bind. by rewrite E. Qed.

(** The state with other handles open, and another system. *)
Definition at_ s (l : list Z) (os : OS) : Cng OS :=
  mkCng (hAlgECDH s) (hLocalKey s) (hAlgAES s) (hSessionKey s) (initialized s) l os.

Lemma call_ends {A} (c : CngCall A) s (Q : A → Cng OS → Prop) :
  (∀ a os, Q a (at_ s (open_handles s) os)) → ends_in (call c) s Q.
Proof. intros HQ. unfold ends_in, call. destruct (answer c (cng_os s)) as [a os]. exists a. eexists. split; [done|]. apply HQ. Qed.

Lemma make_ends (c : CngMake) s (Q : option Z → Cng OS → Prop) :
  handles_valid →
  (∀ os, Q None (at_ s (open_handles s) os)) → (∀ h os, h ≠ null → Q (Some h) (at_ s (h :: open_handles s) os)) →
  ends_in (make c) s Q.
Proof.
  intros Hv Hn Hs. unfold make, ends_in, mbind, M_bind, call.
  destruct (answer (Make c) (cng_os s)) as [[h|] os] eqn:E; do 2 eexists; (split; [done|]); [|apply Hn].
  apply Hs. by eapply Hv.
Qed.

Lemma close_ends h l s (Q : () → Cng OS → Prop) :
  open_handles s = h :: l → (∀ os, Q () (at_ s l os)) → ends_in (close h) s Q.
Proof.
  intros Ho HQ. unfold ends_in, close. rewrite Ho, bool_decide_eq_true_2 by (apply elem_of_cons; by left).
  unfold mbind, M_bind, modify, call. destruct (answer (Destroy h) _) as [[] os] eqn:E.
  do 2 eexists. split; [done|]. cbn. rewrite Ho. cbn. rewrite bool_decide_eq_true_2 by done. apply HQ.
Qed.

Lemma ret_ends {A} (a : A) s (Q : A → Cng OS → Prop) : Q a s → ends_in (mret a) s Q.
Proof. intros HQ. by exists a, s. Qed.
Lemma modify_ends f s (Q : () → Cng OS → Prop) : Q () (f s) → ends_in (modify f) s Q.
Proof. intros HQ. by exists (), (f s). Qed.
Lemma gets_ends {A} (f : Cng OS → A) s (Q : A → Cng OS → Prop) : Q (f s) s → ends_in (gets f) s Q.
Proof. intros HQ. by exists (f s), s. Qed.

Lemma close_if_ends h l s (Q : () → Cng OS → Prop) :
  open_handles s = held h ++ l → (∀ os, Q () (at_ s l os)) → ends_in (close_if h) s Q.
Proof.
  intros Ho HQ. unfold close_if. unfold held in Ho. destruct (h =? null) eqn:E.
  - apply ret_ends. specialize (HQ (cng_os s)). cbn in Ho. subst l. by destruct s.
  - by apply (close_ends h l).
Qed.

(** The destructor closes what the fields hold. *)
Lemma destroy_ends s : open_handles s = fields s → ends_in destroy s (λ _ s', open_handles s' = []).
Proof.
  intros Ho. unfold fields in Ho. unfold destroy.
  apply ends_in_bind, gets_ends, ends_in_bind. apply (close_if_ends _ _ _ _ Ho). intros os1.
  apply ends_in_bind, gets_ends, ends_in_bind. eapply close_if_ends; [done|]. intros os2.
  apply ends_in_bind, gets_ends, ends_in_bind. eapply close_if_ends; [done|]. intros os3.
  apply ends_in_bind, gets_ends. eapply (close_if_ends _ []); [by rewrite app_nil_r|]. done.
Qed.

(** After the first half of the agreement. *)
Definition half s : Prop := open_handles s = fields s ∧ hAlgAES s = null ∧ hSessionKey s = null.

Ltac keep_nonnull := unfold fields; cbn; rewrite ?held_made by done; done.

Lemma generate_ends os : handles_valid → ends_in generate_local_key (CryptoSession_handles os) (λ _ s', half s').
Proof.
  intros Hv. unfold generate_local_key, half. apply ends_in_bind, make_ends; [done|by intros; apply ret_ends|]. intros alg os1 Ha.
  apply ends_in_bind, modify_ends, ends_in_bind, make_ends; [done|intros; apply ret_ends|intros key os2 Hk].
  { split_and!; [|done|done]. keep_nonnull. }
  apply ends_in_bind, modify_ends, ends_in_bind, call_ends. intros ok os3.
  destruct ok; cbn [negb]; [apply call_ends; intros blob os4|apply ret_ends]; (split_and!; [|done|done]); keep_nonnull.
Qed.

(** The peer's key and the secret do not outlive the call. *)
Lemma compute_ends pk s :
  handles_valid → half s → ends_in (compute_shared_secret pk) s (λ _ s', open_handles s' = fields s').
Proof.
  intros Hv (Ho & Ha & Hs). unfold compute_shared_secret. apply ends_in_bind, gets_ends.
  apply ends_in_bind, make_ends; [done|by intros; apply ret_ends|]. intros remote os1 Hr.
  apply ends_in_bind, gets_ends. apply ends_in_bind, make_ends; [done|intros os2|intros secret os2 Hse].
  { apply ends_in_bind. eapply close_ends; [done|]. by intros; apply ret_ends. }
  apply ends_in_bind, call_ends. intros derived os3. destruct derived as [derived|].
  2:{ apply ends_in_bind. eapply close_ends; [done|]. intros. apply ends_in_bind. eapply close_ends; [done|]. by intros; apply ret_ends. }
  apply ends_in_bind. eapply close_ends; [done|]. intros os4. apply ends_in_bind. eapply close_ends; [done|]. intros os5.
  apply ends_in_bind, make_ends; [done|by intros; apply ret_ends|]. intros aes os6 Haes. apply ends_in_bind, modify_ends.
  unfold fields in Ho. rewrite Ha, Hs in Ho. cbn in Ho.
  apply ends_in_bind, call_ends. intros ok os7. destruct ok; cbn [negb].
  2:{ apply ret_ends. cbn. rewrite Ho. unfold fields. cbn. rewrite Hs, (held_made aes) by done. done. }
  apply ends_in_bind, make_ends; [done|intros os8|intros key os8 Hk].
  { apply ret_ends. cbn. rewrite Ho. unfold fields. cbn. rewrite Hs, (held_made aes) by done. done. }
  apply ends_in_bind, modify_ends, ret_ends. cbn. rewrite Ho. unfold fields. cbn. by rewrite (held_made key), (held_made aes) by done.
Qed.

(** C22: A session of the TCP server never uses or closes a handle that is not
    open, and leaves none open, on every path: whichever of the calls fail,
    whether or not the peer sends a key, all handles that were made have been
    closed once the session is destroyed. *)
Theorem session_handles_closed remote_pubkey os :
  handles_valid → ∃ r s', session_life remote_pubkey (CryptoSession_handles os) = (Ok r, s') ∧ open_handles s' = [].
Proof.
  intros Hv. change (ends_in (session_life remote_pubkey) (CryptoSession_handles os) (λ _ s', open_handles s' = [])).
  unfold session_life. apply ends_in_bind. destruct (generate_ends os Hv) as (blob & s1 & E1 & Hh). exists blob, s1. split; [done|].
  apply ends_in_bind. destruct remote_pubkey as [pk|].
  - apply ends_in_bind. destruct (compute_ends pk s1 Hv Hh) as (ok & s2 & E2 & Ho). exists ok, s2. split; [done|].
    apply ret_ends, ends_in_bind. destruct (destroy_ends s2 Ho) as (u & s3 & E3 & Hd). exists u, s3. split; [done|]. by apply ret_ends.
  - apply ret_ends, ends_in_bind. destruct (destroy_ends s1 (proj1 Hh)) as (u & s3 & E3 & Hd). exists u, s3. split; [done|]. by apply ret_ends.
Qed.
End Cng.

(** * A system *)

(** It numbers its handles. *)
Definition counting_cng : System CngCall Z := {| answer A c n :=
  match c in CngCall A return A * Z with
  | Make _ => (Some (Z.abs n + 1), Z.abs n + 1)
  | FinalizeKeyPair _ => (true, n)
  | ExportKey _ => ([1; 2; 3], n)
  | DeriveKey _ => (Some [7], n)
  | SetGCM _ => (true, n)
  | Destroy _ => ((), n)
  end |}.
#[local] Existing Instance counting_cng.

Lemma counting_valid : handles_valid (OS := Z).
Proof. intros c n h n' [= <- _]. unfold null. lia. Qed.

Example session_handles_closed_witness :
  ∃ r s', session_life (Some [4]) (CryptoSession_handles 0) = (Ok r, s') ∧ open_handles s' = [].
Proof. exact (session_handles_closed (Some [4]) 0 counting_valid). Defined.

(** Six handles were made in that run. *)
Example session_life_runs : (session_life (Some [4]) (CryptoSession_handles 0)).1 = Ok (Some true)
  ∧ cng_os (session_life (Some [4]) (CryptoSession_handles 0)).2 = 6.
Proof. by vm_compute. Qed.
